(** * Phase-to-phase distance calculation: clearance engine

    A shallow embedding of the clearance calculations of
    [calculations.py], [calculations-copy.py] and
    [wind_calculations_new.py], with the properties of the calculation
    core stated and proved over it.

    Numbers are IEEE-754 binary64 values (Rocq's primitive floats, the
    same format as Python's [float] and numpy's [float64]).  A sheet is
    a data frame: a row count and named columns of cells, each column
    with its dtype.  A cell is either a number (an empty cell, [None]
    or NaN, is the number [nan], which is how pandas treats all three)
    or a piece of text.  A column is of dtype float64, or of dtype
    object: its cells are Python objects held by reference.  Every
    column of the frame that [process_workbook] builds from a
    worksheet, [pd.DataFrame(ws.values)] with the header row among the
    values, is of object dtype, also when all its cells below the
    header are numbers.  Python exceptions are values of an error
    monad.

    The pandas and numpy operations that the scripts call are taken by
    their documented behaviour on these values (pandas 2.1 or later):
    element-wise arithmetic, which keeps object dtype; [max(axis=1)]
    and [idxmin], which skip NaN and accept object columns;
    [first_valid_index]; [TypeError] where a number meets text; and
    [np.sqrt], which has no loop for object dtype and raises
    [TypeError] on every element of an object column, numbers
    included.

    Text is a string of 8-bit characters.  Names of columns, sheets and
    files are compared as they stand; where a pattern is matched
    against a name, the model is that of Python's [re] on ASCII text:
    there [\d] is one of 0-9 and [re.IGNORECASE] pairs A-Z with a-z.
    (On other text Python's [\d] and [int] also accept the decimal
    digits of other scripts, and [re.IGNORECASE] pairs a few more
    characters; statements about names that are refused say that the
    name is ASCII.) *)

From Stdlib Require Import ZArith List String Ascii Bool Lia Floats.
From Stdlib Require Import DecimalString.
From Stdlib Require DecimalPos DecimalZ.
Import ListNotations.

Set Warnings "-inexact-float".
Open Scope string_scope.

(** ** Exceptions *)

Inductive exn : Type :=
| KeyError (msg : string)
| TypeError
| ValueError (msg : string)
| FileNotFoundError (msg : string).

Inductive result (A : Type) : Type :=
| Ok (a : A)
| Raise (e : exn).

Arguments Ok {A} a.
Arguments Raise {A} e.

Definition bind {A B : Type} (m : result A) (k : A -> result B) : result B :=
  match m with
  | Ok a => k a
  | Raise e => Raise e
  end.

Notation "x <- m ;; k" := (bind m (fun x => k))
  (at level 61, m at next level, right associativity).

Definition raises {A : Type} (m : result A) : Prop :=
  exists e, m = Raise e.

Fixpoint mapM {A B : Type} (f : A -> result B) (l : list A) : result (list B) :=
  match l with
  | [] => Ok []
  | x :: t => y <- f x ;; ys <- mapM f t ;; Ok (y :: ys)
  end.

Fixpoint zipM {A B C : Type} (f : A -> B -> result C)
         (la : list A) (lb : list B) : result (list C) :=
  match la, lb with
  | x :: ta, y :: tb => z <- f x y ;; zs <- zipM f ta tb ;; Ok (z :: zs)
  | _, _ => Ok []
  end.

(** ** Cells, columns and data frames *)

Inductive cell : Type :=
| Num (x : float)
| Text (s : string).

Definition column := list cell.

(** The dtype of a column. *)
Inductive dtype : Type :=
| Float64
| Object.

(** The dtype of the result of arithmetic on two columns, and of a
    block of two columns: float64 when both are, object otherwise. *)
Definition common_dtype (a b : dtype) : dtype :=
  match a, b with
  | Float64, Float64 => Float64
  | _, _ => Object
  end.

Record DataFrame : Type := mkDataFrame {
  nrows : nat;
  data : list (string * column);
  dtypes : list (string * dtype)
}.

Fixpoint assoc {A : Type} (name : string) (l : list (string * A)) : option A :=
  match l with
  | [] => None
  | (n, c) :: t => if String.eqb name n then Some c else assoc name t
  end.

(** Replace the entry of [name], or add it at the end. *)
Fixpoint assoc_set {A : Type} (name : string) (c : A) (l : list (string * A))
  : list (string * A) :=
  match l with
  | [] => [(name, c)]
  | (n, c') :: t =>
      if String.eqb name n then (n, c) :: t else (n, c') :: assoc_set name c t
  end.

(** [name in df.columns] *)
Definition has_column (df : DataFrame) (name : string) : bool :=
  match assoc name (data df) with
  | Some _ => true
  | None => false
  end.

(** [df[name]] *)
Definition getitem (df : DataFrame) (name : string) : result column :=
  match assoc name (data df) with
  | Some c => Ok c
  | None => Raise (KeyError name)
  end.

(** [df[name].dtype]; a column without a recorded dtype counts as an
    object column. *)
Definition dtype_of (df : DataFrame) (name : string) : dtype :=
  match assoc name (dtypes df) with
  | Some dt => dt
  | None => Object
  end.

(** [df[name] = series], for a series of dtype [dt] with the cells [c] *)
Definition setitem (df : DataFrame) (name : string) (dt : dtype) (c : column)
  : DataFrame :=
  {| nrows := nrows df;
     data := assoc_set name c (data df);
     dtypes := assoc_set name dt (dtypes df) |}.

(** [df[name] = scalar], a float64 column *)
Definition setitem_scalar (df : DataFrame) (name : string) (x : float) : DataFrame :=
  setitem df name Float64 (repeat (Num x) (nrows df)).

(** A frame of [n] rows whose columns are all of dtype [dt]. *)
Definition frame_of_columns (dt : dtype) (n : nat) (cols : list (string * column))
  : DataFrame :=
  {| nrows := n; data := cols; dtypes := map (fun p => (fst p, dt)) cols |}.

(** [df.loc[i, name]] as an optional cell, for stating properties. *)
Definition cell_at (df : DataFrame) (name : string) (i : nat) : option cell :=
  match assoc name (data df) with
  | Some c => nth_error c i
  | None => None
  end.

(** [df.loc[i, name]] *)
Definition loc (df : DataFrame) (i : nat) (name : string) : result cell :=
  c <- getitem df name ;;
  match nth_error c i with
  | Some v => Ok v
  | None => Raise (KeyError name)
  end.

(** Every column has one cell per row. *)
Definition wf (df : DataFrame) : Prop :=
  Forall (fun p => List.length (snd p) = nrows df) (data df).

(** ** Arithmetic on cells

    Arithmetic between a number and a piece of text raises [TypeError]
    in Python.  In every use below at least one operand is numeric. *)

Definition lift1 (f : float -> float) (c : cell) : result cell :=
  match c with
  | Num x => Ok (Num (f x))
  | Text _ => Raise TypeError
  end.

Definition lift2 (f : float -> float -> float) (a b : cell) : result cell :=
  match a, b with
  | Num x, Num y => Ok (Num (f x y))
  | _, _ => Raise TypeError
  end.

(** [np.sqrt], one element of a column of dtype [dt]: numpy has no
    square-root loop for object dtype, so that an element of an object
    column raises [TypeError] also when it is a number. *)
Definition np_sqrt (dt : dtype) (c : cell) : result cell :=
  match dt with
  | Float64 => lift1 PrimFloat.sqrt c
  | Object => Raise TypeError
  end.

(** Byte-wise order on text, the order of Python's [str] comparison. *)
Definition text_leb (s t : string) : bool :=
  match String.compare s t with
  | Gt => false
  | _ => true
  end.

(** One row of [df[[a, b]].max(axis=1)]: NaN is skipped (replaced by
    -inf, and the result is NaN when both are NaN); numbers and text do
    not compare. *)
Definition fill_neg_inf (x : float) : float :=
  if is_nan x then neg_infinity else x.

Definition nanmax (x y : float) : float :=
  if is_nan x && is_nan y then nan
  else if PrimFloat.leb (fill_neg_inf y) (fill_neg_inf x)
       then fill_neg_inf x else fill_neg_inf y.

Definition row_max (a b : cell) : result cell :=
  match a, b with
  | Num x, Num y => Ok (Num (nanmax x y))
  | Text s, Text t => Ok (Text (if text_leb t s then s else t))
  | _, _ => Raise TypeError
  end.

(** ** [Series.idxmin]: the first row holding the least value, NaN skipped *)

Fixpoint argmin_scan (i : nat) (best : option (nat * float)) (c : column)
  : result (option (nat * float)) :=
  match c with
  | [] => Ok best
  | Text _ :: _ => Raise TypeError
  | Num x :: t =>
      if is_nan x then argmin_scan (S i) best t
      else match best with
           | None => argmin_scan (S i) (Some (i, x)) t
           | Some (_, m) =>
               if PrimFloat.ltb x m then argmin_scan (S i) (Some (i, x)) t
               else argmin_scan (S i) best t
           end
  end.

Definition idxmin (c : column) : result nat :=
  r <- argmin_scan 0 None c ;;
  match r with
  | Some (i, _) => Ok i
  | None => Raise (ValueError "attempt to get argmin of an empty sequence")
  end.

(** [df.loc[i, name] = v] on an existing column *)
Fixpoint list_set {A : Type} (i : nat) (v : A) (l : list A) : list A :=
  match l, i with
  | [], _ => []
  | _ :: t, O => v :: t
  | x :: t, S j => x :: list_set j v t
  end.

(** [Series.first_valid_index] *)
Fixpoint first_valid_from (i : nat) (c : column) : option nat :=
  match c with
  | [] => None
  | Num x :: t => if is_nan x then first_valid_from (S i) t else Some i
  | Text _ :: _ => Some i
  end.

Definition first_valid_index (c : column) : option nat := first_valid_from 0 c.

(** ** Formatting, as in f-strings *)

Definition str (n : Z) : string := NilZero.string_of_int (Z.to_int n).

(** [{text!r}], on ASCII text.  The text is put between apostrophes,
    or between double quotes when it holds an apostrophe and no double
    quote; the quote chosen and the backslash are escaped with a
    backslash, tab, line feed and carriage return are written [\t],
    [\n] and [\r], every other control character is written [\xNN],
    and the other characters stand for themselves. *)
Definition hex_digit (n : nat) : ascii :=
  nth n (list_ascii_of_string "0123456789abcdef") "0"%char.

Definition repr_quote (l : list ascii) : ascii :=
  if existsb (Ascii.eqb "'"%char) l && negb (existsb (Ascii.eqb "034"%char) l)
  then "034"%char
  else "'"%char.

Definition repr_char (quote c : ascii) : string :=
  let n := nat_of_ascii c in
  if Ascii.eqb c quote || Ascii.eqb c "\"%char then String "\" (String c "")
  else if Nat.eqb n 9 then "\t"
  else if Nat.eqb n 10 then "\n"
  else if Nat.eqb n 13 then "\r"
  else if Nat.ltb n 32 || Nat.eqb n 127 then
    String "\" (String "x" (String (hex_digit (n / 16))
                                   (String (hex_digit (n mod 16)) "")))
  else String c "".

Definition repr (s : string) : string :=
  let l := list_ascii_of_string s in
  let quote := repr_quote l in
  String quote (String.concat "" (map (repr_char quote) l) ++ String quote "").

(** * calculations.py *)

Module Calculations.

(** Circuit membership tables *)
Definition CIRCUIT_1 : list Z := [41; 42; 43]%Z.
Definition CIRCUIT_2 : list Z := [44; 45; 46]%Z.

(** symbolic circuit ID for EW towers *)
Definition EARTH_WIRE : Z := 0%Z.

Definition member (x : Z) (s : list Z) : bool := existsb (Z.eqb x) s.

Definition candidates (a b : Z) : list string :=
  [ "Straight Distance of " ++ str a ++ "-" ++ str b;
    "Sag of " ++ str a ++ "-" ++ str b ].

Definition join_comma (l : list string) : string := String.concat ", " l.

(** The first column of [df] that carries one of the accepted names for
    the span a-b; [KeyError] if none exists. *)
Definition _pick_distance_col (df : DataFrame) (a b : Z) : result string :=
  match find (has_column df) (candidates a b) with
  | Some col => Ok col
  | None =>
      Raise (KeyError ("No distance/sag column found for span "
                         ++ str a ++ "-" ++ str b ++ ". "
                         ++ "Tried: " ++ join_comma (candidates a b)))
  end.

Definition _which_circuit (tower : Z) : Z :=
  if member tower CIRCUIT_1 then 1%Z
  else if member tower CIRCUIT_2 then 2%Z
  else EARTH_WIRE.

(** [EARTH_WIRE in (cir1, cir3)] *)
Definition earth_wire_in (cir1 cir3 : Z) : bool :=
  Z.eqb EARTH_WIRE cir1 || Z.eqb EARTH_WIRE cir3.

(** [-(0.1 / 90.0) * beta + 0.75] *)
Definition k_of_beta (beta : float) : float :=
  (- (0.1 / 90.0) * beta + 0.75)%float.

(** [K * np.sqrt(sag + LK) + C1 + C2], one row; [dt] is the dtype of
    the column [sag + LK]. *)
Definition required_row (dt : dtype) (k sag lk c1 c2 : cell) : result cell :=
  s <- lift2 PrimFloat.add sag lk ;;
  r <- np_sqrt dt s ;;
  p <- lift2 PrimFloat.mul k r ;;
  q <- lift2 PrimFloat.add p c1 ;;
  lift2 PrimFloat.add q c2.

Fixpoint zip5M (f : cell -> cell -> cell -> cell -> cell -> result cell)
         (a b c d e : column) : result column :=
  match a, b, c, d, e with
  | x1 :: t1, x2 :: t2, x3 :: t3, x4 :: t4, x5 :: t5 =>
      y <- f x1 x2 x3 x4 x5 ;; ys <- zip5M f t1 t2 t3 t4 t5 ;; Ok (y :: ys)
  | _, _, _, _, _ => Ok []
  end.

(** The pair (C1, C2) of two real circuits, as the rule states it:
    (1.93, 0) for the same circuit, (0, 2.29) for different ones. *)
Definition offsets (d1 d3 : Z) : float * float :=
  if Z.eqb (_which_circuit d1) (_which_circuit d3)
  then (1.93, 0)%float else (0, 2.29)%float.

(** The dtype of the column [sag + LK], and that of the column
    [K * np.sqrt(sag + LK) + C1 + C2]. *)
Definition sqrt_dtype (df : DataFrame) : dtype :=
  common_dtype (dtype_of df "sag") (dtype_of df "LK").

Definition formula_dtype (df : DataFrame) : dtype :=
  common_dtype
    (common_dtype (common_dtype (dtype_of df "K") (sqrt_dtype df))
                  (dtype_of df "C1"))
    (dtype_of df "C2").

(** The formula of the required distance, on the columns of [df]. *)
Definition required_distance (df : DataFrame) : result column :=
  k <- getitem df "K" ;;
  sag <- getitem df "sag" ;;
  lk <- getitem df "LK" ;;
  c1 <- getitem df "C1" ;;
  c2 <- getitem df "C2" ;;
  zip5M (required_row (sqrt_dtype df)) k sag lk c1 c2.

(** The block of [process_sheet] that fills C1, C2 and
    required-distance.  Nothing is coerced: the columns enter the
    formula with the dtypes they have. *)
Definition circuit_offsets (df : DataFrame) (d1 d3 : Z) : result DataFrame :=
  let cir1 := _which_circuit d1 in
  let cir3 := _which_circuit d3 in
  if earth_wire_in cir1 cir3 then
    let df := setitem_scalar df "C1" 1.93 in
    let df := setitem_scalar df "C2" 0.0 in
    c1 <- getitem df "C1" ;;
    Ok (setitem df "required-distance" (dtype_of df "C1") c1)
  else
    let same_circuit := Z.eqb cir1 cir3 in
    let df :=
      if same_circuit
      then setitem_scalar (setitem_scalar df "C1" 1.93) "C2" 0.0
      else setitem_scalar (setitem_scalar df "C1" 0.0) "C2" 2.29 in
    req <- required_distance df ;;
    Ok (setitem df "required-distance" (formula_dtype df) req).

(** The dtype of the column [diff]. *)
Definition diff_dtype (df : DataFrame) : dtype :=
  common_dtype (dtype_of df "Distance Between Powerlines")
               (dtype_of df "required-distance").

(** The tail of [process_sheet]: diff and the worst-case column. *)
Definition diff_and_worst_case (df : DataFrame) : result DataFrame :=
  cur <- getitem df "Distance Between Powerlines" ;;
  req <- getitem df "required-distance" ;;
  diff <- zipM (lift2 PrimFloat.sub) cur req ;;
  let df := setitem df "diff" (diff_dtype df) diff in
  d <- getitem df "diff" ;;
  worst_idx <- idxmin d ;;
  worst_val <- loc df worst_idx "diff" ;;
  let df := setitem_scalar df "worst-case" nan in
  w <- getitem df "worst-case" ;;
  Ok (setitem df "worst-case" Float64 (list_set worst_idx worst_val w)).

(** [df["sag"] = df[[col_sd12, col_sd34]].max(axis=1)] and
    [df["K"] = -(0.1 / 90.0) * df["Beta Angle (°)"] + 0.75], with the
    dtypes that the results have, and [df["LK"] = 2.0]. *)
Definition sag_dtype (df : DataFrame) (col_sd12 col_sd34 : string) : dtype :=
  common_dtype (dtype_of df col_sd12) (dtype_of df col_sd34).

Definition process_sheet (df : DataFrame) (d1 d2 d3 d4 : Z) : result DataFrame :=
  col_sd12 <- _pick_distance_col df d1 d2 ;;
  col_sd34 <- _pick_distance_col df d3 d4 ;;
  a <- getitem df col_sd12 ;;
  b <- getitem df col_sd34 ;;
  sag <- zipM row_max a b ;;
  let df := setitem df "sag" (sag_dtype df col_sd12 col_sd34) sag in
  beta <- getitem df "Beta Angle (°)" ;;
  k <- mapM (lift1 k_of_beta) beta ;;
  let df := setitem df "K" (dtype_of df "Beta Angle (°)") k in
  let df := setitem_scalar df "LK" 2.0 in
  df <- circuit_offsets df d1 d3 ;;
  diff_and_worst_case df.

End Calculations.

(** * Regular expressions

    A backtracking matcher for the fragment of Python's [re] that the
    repository's patterns use: literal text, one character of a class,
    greedy and lazy repetition of a class, sequencing, numbered groups
    and the end anchor; and the greedy option [r?], which the pattern
    of openpyxl's sheet titles needs.

    The matcher is the one of Python on ASCII text.  There [\d] is one
    of 0-9, [int] reads the digits 0-9 and [re.IGNORECASE] pairs
    exactly A-Z with a-z.  On other text Python matches more: [\d] and
    [int] accept the decimal digits of every script, and
    [re.IGNORECASE] pairs a few characters outside ASCII with ASCII
    letters (the long s with s, the Kelvin sign with k).  A name with
    such characters is outside the model; what is stated of the names
    that a pattern refuses is stated of ASCII names ([ascii_text]). *)

Module Re.

(** [\d], on ASCII text *)
Definition is_digit (c : ascii) : bool :=
  let n := nat_of_ascii c in Nat.leb 48 n && Nat.leb n 57.

(** [.] : any character but a newline *)
Definition is_dot (c : ascii) : bool := negb (Ascii.eqb c "010"%char).

(** [[0-9\-]] *)
Definition is_digit_or_hyphen (c : ascii) : bool :=
  is_digit c || Ascii.eqb c "-"%char.

Inductive re : Type :=
| Eps
| Lit (s : string)
| Cls (p : ascii -> bool)
| Plus (p : ascii -> bool)
| PlusLazy (p : ascii -> bool)
| Star (p : ascii -> bool)
| Seq (r1 r2 : re)
| Group (n : nat) (r : re)
| Eos
| Opt (r : re).

Definition seq (rs : list re) : re := fold_right Seq Eps rs.

(** Captured groups, most recent first. *)
Definition caps := list (nat * list ascii).

Fixpoint group (n : nat) (cs : caps) : list ascii :=
  match cs with
  | [] => []
  | (m, s) :: t => if Nat.eqb n m then s else group n t
  end.

(** The letter that [re.IGNORECASE] compares, on ASCII text: A-Z are
    taken to a-z. *)
Definition lower (c : ascii) : ascii :=
  let n := nat_of_ascii c in
  if Nat.leb 65 n && Nat.leb n 90 then ascii_of_nat (n + 32) else c.

Definition chr_eqb (icase : bool) (a b : ascii) : bool :=
  if icase then Ascii.eqb (lower a) (lower b) else Ascii.eqb a b.

Fixpoint strip_prefix (icase : bool) (l : list ascii) (s : list ascii)
  : option (list ascii) :=
  match l, s with
  | [], _ => Some s
  | a :: l', b :: s' => if chr_eqb icase a b then strip_prefix icase l' s' else None
  | _ :: _, [] => None
  end.

Section Repeat.
Context {R : Type}.
Variable p : ascii -> bool.
Variable k : list ascii -> option R.

(** [p*], longest first *)
Fixpoint star (s : list ascii) : option R :=
  match s with
  | c :: t =>
      if p c then match star t with Some r => Some r | None => k s end
      else k s
  | [] => k s
  end.

(** [p+], longest first *)
Definition plus (s : list ascii) : option R :=
  match s with
  | c :: t => if p c then star t else None
  | [] => None
  end.

(** [p*?], shortest first *)
Fixpoint star_lazy (s : list ascii) : option R :=
  match k s with
  | Some r => Some r
  | None =>
      match s with
      | c :: t => if p c then star_lazy t else None
      | [] => None
      end
  end.

(** [p+?], shortest first *)
Definition plus_lazy (s : list ascii) : option R :=
  match s with
  | c :: t => if p c then star_lazy t else None
  | [] => None
  end.
End Repeat.

(** The text between the start [s] of a group and the rest [s'] left
    after it. *)
Definition consumed (s s' : list ascii) : list ascii :=
  firstn (List.length s - List.length s') s.

Fixpoint exec (icase : bool) (r : re) (s : list ascii) (cs : caps)
         (k : list ascii -> caps -> option caps) : option caps :=
  match r with
  | Eps => k s cs
  | Lit l =>
      match strip_prefix icase (list_ascii_of_string l) s with
      | Some s' => k s' cs
      | None => None
      end
  | Cls p =>
      match s with
      | c :: t => if p c then k t cs else None
      | [] => None
      end
  | Plus p => plus p (fun s' => k s' cs) s
  | PlusLazy p => plus_lazy p (fun s' => k s' cs) s
  | Star p => star p (fun s' => k s' cs) s
  | Seq r1 r2 => exec icase r1 s cs (fun s' cs' => exec icase r2 s' cs' k)
  | Group n r => exec icase r s cs (fun s' cs' => k s' ((n, consumed s s') :: cs'))
  | Eos =>
      match s with
      | [] => k s cs
      | ["010"%char] => k s cs
      | _ => None
      end
  | Opt r =>
      match exec icase r s cs k with
      | Some m => Some m
      | None => k s cs
      end
  end.

(** [re.match]: at the start of the text. *)
Definition re_match_at (icase : bool) (r : re) (s : list ascii) : option caps :=
  exec icase r s [] (fun _ cs => Some cs).

Definition re_match (icase : bool) (r : re) (s : string) : option caps :=
  re_match_at icase r (list_ascii_of_string s).

(** [re.search]: at the leftmost position where the pattern matches. *)
Fixpoint re_search_from (icase : bool) (r : re) (s : list ascii) : option caps :=
  match re_match_at icase r s with
  | Some m => Some m
  | None =>
      match s with
      | [] => None
      | _ :: t => re_search_from icase r t
      end
  end.

Definition re_search (icase : bool) (r : re) (s : string) : option caps :=
  re_search_from icase r (list_ascii_of_string s).

(** [m.group(n)] *)
Definition group_str (n : nat) (m : caps) : string :=
  string_of_list_ascii (group n m).

(** A match together with [m.group(0)], the text matched. *)
Definition re_match0_at (icase : bool) (r : re) (s : list ascii) : option caps :=
  exec icase r s [] (fun s' cs => Some ((0, consumed s s') :: cs)).

(** [re.findall] for a pattern with one group: the matches from left
    to right, each search resuming where the last match ended (one
    character further after an empty match); [skip] characters are
    still to be passed over. *)
Fixpoint findall_from (icase : bool) (r : re) (skip : nat) (s : list ascii)
  : list (list ascii) :=
  match skip with
  | S k =>
      match s with
      | [] => []
      | _ :: t => findall_from icase r k t
      end
  | O =>
      match re_match0_at icase r s with
      | Some m =>
          group 1 m ::
          match s with
          | [] => []
          | _ :: t => findall_from icase r (List.length (group 0 m) - 1) t
          end
      | None =>
          match s with
          | [] => []
          | _ :: t => findall_from icase r 0 t
          end
      end
  end.

Definition re_findall (icase : bool) (r : re) (s : string) : list (list ascii) :=
  findall_from icase r 0 (list_ascii_of_string s).

(** [re.findall] for a pattern with several groups: the groups of
    every match, from left to right. *)
Fixpoint findall_groups_from (icase : bool) (r : re) (skip : nat)
         (s : list ascii) : list caps :=
  match skip with
  | S k =>
      match s with
      | [] => []
      | _ :: t => findall_groups_from icase r k t
      end
  | O =>
      match re_match0_at icase r s with
      | Some m =>
          m ::
          match s with
          | [] => []
          | _ :: t => findall_groups_from icase r (List.length (group 0 m) - 1) t
          end
      | None =>
          match s with
          | [] => []
          | _ :: t => findall_groups_from icase r 0 t
          end
      end
  end.

Definition re_findall_groups (icase : bool) (r : re) (s : string) : list caps :=
  findall_groups_from icase r 0 (list_ascii_of_string s).

(** [text.lower()], on ASCII text *)
Definition str_lower (s : string) : string :=
  string_of_list_ascii (map lower (list_ascii_of_string s)).

(** [int(text)] on a run of the digits 0-9 (of at most 4300 digits,
    beyond which Python's [int] raises [ValueError]) *)
Definition int (s : list ascii) : Z :=
  fold_left (fun acc c => (10 * acc + Z.of_nat (nat_of_ascii c - 48))%Z) s 0%Z.

End Re.

(** * Names of sheets and files (both calculation scripts) *)

Module Names.
Import Re.

(** [SHEET_RE = (\d+)-(\d+)_(\d+)-(\d+)$] *)
Definition SHEET_RE : re :=
  seq [ Group 1 (Plus is_digit); Lit "-"; Group 2 (Plus is_digit); Lit "_";
        Group 3 (Plus is_digit); Lit "-"; Group 4 (Plus is_digit); Eos ].

(** [FILE_RE = Cond_10C_(TR\d{4}a\d{3})_(\d{3})\.xlsx$], with [re.I] *)
Definition FILE_RE : re :=
  seq [ Lit "Cond_10C_";
        Group 1 (seq [ Lit "TR"; Cls is_digit; Cls is_digit; Cls is_digit;
                       Cls is_digit; Lit "a"; Cls is_digit; Cls is_digit;
                       Cls is_digit ]);
        Lit "_";
        Group 2 (seq [ Cls is_digit; Cls is_digit; Cls is_digit ]);
        Lit ".xlsx"; Eos ].

Definition _parse_sheet_name (sheet_name : string) : result (Z * Z * Z * Z) :=
  match re_match false SHEET_RE sheet_name with
  | None =>
      Raise (ValueError ("Sheet name " ++ repr sheet_name
                           ++ " does not match d1-d2_d3-d4."))
  | Some m => Ok (int (group 1 m), int (group 2 m), int (group 3 m), int (group 4 m))
  end.

(** Path separators of [os.path]; no text matched by [FILE_RE] holds
    one, so the groups do not depend on the platform's choice. *)
Definition is_sep (c : ascii) : bool :=
  Ascii.eqb c "/"%char || Ascii.eqb c "\"%char.

(** [os.path.basename] *)
Definition basename (path : string) : string :=
  string_of_list_ascii
    (fold_left (fun acc c => if is_sep c then [] else (acc ++ [c])%list)
               (list_ascii_of_string path) []).

Definition _load_metadata (xl_path : string) : result (string * string) :=
  match re_search true FILE_RE (basename xl_path) with
  | None =>
      Raise (ValueError ("Filename " ++ repr xl_path
                           ++ " does not match expected pattern."))
  | Some m => Ok (group_str 1 m, group_str 2 m)
  end.

End Names.

(** * calculations-copy.py

    The helpers [_pick_distance_col], [_which_circuit],
    [_parse_sheet_name] and [_load_metadata], the circuit tables and
    the diff / worst-case block are the same text in both scripts and
    are shared with [Calculations] and [Names]. *)

Module CalculationsCopy.
Import Calculations Names.

(** sheet names *)
Definition PH_PH_SHEET : string := "Result_Dist_Ph-Ph (10ºC)".
Definition PH_EW_SHEET : string := "Result_Dist_Ph-EW".

(** column maps of [process_workbook], 1-based indices *)
Definition COL_PH_PH : list (string * nat) :=
  [ ("row", 1); ("src_start", 2); ("src_end", 3); ("src_set", 4);
    ("src_phase", 5); ("tgt_start", 6); ("tgt_end", 7); ("tgt_set", 8);
    ("tgt_phase", 9); ("station", 10); ("sag", 11); ("lk", 12);
    ("weather", 13); ("beta", 14); ("w", 15); ("k", 16); ("c1", 17);
    ("c2", 18); ("req", 19); ("cur", 20); ("ok", 21) ].

Definition COL_PH_EW : list (string * nat) :=
  [ ("row", 1); ("src_start", 2); ("src_end", 3); ("src_set", 4);
    ("src_phase", 5); ("tgt_start", 6); ("tgt_end", 7); ("tgt_set", 8);
    ("tgt_phase", 9); ("station", 10); ("wind", 11);
    ("c1", 12); ("c3", 13); ("req", 14); ("cur", 15); ("ok", 16) ].

(** The summary dictionary of [process_sheet]. *)
Record Summary : Type := mkSummary {
  row_num : Z;
  station : cell;
  sag : cell;
  lk : cell;
  beta : cell;
  k_factor : cell;
  c1 : cell;
  c2 : cell;
  req : cell;
  cur : cell;
  ok_flag : string
}.

(** [a > b] on cell values *)
Definition cell_gt (a b : cell) : result bool :=
  match a, b with
  | Num x, Num y => Ok (PrimFloat.ltb y x)
  | Text s, Text t => Ok (negb (text_leb s t))
  | _, _ => Raise TypeError
  end.

(** Values written to the results workbook *)
Inductive value : Type :=
| VInt (n : Z)
| VStr (s : string)
| VCell (c : cell).

(** A line printed by the script *)
Inductive line : Type :=
| Processing (file start_span end_span : string)
| SheetTag (sheet_name tag : string)
| Skipped (e : exn)
| Written (file : string)
| NoFiles
| Error (fp : string) (e : exn).

Section Collaborators.

(** What [pd.to_numeric(..., errors="coerce")] makes of a piece of
    text: the number it spells, NaN otherwise. *)
Variable numeric_of_text : string -> float.

(** openpyxl worksheets: the frame [pd.DataFrame(ws.values)] with the
    first row as header, the sheet rewritten from a frame
    ([delete_rows] then [append] of every row), [ws.max_row] and
    [ws.cell(r, col, value)]. *)
Variable Sheet : Type.
Variable frame_of_sheet : Sheet -> result DataFrame.
Variable sheet_of_frame : Sheet -> DataFrame -> Sheet.
Variable max_row : Sheet -> nat.
Variable set_cell : Sheet -> nat -> nat -> value -> Sheet.

(** Location of the summary workbook *)
Variable RESULTS_PATH : string.

Definition to_numeric (c : cell) : cell :=
  match c with
  | Num x => Num x
  | Text s => Num (numeric_of_text s)
  end.

(** [df[cols] = df[cols].apply(pd.to_numeric, errors="coerce")] *)
Fixpoint to_float_columns (cols : list string) (df : DataFrame) : result DataFrame :=
  match cols with
  | [] => Ok df
  | n :: t =>
      c <- getitem df n ;;
      to_float_columns t (setitem df n Float64 (map to_numeric c))
  end.

(** The block of [process_sheet] that fills C1, C2 and
    required-distance.  Between two real circuits the five columns of
    the formula are made float64 before the formula is evaluated. *)
Definition circuit_offsets (df : DataFrame) (d1 d3 : Z) : result DataFrame :=
  let cir1 := _which_circuit d1 in
  let cir3 := _which_circuit d3 in
  if earth_wire_in cir1 cir3 then
    let df := setitem_scalar df "C1" 1.93 in
    let df := setitem_scalar df "C2" 0.0 in
    c1 <- getitem df "C1" ;;
    Ok (setitem df "required-distance" (dtype_of df "C1") c1)
  else
    let same_circuit := Z.eqb cir1 cir3 in
    let df :=
      if same_circuit
      then setitem_scalar (setitem_scalar df "C1" 1.93) "C2" 0.0
      else setitem_scalar (setitem_scalar df "C1" 0.0) "C2" 2.29 in
    df <- to_float_columns ["K"; "sag"; "LK"; "C1"; "C2"] df ;;
    req <- required_distance df ;;
    Ok (setitem df "required-distance" (formula_dtype df) req).

(** The summary for the results workbook, from the row with a
    non-NaN worst-case value. *)
Definition summarise (df : DataFrame) : result Summary :=
  w <- getitem df "worst-case" ;;
  match first_valid_index w with
  | None => Raise TypeError
  | Some worst_idx =>
      station <- loc df worst_idx "Station" ;;
      sag <- loc df worst_idx "sag" ;;
      lk <- loc df worst_idx "LK" ;;
      beta <- loc df worst_idx "Beta Angle (°)" ;;
      k_factor <- loc df worst_idx "K" ;;
      c1 <- loc df worst_idx "C1" ;;
      c2 <- loc df worst_idx "C2" ;;
      req <- loc df worst_idx "required-distance" ;;
      cur <- loc df worst_idx "Distance Between Powerlines" ;;
      gt <- cell_gt req cur ;;
      Ok {| row_num := Z.of_nat worst_idx + 2;
            station := station; sag := sag; lk := lk; beta := beta;
            k_factor := k_factor; c1 := c1; c2 := c2; req := req; cur := cur;
            ok_flag := if gt then "not ok" else "ok" |}
  end.

Definition process_sheet (df : DataFrame) (d1 d2 d3 d4 : Z)
  : result (DataFrame * Summary) :=
  col_sd12 <- _pick_distance_col df d1 d2 ;;
  col_sd34 <- _pick_distance_col df d3 d4 ;;
  a <- getitem df col_sd12 ;;
  b <- getitem df col_sd34 ;;
  sag <- zipM row_max a b ;;
  let df := setitem df "sag" (sag_dtype df col_sd12 col_sd34) sag in
  beta <- getitem df "Beta Angle (°)" ;;
  k <- mapM (lift1 k_of_beta) beta ;;
  let df := setitem df "K" (dtype_of df "Beta Angle (°)") k in
  let df := setitem_scalar df "LK" 2.0 in
  df <- circuit_offsets df d1 d3 ;;
  df <- diff_and_worst_case df ;;
  summary <- summarise df ;;
  Ok (df, summary).

(** ** Workbooks and files *)

Definition Workbook : Type := list (string * Sheet).
Definition FileSystem : Type := list (string * Workbook).

Definition sheetnames (wb : Workbook) : list string := map fst wb.

Definition contains (l : list string) (x : string) : bool :=
  existsb (String.eqb x) l.

(** The existing results workbook, with its tabs verified.  The
    worksheets of the dictionary that the script also returns are the
    workbook's own ones, so they are looked up in the workbook. *)
Definition _open_results_wb (fs : FileSystem) (path : string) : result Workbook :=
  match assoc path fs with
  | None =>
      Raise (FileNotFoundError
       ("Results workbook '" ++ path ++ "' does not exist. "
                  ++ "Create it manually with the template sheets first."))
  | Some wb =>
      let missing :=
        filter (fun name => negb (contains (sheetnames wb) name))
               [PH_PH_SHEET; PH_EW_SHEET] in
      match missing with
      | [] => Ok wb
      | _ :: _ =>
          Raise (KeyError
                   ("Results workbook is missing sheet(s): "
                      ++ join_comma missing ++ ". "
                      ++ "Please add them and run again."))
      end
  end.

(** [put(key, value)]: write into row [r] of the target sheet, when the
    column map has the key. *)
Definition put (COL : list (string * nat)) (tgt : string) (r : nat)
           (res_wb : Workbook) (kv : string * value) : Workbook :=
  match assoc (fst kv) COL, assoc tgt res_wb with
  | Some (S c), Some ws => assoc_set tgt (set_cell ws r (S c) (snd kv)) res_wb
  | _, _ => res_wb
  end.

Record LoopState : Type := mkLoopState {
  wb : Workbook;
  res_wb : Workbook;
  next_row : list (string * nat);
  log : list line
}.

(** The fields written for one summary, in the order of the script. *)
Definition summary_fields (ew_span : bool) (start_span end_span : string)
           (d1 d2 d3 d4 : Z) (summ : Summary) : list (string * value) :=
  [ ("row", VInt (row_num summ));
    ("src_start", VStr start_span);
    ("src_end", VStr end_span);
    ("src_set", VInt d1);
    ("src_phase", VInt d2);
    ("tgt_start", VStr start_span);
    ("tgt_end", VStr end_span);
    ("tgt_set", VInt d3);
    ("tgt_phase", VInt d4);
    ("station", VCell (station summ));
    ("req", VCell (req summ));
    ("cur", VCell (cur summ));
    ("ok", VStr (ok_flag summ));
    ("c1", VCell (c1 summ)) ]
  ++ (if ew_span then
        [ ("c3", VCell (c2 summ)) ]
      else
        [ ("sag", VCell (sag summ));
          ("lk", VCell (lk summ));
          ("beta", VCell (beta summ));
          ("k", VCell (k_factor summ));
          ("c2", VCell (c2 summ));
          ("weather", VInt 10);
          ("w", VStr "") ])%list.

(** One turn of the loop over the sheets of a source workbook: the new
    state, or the exception that leaves the loop. *)
Definition sheet_step (start_span end_span : string) (st : LoopState)
           (sheet_name : string) : LoopState + (list line * exn) :=
  match _parse_sheet_name sheet_name with
  | Raise _ => inl st
  | Ok (d1, d2, d3, d4) =>
      let cir1 := _which_circuit d1 in
      let cir3 := _which_circuit d3 in
      let ew_span := Z.eqb 0 cir1 || Z.eqb 0 cir3 in
      let tag := if ew_span then "Ph-EW" else "Ph-Ph" in
      let log1 := (log st ++ [SheetTag sheet_name tag])%list in
      match assoc sheet_name (wb st) with
      | None => inr (log1, KeyError sheet_name)
      | Some ws =>
          match frame_of_sheet ws with
          | Raise e => inr (log1, e)
          | Ok df =>
              match process_sheet df d1 d2 d3 d4 with
              | Raise exc =>
                  inl {| wb := wb st; res_wb := res_wb st;
                         next_row := next_row st;
                         log := (log1 ++ [Skipped exc])%list |}
              | Ok (df', summ) =>
                  let tgt := if ew_span then PH_EW_SHEET else PH_PH_SHEET in
                  let COL := if ew_span then COL_PH_EW else COL_PH_PH in
                  match assoc tgt (next_row st) with
                  | None => inr (log1, KeyError tgt)
                  | Some r =>
                      inl {| wb := assoc_set sheet_name (sheet_of_frame ws df') (wb st);
                             res_wb :=
                               fold_left (put COL tgt r)
                                 (summary_fields ew_span start_span end_span
                                                 d1 d2 d3 d4 summ)
                                 (res_wb st);
                             next_row := assoc_set tgt (r + 1) (next_row st);
                             log := log1 |}
                  end
              end
          end
      end
  end.

Fixpoint sheet_loop (start_span end_span : string) (st : LoopState)
         (names : list string) : LoopState + (list line * exn) :=
  match names with
  | [] => inl st
  | n :: t =>
      match sheet_step start_span end_span st n with
      | inl st' => sheet_loop start_span end_span st' t
      | inr e => inr e
      end
  end.

(** [os.path.splitext(path)[0]] *)
Fixpoint rfind (p : ascii -> bool) (i : nat) (s : list ascii) : option nat :=
  match s with
  | [] => None
  | c :: t =>
      match rfind p (S i) t with
      | Some j => Some j
      | None => if p c then Some i else None
      end
  end.

Definition is_extsep (c : ascii) : bool := Ascii.eqb c "."%char.

Definition splitext_root (path : string) : string :=
  let p := list_ascii_of_string path in
  let name_start := match rfind is_sep 0 p with Some i => S i | None => 0 end in
  match rfind is_extsep 0 p with
  | Some dot =>
      if existsb (fun c => negb (is_extsep c))
                 (firstn (dot - name_start) (skipn name_start p))
      then string_of_list_ascii (firstn dot p)
      else path
  | None => path
  end.

(** [start_span[:-3]] *)
Definition drop_last3 (s : string) : string :=
  substring 0 (String.length s - 3) s.

(** One source workbook: the lines printed, and the files as saved or
    the exception raised (nothing is saved before the end). *)
Definition process_workbook (fs : FileSystem) (xl_path : string)
  : list line * result FileSystem :=
  match _load_metadata xl_path with
  | Raise e => ([], Raise e)
  | Ok (start_span, end_suffix) =>
      let end_span := drop_last3 start_span ++ end_suffix in
      let log0 := [Processing (basename xl_path) start_span end_span] in
      match _open_results_wb fs RESULTS_PATH with
      | Raise e => (log0, Raise e)
      | Ok res =>
          let rows :=
            map (fun name =>
                   (name, match assoc name res with
                          | Some ws => max_row ws + 1
                          | None => 1
                          end))
                [PH_PH_SHEET; PH_EW_SHEET] in
          match assoc xl_path fs with
          | None => (log0, Raise (FileNotFoundError xl_path))
          | Some src =>
              match sheet_loop start_span end_span
                      {| wb := src; res_wb := res; next_row := rows; log := log0 |}
                      (sheetnames src) with
              | inr (l, e) => (l, Raise e)
              | inl st =>
                  let proc_path := splitext_root xl_path ++ "_processed.xlsx" in
                  let fs1 := assoc_set proc_path (wb st) fs in
                  let fs2 := assoc_set RESULTS_PATH (res_wb st) fs1 in
                  ((log st ++ [Written (basename proc_path)])%list, Ok fs2)
              end
          end
      end
  end.

(** [main], from the list of files that the glob pattern found. *)
Definition main_step (acc : list line * FileSystem) (fp : string)
  : list line * FileSystem :=
  let '(out, fs) := acc in
  match process_workbook fs fp with
  | (l, Ok fs') => ((out ++ l)%list, fs')
  | (l, Raise exc) => ((out ++ l ++ [Error fp exc])%list, fs)
  end.

Definition main (files : list string) (fs : FileSystem) : list line * FileSystem :=
  match files with
  | [] => ([NoFiles], fs)
  | _ :: _ => fold_left main_step files ([], fs)
  end.

End Collaborators.

End CalculationsCopy.

(** * wind_calculations_new.py *)

Module Wind.
Import Re.

Definition C_GROUP_1 : list string := ["41"; "42"; "43"].
Definition C_GROUP_2 : list string := ["44"; "45"; "46"].

Definition member (x : string) (s : list string) : bool :=
  existsb (String.eqb x) s.

(** [(.+?_W\d+)_([0-9\-]+_W\d+)] *)
Definition SWAP_RE : re :=
  seq [ Group 1 (seq [ PlusLazy is_dot; Lit "_W"; Plus is_digit ]);
        Lit "_";
        Group 2 (seq [ Plus is_digit_or_hyphen; Lit "_W"; Plus is_digit ]) ].

(** Swaps the two wire sections in the sheet name; if the pattern does
    not match, the original name. *)
Definition swap_sheet_name (sheet_name : string) : string :=
  match re_match false SWAP_RE sheet_name with
  | Some m => group_str 2 m ++ "_" ++ group_str 1 m
  | None => sheet_name
  end.

(** [(\d{2})-\d{2}.*_W\d+_(\d{2})-\d{2}] *)
Definition DIGITS_RE : re :=
  seq [ Group 1 (seq [ Cls is_digit; Cls is_digit ]);
        Lit "-"; Cls is_digit; Cls is_digit; Star is_dot;
        Lit "_W"; Plus is_digit; Lit "_";
        Group 2 (seq [ Cls is_digit; Cls is_digit ]);
        Lit "-"; Cls is_digit; Cls is_digit ].

(** [59-39_W\d+_(\d{2})-\d{2}_W\d+] *)
Definition EW_DIGITS_RE : re :=
  seq [ Lit "59-39_W"; Plus is_digit; Lit "_";
        Group 1 (seq [ Cls is_digit; Cls is_digit ]);
        Lit "-"; Cls is_digit; Cls is_digit; Lit "_W"; Plus is_digit ].

(** The endpoint codes d1, d3 that [add_distance_columns] reads off the
    sheet name. *)
Definition parse_digits (sheet_name : string) : result (string * string) :=
  match re_search false DIGITS_RE sheet_name with
  | Some m => Ok (group_str 1 m, group_str 2 m)
  | None =>
      match re_match false EW_DIGITS_RE sheet_name with
      | None => Raise (ValueError ("Cannot parse digits from " ++ sheet_name))
      | Some m2 => Ok (group_str 1 m2, group_str 1 m2)
      end
  end.

Definition same_circuit (d1 d3 : string) : bool :=
  (member d1 C_GROUP_1 && member d3 C_GROUP_1)
  || (member d1 C_GROUP_2 && member d3 C_GROUP_2).

(** Helper to compute C3, C4, Required distance *)
Definition add_distance_columns (df : DataFrame) (sheet_name : string)
  : result DataFrame :=
  dd <- parse_digits sheet_name ;;
  let same := same_circuit (fst dd) (snd dd) in
  let df := setitem_scalar df "C3" (if same then 1.35 else 0)%float in
  let df := setitem_scalar df "C4" (if same then 0 else 1.60)%float in
  c3 <- getitem df "C3" ;;
  c4 <- getitem df "C4" ;;
  m <- zipM row_max c3 c4 ;;
  Ok (setitem df "Required distance"
              (common_dtype (dtype_of df "C3") (dtype_of df "C4")) m).

(** ** Families, wind pressures and name variants *)

Definition EW_PH_REPL : list string :=
  ["41-21"; "42-22"; "43-23"; "44-24"; "45-25"; "46-26"].

(** [(\d{2})-\d{2}_W\d+_(\d{2})-\d{2}] *)
Definition FAMILY_RE : re :=
  seq [ Group 1 (seq [ Cls is_digit; Cls is_digit ]);
        Lit "-"; Cls is_digit; Cls is_digit;
        Lit "_W"; Plus is_digit; Lit "_";
        Group 2 (seq [ Cls is_digit; Cls is_digit ]);
        Lit "-"; Cls is_digit; Cls is_digit ].

(** 'EW-Ph' if either d1 or d3 equals 59 or 39, otherwise 'Ph-Ph'. *)
Definition classify_family (sheet_name : string) : string :=
  match re_search false FAMILY_RE sheet_name with
  | None => "Ph-Ph"
  | Some m =>
      let d1 := group_str 1 m in
      let d3 := group_str 2 m in
      if member d1 ["59"; "39"] || member d3 ["59"; "39"]
      then "EW-Ph" else "Ph-Ph"
  end.

(** [_W(\d+).*_W(\d+)] *)
Definition EW_PH_PRESSURES_RE : re :=
  seq [ Lit "_W"; Group 1 (Plus is_digit); Star is_dot;
        Lit "_W"; Group 2 (Plus is_digit) ].

(** [(None, None)] is [None]. *)
Definition extract_ew_ph_pressures (sheet_name : string) : option (Z * Z) :=
  match re_search false EW_PH_PRESSURES_RE sheet_name with
  | Some m => Some (int (group 1 m), int (group 2 m))
  | None => None
  end.

(** [_W(\d+)] *)
Definition PRESSURE_RE : re := seq [ Lit "_W"; Group 1 (Plus is_digit) ].

Definition extract_ph_ph_pressures (sheet_name : string) : option (Z * Z) :=
  match re_findall false PRESSURE_RE sheet_name with
  | m0 :: m1 :: _ => Some (int m0, int m1)
  | _ => None
  end.

(** [EW(\d+)-Ph(\d+)], with [re.I] *)
Definition EW_TAG_RE : re :=
  seq [ Lit "EW"; Group 1 (Plus is_digit); Lit "-Ph"; Group 2 (Plus is_digit) ].

Definition ew_ph_variants (tag : string) : list string :=
  match re_match true EW_TAG_RE tag with
  | None => []
  | Some m =>
      let ew := group_str 1 m in
      let ph := group_str 2 m in
      let base_ew := "59-39_W" ++ ew in
      let base_ph := "W" ++ ph in
      map (fun rep => base_ew ++ "_" ++ rep ++ "_" ++ base_ph) EW_PH_REPL
  end.

(** [Ph(\d+)-Ph(\d+)_(\d{2})-(\d{2})], with [re.I] *)
Definition PH_FILE_RE : re :=
  seq [ Lit "Ph"; Group 1 (Plus is_digit); Lit "-Ph"; Group 2 (Plus is_digit);
        Lit "_"; Group 3 (seq [ Cls is_digit; Cls is_digit ]);
        Lit "-"; Group 4 (seq [ Cls is_digit; Cls is_digit ]) ].

Definition ph_ph_variants (fname : string) : list string :=
  match re_search true PH_FILE_RE fname with
  | None => []
  | Some m =>
      let ph1 := group_str 1 m in
      let ph2 := group_str 2 m in
      let d1 := group_str 3 m in
      let d3 := group_str 4 m in
      let dcode := d1 ++ "-" ++ d3 in
      map (fun rep => rep ++ "_W" ++ ph1 ++ "_" ++ dcode ++ "_W" ++ ph2)
          EW_PH_REPL
  end.

(** ** Workbooks of the wind script: sheets are rows of cells *)

Definition Book : Type := list (string * list (list cell)).

Definition sheet_names (book : Book) : list string := map fst book.

Definition has_sheet (book : Book) (name : string) : bool :=
  existsb (String.eqb name) (sheet_names book).

(** *** [Workbook.create_sheet] of openpyxl

    The sheet is made with the title [title or "Sheet"].  The setter
    of the title raises [ValueError] for a title with one of the
    characters [\ * ? : / [ ]]; a title that a sheet of the workbook
    has already, in whatever case, is replaced by
    [avoid_duplicate_name]: the title followed by one more than the
    highest number that follows it in the titles of the workbook. *)

(** [INVALID_TITLE_REGEX = [\\*?:/\[\]]] *)
Definition is_invalid_title_char (c : ascii) : bool :=
  existsb (Ascii.eqb c) (list_ascii_of_string "\*?:/[]").

(** The pattern of [avoid_duplicate_name], matched with [re.I]: the
    group [title], which is [value] escaped and so taken literally,
    the group [count] of digits, zero or more, and a comma or none. *)
Definition TITLE_RE (value : string) : re :=
  seq [ Group 1 (Lit value); Group 2 (Star is_digit); Opt (Lit ",") ].

Definition is_empty {A : Type} (l : list A) : bool :=
  match l with [] => true | _ :: _ => false end.

Definition avoid_duplicate_name (names : list string) (value : string) : string :=
  if existsb (fun n => String.eqb (str_lower n) (str_lower value)) names then
    match re_findall_groups true (TITLE_RE value) (String.concat "," names) with
    | [] => value
    | matches =>
        let counts :=
          map (fun m => int (group 2 m))
              (filter (fun m => negb (is_empty (group 2 m))) matches) in
        value ++ str (fold_left Z.max counts 0 + 1)%Z
    end
  else value.

(** The setter of a sheet's title. *)
Definition set_title (names : list string) (value : string) : result string :=
  match find is_invalid_title_char (list_ascii_of_string value) with
  | Some c =>
      Raise (ValueError ("Invalid character " ++ String c ""
                           ++ " found in sheet title"))
  | None => Ok (avoid_duplicate_name names value)
  end.

(** [ws = book.create_sheet(title)] and the rows that are then written
    to [ws]: the title that the sheet got, and the workbook with the
    sheet at its end. *)
Definition create_sheet (book : Book) (title : string) (rows : list (list cell))
  : result (string * Book) :=
  t <- set_title (sheet_names book)
                 (if String.eqb title "" then "Sheet" else title) ;;
  Ok (t, (book ++ [(t, rows)])%list).

(** A missing sheet is created with the header row. *)
Definition ensure_sheet (book : Book) (sheet_name : string) : result Book :=
  if has_sheet book sheet_name then Ok book
  else
    ws <- create_sheet book sheet_name
                       [ [ Text "Station"; Text "Sag of ???";
                           Text "Distance Between Powerlines" ] ] ;;
    Ok (snd ws).

(** [for s in all_sheets_needed: ensure_sheet(book, s)] *)
Fixpoint ensure_sheets (book : Book) (names : list string) : result Book :=
  match names with
  | [] => Ok book
  | s :: t => book <- ensure_sheet book s ;; ensure_sheets book t
  end.

(** The loop of [append_rows] that looks for an unused sheet name; it
    runs on fuel. *)
Fixpoint auto_name (fuel : nat) (names : list string) (base candidate : string)
         (n : Z) : option string :=
  if existsb (String.eqb candidate) names then
    match fuel with
    | O => None
    | S f => auto_name f names base (base ++ "(" ++ str n ++ ")") (n + 1)%Z
    end
  else Some candidate.

(** The rows are written to a new sheet, headers first; [None] when
    the fuel of the name loop runs out. *)
Definition append_rows (fs : list (string * Book)) (book_path sheet_name : string)
           (rows : list (list cell)) (headers : list cell)
  : option (result (list (string * Book))) :=
  let wb := match assoc book_path fs with
            | Some wb => wb
            | None => []
            end in
  let base := sheet_name ++ "-Auto" in
  match auto_name (List.length (sheet_names wb)) (sheet_names wb) base base 1 with
  | None => None
  | Some candidate =>
      Some (ws <- create_sheet wb candidate (headers :: rows) ;;
            Ok (assoc_set book_path (snd ws) fs))
  end.

(** The threshold of the OK flag of a winner row,
    [C3 if C3 else C4], and the flag. *)
Definition truthy (x : float) : bool := negb (PrimFloat.eqb x 0).

Definition ok_threshold (c3 c4 : float) : float :=
  if truthy c3 then c3 else c4.

Definition winner_ok (c3 c4 winner_dist : float) : string :=
  if PrimFloat.leb (ok_threshold c3 c4) winner_dist then "OK" else "NO OK".

End Wind.

(** * IFC_to_OBJ.py *)

Module IfcToObj.

(** The two lists that the script fills: flat vertex coordinates and
    flat vertex indices of triangles. *)
Record Mesh : Type := mkMesh {
  verts_all : list float;
  faces_all : list Z
}.

Definition append_shape (mesh : Mesh) (verts : list float) (faces : list Z) : Mesh :=
  let offset := Z.of_nat (List.length (verts_all mesh) / 3) in
  {| verts_all := verts_all mesh ++ verts;
     faces_all := faces_all mesh ++ map (fun i => (i + offset)%Z) faces |}.

(** The triples that [zip] draws from three references to one iterator
    of [l]; an incomplete tail is dropped. *)
Fixpoint triples {A : Type} (fuel : nat) (l : list A) : list (A * A * A) :=
  match fuel, l with
  | S f, a :: b :: c :: t => (a, b, c) :: triples f t
  | _, _ => []
  end.

(** The lines of the OBJ file: [v x y z] and [f a+1 b+1 c+1]. *)
Inductive obj_line : Type :=
| V (x y z : float)
| F (a b c : Z).

Definition obj_lines (mesh : Mesh) : list obj_line :=
  map (fun t => match t with (x, y, z) => V x y z end)
      (triples (List.length (verts_all mesh)) (verts_all mesh))
  ++ map (fun t => match t with (a, b, c) => F (a + 1) (b + 1) (c + 1) end)
         (triples (List.length (faces_all mesh)) (faces_all mesh)).

End IfcToObj.


(** * The order of binary64 numbers *)

Module FloatOrder.

(** Position of a number on the extended real line, as a key ordered
    lexicographically; both zeros share a position, NaN has none. *)
Definition key (x : spec_float) : Z * Z * Z :=
  match x with
  | S754_nan => (0, 0, 0)
  | S754_infinity true => (-2, 0, 0)
  | S754_finite true m e => (-1, - e, Zneg m)
  | S754_zero _ => (0, 0, 0)
  | S754_finite false m e => (1, e, Zpos m)
  | S754_infinity false => (2, 0, 0)
  end%Z.

Definition key_lt (a b : Z * Z * Z) : Prop :=
  let '(a1, a2, a3) := a in
  let '(b1, b2, b3) := b in
  (a1 < b1 \/ (a1 = b1 /\ (a2 < b2 \/ (a2 = b2 /\ a3 < b3))))%Z.

Definition is_nanS (x : spec_float) : bool :=
  match x with
  | S754_nan => true
  | _ => false
  end.

Definition fkey (x : float) : Z * Z * Z := key (Prim2SF x).

End FloatOrder.

(** * Predicates used in the statements *)

(** [m], found at row [w] of [c], is the least number of [c] (NaN
    aside), and no earlier row holds a number as small. *)
Definition first_least (c : column) (w : nat) (m : float) : Prop :=
  nth_error c w = Some (Num m) /\ is_nan m = false /\
  (forall j x, nth_error c j = Some (Num x) ->
               is_nan x = true \/ PrimFloat.leb m x = true) /\
  (forall j x, nth_error c j = Some (Num x) -> j < w ->
               is_nan x = true \/ PrimFloat.ltb m x = true).

(** What [argmin_scan] knows after the rows of [pre]. *)
Definition scanned (pre : column) (best : option (nat * float)) : Prop :=
  match best with
  | None => forall j x, nth_error pre j = Some (Num x) -> is_nan x = true
  | Some (w, m) => first_least pre w m
  end.

(** Every cell of the column is a number (possibly NaN). *)
Definition numeric (c : column) : Prop :=
  Forall (fun v => exists x, v = Num x) c.

(** Row [w] of the processed frame [df] is the worst case: [diff] is
    measured minus required distance on every row, row [w] holds the
    least [diff] (NaN aside) [m] and is the first row to hold it, the
    worst-case cell of row [w] is [m] and every other worst-case cell
    is empty. *)
Definition worst_case_at (df : DataFrame) (w : nat) (m : float) : Prop :=
  w < nrows df /\
  (forall i, i < nrows df ->
     exists c r,
       cell_at df "Distance Between Powerlines" i = Some (Num c) /\
       cell_at df "required-distance" i = Some (Num r) /\
       cell_at df "diff" i = Some (Num (c - r)%float)) /\
  cell_at df "diff" w = Some (Num m) /\
  is_nan m = false /\
  (forall j x, cell_at df "diff" j = Some (Num x) ->
               is_nan x = true \/ PrimFloat.leb m x = true) /\
  (forall j x, cell_at df "diff" j = Some (Num x) -> j < w ->
               is_nan x = true \/ PrimFloat.ltb m x = true) /\
  cell_at df "worst-case" w = Some (Num m) /\
  (forall j, j < nrows df -> j <> w ->
             cell_at df "worst-case" j = Some (Num nan)).

(** The dtypes of the columns required-distance and diff that
    [Calculations.process_sheet] computes, from the dtypes of the
    columns that enter them: required-distance is the float64 column
    C1 under the earth-wire rule, and has the dtype of K and sag
    otherwise. *)
Definition required_dtype (df : DataFrame) (d1 d3 : Z)
           (col_sd12 col_sd34 : string) : dtype :=
  if Calculations.earth_wire_in (Calculations._which_circuit d1)
                                (Calculations._which_circuit d3)
  then Float64
  else common_dtype (dtype_of df "Beta Angle (°)")
                    (Calculations.sag_dtype df col_sd12 col_sd34).

Definition measured_dtype (df : DataFrame) (d1 d3 : Z)
           (col_sd12 col_sd34 : string) : dtype :=
  common_dtype (dtype_of df "Distance Between Powerlines")
               (required_dtype df d1 d3 col_sd12 col_sd34).

(** The frame that [Calculations.process_sheet] returns, from the
    columns it computed. *)
Definition augment (df : DataFrame) (d1 d3 : Z) (col_sd12 col_sd34 : string)
           (sag k : column) (c1 c2 : float)
           (req diff : column) (w : nat) (m : float) : DataFrame :=
  setitem
    (setitem_scalar
       (setitem
          (setitem
             (setitem_scalar
                (setitem_scalar
                   (setitem_scalar
                      (setitem
                         (setitem df "sag"
                                  (Calculations.sag_dtype df col_sd12 col_sd34) sag)
                         "K" (dtype_of df "Beta Angle (°)") k)
                      "LK" 2.0)
                   "C1" c1)
                "C2" c2)
             "required-distance" (required_dtype df d1 d3 col_sd12 col_sd34) req)
          "diff" (measured_dtype df d1 d3 col_sd12 col_sd34) diff)
       "worst-case" nan)
    "worst-case" Float64 (list_set w (Num m) (repeat (Num nan) (nrows df))).

(** The columns that [Calculations.process_sheet] computes in turn. *)
Definition computes (df : DataFrame) (d1 d2 d3 d4 : Z)
           (col_sd12 col_sd34 : string) (a b sag beta k : column)
           (c1 c2 : float) (req cur diff : column) (w : nat) (m : float)
  : Prop :=
  Calculations._pick_distance_col df d1 d2 = Ok col_sd12 /\
  Calculations._pick_distance_col df d3 d4 = Ok col_sd34 /\
  getitem df col_sd12 = Ok a /\
  getitem df col_sd34 = Ok b /\
  zipM row_max a b = Ok sag /\
  getitem df "Beta Angle (°)" = Ok beta /\
  mapM (lift1 Calculations.k_of_beta) beta = Ok k /\
  (if Calculations.earth_wire_in (Calculations._which_circuit d1)
                                 (Calculations._which_circuit d3)
   then c1 = 1.93%float /\ c2 = 0%float /\
        req = repeat (Num 1.93) (nrows df)
   else (c1, c2) = Calculations.offsets d1 d3 /\
        Calculations.zip5M
          (Calculations.required_row
             (Calculations.sag_dtype df col_sd12 col_sd34)) k sag
          (repeat (Num 2.0) (nrows df)) (repeat (Num c1) (nrows df))
          (repeat (Num c2) (nrows df)) = Ok req) /\
  getitem df "Distance Between Powerlines" = Ok cur /\
  zipM (lift2 PrimFloat.sub) cur req = Ok diff /\
  idxmin diff = Ok w /\
  nth_error diff w = Some (Num m).

(** [s] is the row-wise maximum of [x] and [y] as pandas takes it:
    the larger of two numbers, the other one when one is missing. *)
Definition row_maximum (x y s : float) : Prop :=
  (is_nan x = false -> is_nan y = false ->
   (s = x \/ s = y) /\ PrimFloat.leb x s = true /\ PrimFloat.leb y s = true) /\
  (is_nan x = true -> is_nan y = false -> s = y) /\
  (is_nan x = false -> is_nan y = true -> s = x) /\
  (is_nan x = true -> is_nan y = true -> s = nan).

(** Every column of the frame is of object dtype, as in a frame built
    from the rows of a worksheet. *)
Definition object_frame (df : DataFrame) : Prop :=
  Forall (fun p => snd p = Object) (dtypes df).

(** Every column of the frame is of dtype float64. *)
Definition float64_frame (df : DataFrame) : Prop :=
  forall n, has_column df n = true -> assoc n (dtypes df) = Some Float64.

(** ** Sample sheets

    The sheets are frames as [process_workbook] builds them: all their
    columns are of object dtype. *)

(** Sheet 41-42_43-44 of the end-to-end scenario: beta 0, both sag
    columns 10.0, measured distance 5.0; and a second row. *)
Definition sample_sheet : DataFrame :=
  frame_of_columns Object 2
    ([ ("Station", [Num 100; Num 200]);
       ("Sag of 41-42", [Num 10; Num 3]);
       ("Sag of 43-44", [Num 10; Num 4]);
       ("Beta Angle (°)", [Num 0; Num 90]);
       ("Distance Between Powerlines", [Num 5; Num 6]) ]%float).

(** A sheet 41-42_59-39 against an earth wire. *)
Definition sample_ew_sheet : DataFrame :=
  frame_of_columns Object 2
    ([ ("Station", [Num 100; Num 200]);
       ("Straight Distance of 41-42", [Num 10; Num 3]);
       ("Sag of 59-39", [Num 10; Num 4]);
       ("Beta Angle (°)", [Num 0; Num 90]);
       ("Distance Between Powerlines", [Num 5; Num 1.5]) ]%float).

(** The scenario sheet as a frame of float64 columns, which is what
    [pd.read_excel] makes of it, with the sag of a span 44-45 of the
    other circuit added. *)
Definition sample_frame_float64 : DataFrame :=
  frame_of_columns Float64 2
    ([ ("Station", [Num 100; Num 200]);
       ("Sag of 41-42", [Num 10; Num 3]);
       ("Sag of 43-44", [Num 10; Num 4]);
       ("Sag of 44-45", [Num 10; Num 4]);
       ("Beta Angle (°)", [Num 0; Num 90]);
       ("Distance Between Powerlines", [Num 5; Num 6]) ]%float).

(** The summary [s] is read off row [w] of the processed frame [df]. *)
Definition summary_of_row (df : DataFrame) (w : nat)
           (s : CalculationsCopy.Summary) : Prop :=
  CalculationsCopy.row_num s = (Z.of_nat w + 2)%Z /\
  cell_at df "Station" w = Some (CalculationsCopy.station s) /\
  cell_at df "sag" w = Some (CalculationsCopy.sag s) /\
  cell_at df "LK" w = Some (CalculationsCopy.lk s) /\
  cell_at df "Beta Angle (°)" w = Some (CalculationsCopy.beta s) /\
  cell_at df "K" w = Some (CalculationsCopy.k_factor s) /\
  cell_at df "C1" w = Some (CalculationsCopy.c1 s) /\
  cell_at df "C2" w = Some (CalculationsCopy.c2 s) /\
  cell_at df "required-distance" w = Some (CalculationsCopy.req s) /\
  cell_at df "Distance Between Powerlines" w = Some (CalculationsCopy.cur s).

(** The frame has the beta-angle column and, for each of the two
    spans, a column under one of the accepted names. *)
Definition inputs_present (df : DataFrame) (d1 d2 d3 d4 : Z) : bool :=
  has_column df "Beta Angle (°)"
  && existsb (has_column df) (Calculations.candidates d1 d2)
  && existsb (has_column df) (Calculations.candidates d3 d4).

(** The earth-wire sheet without its beta-angle column. *)
Definition sample_ew_sheet_no_beta : DataFrame :=
  frame_of_columns Object 2
    ([ ("Station", [Num 100; Num 200]);
       ("Straight Distance of 41-42", [Num 10; Num 3]);
       ("Sag of 59-39", [Num 10; Num 4]);
       ("Distance Between Powerlines", [Num 5; Num 1.5]) ]%float).

(** The columns that [process_sheet] writes. *)
Definition is_output (n : string) : Prop :=
  In n ["sag"; "K"; "LK"; "C1"; "C2"; "required-distance"; "diff";
        "worst-case"].

(** The two distance/sag cells of a row are both numbers (or empty),
    or both text. *)
Definition same_kind (x y : cell) : Prop :=
  match x, y with
  | Num _, Num _ => True
  | Text _, Text _ => True
  | _, _ => False
  end.

(** The sag of a row as the formula of calculations-copy.py sees it:
    the row-wise maximum of two numbers, and what [pd.to_numeric]
    makes of the maximum of two pieces of text. *)
Definition coerced_sag (numeric_of_text : string -> float) (x y : cell)
  : option float :=
  match x, y with
  | Num x12, Num x34 => Some (nanmax x12 x34)
  | Text s, Text t => Some (numeric_of_text (if text_leb t s then s else t))
  | _, _ => None
  end.

(** Required distance of one row between two real circuits, from its
    sag and its beta angle. *)
Definition required_from (d1 d3 : Z) (sag beta : float) : float :=
  (Calculations.k_of_beta beta * sqrt (sag + 2.0)
   + fst (Calculations.offsets d1 d3) + snd (Calculations.offsets d1 d3))%float.

(** The values of row [i], read off four columns: the sag as coerced,
    the beta angle and the measured distance. *)
Definition row_values (numeric_of_text : string -> float)
           (a b beta cur : column) (i : nat) (sag xbeta xcur : float) : Prop :=
  exists x y,
    nth_error a i = Some x /\ nth_error b i = Some y /\
    coerced_sag numeric_of_text x y = Some sag /\
    nth_error beta i = Some (Num xbeta) /\ nth_error cur i = Some (Num xcur).

(** The scenario sheet with the text "n/a" as beta angle of row 1. *)
Definition sample_text_beta : DataFrame :=
  frame_of_columns Object 2
    ([ ("Station", [Num 100; Num 200]);
       ("Sag of 41-42", [Num 10; Num 3]);
       ("Sag of 43-44", [Num 10; Num 4]);
       ("Beta Angle (°)", [Num 0; Text "n/a"]);
       ("Distance Between Powerlines", [Num 5; Num 6]) ]%float).

(** The earth-wire sheet with an empty beta angle in row 1. *)
Definition sample_ew_missing_beta : DataFrame :=
  frame_of_columns Object 2
    ([ ("Station", [Num 100; Num 200]);
       ("Straight Distance of 41-42", [Num 10; Num 3]);
       ("Sag of 59-39", [Num 10; Num 4]);
       ("Beta Angle (°)", [Num 0; Num nan]);
       ("Distance Between Powerlines", [Num 5; Num 1.5]) ]%float).

(** The scenario sheet with four rows: a complete one, one with an
    empty beta angle, one with the text "n/a" in both sag cells and
    one with an empty measured distance. *)
Definition sample_missing_inputs : DataFrame :=
  frame_of_columns Object 4
    ([ ("Station", [Num 100; Num 200; Num 300; Num 400]);
       ("Sag of 41-42", [Num 10; Num 3; Text "n/a"; Num 3]);
       ("Sag of 43-44", [Num 10; Num 4; Text "n/a"; Num 4]);
       ("Beta Angle (°)", [Num 0; Num nan; Num 90; Num 90]);
       ("Distance Between Powerlines", [Num 5; Num 6; Num 6; Num nan]) ]%float).

(** The scenario sheet reduced to one row, whose beta angle is empty. *)
Definition sample_single_missing : DataFrame :=
  frame_of_columns Object 1
    ([ ("Station", [Num 100]);
       ("Sag of 41-42", [Num 10]);
       ("Sag of 43-44", [Num 10]);
       ("Beta Angle (°)", [Num nan]);
       ("Distance Between Powerlines", [Num 5]) ]%float).

(** The class [p] does not go on at the head of [rest]. *)
Definition stops (p : ascii -> bool) (rest : list ascii) : Prop :=
  match rest with
  | [] => True
  | c :: _ => p c = false
  end.

(** ** The grammar of wind sheet names *)

(** A non-empty text whose characters all satisfy [p]. *)
Definition run_of (p : ascii -> bool) (s : string) : Prop :=
  s <> ""%string /\ Forall (fun c => p c = true) (list_ascii_of_string s).

(** [<a>_W<p1>_<b>_W<p2>] *)
Definition wind_name (a p1 b p2 : string) : string :=
  (a ++ "_W" ++ p1 ++ "_" ++ b ++ "_W" ++ p2)%string.

(** Names of the form [<a>_W<p1>_<b>_W<p2>], a and b of digits and
    hyphens, p1 and p2 of digits. *)
Definition well_formed (name : string) : Prop :=
  exists a p1 b p2,
    run_of Re.is_digit_or_hyphen a /\ run_of Re.is_digit p1 /\
    run_of Re.is_digit_or_hyphen b /\ run_of Re.is_digit p2 /\
    name = wind_name a p1 b p2.

(** The text [sub] occurs in [s]. *)
Definition occurs (sub s : string) : Prop :=
  exists pre post, s = (pre ++ sub ++ post)%string.

(** ** The results workbook *)

(** The results workbook is absent at [path], or lacks one of the two
    template sheets. *)
Definition results_unusable {Sheet : Type}
           (fs : list (string * list (string * Sheet))) (path : string) : Prop :=
  assoc path fs = None \/
  exists wb,
    assoc path fs = Some wb /\
    (CalculationsCopy.contains (map fst wb) CalculationsCopy.PH_PH_SHEET = false \/
     CalculationsCopy.contains (map fst wb) CalculationsCopy.PH_EW_SHEET = false).

(** The exception is one of the two precondition errors. *)
Definition precondition_error (e : exn) : Prop :=
  (exists msg, e = FileNotFoundError msg) \/ (exists msg, e = KeyError msg).

(** Two source workbooks in a folder without the results workbook;
    sheets are kept as frames. *)
Definition sample_results_path : string := "Formulas Distances_rev1.xlsx".

Definition sample_files : list string :=
  [ "Cond_10C_TR1730a001_002.xlsx"; "Cond_10C_TR1730a002_003.xlsx" ].

Definition sample_fs : list (string * list (string * DataFrame)) :=
  [ ("Cond_10C_TR1730a001_002.xlsx", [("41-42_43-44", sample_sheet)]);
    ("Cond_10C_TR1730a002_003.xlsx", [("41-42_59-39", sample_ew_sheet)]) ].

(** The same folder with both template sheets in the results workbook. *)
Definition sample_fs_with_results : list (string * list (string * DataFrame)) :=
  sample_fs
  ++ [ (sample_results_path,
        [ (CalculationsCopy.PH_PH_SHEET, frame_of_columns Object 0 []);
          (CalculationsCopy.PH_EW_SHEET, frame_of_columns Object 0 []) ]) ].

(** Collaborators for the sample folder: a sheet is its frame, cells
    written to a results sheet are not recorded. *)
Definition sample_main (files : list string)
           (fs : list (string * list (string * DataFrame))) :=
  CalculationsCopy.main (fun _ => nan) DataFrame (fun ws => Ok ws)
    (fun _ df => df) (fun ws => nrows ws) (fun ws _ _ _ => ws)
    sample_results_path files fs.

(** ** Predicates used in the further properties *)

(** Text of ASCII characters: the text on which the matcher agrees
    with Python's [re], [int] and [repr] in both directions. *)
Definition ascii_text (s : string) : Prop :=
  Forall (fun c => nat_of_ascii c < 128) (list_ascii_of_string s).

(** [Re.int] from a given accumulator. *)
Definition int_acc (s : list ascii) (acc : Z) : Z :=
  fold_left (fun acc c => (10 * acc + Z.of_nat (nat_of_ascii c - 48))%Z) s acc.

(** [int(text)] on a string *)
Definition int_of (s : string) : Z := Re.int (list_ascii_of_string s).

(** The end of a text at which [$] matches: the end itself or a last
    newline. *)
Definition line_end (tl : string) : Prop :=
  tl = ""%string \/ tl = String "010" "".

(** [<s1>-<s2>_<s3>-<s4>] *)
Definition sheet_name_of (s1 s2 s3 s4 : string) : string :=
  (s1 ++ "-" ++ s2 ++ "_" ++ s3 ++ "-" ++ s4)%string.

(** The names of the columns of a frame, from left to right. *)
Definition columns (df : DataFrame) : list string := map fst (data df).

(** The columns that [process_sheet] writes, in the order in which it
    writes them. *)
Definition output_columns : list string :=
  ["sag"; "K"; "LK"; "C1"; "C2"; "required-distance"; "diff"; "worst-case"].

(** The column that [_pick_distance_col] is to pick for the span a-b:
    the straight distance when the sheet has it, the sag otherwise. *)
Definition straight_distance_of (a b : Z) : string :=
  "Straight Distance of " ++ str a ++ "-" ++ str b.

Definition sag_of (a b : Z) : string := "Sag of " ++ str a ++ "-" ++ str b.

(** ** Accounting of the loop over the sheets *)

(** The lines that announce a sheet, and those that report a sheet as
    skipped. *)
Definition is_tag (l : CalculationsCopy.line) : bool :=
  match l with
  | CalculationsCopy.SheetTag _ _ => true
  | _ => false
  end.

Definition is_skipped (l : CalculationsCopy.line) : bool :=
  match l with
  | CalculationsCopy.Skipped _ => true
  | _ => false
  end.

Definition count (f : CalculationsCopy.line -> bool)
           (l : list CalculationsCopy.line) : nat :=
  List.length (filter f l).

(** The next free row of a results sheet, and the two cursors
    together. *)
Definition cursor (next_row : list (string * nat)) (tgt : string) : nat :=
  match assoc tgt next_row with
  | Some r => r
  | None => 0
  end.

Definition cursors (next_row : list (string * nat)) : nat :=
  cursor next_row CalculationsCopy.PH_PH_SHEET
  + cursor next_row CalculationsCopy.PH_EW_SHEET.

(** What a turn of the loop over the sheets keeps: the sheets of both
    workbooks, the keys of the cursors, cursors that do not go back,
    one row for every sheet announced and not skipped, and the lines
    printed so far. *)
Definition loop_keeps {Sheet : Type}
           (st st' : CalculationsCopy.LoopState Sheet) : Prop :=
  map fst (CalculationsCopy.wb Sheet st')
  = map fst (CalculationsCopy.wb Sheet st) /\
  map fst (CalculationsCopy.res_wb Sheet st')
  = map fst (CalculationsCopy.res_wb Sheet st) /\
  map fst (CalculationsCopy.next_row Sheet st')
  = map fst (CalculationsCopy.next_row Sheet st) /\
  cursor (CalculationsCopy.next_row Sheet st) CalculationsCopy.PH_PH_SHEET
  <= cursor (CalculationsCopy.next_row Sheet st') CalculationsCopy.PH_PH_SHEET /\
  cursor (CalculationsCopy.next_row Sheet st) CalculationsCopy.PH_EW_SHEET
  <= cursor (CalculationsCopy.next_row Sheet st') CalculationsCopy.PH_EW_SHEET /\
  cursors (CalculationsCopy.next_row Sheet st')
    + count is_skipped (CalculationsCopy.log Sheet st')
    + count is_tag (CalculationsCopy.log Sheet st)
  = cursors (CalculationsCopy.next_row Sheet st)
    + count is_skipped (CalculationsCopy.log Sheet st)
    + count is_tag (CalculationsCopy.log Sheet st') /\
  exists l, CalculationsCopy.log Sheet st'
            = (CalculationsCopy.log Sheet st ++ l)%list.

(** The path of the processed copy of a source workbook. *)
Definition processed_path (xl_path : string) : string :=
  CalculationsCopy.splitext_root xl_path ++ "_processed.xlsx".

(** A source workbook in the middle of the loop: a phase sheet, a
    sheet of notes, an earth-wire sheet and a sheet without its
    beta-angle column; sheets are kept as frames. *)
Definition sample_loop_state : CalculationsCopy.LoopState DataFrame :=
  {| CalculationsCopy.wb :=
       [ ("41-42_43-44", sample_sheet);
         ("Notes", frame_of_columns Object 0 []);
         ("41-42_59-39", sample_ew_sheet);
         ("44-45_41-42", sample_ew_sheet_no_beta) ];
     CalculationsCopy.res_wb :=
       [ (CalculationsCopy.PH_PH_SHEET, frame_of_columns Object 0 []);
         (CalculationsCopy.PH_EW_SHEET, frame_of_columns Object 0 []) ];
     CalculationsCopy.next_row :=
       [ (CalculationsCopy.PH_PH_SHEET, 5); (CalculationsCopy.PH_EW_SHEET, 8) ];
     CalculationsCopy.log := [] |}.

Definition sample_loop (st : CalculationsCopy.LoopState DataFrame)
           (names : list string) :=
  CalculationsCopy.sheet_loop (fun _ => nan) DataFrame (fun ws => Ok ws)
    (fun _ df => df) (fun ws _ _ _ => ws) "TR1730a001" "TR1730a002" st names.

Definition sample_workbook (fs : list (string * list (string * DataFrame)))
           (xl_path : string) :=
  CalculationsCopy.process_workbook (fun _ => nan) DataFrame (fun ws => Ok ws)
    (fun _ df => df) (fun ws => nrows ws) (fun ws _ _ _ => ws)
    sample_results_path fs xl_path.

(** ** File names *)

(** Text up to the case of its letters. *)
Definition fold_case (s : list ascii) : list ascii := map Re.lower s.

Definition ieq (a b : string) : Prop :=
  fold_case (list_ascii_of_string a) = fold_case (list_ascii_of_string b).

(** A text of [n] digits. *)
Definition digits (n : nat) (s : string) : Prop :=
  String.length s = n /\
  Forall (fun c => Re.is_digit c = true) (list_ascii_of_string s).

(** [Cond_10C_TR<ds>a<es>_<fs>.xlsx] *)
Definition span_file_name (ds es fs : string) : string :=
  ("Cond_10C_TR" ++ ds ++ "a" ++ es ++ "_" ++ fs ++ ".xlsx")%string.

(** The name of a directory as it stands before a file name: empty, or
    with a separator at its end. *)
Definition directory (dir : string) : Prop :=
  dir = ""%string \/
  exists d c, dir = (d ++ String c "")%string /\ Names.is_sep c = true.

(** ** Wind sheet names *)

(** A section code [<2 digits>-<2 digits>] and its circuit code, the
    first two digits. *)
Definition section_code (s : string) : Prop :=
  exists c1 c2 c3 c4,
    s = String c1 (String c2 (String "-" (String c3 (String c4 "")))) /\
    forallb Re.is_digit [c1; c2; c3; c4] = true.

Definition circuit_code (s : string) : string := substring 0 2 s.

(** The part of [DIGITS_RE] after [.*]. *)
Definition DIGITS_TAIL : Re.re :=
  Re.seq [ Re.Lit "_W"; Re.Plus Re.is_digit; Re.Lit "_";
           Re.Group 2 (Re.seq [ Re.Cls Re.is_digit; Re.Cls Re.is_digit ]);
           Re.Lit "-"; Re.Cls Re.is_digit; Re.Cls Re.is_digit ].

(** A character that is no letter P. *)
Definition not_p (c : ascii) : Prop := c <> "p"%char /\ c <> "P"%char.

(** ** Workbooks of the wind script and meshes *)

(** The k-th sheet name that [append_rows] tries: [<base>] first, then
    [<base>(1)], [<base>(2)], ... *)
Definition auto_candidate (base : string) (k : nat) : string :=
  match k with
  | O => base
  | S _ => (base ++ "(" ++ str (Z.of_nat k) ++ ")")%string
  end.

(** The workbook at a path, empty when there is none. *)
Definition book_at (fs : list (string * Wind.Book)) (path : string) : Wind.Book :=
  match assoc path fs with
  | Some wb => wb
  | None => []
  end.

(** A title that [create_sheet] gives to a sheet as it is asked,
    unless a sheet has it already in some case: not empty, and without
    the characters that a title may not have. *)
Definition valid_title (s : string) : Prop :=
  s <> ""%string /\
  Forall (fun c => Wind.is_invalid_title_char c = false)
         (list_ascii_of_string s).

(** No title among [names] is [s] written in another case. *)
Definition no_case_clash (names : list string) (s : string) : Prop :=
  forall n, In n names -> Re.str_lower n = Re.str_lower s -> n = s.

(** The row that [ensure_sheet] writes to a sheet it creates, and the
    workbook with such a sheet under [name] if it had none. *)
Definition HEADER_ROW : list cell :=
  [ Text "Station"; Text "Sag of ???"; Text "Distance Between Powerlines" ].

Definition with_sheet (book : Wind.Book) (name : string) : Wind.Book :=
  if Wind.has_sheet book name then book
  else (book ++ [(name, [HEADER_ROW])])%list.

(** Two wind workbooks: one with a sheet of measurements and a sheet
    of notes, and the results workbook after a first run. *)
Definition sample_wind_book : Wind.Book :=
  [ ("41-21_W500_42-22_W500"%string,
     [ HEADER_ROW; [Num 10; Num 1.25; Num 3.5]%float ]);
    ("Notes"%string, [ [Text "checked"] ]) ].

Definition sample_wind_results : list (string * Wind.Book) :=
  [ ("Wind_results.xlsx"%string,
     [ ("Result_Dist_EW-Ph(Wind)-Auto"%string, [ [Text "Station"] ]);
       ("Summary"%string, []) ]) ].


(** The vertex numbered [i] of a flat list of coordinates. *)
Definition vertex_at (vs : list float) (i : nat) : option (float * float * float) :=
  match nth_error vs (3 * i), nth_error vs (3 * i + 1), nth_error vs (3 * i + 2) with
  | Some x, Some y, Some z => Some (x, y, z)
  | _, _, _ => None
  end.

(** The number of vertices of a flat list of coordinates. *)
Definition vertex_count (vs : list float) : nat := List.length vs / 3.

(** Whole vertices, and faces that name vertices of the list. *)
Definition faces_within (vs : list float) (fs : list Z) : Prop :=
  List.length vs mod 3 = 0 /\
  Forall (fun i => (0 <= i < Z.of_nat (vertex_count vs))%Z) fs.

(** The lines [v ...] of an OBJ file. *)
Definition is_vertex_line (l : IfcToObj.obj_line) : bool :=
  match l with
  | IfcToObj.V _ _ _ => true
  | IfcToObj.F _ _ _ => false
  end.

(** * calculations.py: workbooks

    [process_workbook] and [main] of calculations.py.  There is no
    results workbook here, and no handler around [process_sheet]: an
    exception raised for one sheet leaves the loop and the workbook. *)

Module CalculationsWorkbook.
Import Names.

(** A line printed by the script *)
Inductive line : Type :=
| Processing (file start_span end_suffix : string)
| SheetLine (sheet_name : string)
| Written (file : string)
| NoFiles
| Error (fp : string) (e : exn).

Section Collaborators.

(** openpyxl worksheets, as in [CalculationsCopy]. *)
Variable Sheet : Type.
Variable frame_of_sheet : Sheet -> result DataFrame.
Variable sheet_of_frame : Sheet -> DataFrame -> Sheet.

Definition Workbook : Type := list (string * Sheet).
Definition FileSystem : Type := list (string * Workbook).

(** One turn of the loop over the sheets: the workbook and the lines
    printed, or the exception that leaves the loop. *)
Definition sheet_step (st : Workbook * list line) (sheet_name : string)
  : (Workbook * list line) + (list line * exn) :=
  match _parse_sheet_name sheet_name with
  | Raise _ => inl st
  | Ok (d1, d2, d3, d4) =>
      let log1 := (snd st ++ [SheetLine sheet_name])%list in
      match assoc sheet_name (fst st) with
      | None => inr (log1, KeyError sheet_name)
      | Some ws =>
          match frame_of_sheet ws with
          | Raise e => inr (log1, e)
          | Ok df =>
              match Calculations.process_sheet df d1 d2 d3 d4 with
              | Raise e => inr (log1, e)
              | Ok df' =>
                  inl (assoc_set sheet_name (sheet_of_frame ws df') (fst st),
                       log1)
              end
          end
      end
  end.

Fixpoint sheet_loop (st : Workbook * list line) (names : list string)
  : (Workbook * list line) + (list line * exn) :=
  match names with
  | [] => inl st
  | n :: t =>
      match sheet_step st n with
      | inl st' => sheet_loop st' t
      | inr e => inr e
      end
  end.

(** One source workbook: the lines printed, and the files as saved or
    the exception raised (the workbook is saved at the end only). *)
Definition process_workbook (fs : FileSystem) (xl_path : string)
  : list line * result FileSystem :=
  match _load_metadata xl_path with
  | Raise e => ([], Raise e)
  | Ok (start_span, end_suffix) =>
      let log0 := [Processing (basename xl_path) start_span end_suffix] in
      match assoc xl_path fs with
      | None => (log0, Raise (FileNotFoundError xl_path))
      | Some wb =>
          match sheet_loop (wb, log0) (map fst wb) with
          | inr (l, e) => (l, Raise e)
          | inl (wb', l) =>
              let out_path :=
                CalculationsCopy.splitext_root xl_path ++ "_processed.xlsx" in
              ((l ++ [Written (basename out_path)])%list,
               Ok (assoc_set out_path wb' fs))
          end
      end
  end.

(** [main], from the list of files that the glob pattern found. *)
Definition main_step (acc : list line * FileSystem) (fp : string)
  : list line * FileSystem :=
  match process_workbook (snd acc) fp with
  | (l, Ok fs') => ((fst acc ++ l)%list, fs')
  | (l, Raise exc) => ((fst acc ++ l ++ [Error fp exc])%list, snd acc)
  end.

Definition main (files : list string) (fs : FileSystem)
  : list line * FileSystem :=
  match files with
  | [] => ([NoFiles], fs)
  | _ :: _ => fold_left main_step files ([], fs)
  end.

End Collaborators.

End CalculationsWorkbook.

(** calculations.py on the sample folder; sheets are kept as frames. *)
Definition sample_calc_workbook
           (fs : list (string * list (string * DataFrame))) (xl_path : string) :=
  CalculationsWorkbook.process_workbook DataFrame (fun ws => Ok ws)
    (fun _ df => df) fs xl_path.

Definition sample_calc_main (files : list string)
           (fs : list (string * list (string * DataFrame))) :=
  CalculationsWorkbook.main DataFrame (fun ws => Ok ws) (fun _ df => df)
    files fs.

(** The sheet [name] of the source [src] has been processed into the
    sheet of the same name of [out]: a sheet whose name is not of the
    shape d1-d2_d3-d4 is as it was, any other holds the frame that
    [process_sheet] returned for it. *)
Definition sheet_processed {Sheet : Type}
           (frame_of_sheet : Sheet -> result DataFrame)
           (sheet_of_frame : Sheet -> DataFrame -> Sheet)
           (src out : list (string * Sheet)) (name : string) : Prop :=
  match Names._parse_sheet_name name with
  | Raise _ => assoc name out = assoc name src
  | Ok (d1, d2, d3, d4) =>
      exists ws df df',
        assoc name src = Some ws /\
        frame_of_sheet ws = Ok df /\
        Calculations.process_sheet df d1 d2 d3 d4 = Ok df' /\
        assoc name out = Some (sheet_of_frame ws df')
  end.

(** What the loop of calculations-copy.py makes of the sheet [name] of
    the workbook [src]: the processed frame when [process_sheet]
    returns, the sheet as it was when its name is not of the shape
    d1-d2_d3-d4 or when it is skipped. *)
Definition sheet_outcome {Sheet : Type} (numeric_of_text : string -> float)
           (frame_of_sheet : Sheet -> result DataFrame)
           (sheet_of_frame : Sheet -> DataFrame -> Sheet)
           (src : list (string * Sheet)) (name : string) : option Sheet :=
  match Names._parse_sheet_name name, assoc name src with
  | Ok (d1, d2, d3, d4), Some ws =>
      match frame_of_sheet ws with
      | Ok df =>
          match CalculationsCopy.process_sheet numeric_of_text df d1 d2 d3 d4 with
          | Ok (df', _) => Some (sheet_of_frame ws df')
          | Raise _ => Some ws
          end
      | Raise _ => Some ws
      end
  | _, other => other
  end.

(** * Properties *)

Open Scope list_scope.

(** ** Binary64 facts *)

Section FloatFacts.
Import FloatOrder.

Ltac by_cases_on_keys :=
  split;
  [ intros ?; try discriminate; repeat split; lia
  | intros (? & ? & ?); try discriminate; try reflexivity; lia ].

Lemma SFcompare_None x y :
  SFcompare x y = None <-> is_nanS x = true \/ is_nanS y = true.
Proof.
  destruct x as [s|s| |s m e], y as [s'|s'| |s' m' e']; simpl;
    repeat match goal with b : bool |- _ => destruct b end; simpl;
    split; intros H; try discriminate; try (destruct H; discriminate); auto.
Qed.

Lemma SFcompare_Lt x y :
  SFcompare x y = Some Lt <->
  is_nanS x = false /\ is_nanS y = false /\ key_lt (key x) (key y).
Proof.
  destruct x as [s|s| |s m e], y as [s'|s'| |s' m' e']; simpl;
    repeat match goal with b : bool |- _ => destruct b end; simpl;
    try by_cases_on_keys;
    rewrite Pos.compare_cont_spec; simpl;
    destruct (Z.compare_spec e e'); destruct (Pos.compare_spec m m'); simpl;
    by_cases_on_keys.
Qed.

Lemma SFcompare_Gt x y :
  SFcompare x y = Some Gt <->
  is_nanS x = false /\ is_nanS y = false /\ key_lt (key y) (key x).
Proof.
  destruct x as [s|s| |s m e], y as [s'|s'| |s' m' e']; simpl;
    repeat match goal with b : bool |- _ => destruct b end; simpl;
    try by_cases_on_keys;
    rewrite Pos.compare_cont_spec; simpl;
    destruct (Z.compare_spec e e'); destruct (Pos.compare_spec m m'); simpl;
    by_cases_on_keys.
Qed.

Lemma is_nan_spec x : is_nan x = is_nanS (Prim2SF x).
Proof.
  unfold is_nan. rewrite eqb_spec. unfold SFeqb.
  destruct (SFcompare (Prim2SF x) (Prim2SF x)) as [[ | | ]|] eqn:E.
  - destruct (is_nanS (Prim2SF x)) eqn:N; [|reflexivity].
    assert (SFcompare (Prim2SF x) (Prim2SF x) = None)
      by (apply SFcompare_None; auto).
    congruence.
  - apply SFcompare_Lt in E. destruct E as (_ & _ & K). exfalso.
    revert K. destruct (key (Prim2SF x)) as [[? ?] ?]. simpl. lia.
  - apply SFcompare_Gt in E. destruct E as (_ & _ & K). exfalso.
    revert K. destruct (key (Prim2SF x)) as [[? ?] ?]. simpl. lia.
  - apply SFcompare_None in E. simpl. destruct E as [E|E]; now rewrite E.
Qed.

Lemma is_nan_true x : is_nan x = true <-> x = nan.
Proof.
  rewrite is_nan_spec. split.
  - intros H. apply Prim2SF_inj.
    destruct (Prim2SF x); try discriminate. reflexivity.
  - intros ->. reflexivity.
Qed.

Lemma ltb_true x y :
  PrimFloat.ltb x y = true <->
  is_nan x = false /\ is_nan y = false /\ key_lt (fkey x) (fkey y).
Proof.
  rewrite ltb_spec, !is_nan_spec. unfold SFltb, fkey.
  rewrite <- SFcompare_Lt.
  destruct (SFcompare (Prim2SF x) (Prim2SF y)) as [[ | | ]|];
    split; intros H; try discriminate; reflexivity.
Qed.

Lemma leb_true x y :
  PrimFloat.leb x y = true <->
  is_nan x = false /\ is_nan y = false /\ ~ key_lt (fkey y) (fkey x).
Proof.
  rewrite leb_spec, !is_nan_spec. unfold SFleb, fkey.
  destruct (SFcompare (Prim2SF x) (Prim2SF y)) as [[ | | ]|] eqn:E.
  - split; [intros _|reflexivity].
    destruct (is_nanS (Prim2SF x)) eqn:Nx.
    { assert (SFcompare (Prim2SF x) (Prim2SF y) = None)
        by (apply SFcompare_None; auto). congruence. }
    destruct (is_nanS (Prim2SF y)) eqn:Ny.
    { assert (SFcompare (Prim2SF x) (Prim2SF y) = None)
        by (apply SFcompare_None; auto). congruence. }
    repeat split. intros K.
    assert (SFcompare (Prim2SF x) (Prim2SF y) = Some Gt)
      by (apply SFcompare_Gt; auto).
    congruence.
  - split; [intros _|reflexivity].
    apply SFcompare_Lt in E. destruct E as (Nx & Ny & K).
    repeat split; auto.
    revert K. destruct (key (Prim2SF x)) as [[? ?] ?],
      (key (Prim2SF y)) as [[? ?] ?]. simpl. lia.
  - split; [discriminate|].
    apply SFcompare_Gt in E. destruct E as (Nx & Ny & K).
    intros (_ & _ & K'). contradiction.
  - split; [discriminate|].
    apply SFcompare_None in E. intros (Nx & Ny & _).
    destruct E; congruence.
Qed.

Lemma ltb_false_leb x y :
  is_nan x = false -> is_nan y = false ->
  PrimFloat.ltb x y = false -> PrimFloat.leb y x = true.
Proof.
  intros Nx Ny H. apply leb_true. repeat split; auto.
  intros K. assert (PrimFloat.ltb x y = true) by (apply ltb_true; auto).
  congruence.
Qed.

Lemma leb_ltb_false x y :
  PrimFloat.leb x y = true -> PrimFloat.ltb y x = false.
Proof.
  intros H. apply leb_true in H. destruct H as (_ & _ & K).
  destruct (PrimFloat.ltb y x) eqn:E; [|reflexivity].
  apply ltb_true in E. destruct E as (_ & _ & K'). contradiction.
Qed.

Lemma leb_refl x : is_nan x = false -> PrimFloat.leb x x = true.
Proof.
  intros N. apply leb_true. repeat split; auto.
  unfold fkey. destruct (key (Prim2SF x)) as [[? ?] ?]. simpl. lia.
Qed.

Lemma ltb_leb x y : PrimFloat.ltb x y = true -> PrimFloat.leb x y = true.
Proof.
  intros H. apply ltb_true in H. destruct H as (Nx & Ny & K).
  apply leb_true. repeat split; auto.
  revert K. unfold fkey. destruct (key (Prim2SF x)) as [[? ?] ?],
    (key (Prim2SF y)) as [[? ?] ?]. simpl. lia.
Qed.

Lemma leb_trans x y z :
  PrimFloat.leb x y = true -> PrimFloat.leb y z = true ->
  PrimFloat.leb x z = true.
Proof.
  intros H1 H2. apply leb_true in H1, H2.
  destruct H1 as (Nx & Ny & K1), H2 as (_ & Nz & K2).
  apply leb_true. repeat split; auto.
  revert K1 K2. unfold fkey. destruct (key (Prim2SF x)) as [[? ?] ?],
    (key (Prim2SF y)) as [[? ?] ?], (key (Prim2SF z)) as [[? ?] ?].
  simpl. lia.
Qed.

Lemma ltb_leb_trans x y z :
  PrimFloat.ltb x y = true -> PrimFloat.leb y z = true ->
  PrimFloat.ltb x z = true.
Proof.
  intros H1 H2. apply ltb_true in H1. apply leb_true in H2.
  destruct H1 as (Nx & Ny & K1), H2 as (_ & Nz & K2).
  apply ltb_true. repeat split; auto.
  revert K1 K2. unfold fkey. destruct (key (Prim2SF x)) as [[? ?] ?],
    (key (Prim2SF y)) as [[? ?] ?], (key (Prim2SF z)) as [[? ?] ?].
  simpl. lia.
Qed.

(** NaN is absorbing for the arithmetic of the formulas. *)

Lemma nan_mul_l y : (nan * y)%float = nan.
Proof. apply Prim2SF_inj. rewrite mul_spec. reflexivity. Qed.

Lemma nan_mul_r x : (x * nan)%float = nan.
Proof.
  apply Prim2SF_inj. rewrite mul_spec. simpl.
  unfold SF64mul, SFmul. now destruct (Prim2SF x).
Qed.

Lemma nan_add_l y : (nan + y)%float = nan.
Proof. apply Prim2SF_inj. rewrite add_spec. reflexivity. Qed.

Lemma nan_add_r x : (x + nan)%float = nan.
Proof.
  apply Prim2SF_inj. rewrite add_spec. simpl.
  unfold SF64add, SFadd. now destruct (Prim2SF x).
Qed.

Lemma nan_sub_l y : (nan - y)%float = nan.
Proof. apply Prim2SF_inj. rewrite sub_spec. reflexivity. Qed.

Lemma nan_sub_r x : (x - nan)%float = nan.
Proof.
  apply Prim2SF_inj. rewrite sub_spec. simpl.
  unfold SF64sub, SFsub. now destruct (Prim2SF x).
Qed.

Lemma sub_not_nan x y :
  is_nan (x - y) = false -> is_nan x = false /\ is_nan y = false.
Proof.
  intros H. split.
  - destruct (is_nan x) eqn:E; [|reflexivity].
    apply is_nan_true in E. subst. now rewrite nan_sub_l in H.
  - destruct (is_nan y) eqn:E; [|reflexivity].
    apply is_nan_true in E. subst. now rewrite nan_sub_r in H.
Qed.

End FloatFacts.

(** ** The error monad and lists *)

Lemma bind_ok {A B : Type} (m : result A) (k : A -> result B) (b : B) :
  bind m k = Ok b -> exists a, m = Ok a /\ k a = Ok b.
Proof. destruct m; simpl; [eauto|discriminate]. Qed.

Ltac inv_bind H :=
  let a := fresh "v" in
  let Ha := fresh "E" in
  apply bind_ok in H; destruct H as (a & Ha & H).

Lemma mapM_length {A B : Type} (f : A -> result B) l l' :
  mapM f l = Ok l' -> List.length l' = List.length l.
Proof.
  revert l'. induction l as [|x t IH]; simpl; intros l' H.
  - now inversion H.
  - inv_bind H. inv_bind H. inversion H; subst. simpl. f_equal. eauto.
Qed.

Lemma mapM_nth {A B : Type} (f : A -> result B) l l' i x :
  mapM f l = Ok l' -> nth_error l i = Some x ->
  exists y, f x = Ok y /\ nth_error l' i = Some y.
Proof.
  revert l' i. induction l as [|a t IH]; simpl; intros l' i H N.
  - destruct i; discriminate.
  - inv_bind H. inv_bind H. inversion H; subst.
    destruct i; simpl in *.
    + inversion N; subst. eauto.
    + eauto.
Qed.

Lemma mapM_total {A B : Type} (f : A -> result B) l :
  Forall (fun x => exists y, f x = Ok y) l -> exists l', mapM f l = Ok l'.
Proof.
  induction 1 as [|x t (y & Hy) _ (l' & IH)]; simpl; [eauto|].
  rewrite Hy, IH. simpl. eauto.
Qed.

Lemma zipM_length {A B C : Type} (f : A -> B -> result C) la lb lc :
  zipM f la lb = Ok lc -> List.length la = List.length lb ->
  List.length lc = List.length la.
Proof.
  revert lb lc. induction la as [|x t IH]; intros [|y tb] lc H L;
    simpl in *; try discriminate; try (now inversion H).
  inv_bind H. inv_bind H. inversion H; subst. simpl. f_equal. eauto.
Qed.

Lemma zipM_nth {A B C : Type} (f : A -> B -> result C) la lb lc i x y :
  zipM f la lb = Ok lc ->
  nth_error la i = Some x -> nth_error lb i = Some y ->
  exists z, f x y = Ok z /\ nth_error lc i = Some z.
Proof.
  revert lb lc i. induction la as [|a t IH]; intros [|b tb] lc i H Na Nb;
    simpl in *; try (destruct i; discriminate).
  inv_bind H. inv_bind H. inversion H; subst.
  destruct i; simpl in *.
  - inversion Na; inversion Nb; subst. eauto.
  - eauto.
Qed.

Lemma zipM_total {A B C : Type} (f : A -> B -> result C) la lb :
  (forall i x y, nth_error la i = Some x -> nth_error lb i = Some y ->
                 exists z, f x y = Ok z) ->
  exists lc, zipM f la lb = Ok lc.
Proof.
  revert lb. induction la as [|a t IH]; intros [|b tb] H; simpl; eauto.
  destruct (H 0 a b eq_refl eq_refl) as (z & Hz). rewrite Hz. simpl.
  destruct (IH tb) as (lc & Hlc).
  { intros i x y Hx Hy. apply (H (S i)); assumption. }
  rewrite Hlc. simpl. eauto.
Qed.

Lemma nth_error_repeat {A : Type} (x : A) n i :
  i < n -> nth_error (repeat x n) i = Some x.
Proof.
  revert i. induction n; intros i H; [lia|].
  destruct i; simpl; [reflexivity|]. apply IHn. lia.
Qed.

Lemma nth_error_repeat_inv {A : Type} (x y : A) n i :
  nth_error (repeat x n) i = Some y -> y = x /\ i < n.
Proof.
  revert i. induction n; intros i H; simpl in *.
  - destruct i; discriminate.
  - destruct i; simpl in *.
    + inversion H. split; [reflexivity|lia].
    + apply IHn in H. destruct H. split; [assumption|lia].
Qed.

Lemma list_set_length {A : Type} i (v : A) l :
  List.length (list_set i v l) = List.length l.
Proof.
  revert i. induction l as [|x t IH]; intros [|i]; simpl; auto.
Qed.

Lemma list_set_nth_same {A : Type} i (v : A) l :
  i < List.length l -> nth_error (list_set i v l) i = Some v.
Proof.
  revert i. induction l as [|x t IH]; intros [|i] H; simpl in *;
    try lia; auto. apply IH. lia.
Qed.

Lemma list_set_nth_other {A : Type} i j (v : A) l :
  i <> j -> nth_error (list_set i v l) j = nth_error l j.
Proof.
  revert i j. induction l as [|x t IH]; intros [|i] [|j] H; simpl;
    try reflexivity; try congruence. apply IH. congruence.
Qed.

(** ** Data frames *)

Lemma assoc_set_same {A : Type} n (c : A) l : assoc n (assoc_set n c l) = Some c.
Proof.
  induction l as [|[m c'] t IH]; simpl.
  - now rewrite String.eqb_refl.
  - destruct (String.eqb n m) eqn:E; simpl; rewrite E; auto.
Qed.

Lemma assoc_set_other {A : Type} n m (c : A) l :
  String.eqb n m = false -> assoc n (assoc_set m c l) = assoc n l.
Proof.
  intros H. induction l as [|[k c'] t IH]; simpl.
  - now rewrite H.
  - destruct (String.eqb m k) eqn:E; simpl.
    + apply String.eqb_eq in E. subst. now rewrite H.
    + destruct (String.eqb n k); auto.
Qed.

Lemma assoc_set_id {A : Type} n (c : A) l :
  assoc n l = Some c -> assoc_set n c l = l.
Proof.
  induction l as [|[m c'] t IH]; simpl; [discriminate|].
  destruct (String.eqb n m) eqn:E; intros H.
  - now inversion H.
  - f_equal. auto.
Qed.

Lemma getitem_ok df n c : getitem df n = Ok c <-> assoc n (data df) = Some c.
Proof.
  unfold getitem. destruct (assoc n (data df)); split; intros H;
    inversion H; reflexivity.
Qed.

Lemma getitem_setitem_same df n dt c : getitem (setitem df n dt c) n = Ok c.
Proof. unfold getitem, setitem; simpl. now rewrite assoc_set_same. Qed.

Lemma getitem_setitem_other df n m dt c :
  String.eqb n m = false -> getitem (setitem df m dt c) n = getitem df n.
Proof. intros H. unfold getitem, setitem; simpl. now rewrite assoc_set_other. Qed.

Lemma cell_at_setitem_same df n dt c i :
  cell_at (setitem df n dt c) n i = nth_error c i.
Proof. unfold cell_at, setitem; simpl. now rewrite assoc_set_same. Qed.

Lemma cell_at_setitem_other df n m dt c i :
  String.eqb n m = false -> cell_at (setitem df m dt c) n i = cell_at df n i.
Proof. intros H. unfold cell_at, setitem; simpl. now rewrite assoc_set_other. Qed.

Lemma has_column_setitem_other df n m dt c :
  String.eqb n m = false -> has_column (setitem df m dt c) n = has_column df n.
Proof. intros H. unfold has_column, setitem; simpl. now rewrite assoc_set_other. Qed.

Lemma dtype_of_setitem_same df n dt c : dtype_of (setitem df n dt c) n = dt.
Proof. unfold dtype_of, setitem; simpl. now rewrite assoc_set_same. Qed.

Lemma dtype_of_setitem_other df n m dt c :
  String.eqb n m = false -> dtype_of (setitem df m dt c) n = dtype_of df n.
Proof. intros H. unfold dtype_of, setitem; simpl. now rewrite assoc_set_other. Qed.

Lemma dtypes_setitem_same df n dt c :
  assoc n (dtypes (setitem df n dt c)) = Some dt.
Proof. unfold setitem; simpl. now rewrite assoc_set_same. Qed.

Lemma dtypes_setitem_other df n m dt c :
  String.eqb n m = false ->
  assoc n (dtypes (setitem df m dt c)) = assoc n (dtypes df).
Proof. intros H. unfold setitem; simpl. now rewrite assoc_set_other. Qed.

Lemma setitem_id df n dt c :
  getitem df n = Ok c -> assoc n (dtypes df) = Some dt -> setitem df n dt c = df.
Proof.
  intros H D. apply getitem_ok in H. unfold setitem. destruct df as [r d t].
  simpl in *. now rewrite !assoc_set_id.
Qed.

Lemma nrows_setitem df n dt c : nrows (setitem df n dt c) = nrows df.
Proof. reflexivity. Qed.

Lemma wf_setitem df n dt c :
  wf df -> List.length c = nrows df -> wf (setitem df n dt c).
Proof.
  unfold wf, setitem. simpl. intros H L.
  induction (data df) as [|[m c'] t IH]; simpl.
  - repeat constructor. assumption.
  - inversion H; subst. destruct (String.eqb n m); constructor; auto.
Qed.

Lemma wf_getitem df n c : wf df -> getitem df n = Ok c -> List.length c = nrows df.
Proof.
  unfold wf. intros H G. apply getitem_ok in G.
  induction (data df) as [|[m c'] t IH]; simpl in *; [discriminate|].
  inversion H; subst. destruct (String.eqb n m).
  - inversion G; subst. assumption.
  - auto.
Qed.

Lemma cell_at_getitem df n c i :
  getitem df n = Ok c -> cell_at df n i = nth_error c i.
Proof. intros G. apply getitem_ok in G. unfold cell_at. now rewrite G. Qed.

Lemma nth_error_in_range {A : Type} (l : list A) i :
  i < List.length l -> exists x, nth_error l i = Some x.
Proof.
  intros H. destruct (nth_error l i) eqn:E; [eauto|].
  apply nth_error_None in E. lia.
Qed.

Create Rewrite HintDb frame.
#[local] Hint Rewrite getitem_setitem_same cell_at_setitem_same nrows_setitem
  dtype_of_setitem_same dtypes_setitem_same : frame.
#[local] Hint Rewrite getitem_setitem_other cell_at_setitem_other
  has_column_setitem_other dtype_of_setitem_other dtypes_setitem_other
  using reflexivity : frame.

Ltac frame := unfold setitem_scalar in *; autorewrite with frame in *.

(** ** The formula block of [process_sheet] *)

Section FormulaBlock.
Import Calculations.

Lemma zip5M_nth f a b c d e r i x1 x2 x3 x4 x5 :
  zip5M f a b c d e = Ok r ->
  nth_error a i = Some x1 -> nth_error b i = Some x2 ->
  nth_error c i = Some x3 -> nth_error d i = Some x4 ->
  nth_error e i = Some x5 ->
  exists y, f x1 x2 x3 x4 x5 = Ok y /\ nth_error r i = Some y.
Proof.
  revert b c d e r i.
  induction a as [|a1 ta IH]; intros [|b1 tb] [|c1 tc] [|d1 td] [|e1 te] r i H;
    simpl in *; intros N1 N2 N3 N4 N5; try (destruct i; discriminate).
  inv_bind H. inv_bind H. inversion H; subst.
  destruct i; simpl in *.
  - inversion N1; inversion N2; inversion N3; inversion N4; inversion N5.
    subst. eauto.
  - eauto.
Qed.

Lemma zip5M_length f a b c d e r n :
  zip5M f a b c d e = Ok r ->
  List.length a = n -> List.length b = n -> List.length c = n ->
  List.length d = n -> List.length e = n -> List.length r = n.
Proof.
  revert b c d e r n.
  induction a as [|a1 ta IH]; intros [|b1 tb] [|c1 tc] [|d1 td] [|e1 te] r n H;
    simpl in *; intros L1 L2 L3 L4 L5; try (inversion H; subst; simpl; lia).
  inv_bind H. inv_bind H. inversion H; subst. simpl.
  f_equal. eapply IH; eauto; lia.
Qed.

Lemma zip5M_total f a b c d e n :
  List.length a = n -> List.length b = n -> List.length c = n ->
  List.length d = n -> List.length e = n ->
  (forall i x1 x2 x3 x4 x5,
      nth_error a i = Some x1 -> nth_error b i = Some x2 ->
      nth_error c i = Some x3 -> nth_error d i = Some x4 ->
      nth_error e i = Some x5 -> exists y, f x1 x2 x3 x4 x5 = Ok y) ->
  exists r, zip5M f a b c d e = Ok r.
Proof.
  revert b c d e n.
  induction a as [|a1 ta IH]; intros [|b1 tb] [|c1 tc] [|d1 td] [|e1 te] n;
    simpl; intros L1 L2 L3 L4 L5 H; eauto.
  destruct (H 0 a1 b1 c1 d1 e1) as (y & Hy); try reflexivity.
  rewrite Hy. simpl.
  destruct n; [discriminate|].
  destruct (IH tb tc td te n) as (r & Hr); try lia.
  { intros i. apply (H (S i)). }
  rewrite Hr. simpl. eauto.
Qed.

Lemma required_row_inv dt k sag lk c1 c2 r :
  required_row dt k sag lk c1 c2 = Ok r ->
  dt = Float64 /\
  exists kf sf lf c1f c2f,
    k = Num kf /\ sag = Num sf /\ lk = Num lf /\ c1 = Num c1f /\ c2 = Num c2f /\
    r = Num (kf * sqrt (sf + lf) + c1f + c2f)%float.
Proof.
  unfold required_row, np_sqrt.
  destruct dt, k, sag, lk, c1, c2; simpl; intros H; try discriminate.
  inversion H. split; [reflexivity|]. repeat eexists.
Qed.

(** On a column of object dtype the formula raises for every row. *)
Lemma row_max_num_inv a b x :
  row_max a b = Ok (Num x) ->
  exists xa xb, a = Num xa /\ b = Num xb /\ x = nanmax xa xb.
Proof.
  destruct a, b; simpl; intros H; inversion H. eauto.
Qed.

Lemma earth_wire_in_false d1 d3 :
  _which_circuit d1 <> EARTH_WIRE -> _which_circuit d3 <> EARTH_WIRE ->
  earth_wire_in (_which_circuit d1) (_which_circuit d3) = false.
Proof.
  intros H1 H3. unfold earth_wire_in.
  apply orb_false_iff. split; apply Z.eqb_neq; congruence.
Qed.

Lemma earth_wire_in_true d1 d3 :
  _which_circuit d1 = EARTH_WIRE \/ _which_circuit d3 = EARTH_WIRE ->
  earth_wire_in (_which_circuit d1) (_which_circuit d3) = true.
Proof.
  unfold earth_wire_in. intros [H|H]; rewrite H; simpl;
    [reflexivity | apply orb_true_r].
Qed.

Lemma common_dtype_float64_r dt : common_dtype dt Float64 = dt.
Proof. now destruct dt. Qed.

(** The frame that enters the formula: C1 and C2 are set as the two
    circuits ask. *)
Lemma with_offsets df d1 d3 :
  (if Z.eqb (_which_circuit d1) (_which_circuit d3)
   then setitem_scalar (setitem_scalar df "C1" 1.93) "C2" 0.0
   else setitem_scalar (setitem_scalar df "C1" 0.0) "C2" 2.29)
  = setitem_scalar (setitem_scalar df "C1" (fst (offsets d1 d3)))
                   "C2" (snd (offsets d1 d3)).
Proof.
  unfold offsets. now destruct (Z.eqb (_which_circuit d1) (_which_circuit d3)).
Qed.

Lemma required_distance_inv df req :
  required_distance df = Ok req ->
  exists k sag lk c1 c2,
    getitem df "K" = Ok k /\ getitem df "sag" = Ok sag /\
    getitem df "LK" = Ok lk /\ getitem df "C1" = Ok c1 /\
    getitem df "C2" = Ok c2 /\
    zip5M (required_row (sqrt_dtype df)) k sag lk c1 c2 = Ok req.
Proof.
  unfold required_distance. intros H.
  inv_bind H. inv_bind H. inv_bind H. inv_bind H. inv_bind H.
  exists v, v0, v1, v2, v3. auto 10.
Qed.

(** The frame that leaves the formula block for a sheet of two real
    circuits. *)
Lemma circuit_offsets_real df d1 d3 df' :
  earth_wire_in (_which_circuit d1) (_which_circuit d3) = false ->
  circuit_offsets df d1 d3 = Ok df' ->
  exists k sag lk req,
    getitem df "K" = Ok k /\ getitem df "sag" = Ok sag /\
    getitem df "LK" = Ok lk /\
    zip5M (required_row (sqrt_dtype df)) k sag lk
          (repeat (Num (fst (offsets d1 d3))) (nrows df))
          (repeat (Num (snd (offsets d1 d3))) (nrows df)) = Ok req /\
    df' = setitem
            (setitem_scalar (setitem_scalar df "C1" (fst (offsets d1 d3)))
                            "C2" (snd (offsets d1 d3)))
            "required-distance"
            (common_dtype (dtype_of df "K") (sqrt_dtype df)) req.
Proof.
  intros EW H. unfold circuit_offsets in H. rewrite EW, with_offsets in H.
  inv_bind H. inversion H; subst; clear H.
  apply required_distance_inv in E.
  destruct E as (k & sag & lk & c1 & c2 & Hk & Hs & Hl & H1 & H2 & Hz).
  unfold formula_dtype, sqrt_dtype in *. frame.
  inversion H1; subst; clear H1. inversion H2; subst; clear H2.
  rewrite !common_dtype_float64_r.
  exists k, sag, lk, v. auto 10.
Qed.

Lemma circuit_offsets_earth df d1 d3 df' :
  earth_wire_in (_which_circuit d1) (_which_circuit d3) = true ->
  circuit_offsets df d1 d3 = Ok df' ->
  df' = setitem (setitem_scalar (setitem_scalar df "C1" 1.93) "C2" 0)
                "required-distance" Float64 (repeat (Num 1.93) (nrows df)).
Proof.
  intros EW H. unfold circuit_offsets in H. rewrite EW in H.
  inv_bind H. inversion H; subst. frame. inversion E. reflexivity.
Qed.

End FormulaBlock.

(** ** [idxmin] *)

Lemma nth_error_snoc {A : Type} (l : list A) (a : A) j :
  nth_error (l ++ [a]) j =
  if Nat.ltb j (List.length l) then nth_error l j
  else if Nat.eqb j (List.length l) then Some a else None.
Proof.
  destruct (Nat.ltb j (List.length l)) eqn:E.
  - apply Nat.ltb_lt in E. now rewrite nth_error_app1.
  - apply Nat.ltb_ge in E. rewrite nth_error_app2 by assumption.
    destruct (Nat.eqb j (List.length l)) eqn:E'.
    + apply Nat.eqb_eq in E'. subst. now rewrite Nat.sub_diag.
    + apply Nat.eqb_neq in E'.
      destruct (j - List.length l) as [|k] eqn:D; [lia|].
      simpl. now destruct k.
Qed.

Lemma scanned_skip pre best x :
  is_nan x = true -> scanned pre best -> scanned (pre ++ [Num x]) best.
Proof.
  intros N. destruct best as [[w m]|]; simpl.
  - intros (Hw & Hm & Hall & Hbefore). repeat split; auto.
    + rewrite nth_error_app1; auto. apply nth_error_Some. congruence.
    + intros j y Hj. rewrite nth_error_snoc in Hj.
      destruct (Nat.ltb j (List.length pre)); [eauto|].
      destruct (Nat.eqb j (List.length pre)); [|discriminate].
      inversion Hj; subst. auto.
    + intros j y Hj Lt. rewrite nth_error_snoc in Hj.
      destruct (Nat.ltb j (List.length pre)); [eauto|].
      destruct (Nat.eqb j (List.length pre)); [|discriminate].
      inversion Hj; subst. auto.
  - intros H j y Hj. rewrite nth_error_snoc in Hj.
    destruct (Nat.ltb j (List.length pre)); [eauto|].
    destruct (Nat.eqb j (List.length pre)); [|discriminate].
    inversion Hj; subst. auto.
Qed.

Lemma scanned_first pre x :
  is_nan x = false -> scanned pre None ->
  scanned (pre ++ [Num x]) (Some (List.length pre, x)).
Proof.
  intros N H. simpl. repeat split; auto.
  - rewrite nth_error_snoc, Nat.ltb_irrefl, Nat.eqb_refl. reflexivity.
  - intros j y Hj. rewrite nth_error_snoc in Hj.
    destruct (Nat.ltb j (List.length pre)); [left; eauto|].
    destruct (Nat.eqb j (List.length pre)); [|discriminate].
    inversion Hj; subst. right. now apply leb_refl.
  - intros j y Hj Lt. rewrite nth_error_snoc in Hj.
    apply Nat.ltb_lt in Lt. rewrite Lt in Hj. left; eauto.
Qed.

Lemma scanned_better pre w m x :
  is_nan x = false -> PrimFloat.ltb x m = true ->
  scanned pre (Some (w, m)) ->
  scanned (pre ++ [Num x]) (Some (List.length pre, x)).
Proof.
  intros N L (Hw & Hm & Hall & Hbefore). simpl. repeat split; auto.
  - rewrite nth_error_snoc, Nat.ltb_irrefl, Nat.eqb_refl. reflexivity.
  - intros j y Hj. rewrite nth_error_snoc in Hj.
    destruct (Nat.ltb j (List.length pre)).
    + destruct (Hall j y Hj) as [Ny|Le]; [now left|right].
      apply ltb_leb. eapply ltb_leb_trans; eauto.
    + destruct (Nat.eqb j (List.length pre)); [|discriminate].
      inversion Hj; subst. right. now apply leb_refl.
  - intros j y Hj Lt. rewrite nth_error_snoc in Hj.
    apply Nat.ltb_lt in Lt. rewrite Lt in Hj.
    destruct (Hall j y Hj) as [Ny|Le]; [now left|right].
    eapply ltb_leb_trans; eauto.
Qed.

Lemma scanned_keep pre w m x :
  is_nan x = false -> PrimFloat.ltb x m = false ->
  scanned pre (Some (w, m)) ->
  scanned (pre ++ [Num x]) (Some (w, m)).
Proof.
  intros N L (Hw & Hm & Hall & Hbefore). simpl.
  assert (W : w < List.length pre) by (apply nth_error_Some; congruence).
  repeat split; auto.
  - rewrite nth_error_app1; auto.
  - intros j y Hj. rewrite nth_error_snoc in Hj.
    destruct (Nat.ltb j (List.length pre)); [eauto|].
    destruct (Nat.eqb j (List.length pre)); [|discriminate].
    inversion Hj; subst. right. now apply ltb_false_leb.
  - intros j y Hj Lt. rewrite nth_error_snoc in Hj.
    assert (Lt' : Nat.ltb j (List.length pre) = true) by (apply Nat.ltb_lt; lia).
    rewrite Lt' in Hj. eauto.
Qed.

Lemma argmin_scan_spec c pre best r :
  argmin_scan (List.length pre) best c = Ok r ->
  scanned pre best -> scanned (pre ++ c) r.
Proof.
  revert pre best. induction c as [|v t IH]; intros pre best H Sc.
  - simpl in H. inversion H; subst. now rewrite app_nil_r.
  - replace (pre ++ v :: t)%list with ((pre ++ [v]) ++ t)%list
      by (now rewrite <- app_assoc).
    destruct v as [x|s]; simpl in H; [|discriminate].
    assert (L : S (List.length pre) = List.length (pre ++ [Num x]))
      by (rewrite length_app; simpl; lia).
    rewrite L in H.
    destruct (is_nan x) eqn:N.
    + eapply IH; eauto. now apply scanned_skip.
    + destruct best as [[w m]|].
      * destruct (PrimFloat.ltb x m) eqn:Lt.
        -- eapply IH; eauto. eapply scanned_better; eauto.
        -- eapply IH; eauto. eapply scanned_keep; eauto.
      * eapply IH; eauto. now apply scanned_first.
Qed.

Lemma idxmin_spec c w :
  idxmin c = Ok w -> exists m, first_least c w m.
Proof.
  unfold idxmin. intros H. inv_bind H.
  apply (argmin_scan_spec c [] None) in E; [|intros [|j] x Hj; discriminate].
  simpl in E. destruct v as [[i m]|]; [|discriminate].
  inversion H; subst. eauto.
Qed.

Lemma argmin_scan_total c i best :
  numeric c -> exists r, argmin_scan i best c = Ok r.
Proof.
  intros Hc. revert i best.
  induction Hc as [|v t (x & ->) _ IH]; intros i best; simpl; [eauto|].
  destruct (is_nan x); [apply IH|].
  destruct best as [[w m]|]; [|apply IH].
  destruct (PrimFloat.ltb x m); apply IH.
Qed.

Lemma idxmin_total c j x :
  numeric c -> nth_error c j = Some (Num x) -> is_nan x = false ->
  exists w, idxmin c = Ok w.
Proof.
  intros Hc Hj N. unfold idxmin.
  destruct (argmin_scan_total c 0 None Hc) as (r & Hr).
  rewrite Hr. simpl.
  apply (argmin_scan_spec c [] None) in Hr; [|intros [|k] y Hk; discriminate].
  simpl in Hr. destruct r as [[w m]|]; [eauto|].
  specialize (Hr j x Hj). congruence.
Qed.

Lemma first_valid_from_spec c i w m :
  nth_error c w = Some (Num m) -> is_nan m = false ->
  (forall j, j < w -> nth_error c j = Some (Num nan)) ->
  first_valid_from i c = Some (i + w).
Proof.
  revert i w. induction c as [|v t IH]; intros i w Hw N Hb.
  - destruct w; discriminate.
  - destruct w as [|w]; simpl in *.
    + inversion Hw; subst. rewrite N. f_equal. lia.
    + assert (H0 : Some v = Some (Num nan)) by (apply (Hb 0); lia).
      inversion H0; subst. simpl.
      change (is_nan nan) with true. cbv iota.
      rewrite (IH (S i) w); auto; try (f_equal; lia).
      intros j Hj. apply (Hb (S j)). lia.
Qed.

(** ** The diff and worst-case block *)

Section WorstCase.
Import Calculations.

Lemma wf_setitem_scalar df n x : wf df -> wf (setitem_scalar df n x).
Proof. intros H. apply wf_setitem; auto. apply repeat_length. Qed.

Lemma diff_and_worst_case_inv df df' :
  diff_and_worst_case df = Ok df' ->
  exists cur req diff w m,
    getitem df "Distance Between Powerlines" = Ok cur /\
    getitem df "required-distance" = Ok req /\
    zipM (lift2 PrimFloat.sub) cur req = Ok diff /\
    idxmin diff = Ok w /\
    nth_error diff w = Some (Num m) /\
    df' = setitem (setitem_scalar (setitem df "diff" (diff_dtype df) diff)
                                  "worst-case" nan)
                  "worst-case" Float64
                  (list_set w (Num m) (repeat (Num nan) (nrows df))).
Proof.
  unfold diff_and_worst_case. intros H.
  inv_bind H. inv_bind H. inv_bind H. frame.
  inv_bind H. inv_bind H. inv_bind H. inv_bind H.
  inversion E2; subst; clear E2. inversion E5; subst; clear E5.
  inversion H; subst; clear H.
  destruct (idxmin_spec _ _ E3) as (m & Hw & _).
  unfold loc in E4. frame. simpl in E4.
  rewrite Hw in E4. inversion E4; subst.
  exists v, v0, v2, v3, m.
  repeat (split; [assumption|]). reflexivity.
Qed.

Lemma diff_and_worst_case_complete df cur req diff w m :
  getitem df "Distance Between Powerlines" = Ok cur ->
  getitem df "required-distance" = Ok req ->
  zipM (lift2 PrimFloat.sub) cur req = Ok diff ->
  idxmin diff = Ok w ->
  nth_error diff w = Some (Num m) ->
  diff_and_worst_case df =
  Ok (setitem (setitem_scalar (setitem df "diff" (diff_dtype df) diff)
                              "worst-case" nan)
              "worst-case" Float64
              (list_set w (Num m) (repeat (Num nan) (nrows df)))).
Proof.
  intros Hc Hr Hd Hi Hw. unfold diff_and_worst_case.
  rewrite Hc, Hr. simpl. rewrite Hd. simpl. frame. simpl.
  rewrite Hi. simpl. unfold loc. frame. simpl. rewrite Hw. simpl.
  frame. reflexivity.
Qed.

Lemma lift2_sub_inv a b z :
  lift2 PrimFloat.sub a b = Ok z ->
  exists x y, a = Num x /\ b = Num y /\ z = Num (x - y)%float.
Proof. destruct a, b; simpl; intros H; inversion H. eauto. Qed.

Lemma diff_and_worst_case_spec df df' :
  wf df -> diff_and_worst_case df = Ok df' ->
  wf df' /\ nrows df' = nrows df /\
  (forall n i, String.eqb n "diff" = false -> String.eqb n "worst-case" = false ->
               cell_at df' n i = cell_at df n i) /\
  exists w m, worst_case_at df' w m.
Proof.
  intros W H. destruct (diff_and_worst_case_inv _ _ H)
    as (cur & req & diff & w & m & Hc & Hr & Hd & Hi & Hn & ->).
  assert (Hm : first_least diff w m).
  { destruct (idxmin_spec _ _ Hi) as (m' & Hm').
    destruct Hm' as (Hw' & Hrest). rewrite Hn in Hw'. inversion Hw'; subst.
    split; assumption. }
  pose proof (wf_getitem _ _ _ W Hc) as Lc.
  pose proof (wf_getitem _ _ _ W Hr) as Lr.
  assert (Ld : List.length diff = nrows df).
  { rewrite (zipM_length _ _ _ _ Hd); congruence. }
  destruct Hm as (Hw & Nm & Hall & Hbefore).
  assert (Ww : w < nrows df).
  { rewrite <- Ld. apply nth_error_Some. congruence. }
  split; [|split; [|split]].
  - apply wf_setitem; [apply wf_setitem_scalar, wf_setitem; auto|].
    rewrite list_set_length. apply repeat_length.
  - reflexivity.
  - intros n i N1 N2. unfold setitem_scalar.
    rewrite !cell_at_setitem_other by assumption. reflexivity.
  - exists w, m. unfold worst_case_at, setitem_scalar.
    split; [assumption|]. split; [|split; [|split; [|split; [|split; [|split]]]]].
    + intros i Hlt. simpl in Hlt. autorewrite with frame.
      destruct (nth_error_in_range cur i) as (c & Hci); [lia|].
      destruct (nth_error_in_range req i) as (r & Hri); [lia|].
      destruct (zipM_nth _ _ _ _ _ _ _ Hd Hci Hri) as (z & Hz & Hzi).
      apply lift2_sub_inv in Hz. destruct Hz as (x & y & -> & -> & ->).
      exists x, y.
      rewrite (cell_at_getitem _ _ _ _ Hc), (cell_at_getitem _ _ _ _ Hr).
      auto.
    + autorewrite with frame. assumption.
    + assumption.
    + intros j x. autorewrite with frame. apply Hall.
    + intros j x. autorewrite with frame. apply Hbefore.
    + autorewrite with frame.
      apply list_set_nth_same. now rewrite repeat_length.
    + intros j Hj Hne. simpl in Hj. autorewrite with frame.
      rewrite list_set_nth_other by congruence.
      now apply nth_error_repeat.
Qed.

End WorstCase.

(** ** [Calculations.process_sheet], step by step *)

Section Shape.
Import Calculations.

Lemma process_sheet_computes df d1 d2 d3 d4 df' :
  process_sheet df d1 d2 d3 d4 = Ok df' ->
  exists col_sd12 col_sd34 a b sag beta k c1 c2 req cur diff w m,
    computes df d1 d2 d3 d4 col_sd12 col_sd34 a b sag beta k c1 c2
             req cur diff w m /\
    df' = augment df d1 d3 col_sd12 col_sd34 sag k c1 c2 req diff w m.
Proof.
  unfold process_sheet. intros H.
  inv_bind H. inv_bind H. inv_bind H. inv_bind H. inv_bind H.
  inv_bind H. inv_bind H. inv_bind H.
  rename v into col12, v0 into col34, v1 into a, v2 into b, v3 into sag,
    v4 into beta, v5 into k, v6 into df2.
  frame.
  destruct (diff_and_worst_case_inv _ _ H)
    as (cur & req & diff & w & m & Hc & Hr & Hd & Hi & Hn & ->).
  destruct (earth_wire_in (_which_circuit d1) (_which_circuit d3)) eqn:EW.
  - apply circuit_offsets_earth in E6; [|assumption]. subst df2.
    unfold diff_dtype. frame.
    inversion Hr; subst; clear Hr.
    exists col12, col34, a, b, sag, beta, k, 1.93%float, 0%float,
      (repeat (Num 1.93) (nrows df)), cur, diff, w, m.
    unfold computes, augment, measured_dtype, required_dtype. rewrite EW.
    split; [|reflexivity].
    repeat split; assumption || reflexivity.
  - apply circuit_offsets_real in E6; [|assumption].
    destruct E6 as (k' & sag' & lk & req' & Hk & Hs & Hl & Hz & ->).
    unfold sqrt_dtype, diff_dtype in *. frame.
    rewrite ?common_dtype_float64_r in *. simpl in Hz.
    inversion Hk; subst; clear Hk. inversion Hs; subst; clear Hs.
    inversion Hl; subst; clear Hl. inversion Hr; subst; clear Hr.
    exists col12, col34, a, b, sag', beta, k', (fst (offsets d1 d3)),
      (snd (offsets d1 d3)), req, cur, diff, w, m.
    unfold computes, augment, measured_dtype, required_dtype. rewrite EW.
    split; [|reflexivity].
    repeat split; try (assumption || reflexivity).
    now destruct (offsets d1 d3).
Qed.

Lemma computes_process_sheet df d1 d2 d3 d4
      col_sd12 col_sd34 a b sag beta k c1 c2 req cur diff w m :
  computes df d1 d2 d3 d4 col_sd12 col_sd34 a b sag beta k c1 c2
           req cur diff w m ->
  process_sheet df d1 d2 d3 d4
  = Ok (augment df d1 d3 col_sd12 col_sd34 sag k c1 c2 req diff w m).
Proof.
  intros (P12 & P34 & Ha & Hb & Hs & Hbeta & Hk & Hoff & Hc & Hd & Hi & Hw).
  unfold process_sheet.
  rewrite P12, P34. simpl. rewrite Ha, Hb. simpl. rewrite Hs. simpl.
  frame. rewrite Hbeta. simpl. rewrite Hk. simpl.
  unfold circuit_offsets, augment, measured_dtype, required_dtype.
  destruct (earth_wire_in (_which_circuit d1) (_which_circuit d3)).
  - destruct Hoff as (-> & -> & ->). frame. simpl.
    erewrite diff_and_worst_case_complete; eauto; unfold diff_dtype; frame;
      try reflexivity; assumption.
  - destruct Hoff as (Hoff & Hz). rewrite with_offsets.
    rewrite <- Hoff. cbn [fst snd].
    unfold required_distance, formula_dtype, sqrt_dtype. frame. simpl.
    rewrite !common_dtype_float64_r. rewrite Hz. simpl.
    erewrite diff_and_worst_case_complete; eauto; unfold diff_dtype; frame;
      try reflexivity; assumption.
Qed.

End Shape.

(** ** Columns of numbers *)

Section NumericColumns.
Import Calculations.

Lemma numeric_nth c i v :
  numeric c -> nth_error c i = Some v -> exists x, v = Num x.
Proof.
  intros N H. apply nth_error_In in H.
  unfold numeric in N. rewrite Forall_forall in N. auto.
Qed.

Lemma numeric_repeat x n : numeric (repeat (Num x) n).
Proof.
  apply Forall_forall. intros v Hin. apply repeat_spec in Hin. eauto.
Qed.

Lemma zipM_numeric (f : float -> float -> float) a b c :
  zipM (lift2 f) a b = Ok c -> numeric c.
Proof.
  revert b c. induction a as [|x t IH]; intros [|y tb] c H; simpl in H;
    try (inversion H; constructor).
  inv_bind H. inv_bind H. inversion H; subst.
  destruct x, y; simpl in E; inversion E. constructor; [eauto|].
  eapply IH; eauto.
Qed.

Lemma row_max_numeric a b :
  numeric a -> numeric b ->
  exists sag, zipM row_max a b = Ok sag /\ numeric sag.
Proof.
  intros Na. revert b. induction Na as [|x t (xa & ->) _ IH]; intros b Nb.
  - exists []. split; [reflexivity|constructor].
  - destruct Nb as [|y tb (xb & ->) Nb].
    + exists []. split; [reflexivity|constructor].
    + destruct (IH tb Nb) as (sag & Hs & Ns). simpl. rewrite Hs. simpl.
      eexists. split; [reflexivity|]. constructor; eauto.
Qed.

Lemma k_numeric beta :
  numeric beta -> exists k, mapM (lift1 k_of_beta) beta = Ok k /\ numeric k.
Proof.
  induction 1 as [|v t (x & ->) _ (k & Hk & Nk)]; simpl.
  - exists []. split; [reflexivity|constructor].
  - rewrite Hk. simpl. eexists. split; [reflexivity|]. constructor; eauto.
Qed.

End NumericColumns.

(** ** The required distance between two real circuits *)

Section RealCircuits.
Import Calculations FloatOrder.

Lemma neg_infinity_leb x : is_nan x = false -> PrimFloat.leb neg_infinity x = true.
Proof.
  intros N. apply leb_true. repeat split; auto.
  rewrite is_nan_spec in N. unfold fkey. simpl.
  destruct (Prim2SF x) as [[|]|[|]| |[|] ? ?]; simpl; try lia; discriminate.
Qed.

Lemma leb_neg_infinity x :
  PrimFloat.leb x neg_infinity = true -> x = neg_infinity.
Proof.
  intros L. apply leb_true in L. destruct L as (N & _ & K).
  rewrite is_nan_spec in N.
  apply Prim2SF_inj. unfold fkey in K. simpl in K.
  destruct (Prim2SF x) as [[|]|[|]| |[|] ? ?]; simpl in K;
    try (exfalso; lia); try reflexivity; discriminate.
Qed.

Lemma nanmax_row_maximum x y : row_maximum x y (nanmax x y).
Proof.
  unfold row_maximum, nanmax, fill_neg_inf.
  split; [|split; [|split]]; intros Nx Ny; rewrite Nx, Ny; simpl.
  - destruct (PrimFloat.leb y x) eqn:L.
    + split; [now left|]. split; [now apply leb_refl|assumption].
    + split; [now right|]. split; [|now apply leb_refl].
      apply ltb_false_leb; auto.
      destruct (PrimFloat.ltb y x) eqn:L'; [|reflexivity].
      apply ltb_leb in L'. congruence.
  - destruct (PrimFloat.leb y neg_infinity) eqn:L; [|reflexivity].
    symmetry. now apply leb_neg_infinity.
  - now rewrite neg_infinity_leb.
  - reflexivity.
Qed.

Lemma lift1_inv f c z :
  lift1 f c = Ok z -> exists x, c = Num x /\ z = Num (f x).
Proof. destruct c; simpl; intros H; inversion H. eauto. Qed.

(** One row of the columns computed for two real circuits. *)
Lemma real_circuit_row dt df col_sd12 col_sd34 a b sag beta k c1 c2 req i :
  wf df ->
  getitem df col_sd12 = Ok a -> getitem df col_sd34 = Ok b ->
  zipM row_max a b = Ok sag ->
  getitem df "Beta Angle (°)" = Ok beta ->
  mapM (lift1 k_of_beta) beta = Ok k ->
  zip5M (required_row dt) k sag (repeat (Num 2.0) (nrows df))
        (repeat (Num c1) (nrows df)) (repeat (Num c2) (nrows df)) = Ok req ->
  i < nrows df ->
  dt = Float64 /\
  exists x12 x34 xbeta,
    nth_error a i = Some (Num x12) /\
    nth_error b i = Some (Num x34) /\
    nth_error beta i = Some (Num xbeta) /\
    nth_error sag i = Some (Num (nanmax x12 x34)) /\
    nth_error k i = Some (Num (k_of_beta xbeta)) /\
    nth_error req i
    = Some (Num (k_of_beta xbeta * sqrt (nanmax x12 x34 + 2.0) + c1 + c2)%float).
Proof.
  intros W Ha Hb Hs Hbeta Hk Hz Hi.
  pose proof (wf_getitem _ _ _ W Ha) as La.
  pose proof (wf_getitem _ _ _ W Hb) as Lb.
  pose proof (wf_getitem _ _ _ W Hbeta) as Lbeta.
  destruct (nth_error_in_range a i) as (ai & Hai); [lia|].
  destruct (nth_error_in_range b i) as (bi & Hbi); [lia|].
  destruct (nth_error_in_range beta i) as (ti & Hti); [lia|].
  destruct (zipM_nth _ _ _ _ _ _ _ Hs Hai Hbi) as (si & Hsi & Hsn).
  destruct (mapM_nth _ _ _ _ _ Hk Hti) as (ki & Hki & Hkn).
  destruct (zip5M_nth _ _ _ _ _ _ _ i ki si (Num 2) (Num c1) (Num c2) Hz)
    as (ri & Hri & Hrn); auto using nth_error_repeat.
  apply required_row_inv in Hri.
  destruct Hri as (Hdt & kf & sf & lf & c1f & c2f & -> & -> & El & E1 & E2 & ->).
  inversion El; inversion E1; inversion E2; subst lf c1f c2f.
  apply row_max_num_inv in Hsi. destruct Hsi as (xa & xb & -> & -> & ->).
  apply lift1_inv in Hki. destruct Hki as (bf & -> & Ek).
  inversion Ek; subst kf.
  split; [assumption|].
  exists xa, xb, bf.
  repeat match goal with |- _ /\ _ => split end; assumption.
Qed.

Lemma object_frame_dtype_of df n : object_frame df -> dtype_of df n = Object.
Proof.
  unfold object_frame, dtype_of. intros H.
  induction (dtypes df) as [|(m, dt) t IH]; simpl; [reflexivity|].
  inversion H; subst. destruct (String.eqb n m); [assumption|auto].
Qed.

(** Between two real circuits [process_sheet] of calculations.py
    returns on a frame with a row only if the two columns picked for
    the spans are float64 columns. *)
Lemma real_circuits_need_float64 df d1 d2 d3 d4 df' :
  wf df -> 0 < nrows df ->
  _which_circuit d1 <> EARTH_WIRE ->
  _which_circuit d3 <> EARTH_WIRE ->
  process_sheet df d1 d2 d3 d4 = Ok df' ->
  exists col_sd12 col_sd34,
    _pick_distance_col df d1 d2 = Ok col_sd12 /\
    _pick_distance_col df d3 d4 = Ok col_sd34 /\
    sag_dtype df col_sd12 col_sd34 = Float64.
Proof.
  intros W Hn R1 R3 H.
  destruct (process_sheet_computes _ _ _ _ _ _ H)
    as (col12 & col34 & a & b & sag & beta & k & c1 & c2 & req & cur & diff
        & w & m & C & _).
  destruct C as (P12 & P34 & Ha & Hb & Hs & Hbeta & Hk & Hoff & _).
  rewrite (earth_wire_in_false _ _ R1 R3) in Hoff.
  destruct Hoff as (_ & Hz).
  destruct (real_circuit_row _ _ _ _ _ _ _ _ _ _ _ _ 0 W Ha Hb Hs Hbeta Hk Hz Hn)
    as (Hdt & _).
  eauto.
Qed.

Lemma object_columns_raise df d1 d2 d3 d4 :
  wf df -> object_frame df -> 0 < nrows df ->
  _which_circuit d1 <> EARTH_WIRE ->
  _which_circuit d3 <> EARTH_WIRE ->
  raises (process_sheet df d1 d2 d3 d4).
Proof.
  intros W O Hn R1 R3.
  destruct (process_sheet df d1 d2 d3 d4) as [df'|e] eqn:E.
  - destruct (real_circuits_need_float64 _ _ _ _ _ _ W Hn R1 R3 E)
      as (c12 & c34 & _ & _ & Hdt).
    unfold sag_dtype in Hdt.
    rewrite !(object_frame_dtype_of _ _ O) in Hdt. discriminate.
  - unfold raises. eauto.
Qed.

(** C1.  On a sheet between two real circuits that has at least one
    row and is a frame as [process_workbook] builds it from a
    worksheet, its columns of object dtype, [process_sheet] of
    calculations.py does not compute the required distance: it raises
    an exception (a [TypeError] from [np.sqrt] when nothing else fails
    before), because no column is made numeric before the formula. *)
Theorem process_sheet_object_columns df d1 d2 d3 d4 :
  wf df -> object_frame df -> 0 < nrows df ->
  _which_circuit d1 <> EARTH_WIRE ->
  _which_circuit d3 <> EARTH_WIRE ->
  raises (process_sheet df d1 d2 d3 d4) /\
  forall col_sd12 col_sd34 a b beta,
    _pick_distance_col df d1 d2 = Ok col_sd12 ->
    _pick_distance_col df d3 d4 = Ok col_sd34 ->
    getitem df col_sd12 = Ok a -> numeric a ->
    getitem df col_sd34 = Ok b -> numeric b ->
    getitem df "Beta Angle (°)" = Ok beta -> numeric beta ->
    process_sheet df d1 d2 d3 d4 = Raise TypeError.
Proof.
  intros W O Hn R1 R3.
  split; [now apply object_columns_raise|].
  - intros col12 col34 a b beta P12 P34 Ha Na Hb Nb Hbeta Nbeta.
    pose proof (wf_getitem _ _ _ W Ha) as La.
    pose proof (wf_getitem _ _ _ W Hb) as Lb.
    pose proof (wf_getitem _ _ _ W Hbeta) as Lbeta.
    destruct (row_max_numeric a b Na Nb) as (sag & Hs & Ns).
    destruct (k_numeric beta Nbeta) as (k & Hk & Nk).
    assert (Ls : List.length sag = nrows df).
    { rewrite (zipM_length _ _ _ _ Hs); congruence. }
    assert (Lk : List.length k = nrows df).
    { rewrite (mapM_length _ _ _ Hk). assumption. }
    unfold process_sheet.
    rewrite P12, P34. simpl. rewrite Ha, Hb. simpl. rewrite Hs. simpl.
    frame. rewrite Hbeta. simpl. rewrite Hk. simpl.
    unfold circuit_offsets.
    rewrite (earth_wire_in_false _ _ R1 R3), with_offsets.
    unfold required_distance, sqrt_dtype, sag_dtype. frame. simpl.
    rewrite !(object_frame_dtype_of _ _ O). simpl.
    destruct (nrows df) as [|n] eqn:En; [lia|].
    destruct k as [|k1 tk]; [discriminate|].
    destruct sag as [|s1 ts]; [discriminate|].
    apply Forall_inv in Nk. destruct Nk as (xk & ->).
    apply Forall_inv in Ns. destruct Ns as (xs & ->).
    reflexivity.
Qed.

(** X25.  Wherever [process_sheet] of calculations.py returns on a
    sheet between two real circuits (as it does on frames of float64
    columns), every row of the processed frame has sag equal to the
    row-wise maximum of the two resolved distance/sag columns,
    K = -(0.1/90) * beta + 0.75, LK = 2.0, (C1, C2) = (1.93, 0) for the
    same circuit and (0, 2.29) for different circuits, and
    required-distance = K * sqrt(sag + LK) + C1 + C2. *)
Theorem process_sheet_required_distance df d1 d2 d3 d4 df' :
  wf df ->
  _which_circuit d1 <> EARTH_WIRE ->
  _which_circuit d3 <> EARTH_WIRE ->
  process_sheet df d1 d2 d3 d4 = Ok df' ->
  exists col_sd12 col_sd34 C1 C2,
    _pick_distance_col df d1 d2 = Ok col_sd12 /\
    _pick_distance_col df d3 d4 = Ok col_sd34 /\
    (_which_circuit d1 = _which_circuit d3 -> C1 = 1.93%float /\ C2 = 0%float) /\
    (_which_circuit d1 <> _which_circuit d3 -> C1 = 0%float /\ C2 = 2.29%float) /\
    forall i, i < nrows df ->
      exists x12 x34 beta sag K LK,
        cell_at df col_sd12 i = Some (Num x12) /\
        cell_at df col_sd34 i = Some (Num x34) /\
        cell_at df "Beta Angle (°)" i = Some (Num beta) /\
        row_maximum x12 x34 sag /\
        K = (- (0.1 / 90.0) * beta + 0.75)%float /\
        LK = 2.0%float /\
        cell_at df' "sag" i = Some (Num sag) /\
        cell_at df' "K" i = Some (Num K) /\
        cell_at df' "LK" i = Some (Num LK) /\
        cell_at df' "C1" i = Some (Num C1) /\
        cell_at df' "C2" i = Some (Num C2) /\
        cell_at df' "required-distance" i =
          Some (Num (K * sqrt (sag + LK) + C1 + C2)%float).
Proof.
  intros W H1 H3 H.
  destruct (process_sheet_computes _ _ _ _ _ _ H)
    as (col12 & col34 & a & b & sag & beta & k & c1 & c2 & req & cur & diff
        & w & m & C & ->).
  destruct C as (P12 & P34 & Ha & Hb & Hs & Hbeta & Hk & Hoff & _).
  rewrite (earth_wire_in_false _ _ H1 H3) in Hoff.
  destruct Hoff as (Hoff & Hz).
  exists col12, col34, c1, c2.
  split; [assumption|]. split; [assumption|].
  split; [|split].
  - intros Heq. unfold offsets in Hoff. rewrite Heq, Z.eqb_refl in Hoff.
    inversion Hoff. auto.
  - intros Hne. unfold offsets in Hoff.
    apply Z.eqb_neq in Hne. rewrite Hne in Hoff. inversion Hoff. auto.
  - intros i Hi.
    destruct (real_circuit_row _ _ _ _ _ _ _ _ _ _ _ _ i W Ha Hb Hs Hbeta Hk Hz Hi)
      as (_ & xa & xb & bf & Hai & Hbi & Hti & Hsi & Hki & Hri).
    exists xa, xb, bf, (nanmax xa xb), (k_of_beta bf), 2%float.
    rewrite (cell_at_getitem _ _ _ _ Ha), (cell_at_getitem _ _ _ _ Hb),
      (cell_at_getitem _ _ _ _ Hbeta).
    unfold augment. frame.
    repeat match goal with |- _ /\ _ => split end;
      auto using nanmax_row_maximum, nth_error_repeat.
Qed.

End RealCircuits.

(** The sheet 41-42_43-44 of the scenario, as read from its workbook:
    calculations.py raises [TypeError] where the required distance of
    the first row would be about 4.528. *)
Lemma process_sheet_object_columns_sample :
  Calculations.process_sheet sample_sheet 41 42 43 44 = Raise TypeError /\
  raises (Calculations.process_sheet sample_sheet 41 42 43 44).
Proof.
  destruct (process_sheet_object_columns sample_sheet 41 42 43 44)
    as (H1 & H2).
  - repeat constructor.
  - repeat constructor.
  - simpl. lia.
  - vm_compute. discriminate.
  - vm_compute. discriminate.
  - split; [|exact H1].
    apply (H2 "Sag of 41-42" "Sag of 43-44"
              [Num 10; Num 3] [Num 10; Num 4] [Num 0; Num 90])%float;
      try reflexivity; repeat constructor; eauto.
Defined.

(** The scenario on a frame of float64 columns: K = 0.75 and a
    required distance of about 4.528 between two sets of one circuit,
    of about 4.888 between sets of the two circuits. *)
Lemma process_sheet_required_distance_sample :
  (exists df',
     Calculations.process_sheet sample_frame_float64 41 42 43 44 = Ok df' /\
     cell_at df' "required-distance" 0
     = Some (Num (0.75 * sqrt (10 + 2.0) + 1.93 + 0)%float)) /\
  (exists df',
     Calculations.process_sheet sample_frame_float64 41 42 44 45 = Ok df' /\
     cell_at df' "required-distance" 0
     = Some (Num (0.75 * sqrt (10 + 2.0) + 0 + 2.29)%float)).
Proof.
  assert (W : wf sample_frame_float64) by (repeat constructor).
  split.
  - destruct (Calculations.process_sheet sample_frame_float64 41 42 43 44)
      as [df'|e] eqn:E; [|vm_compute in E; discriminate].
    exists df'. split; [reflexivity|].
    destruct (process_sheet_required_distance sample_frame_float64
                41 42 43 44 df' W)
      as (c12 & c34 & C1 & C2 & P12 & P34 & Hsame & _ & Hrows);
      [vm_compute; discriminate | vm_compute; discriminate | exact E |].
    destruct (Hsame eq_refl) as (-> & ->).
    destruct (Hrows 0) as (x12 & x34 & beta & sag & K & LK & A & B & T & M
                           & -> & -> & _ & _ & _ & _ & _ & R);
      [simpl; lia|].
    vm_compute in P12. inversion P12; subst c12.
    vm_compute in P34. inversion P34; subst c34.
    vm_compute in A, B, T. inversion A; inversion B; inversion T; subst.
    destruct M as (M & _). destruct (M eq_refl eq_refl) as ([-> | ->] & _);
      exact R.
  - destruct (Calculations.process_sheet sample_frame_float64 41 42 44 45)
      as [df'|e] eqn:E; [|vm_compute in E; discriminate].
    exists df'. split; [reflexivity|].
    destruct (process_sheet_required_distance sample_frame_float64
                41 42 44 45 df' W)
      as (c12 & c34 & C1 & C2 & P12 & P34 & _ & Hcross & Hrows);
      [vm_compute; discriminate | vm_compute; discriminate | exact E |].
    destruct Hcross as (-> & ->); [vm_compute; discriminate|].
    destruct (Hrows 0) as (x12 & x34 & beta & sag & K & LK & A & B & T & M
                           & -> & -> & _ & _ & _ & _ & _ & R);
      [simpl; lia|].
    vm_compute in P12. inversion P12; subst c12.
    vm_compute in P34. inversion P34; subst c34.
    vm_compute in A, B, T. inversion A; inversion B; inversion T; subst.
    destruct M as (M & _). destruct (M eq_refl eq_refl) as ([-> | ->] & _);
      exact R.
Defined.

(** ** [CalculationsCopy.process_sheet], step by step *)

Section CopyShape.
Import Calculations.
Variable numeric_of_text : string -> float.

Abbreviation to_numeric := (CalculationsCopy.to_numeric numeric_of_text).
Abbreviation to_float_columns := (CalculationsCopy.to_float_columns numeric_of_text).
Abbreviation copy_offsets := (CalculationsCopy.circuit_offsets numeric_of_text).
Abbreviation copy_process_sheet := (CalculationsCopy.process_sheet numeric_of_text).

Lemma to_float_columns_spec cols df df2 :
  wf df -> to_float_columns cols df = Ok df2 ->
  wf df2 /\ nrows df2 = nrows df /\
  (forall n i, ~ In n cols -> cell_at df2 n i = cell_at df n i).
Proof.
  revert df. induction cols as [|c t IH]; intros df W H; simpl in H.
  - inversion H; subst. auto.
  - inv_bind H. apply IH in H.
    + destruct H as (W2 & N2 & P2). split; [assumption|].
      split; [assumption|].
      intros n i Hn. rewrite P2 by (intros Hin; apply Hn; now right).
      apply cell_at_setitem_other. apply String.eqb_neq.
      intros ->. apply Hn. now left.
    + apply wf_setitem; [assumption|]. rewrite length_map.
      eapply wf_getitem; eauto.
Qed.

Lemma to_float_columns_numeric cols df :
  (forall n, In n cols ->
     exists c, getitem df n = Ok c /\ numeric c /\
               assoc n (dtypes df) = Some Float64) ->
  to_float_columns cols df = Ok df.
Proof.
  revert df. induction cols as [|c t IH]; intros df H; simpl; [reflexivity|].
  destruct (H c) as (col & Hc & Hn & Hd); [now left|].
  rewrite Hc. simpl.
  assert (Hm : map to_numeric col = col).
  { clear Hc. induction Hn as [|v l (x & ->) _ IHl]; simpl; [reflexivity|].
    now rewrite IHl. }
  rewrite Hm, (setitem_id _ _ _ _ Hc Hd). apply IH.
  intros n Hin. apply H. now right.
Qed.

Lemma mapM_lift1_numeric f c k : mapM (lift1 f) c = Ok k -> numeric k.
Proof.
  revert k. induction c as [|v t IH]; simpl; intros k Hk.
  - inversion Hk. constructor.
  - inv_bind Hk. inv_bind Hk. inversion Hk; subst.
    apply lift1_inv in E. destruct E as (x & -> & ->).
    constructor; eauto. now apply IH.
Qed.

Lemma copy_offsets_earth df d1 d3 df' :
  earth_wire_in (_which_circuit d1) (_which_circuit d3) = true ->
  copy_offsets df d1 d3 = Ok df' ->
  df' = setitem (setitem_scalar (setitem_scalar df "C1" 1.93) "C2" 0)
                "required-distance" Float64 (repeat (Num 1.93) (nrows df)).
Proof.
  intros EW H. unfold CalculationsCopy.circuit_offsets in H. rewrite EW in H.
  inv_bind H. inversion H; subst. frame. inversion E. reflexivity.
Qed.

Lemma copy_offsets_wf df d1 d3 df' :
  wf df -> copy_offsets df d1 d3 = Ok df' ->
  wf df' /\ nrows df' = nrows df.
Proof.
  intros W H.
  destruct (earth_wire_in (_which_circuit d1) (_which_circuit d3)) eqn:EW.
  - apply copy_offsets_earth in H; [|assumption]. subst. split; [|reflexivity].
    apply wf_setitem; [now repeat apply wf_setitem_scalar|].
    apply repeat_length.
  - unfold CalculationsCopy.circuit_offsets in H. rewrite EW, with_offsets in H.
    inv_bind H.
    apply to_float_columns_spec in E.
    + destruct E as (W2 & N2 & _).
      inv_bind H. inversion H; subst; clear H.
      apply required_distance_inv in E.
      destruct E as (k & sag & lk & c1 & c2 & Hk & Hs & Hl & H1 & H2 & Hz).
      split; [|exact N2].
      apply wf_setitem; [assumption|].
      eapply zip5M_length; eauto using wf_getitem.
    + now repeat apply wf_setitem_scalar.
Qed.

Lemma copy_process_sheet_inv df d1 d2 d3 d4 df' s :
  copy_process_sheet df d1 d2 d3 d4 = Ok (df', s) ->
  exists col_sd12 col_sd34 a b sag beta k df2,
    _pick_distance_col df d1 d2 = Ok col_sd12 /\
    _pick_distance_col df d3 d4 = Ok col_sd34 /\
    getitem df col_sd12 = Ok a /\
    getitem df col_sd34 = Ok b /\
    zipM row_max a b = Ok sag /\
    getitem df "Beta Angle (°)" = Ok beta /\
    mapM (lift1 k_of_beta) beta = Ok k /\
    copy_offsets
      (setitem_scalar
         (setitem (setitem df "sag" (sag_dtype df col_sd12 col_sd34) sag)
                  "K" (dtype_of df "Beta Angle (°)") k)
         "LK" 2.0) d1 d3
    = Ok df2 /\
    diff_and_worst_case df2 = Ok df' /\
    CalculationsCopy.summarise df' = Ok s.
Proof.
  unfold CalculationsCopy.process_sheet. intros H.
  inv_bind H. inv_bind H. inv_bind H. inv_bind H. inv_bind H.
  inv_bind H. inv_bind H. inv_bind H. inv_bind H. inv_bind H.
  inversion H; subst. frame.
  exists v, v0, v1, v2, v3, v4, v5, v6.
  repeat match goal with |- _ /\ _ => split end; assumption.
Qed.

End CopyShape.

(** ** The earth-wire rule, the worst case and the summary *)

Section Summary.
Import Calculations.
Variable numeric_of_text : string -> float.

Abbreviation copy_sheet := (CalculationsCopy.process_sheet numeric_of_text).

Lemma loc_ok df i n v : loc df i n = Ok v -> cell_at df n i = Some v.
Proof.
  unfold loc. intros H. inv_bind H.
  rewrite (cell_at_getitem _ _ _ _ E).
  destruct (nth_error v0 i); inversion H. reflexivity.
Qed.

Lemma loc_complete df i n v : cell_at df n i = Some v -> loc df i n = Ok v.
Proof.
  unfold loc, cell_at, getitem. destruct (assoc n (data df)); [|discriminate].
  simpl. now intros ->.
Qed.

Lemma summarise_spec df w m s :
  worst_case_at df w m ->
  CalculationsCopy.summarise df = Ok s ->
  summary_of_row df w s /\
  exists gt, CalculationsCopy.cell_gt (CalculationsCopy.req s)
                                      (CalculationsCopy.cur s) = Ok gt /\
             CalculationsCopy.ok_flag s = (if gt then "not ok" else "ok")%string.
Proof.
  intros (Ww & _ & _ & Nm & _ & _ & Hw & Hothers) H.
  unfold CalculationsCopy.summarise in H. inv_bind H.
  rewrite (cell_at_getitem _ _ _ _ E) in Hw.
  assert (F : first_valid_index v = Some w).
  { unfold first_valid_index.
    rewrite (first_valid_from_spec v 0 w m); auto.
    intros j Hj. rewrite <- (cell_at_getitem _ _ _ _ E).
    apply Hothers; lia. }
  rewrite F in H.
  do 10 inv_bind H. inversion H; subst; clear H. simpl.
  unfold summary_of_row. simpl.
  repeat match goal with
         | [ L : loc _ _ _ = Ok _ |- _ ] => apply loc_ok in L
         end.
  split; [|eauto].
  repeat match goal with |- _ /\ _ => split end; auto.
Qed.

(** C2.  On a sheet with an earth-wire endpoint, both scripts set
    C1 = 1.93, C2 = 0 and required-distance = 1.93 on every row,
    whatever the sag, K, LK and beta-angle values of the row. *)
Theorem earth_wire_flat_threshold df d1 d2 d3 d4 df' :
  _which_circuit d1 = EARTH_WIRE \/ _which_circuit d3 = EARTH_WIRE ->
  process_sheet df d1 d2 d3 d4 = Ok df' \/
  (exists s, copy_sheet df d1 d2 d3 d4 = Ok (df', s)) ->
  forall i, i < nrows df ->
    cell_at df' "C1" i = Some (Num 1.93) /\
    cell_at df' "C2" i = Some (Num 0) /\
    cell_at df' "required-distance" i = Some (Num 1.93).
Proof.
  intros EW H i Hi. apply earth_wire_in_true in EW.
  destruct H as [H|(s & H)].
  - destruct (process_sheet_computes _ _ _ _ _ _ H)
      as (col12 & col34 & a & b & sag & beta & k & c1 & c2 & req & cur & diff
          & w & m & C & ->).
    destruct C as (_ & _ & _ & _ & _ & _ & _ & Hoff & _).
    rewrite EW in Hoff. destruct Hoff as (-> & -> & ->).
    unfold augment. frame. auto using nth_error_repeat.
  - destruct (copy_process_sheet_inv _ _ _ _ _ _ _ _ H)
      as (col12 & col34 & a & b & sag & beta & k & df2 & _ & _ & _ & _ & _
          & _ & _ & Hoff & Hd & _).
    apply copy_offsets_earth in Hoff; [|assumption]. subst df2.
    destruct (diff_and_worst_case_inv _ _ Hd)
      as (cur & req & diff & w & m & _ & _ & _ & _ & _ & ->).
    frame. auto using nth_error_repeat.
Qed.

Lemma prepared_wf df a b sag beta k col_sd12 col_sd34 sdt kdt :
  wf df ->
  getitem df col_sd12 = Ok a -> getitem df col_sd34 = Ok b ->
  zipM row_max a b = Ok sag ->
  getitem df "Beta Angle (°)" = Ok beta ->
  mapM (lift1 k_of_beta) beta = Ok k ->
  wf (setitem_scalar (setitem (setitem df "sag" sdt sag) "K" kdt k) "LK" 2.0).
Proof.
  intros W Ha Hb Hs Hbeta Hk.
  apply wf_setitem_scalar, wf_setitem; [apply wf_setitem; [assumption|]|].
  - rewrite (zipM_length _ _ _ _ Hs); [eapply wf_getitem; eauto|].
    rewrite (wf_getitem _ _ _ W Ha), (wf_getitem _ _ _ W Hb). reflexivity.
  - rewrite (mapM_length _ _ _ Hk). simpl. eapply wf_getitem; eauto.
Qed.

Lemma circuit_offsets_wf df d1 d3 df' :
  wf df -> circuit_offsets df d1 d3 = Ok df' -> wf df' /\ nrows df' = nrows df.
Proof.
  intros W H.
  destruct (earth_wire_in (_which_circuit d1) (_which_circuit d3)) eqn:EW.
  - apply circuit_offsets_earth in H; [|assumption]. subst. split; [|reflexivity].
    apply wf_setitem; [now repeat apply wf_setitem_scalar|].
    apply repeat_length.
  - apply circuit_offsets_real in H; [|assumption].
    destruct H as (k & sag & lk & req & Hk & Hs & Hl & Hz & ->).
    split; [|reflexivity].
    apply wf_setitem; [now repeat apply wf_setitem_scalar|]. simpl.
    apply (zip5M_length _ _ _ _ _ _ _ _ Hz);
      eauto using wf_getitem, repeat_length.
Qed.

Lemma process_sheet_inv df d1 d2 d3 d4 df' :
  wf df ->
  process_sheet df d1 d2 d3 d4 = Ok df' ->
  exists df2, wf df2 /\ nrows df2 = nrows df /\ diff_and_worst_case df2 = Ok df'.
Proof.
  unfold process_sheet. intros W H.
  inv_bind H. inv_bind H. inv_bind H. inv_bind H. inv_bind H.
  inv_bind H. inv_bind H. inv_bind H. frame.
  exists v6.
  destruct (circuit_offsets_wf _ _ _ _
              (prepared_wf _ _ _ _ _ _ _ _ _ _ W E1 E2 E3 E4 E5) E6)
    as (W2 & N2).
  repeat split; assumption.
Qed.

Lemma copy_sheet_inv df d1 d2 d3 d4 df' s :
  wf df ->
  copy_sheet df d1 d2 d3 d4 = Ok (df', s) ->
  CalculationsCopy.summarise df' = Ok s /\
  exists df2, wf df2 /\ nrows df2 = nrows df /\ diff_and_worst_case df2 = Ok df'.
Proof.
  intros W H.
  destruct (copy_process_sheet_inv _ _ _ _ _ _ _ _ H)
    as (col12 & col34 & a & b & sag & beta & k & df2 & _ & _ & Ha & Hb & Hs
        & Hbeta & Hk & Hoff & Hd & Hsum).
  split; [assumption|]. exists df2.
  destruct (copy_offsets_wf _ _ _ _ _
              (prepared_wf _ _ _ _ _ _ _ _ _ _ W Ha Hb Hs Hbeta Hk) Hoff)
    as (W2 & N2).
  repeat split; assumption.
Qed.

(** C3.  A sheet that either script has processed has at least one
    row, and exactly one of its rows has a worst-case value: the first
    row that holds the least diff = measured distance - required
    distance.  Its worst-case cell is that diff, every other
    worst-case cell is empty (NaN), and the summary of
    calculations-copy.py is read off that row. *)
Theorem worst_case_single_row df d1 d2 d3 d4 df' :
  wf df ->
  process_sheet df d1 d2 d3 d4 = Ok df' \/
  (exists s, copy_sheet df d1 d2 d3 d4 = Ok (df', s)) ->
  0 < nrows df' /\
  exists w m,
    worst_case_at df' w m /\
    forall s, copy_sheet df d1 d2 d3 d4 = Ok (df', s) ->
              summary_of_row df' w s.
Proof.
  intros W H.
  assert (D : exists df2, wf df2 /\ diff_and_worst_case df2 = Ok df').
  { destruct H as [H|(s & H)].
    - destruct (process_sheet_inv _ _ _ _ _ _ W H) as (df2 & ? & _ & ?). eauto.
    - destruct (copy_sheet_inv _ _ _ _ _ _ _ W H) as (_ & df2 & ? & _ & ?).
      eauto. }
  destruct D as (df2 & W2 & D).
  destruct (diff_and_worst_case_spec _ _ W2 D) as (_ & _ & _ & w & m & Hw).
  split.
  - destruct Hw as (Hlt & _). lia.
  - exists w, m. split; [assumption|].
    intros s Hs. destruct (copy_sheet_inv _ _ _ _ _ _ _ W Hs) as (Hsum & _).
    now destruct (summarise_spec _ _ _ _ Hw Hsum).
Qed.

(** C5.  The pass/fail flag of the summary is taken on the worst-case
    row alone: "ok" when the required distance of that row is at most
    its measured distance, "not ok" otherwise. *)
Theorem pass_fail_flag df d1 d2 d3 d4 df' s :
  wf df ->
  copy_sheet df d1 d2 d3 d4 = Ok (df', s) ->
  exists w m required measured,
    worst_case_at df' w m /\
    summary_of_row df' w s /\
    cell_at df' "required-distance" w = Some (Num required) /\
    cell_at df' "Distance Between Powerlines" w = Some (Num measured) /\
    CalculationsCopy.ok_flag s
    = (if PrimFloat.leb required measured then "ok" else "not ok")%string.
Proof.
  intros W H.
  destruct (copy_sheet_inv _ _ _ _ _ _ _ W H) as (Hsum & df2 & W2 & _ & D).
  destruct (diff_and_worst_case_spec _ _ W2 D) as (_ & _ & _ & w & m & Hw).
  destruct (summarise_spec _ _ _ _ Hw Hsum) as (Hrow & gt & Hgt & Hflag).
  pose proof Hw as (Hlt & Hrows & Hdw & Nm & _).
  destruct (Hrows w Hlt) as (c & r & Hc & Hr & Hd).
  rewrite Hd in Hdw. inversion Hdw; subst m.
  apply sub_not_nan in Nm. destruct Nm as (Nc & Nr).
  exists w, (c - r)%float, r, c.
  repeat match goal with |- _ /\ _ => split end; auto.
  rewrite Hflag.
  destruct Hrow as (_ & _ & _ & _ & _ & _ & _ & _ & Hreq & Hcur).
  rewrite Hr in Hreq. rewrite Hc in Hcur.
  inversion Hreq as [Ereq]. inversion Hcur as [Ecur].
  rewrite <- Ereq, <- Ecur in Hgt. simpl in Hgt. inversion Hgt; subst gt.
  destruct (PrimFloat.ltb c r) eqn:L.
  - destruct (PrimFloat.leb r c) eqn:L'; [|reflexivity].
    apply leb_ltb_false in L'. congruence.
  - now rewrite (ltb_false_leb c r Nc Nr L).
Qed.

End Summary.

(** The earth-wire sheet 41-42_59-39 as read from its workbook, in
    both scripts: the threshold is 1.93 on both rows, although the
    rows differ in sag and beta angle and the formula would give about
    4.53 on the first one. *)
Lemma earth_wire_flat_threshold_sample :
  (exists df',
     Calculations.process_sheet sample_ew_sheet 41 42 59 39 = Ok df' /\
     cell_at df' "C1" 0 = Some (Num 1.93) /\
     cell_at df' "C2" 0 = Some (Num 0) /\
     cell_at df' "required-distance" 0 = Some (Num 1.93) /\
     cell_at df' "required-distance" 1 = Some (Num 1.93)) /\
  (exists df' s,
     CalculationsCopy.process_sheet (fun _ => nan) sample_ew_sheet 41 42 59 39
     = Ok (df', s) /\
     cell_at df' "C1" 0 = Some (Num 1.93) /\
     cell_at df' "C2" 0 = Some (Num 0) /\
     cell_at df' "required-distance" 0 = Some (Num 1.93) /\
     cell_at df' "required-distance" 1 = Some (Num 1.93)).
Proof.
  assert (EW : Calculations._which_circuit 41 = Calculations.EARTH_WIRE \/
               Calculations._which_circuit 59 = Calculations.EARTH_WIRE)
    by (right; reflexivity).
  split.
  - destruct (Calculations.process_sheet sample_ew_sheet 41 42 59 39)
      as [df'|e] eqn:E; [|vm_compute in E; discriminate].
    exists df'. split; [reflexivity|].
    destruct (earth_wire_flat_threshold (fun _ => nan) sample_ew_sheet
                41 42 59 39 df' EW (or_introl E) 0) as (A0 & B0 & R0);
      [simpl; lia|].
    destruct (earth_wire_flat_threshold (fun _ => nan) sample_ew_sheet
                41 42 59 39 df' EW (or_introl E) 1) as (_ & _ & R1);
      [simpl; lia|].
    auto.
  - destruct (CalculationsCopy.process_sheet (fun _ => nan) sample_ew_sheet
                41 42 59 39) as [[df' s]|e] eqn:E;
      [|vm_compute in E; discriminate].
    exists df', s. split; [reflexivity|].
    destruct (earth_wire_flat_threshold (fun _ => nan) sample_ew_sheet
                41 42 59 39 df' EW (or_intror (ex_intro _ s E)) 0)
      as (A0 & B0 & R0); [simpl; lia|].
    destruct (earth_wire_flat_threshold (fun _ => nan) sample_ew_sheet
                41 42 59 39 df' EW (or_intror (ex_intro _ s E)) 1)
      as (_ & _ & R1); [simpl; lia|].
    auto.
Defined.

(** The sheets of the scenario as read from their workbooks.  In
    calculations-copy.py row 0 of the sheet 41-42_43-44 has the least
    diff, about 0.472, and supplies the summary (Excel row 2); in
    calculations.py row 1 of the earth-wire sheet has the least diff,
    1.5 - 1.93. *)
Lemma worst_case_single_row_sample :
  (exists df' s,
     CalculationsCopy.process_sheet (fun _ => nan) sample_sheet 41 42 43 44
     = Ok (df', s) /\
     0 < nrows df' /\
     exists w m, worst_case_at df' w m /\ summary_of_row df' w s) /\
  (exists df',
     Calculations.process_sheet sample_ew_sheet 41 42 59 39 = Ok df' /\
     0 < nrows df' /\
     exists w m, worst_case_at df' w m /\
                 cell_at df' "worst-case" 1 = Some (Num (1.5 - 1.93)%float)).
Proof.
  split.
  - destruct (CalculationsCopy.process_sheet (fun _ => nan) sample_sheet
                41 42 43 44) as [[df' s]|e] eqn:E;
      [|vm_compute in E; discriminate].
    exists df', s. split; [reflexivity|].
    assert (W : wf sample_sheet) by (repeat constructor).
    destruct (worst_case_single_row (fun _ => nan) sample_sheet 41 42 43 44 df' W
                (or_intror (ex_intro _ s E))) as (Hpos & w & m & Hw & Hs).
    split; [assumption|]. exists w, m. split; [assumption|]. now apply Hs.
  - destruct (Calculations.process_sheet sample_ew_sheet 41 42 59 39)
      as [df'|e] eqn:E; [|vm_compute in E; discriminate].
    exists df'. split; [reflexivity|].
    assert (W : wf sample_ew_sheet) by (repeat constructor).
    destruct (worst_case_single_row (fun _ => nan) sample_ew_sheet 41 42 59 39
                df' W (or_introl E)) as (Hpos & w & m & Hw & _).
    split; [assumption|]. exists w, m. split; [assumption|].
    vm_compute in E. inversion E. reflexivity.
Defined.

(** The scenario sheet is flagged "ok". *)
Lemma pass_fail_flag_sample :
  exists df' s,
    CalculationsCopy.process_sheet (fun _ => nan) sample_sheet 41 42 43 44
    = Ok (df', s) /\
    CalculationsCopy.ok_flag s = "ok"%string.
Proof.
  destruct (CalculationsCopy.process_sheet (fun _ => nan) sample_sheet 41 42 43 44)
    as [[df' s]|e] eqn:E; [|vm_compute in E; discriminate].
  exists df', s. split; [reflexivity|].
  assert (W : wf sample_sheet) by (repeat constructor).
  destruct (pass_fail_flag (fun _ => nan) sample_sheet 41 42 43 44 df' s W E)
    as (w & m & r & c & _ & _ & _ & _ & _).
  vm_compute in E. inversion E. reflexivity.
Defined.

(** ** Missing input columns *)

Section MissingColumns.
Import Calculations.
Variable numeric_of_text : string -> float.
Variable Sheet : Type.
Variable frame_of_sheet : Sheet -> result DataFrame.
Variable sheet_of_frame : Sheet -> DataFrame -> Sheet.
Variable set_cell : Sheet -> nat -> nat -> CalculationsCopy.value -> Sheet.

Abbreviation copy_sheet' := (CalculationsCopy.process_sheet numeric_of_text).
Abbreviation sheet_step' :=
  (CalculationsCopy.sheet_step numeric_of_text Sheet frame_of_sheet
                               sheet_of_frame set_cell).

Lemma find_none_existsb {A : Type} (f : A -> bool) l :
  existsb f l = false -> find f l = None.
Proof.
  induction l as [|x t IH]; simpl; [reflexivity|].
  destruct (f x); simpl; [discriminate|assumption].
Qed.

Lemma pick_missing df a b :
  existsb (has_column df) (candidates a b) = false ->
  exists msg, _pick_distance_col df a b = Raise (KeyError msg).
Proof.
  intros H. unfold _pick_distance_col.
  rewrite (find_none_existsb _ _ H). eauto.
Qed.

Lemma getitem_missing df n :
  has_column df n = false -> getitem df n = Raise (KeyError n).
Proof.
  unfold has_column, getitem. now destruct (assoc n (data df)).
Qed.

Lemma process_sheet_missing_inputs df d1 d2 d3 d4 :
  inputs_present df d1 d2 d3 d4 = false ->
  raises (process_sheet df d1 d2 d3 d4).
Proof.
  unfold inputs_present, raises, process_sheet. intros H.
  destruct (existsb (has_column df) (candidates d1 d2)) eqn:P12.
  2:{ destruct (pick_missing _ _ _ P12) as (msg & ->). simpl. eauto. }
  destruct (_pick_distance_col df d1 d2) as [c12|e]; simpl; [|eauto].
  destruct (existsb (has_column df) (candidates d3 d4)) eqn:P34.
  2:{ destruct (pick_missing _ _ _ P34) as (msg & ->). simpl. eauto. }
  destruct (_pick_distance_col df d3 d4) as [c34|e]; simpl; [|eauto].
  destruct (getitem df c12) as [a|e]; simpl; [|eauto].
  destruct (getitem df c34) as [b|e]; simpl; [|eauto].
  destruct (zipM row_max a b) as [sag|e]; simpl; [|eauto].
  frame. rewrite getitem_missing; simpl; [eauto|].
  now rewrite !andb_true_r in H.
Qed.

Lemma copy_sheet_missing_inputs df d1 d2 d3 d4 :
  inputs_present df d1 d2 d3 d4 = false ->
  raises (copy_sheet' df d1 d2 d3 d4).
Proof.
  unfold inputs_present, raises, CalculationsCopy.process_sheet. intros H.
  destruct (existsb (has_column df) (candidates d1 d2)) eqn:P12.
  2:{ destruct (pick_missing _ _ _ P12) as (msg & ->). simpl. eauto. }
  destruct (_pick_distance_col df d1 d2) as [c12|e]; simpl; [|eauto].
  destruct (existsb (has_column df) (candidates d3 d4)) eqn:P34.
  2:{ destruct (pick_missing _ _ _ P34) as (msg & ->). simpl. eauto. }
  destruct (_pick_distance_col df d3 d4) as [c34|e]; simpl; [|eauto].
  destruct (getitem df c12) as [a|e]; simpl; [|eauto].
  destruct (getitem df c34) as [b|e]; simpl; [|eauto].
  destruct (zipM row_max a b) as [sag|e]; simpl; [|eauto].
  frame. rewrite getitem_missing; simpl; [eauto|].
  now rewrite !andb_true_r in H.
Qed.

(** C9.  Also on a sheet with an earth-wire endpoint, where the
    required distance would be the constant 1.93, [process_sheet] of
    both scripts raises an error when the beta-angle column or one of
    the two distance/sag columns is absent; the loop of
    calculations-copy.py then skips the sheet: it only prints, and
    writes neither the sheet nor a summary row. *)
Theorem earth_wire_sheet_needs_inputs df d1 d2 d3 d4 :
  _which_circuit d1 = EARTH_WIRE \/ _which_circuit d3 = EARTH_WIRE ->
  inputs_present df d1 d2 d3 d4 = false ->
  raises (process_sheet df d1 d2 d3 d4) /\
  raises (copy_sheet' df d1 d2 d3 d4) /\
  forall start_span end_span st sheet_name ws,
    Names._parse_sheet_name sheet_name = Ok (d1, d2, d3, d4) ->
    assoc sheet_name (CalculationsCopy.wb Sheet st) = Some ws ->
    frame_of_sheet ws = Ok df ->
    exists exc,
      sheet_step' start_span end_span st sheet_name
      = inl {| CalculationsCopy.wb := CalculationsCopy.wb Sheet st;
               CalculationsCopy.res_wb := CalculationsCopy.res_wb Sheet st;
               CalculationsCopy.next_row := CalculationsCopy.next_row Sheet st;
               CalculationsCopy.log :=
                 CalculationsCopy.log Sheet st
                 ++ [CalculationsCopy.SheetTag sheet_name "Ph-EW";
                     CalculationsCopy.Skipped exc] |}.
Proof.
  intros EW Hmiss.
  split; [now apply process_sheet_missing_inputs|].
  split; [now apply copy_sheet_missing_inputs|].
  intros start_span end_span st sheet_name ws Hp Hws Hdf.
  destruct (copy_sheet_missing_inputs _ _ _ _ _ Hmiss) as (exc & Hexc).
  exists exc. unfold CalculationsCopy.sheet_step.
  rewrite Hp, Hws, Hdf, Hexc.
  apply earth_wire_in_true in EW. unfold earth_wire_in, EARTH_WIRE in EW.
  rewrite EW. rewrite <- app_assoc. reflexivity.
Qed.

End MissingColumns.

(** The earth-wire sheet 41-42_59-39 without its beta-angle column. *)
Lemma earth_wire_sheet_needs_inputs_sample :
  raises (Calculations.process_sheet sample_ew_sheet_no_beta 41 42 59 39) /\
  raises (CalculationsCopy.process_sheet (fun _ => nan)
            sample_ew_sheet_no_beta 41 42 59 39).
Proof.
  assert (EW : Calculations._which_circuit 41 = Calculations.EARTH_WIRE \/
               Calculations._which_circuit 59 = Calculations.EARTH_WIRE)
    by (right; reflexivity).
  destruct (earth_wire_sheet_needs_inputs (fun _ => nan) DataFrame
              (fun ws => Ok ws) (fun _ df => df) (fun ws _ _ _ => ws)
              sample_ew_sheet_no_beta 41 42 59 39 EW eq_refl)
    as (H1 & H2 & _).
  split; assumption.
Defined.

(** ** Processing a processed sheet again *)

Section Idempotence.
Import Calculations.

Lemma assoc_set_twice {A : Type} n (c c' : A) l :
  assoc_set n c' (assoc_set n c l) = assoc_set n c' l.
Proof.
  induction l as [|[m x] t IH]; simpl.
  - now rewrite String.eqb_refl.
  - destruct (String.eqb n m) eqn:E; simpl; rewrite E; [reflexivity|].
    now rewrite IH.
Qed.

Lemma setitem_twice df n dt c dt' c' :
  setitem (setitem df n dt c) n dt' c' = setitem df n dt' c'.
Proof. unfold setitem. simpl. now rewrite !assoc_set_twice. Qed.

Lemma find_ext {A : Type} (f g : A -> bool) l :
  (forall x, In x l -> f x = g x) -> find f l = find g l.
Proof.
  induction l as [|x t IH]; simpl; intros H; [reflexivity|].
  rewrite (H x) by now left. destruct (g x); [reflexivity|].
  apply IH. intros y Hy. apply H. now right.
Qed.

Lemma candidate_not_output a b c n :
  In c (candidates a b) -> is_output n -> String.eqb c n = false.
Proof.
  unfold candidates, is_output. simpl.
  intros [<-|[<-|[]]] Hn;
    repeat (destruct Hn as [<-|Hn]; [reflexivity|]); destruct Hn.
Qed.

Lemma pick_in_candidates df a b c :
  _pick_distance_col df a b = Ok c -> In c (candidates a b).
Proof.
  unfold _pick_distance_col.
  destruct (find (has_column df) (candidates a b)) eqn:F; intros H;
    inversion H; subst.
  now apply find_some in F.
Qed.

Lemma has_column_augment df d1 d3 c12 c34 sag k c1 c2 req diff w m n :
  (forall o, is_output o -> String.eqb n o = false) ->
  has_column (augment df d1 d3 c12 c34 sag k c1 c2 req diff w m) n
  = has_column df n.
Proof.
  intros H. unfold augment, setitem_scalar.
  rewrite !has_column_setitem_other; try reflexivity;
    apply H; unfold is_output; simpl; tauto.
Qed.

Lemma getitem_augment df d1 d3 c12 c34 sag k c1 c2 req diff w m n :
  (forall o, is_output o -> String.eqb n o = false) ->
  getitem (augment df d1 d3 c12 c34 sag k c1 c2 req diff w m) n = getitem df n.
Proof.
  intros H. unfold augment, setitem_scalar.
  rewrite !getitem_setitem_other; try reflexivity;
    apply H; unfold is_output; simpl; tauto.
Qed.

Lemma dtype_of_augment df d1 d3 c12 c34 sag k c1 c2 req diff w m n :
  (forall o, is_output o -> String.eqb n o = false) ->
  dtype_of (augment df d1 d3 c12 c34 sag k c1 c2 req diff w m) n
  = dtype_of df n.
Proof.
  intros H. unfold augment, setitem_scalar.
  rewrite !dtype_of_setitem_other; try reflexivity;
    apply H; unfold is_output; simpl; tauto.
Qed.

Lemma pick_augment df d1 d3 c12 c34 sag k c1 c2 req diff w m a b :
  _pick_distance_col (augment df d1 d3 c12 c34 sag k c1 c2 req diff w m) a b
  = _pick_distance_col df a b.
Proof.
  unfold _pick_distance_col.
  rewrite (find_ext
             (has_column (augment df d1 d3 c12 c34 sag k c1 c2 req diff w m))
             (has_column df)); [reflexivity|].
  intros c Hc. apply has_column_augment.
  intros o Ho. eapply candidate_not_output; eauto.
Qed.

(** The dtypes that a second run gives the computed columns are those
    of the first run: they are computed from the input columns. *)
Lemma augment_dtypes df d1 d3 c12 c34 sag k c1 c2 req diff w m :
  (forall o, is_output o -> String.eqb c12 o = false) ->
  (forall o, is_output o -> String.eqb c34 o = false) ->
  let df1 := augment df d1 d3 c12 c34 sag k c1 c2 req diff w m in
  sag_dtype df1 c12 c34 = sag_dtype df c12 c34 /\
  dtype_of df1 "Beta Angle (°)" = dtype_of df "Beta Angle (°)" /\
  required_dtype df1 d1 d3 c12 c34 = required_dtype df d1 d3 c12 c34 /\
  measured_dtype df1 d1 d3 c12 c34 = measured_dtype df d1 d3 c12 c34.
Proof.
  intros O12 O34 df1.
  assert (S : sag_dtype df1 c12 c34 = sag_dtype df c12 c34).
  { unfold sag_dtype, df1. now rewrite !dtype_of_augment. }
  assert (B : dtype_of df1 "Beta Angle (°)" = dtype_of df "Beta Angle (°)").
  { unfold df1. apply dtype_of_augment.
    intros o Ho. unfold is_output in Ho. simpl in Ho.
    repeat (destruct Ho as [<-|Ho]; [reflexivity|]). destruct Ho. }
  assert (R : required_dtype df1 d1 d3 c12 c34 = required_dtype df d1 d3 c12 c34).
  { unfold required_dtype. now rewrite S, B. }
  repeat split; try assumption.
  unfold measured_dtype. rewrite R. f_equal.
  unfold df1. apply dtype_of_augment.
  intros o Ho. unfold is_output in Ho. simpl in Ho.
  repeat (destruct Ho as [<-|Ho]; [reflexivity|]). destruct Ho.
Qed.

Lemma augment_fixed df d1 d3 c12 c34 sag k c1 c2 req diff w m :
  (forall o, is_output o -> String.eqb c12 o = false) ->
  (forall o, is_output o -> String.eqb c34 o = false) ->
  let df1 := augment df d1 d3 c12 c34 sag k c1 c2 req diff w m in
  augment df1 d1 d3 c12 c34 sag k c1 c2 req diff w m = df1.
Proof.
  intros O12 O34 df1.
  assert (N : nrows df1 = nrows df) by reflexivity.
  destruct (augment_dtypes df d1 d3 c12 c34 sag k c1 c2 req diff w m O12 O34)
    as (S & B & R & M).
  fold df1 in S, B, R, M.
  unfold augment at 1. unfold setitem_scalar. rewrite !N, S, B, R, M.
  rewrite (setitem_id df1 "sag" _ sag) by (unfold df1, augment; now frame).
  rewrite (setitem_id df1 "K" _ k) by (unfold df1, augment; now frame).
  rewrite (setitem_id df1 "LK") by (unfold df1, augment; now frame).
  rewrite (setitem_id df1 "C1") by (unfold df1, augment; now frame).
  rewrite (setitem_id df1 "C2") by (unfold df1, augment; now frame).
  rewrite (setitem_id df1 "required-distance" _ req)
    by (unfold df1, augment; now frame).
  rewrite (setitem_id df1 "diff" _ diff) by (unfold df1, augment; now frame).
  rewrite setitem_twice.
  apply setitem_id; unfold df1, augment; now frame.
Qed.

Lemma worst_case_unique df w m w' m' :
  worst_case_at df w m -> worst_case_at df w' m' -> w' = w /\ m' = m.
Proof.
  intros (_ & _ & _ & _ & _ & _ & Hw & Ho) (Hlt & _ & _ & N' & _ & _ & Hw' & _).
  destruct (Nat.eq_dec w' w) as [->|Hne].
  - split; [reflexivity|]. rewrite Hw in Hw'. now inversion Hw'.
  - rewrite (Ho w' Hlt Hne) in Hw'. inversion Hw' as [E]. subst m'.
    discriminate N'.
Qed.

(** C8.  A sheet that [process_sheet] has processed has one worst-case
    row, the first one with the least diff; processing the processed
    sheet again returns, selects the same row with the same diff, and
    gives back the same frame: the same diff column and the same
    worst-case column, with no other row selected. *)
Theorem process_sheet_idempotent df d1 d2 d3 d4 df1 :
  wf df ->
  process_sheet df d1 d2 d3 d4 = Ok df1 ->
  exists w m,
    worst_case_at df1 w m /\
    exists df2,
      process_sheet df1 d1 d2 d3 d4 = Ok df2 /\
      worst_case_at df2 w m /\
      (forall w' m', worst_case_at df2 w' m' -> w' = w /\ m' = m) /\
      getitem df2 "diff" = getitem df1 "diff" /\
      getitem df2 "worst-case" = getitem df1 "worst-case" /\
      df2 = df1.
Proof.
  intros W H.
  destruct (process_sheet_inv _ _ _ _ _ _ W H) as (dfm & Wm & _ & D).
  destruct (diff_and_worst_case_spec _ _ Wm D) as (_ & _ & _ & w0 & m0 & Hw0).
  exists w0, m0. split; [assumption|].
  destruct (process_sheet_computes _ _ _ _ _ _ H)
    as (col12 & col34 & a & b & sag & beta & k & c1 & c2 & req & cur & diff
        & w & m & C & ->).
  destruct C as (P12 & P34 & Ha & Hb & Hs & Hbeta & Hk & Hoff & Hc & Hd & Hi & Hw).
  assert (O12 : forall o, is_output o -> String.eqb col12 o = false).
  { intros o Ho. eapply candidate_not_output; eauto using pick_in_candidates. }
  assert (O34 : forall o, is_output o -> String.eqb col34 o = false).
  { intros o Ho. eapply candidate_not_output; eauto using pick_in_candidates. }
  exists (augment df d1 d3 col12 col34 sag k c1 c2 req diff w m).
  split; [|split; [assumption|split; [|auto]]].
  2:{ intros w' m' Hw'. eapply worst_case_unique; eauto. }
  rewrite <- (augment_fixed df d1 d3 col12 col34 sag k c1 c2 req diff w m O12 O34)
    at 2.
  apply computes_process_sheet with (a := a) (b := b) (beta := beta) (cur := cur).
  destruct (augment_dtypes df d1 d3 col12 col34 sag k c1 c2 req diff w m O12 O34)
    as (S & _).
  unfold computes. rewrite !pick_augment, S.
  rewrite !getitem_augment; auto;
    try (intros o Ho; unfold is_output in Ho; simpl in Ho;
         repeat (destruct Ho as [<-|Ho]; [reflexivity|]); destruct Ho).
  change (nrows (augment df d1 d3 col12 col34 sag k c1 c2 req diff w m))
    with (nrows df).
  repeat match goal with |- _ /\ _ => split end; assumption.
Qed.

End Idempotence.

(** The earth-wire sheet as read from its workbook, and the scenario
    frame of float64 columns, processed twice: row 1 (diff 1.5 - 1.93)
    and row 0 are selected both times. *)
Lemma process_sheet_idempotent_sample :
  (exists df1,
     Calculations.process_sheet sample_ew_sheet 41 42 59 39 = Ok df1 /\
     Calculations.process_sheet df1 41 42 59 39 = Ok df1 /\
     worst_case_at df1 1 (1.5 - 1.93)%float) /\
  (exists df1 m,
     Calculations.process_sheet sample_frame_float64 41 42 43 44 = Ok df1 /\
     Calculations.process_sheet df1 41 42 43 44 = Ok df1 /\
     worst_case_at df1 0 m).
Proof.
  split.
  - destruct (Calculations.process_sheet sample_ew_sheet 41 42 59 39)
      as [df1|e] eqn:E; [|vm_compute in E; discriminate].
    exists df1. split; [reflexivity|].
    assert (W : wf sample_ew_sheet) by (repeat constructor).
    destruct (process_sheet_idempotent sample_ew_sheet 41 42 59 39 df1 W E)
      as (w & m & Hw & df2 & H2 & _ & _ & _ & _ & ->).
    split; [exact H2|].
    assert (Hc : cell_at df1 "worst-case" 1 = Some (Num (1.5 - 1.93)%float))
      by (vm_compute in E; inversion E; reflexivity).
    destruct Hw as (Hlt & Hrows & Hd & Nm & Hall & Hbefore & Hwc & Ho).
    destruct (Nat.eq_dec 1 w) as [<-|Hne].
    + rewrite Hc in Hwc. inversion Hwc; subst m.
      repeat split; assumption.
    + assert (L : 1 < nrows df1)
        by (vm_compute in E; inversion E; simpl; lia).
      rewrite (Ho 1 L Hne) in Hc. inversion Hc.
  - destruct (Calculations.process_sheet sample_frame_float64 41 42 43 44)
      as [df1|e] eqn:E; [|vm_compute in E; discriminate].
    assert (W : wf sample_frame_float64) by (repeat constructor).
    destruct (process_sheet_idempotent sample_frame_float64 41 42 43 44 df1 W E)
      as (w & m & Hw & df2 & H2 & _ & _ & _ & _ & ->).
    exists df1, m. split; [reflexivity|]. split; [exact H2|].
    assert (Hc : cell_at df1 "worst-case" 1 = Some (Num nan))
      by (vm_compute in E; inversion E; reflexivity).
    assert (L : nrows df1 = 2)
      by (vm_compute in E; inversion E; reflexivity).
    pose proof Hw as (Hlt & _ & _ & Nm & _ & _ & Hwc & _).
    destruct w as [|[|w]]; [assumption| |lia].
    rewrite Hc in Hwc. inversion Hwc as [Em]. subst m. discriminate Nm.
Defined.

(** ** Text and empty cells in the formula inputs *)

Section MissingValues.
Import Calculations.
Variable numeric_of_text : string -> float.

Abbreviation coerce := (CalculationsCopy.to_numeric numeric_of_text).

Lemma diff_numeric cur req :
  numeric cur -> numeric req ->
  exists diff, zipM (lift2 PrimFloat.sub) cur req = Ok diff.
Proof.
  intros Nc Nr. apply zipM_total. intros i x y Hx Hy.
  destruct (numeric_nth _ _ _ Nc Hx) as (? & ->).
  destruct (numeric_nth _ _ _ Nr Hy) as (? & ->).
  simpl. eauto.
Qed.

Lemma k_of_beta_nan : k_of_beta nan = nan.
Proof. reflexivity. Qed.

Lemma required_from_nan d1 d3 sag xbeta :
  is_nan xbeta = true \/ is_nan sag = true ->
  required_from d1 d3 sag xbeta = nan.
Proof.
  unfold required_from. intros [N|N]; apply is_nan_true in N; subst.
  - now rewrite k_of_beta_nan, nan_mul_l, !nan_add_l.
  - rewrite nan_add_l. change (sqrt nan) with nan.
    now rewrite nan_mul_r, !nan_add_l.
Qed.

Lemma has_column_setitem_same df n dt c :
  has_column (setitem df n dt c) n = true.
Proof. unfold has_column, setitem. simpl. now rewrite assoc_set_same. Qed.

Lemma has_column_getitem df n c : getitem df n = Ok c -> has_column df n = true.
Proof. intros H. apply getitem_ok in H. unfold has_column. now rewrite H. Qed.

Lemma loc_total df i n :
  wf df -> has_column df n = true -> i < nrows df -> exists v, loc df i n = Ok v.
Proof.
  intros W H Hi. unfold has_column in H. unfold loc.
  destruct (getitem df n) as [c|e] eqn:G.
  - simpl. pose proof (wf_getitem _ _ _ W G) as L.
    destruct (nth_error_in_range c i) as (v & Hv); [lia|].
    rewrite Hv. eauto.
  - unfold getitem in G. destruct (assoc n (data df)); discriminate.
Qed.

Lemma summarise_total df w m :
  wf df -> worst_case_at df w m ->
  has_column df "Station" = true -> has_column df "sag" = true ->
  has_column df "LK" = true -> has_column df "Beta Angle (°)" = true ->
  has_column df "K" = true -> has_column df "C1" = true ->
  has_column df "C2" = true ->
  exists s, CalculationsCopy.summarise df = Ok s.
Proof.
  intros W Hw H1 H2 H3 H4 H5 H6 H7.
  pose proof Hw as (Ww & Hrows & _ & Nm & _ & _ & Hwc & Hothers).
  unfold CalculationsCopy.summarise.
  destruct (getitem df "worst-case") as [v|e] eqn:G.
  2:{ unfold cell_at in Hwc. unfold getitem in G.
      destruct (assoc "worst-case" (data df)); discriminate. }
  simpl.
  rewrite (cell_at_getitem _ _ _ _ G) in Hwc.
  assert (F : first_valid_index v = Some w).
  { unfold first_valid_index.
    rewrite (first_valid_from_spec v 0 w m); auto.
    intros j Hj. rewrite <- (cell_at_getitem _ _ _ _ G).
    apply Hothers; lia. }
  rewrite F.
  destruct (loc_total df w "Station" W H1 Ww) as (? & ->). simpl.
  destruct (loc_total df w "sag" W H2 Ww) as (? & ->). simpl.
  destruct (loc_total df w "LK" W H3 Ww) as (? & ->). simpl.
  destruct (loc_total df w "Beta Angle (°)" W H4 Ww) as (? & ->). simpl.
  destruct (loc_total df w "K" W H5 Ww) as (? & ->). simpl.
  destruct (loc_total df w "C1" W H6 Ww) as (? & ->). simpl.
  destruct (loc_total df w "C2" W H7 Ww) as (? & ->). simpl.
  destruct (Hrows w Ww) as (c & r & Hc & Hr & _).
  rewrite (loc_complete _ _ _ _ Hr). simpl.
  rewrite (loc_complete _ _ _ _ Hc). simpl. eauto.
Qed.

(** The sag column of a sheet whose rows hold two numbers or two
    pieces of text, and what the coercion makes of it. *)
Lemma row_max_same_kind a b :
  Forall2 same_kind a b ->
  exists sag,
    zipM row_max a b = Ok sag /\
    List.length sag = List.length a /\
    forall i x y,
      nth_error a i = Some x -> nth_error b i = Some y ->
      exists v s, nth_error sag i = Some v /\
                  coerced_sag numeric_of_text x y = Some s /\
                  coerce v = Num s.
Proof.
  induction 1 as [|x y ta tb K _ (sag & Hs & Ls & Hrows)].
  - exists []. repeat split. intros [|i] x y Hx; discriminate.
  - simpl. rewrite Hs.
    destruct x as [x12|s], y as [x34|t]; try destruct K; simpl.
    + eexists. split; [reflexivity|]. split; [simpl; now rewrite Ls|].
      intros [|i] x y Hx Hy; simpl in *.
      * inversion Hx; inversion Hy; subst.
        do 2 eexists. repeat split; reflexivity.
      * eauto.
    + eexists. split; [reflexivity|]. split; [simpl; now rewrite Ls|].
      intros [|i] x y Hx Hy; simpl in *.
      * inversion Hx; inversion Hy; subst.
        do 2 eexists. repeat split; reflexivity.
      * eauto.
Qed.

Lemma map_coerce_numeric c : numeric c -> map coerce c = c.
Proof.
  induction 1 as [|v l (x & ->) _ IH]; simpl; [reflexivity|]. now rewrite IH.
Qed.

Lemma numeric_map_coerce c : numeric (map coerce c).
Proof.
  apply Forall_forall. intros v Hin. apply in_map_iff in Hin.
  destruct Hin as (u & <- & _). destruct u; simpl; eauto.
Qed.

(** The formula on float64 columns of numbers. *)
Lemma required_float64 k sag c1 c2 n :
  numeric k -> numeric sag -> List.length k = n -> List.length sag = n ->
  exists req,
    zip5M (required_row Float64) k sag (repeat (Num 2.0) n) (repeat (Num c1) n)
          (repeat (Num c2) n) = Ok req /\
    numeric req /\ List.length req = n /\
    forall i kf sf,
      nth_error k i = Some (Num kf) -> nth_error sag i = Some (Num sf) ->
      nth_error req i = Some (Num (kf * sqrt (sf + 2.0) + c1 + c2)%float).
Proof.
  intros Nk Ns Lk Ls.
  assert (T : exists req,
             zip5M (required_row Float64) k sag (repeat (Num 2.0) n)
                   (repeat (Num c1) n) (repeat (Num c2) n) = Ok req).
  { apply (zip5M_total (required_row Float64) k sag _ _ _ n);
      auto using repeat_length.
    intros i x1 x2 x3 x4 x5 H1 H2 H3 H4 H5.
    destruct (numeric_nth _ _ _ Nk H1) as (? & ->).
    destruct (numeric_nth _ _ _ Ns H2) as (? & ->).
    apply nth_error_repeat_inv in H3, H4, H5.
    destruct H3 as (-> & _), H4 as (-> & _), H5 as (-> & _).
    eexists. reflexivity. }
  destruct T as (req & Hreq).
  assert (Lr : List.length req = n).
  { apply (zip5M_length _ _ _ _ _ _ _ n Hreq); auto using repeat_length. }
  assert (Row : forall i kf sf,
             nth_error k i = Some (Num kf) -> nth_error sag i = Some (Num sf) ->
             nth_error req i = Some (Num (kf * sqrt (sf + 2.0) + c1 + c2)%float)).
  { intros i kf sf Hki Hsi.
    assert (Hlt : i < n).
    { rewrite <- Lk. apply nth_error_Some. congruence. }
    destruct (zip5M_nth _ _ _ _ _ _ _ i _ _ (Num 2) (Num c1) (Num c2) Hreq Hki Hsi)
      as (ri & Hri & Hrn); auto using nth_error_repeat.
    simpl in Hri. inversion Hri; subst ri. exact Hrn. }
  exists req. split; [assumption|]. split; [|split; assumption].
  apply Forall_forall. intros v Hin.
  apply In_nth_error in Hin. destruct Hin as (i & Hi).
  assert (Hlt : i < n).
  { rewrite <- Lr. apply nth_error_Some. congruence. }
  destruct (nth_error_in_range k i) as (ki & Hki); [lia|].
  destruct (nth_error_in_range sag i) as (si & Hsi); [lia|].
  destruct (numeric_nth _ _ _ Nk Hki) as (kf & ->).
  destruct (numeric_nth _ _ _ Ns Hsi) as (sf & ->).
  rewrite (Row i kf sf Hki Hsi) in Hi. inversion Hi. eauto.
Qed.

(** C7, as the code has it by design.  On a sheet between two real
    circuits that has the Station column, whose beta-angle and
    measured-distance cells are numbers or empty (NaN), whose two
    distance/sag cells are in every row both numbers (or empty) or
    both text, and which has a row with a defined diff,
    [process_sheet] of calculations-copy.py returns, whatever the
    dtypes of the columns: every row gets the required distance and
    the diff of the formula on its coerced sag, so that an empty beta
    angle, two empty distance cells, or two text cells that spell no
    number make required-distance and diff of that row NaN, and an
    empty measured distance makes its diff NaN, while the other rows
    keep their values. *)
Theorem missing_inputs_propagate df d1 d2 d3 d4 col_sd12 col_sd34 a b beta cur :
  wf df ->
  _which_circuit d1 <> EARTH_WIRE ->
  _which_circuit d3 <> EARTH_WIRE ->
  _pick_distance_col df d1 d2 = Ok col_sd12 ->
  _pick_distance_col df d3 d4 = Ok col_sd34 ->
  getitem df col_sd12 = Ok a ->
  getitem df col_sd34 = Ok b -> Forall2 same_kind a b ->
  getitem df "Beta Angle (°)" = Ok beta -> numeric beta ->
  getitem df "Distance Between Powerlines" = Ok cur -> numeric cur ->
  has_column df "Station" = true ->
  (exists j sag xbeta xcur,
      row_values numeric_of_text a b beta cur j sag xbeta xcur /\
      is_nan (xcur - required_from d1 d3 sag xbeta) = false) ->
  exists df' s,
    CalculationsCopy.process_sheet numeric_of_text df d1 d2 d3 d4
    = Ok (df', s) /\
    forall i sag xbeta xcur,
      row_values numeric_of_text a b beta cur i sag xbeta xcur ->
      cell_at df' "required-distance" i
      = Some (Num (required_from d1 d3 sag xbeta)) /\
      cell_at df' "diff" i
      = Some (Num (xcur - required_from d1 d3 sag xbeta)%float) /\
      (is_nan xbeta = true \/ is_nan sag = true ->
       cell_at df' "required-distance" i = Some (Num nan) /\
       cell_at df' "diff" i = Some (Num nan)) /\
      (is_nan xcur = true -> cell_at df' "diff" i = Some (Num nan)).
Proof.
  intros W R1 R3 P12 P34 Ha Hb Kab Hbeta Nbeta Hc Nc HS
         (j & jsag & jbeta & jcur & Hj & Hjn).
  pose proof (wf_getitem _ _ _ W Ha) as La.
  pose proof (wf_getitem _ _ _ W Hb) as Lb.
  pose proof (wf_getitem _ _ _ W Hbeta) as Lbeta.
  pose proof (wf_getitem _ _ _ W Hc) as Lc.
  destruct (row_max_same_kind a b Kab) as (sag & Hs & Ls & Hsag).
  rewrite La in Ls.
  destruct (k_numeric beta Nbeta) as (k & Hk & Nk).
  assert (Lk : List.length k = nrows df).
  { rewrite (mapM_length _ _ _ Hk). assumption. }
  destruct (required_float64 (map coerce k) (map coerce sag)
              (fst (offsets d1 d3)) (snd (offsets d1 d3)) (nrows df))
    as (req & Hz & Nr & Lr & Hreq);
    auto using numeric_map_coerce; try (rewrite length_map; assumption).
  destruct (diff_numeric cur req Nc Nr) as (diff & Hd).
  pose proof (zipM_numeric _ _ _ _ Hd) as Nd.
  (* one row *)
  assert (Row : forall i s xbeta xcur,
             row_values numeric_of_text a b beta cur i s xbeta xcur ->
             nth_error req i = Some (Num (required_from d1 d3 s xbeta)) /\
             nth_error diff i
             = Some (Num (xcur - required_from d1 d3 s xbeta)%float)).
  { intros i s xbeta xcur (x & y & Hai & Hbi & Hxy & Hti & Hci).
    destruct (Hsag i x y Hai Hbi) as (v & s' & Hvi & Hs' & Hv).
    rewrite Hxy in Hs'. inversion Hs'; subst s'.
    destruct (mapM_nth _ _ _ _ _ Hk Hti) as (ki & Hki & Hkn).
    simpl in Hki. inversion Hki; subst ki.
    assert (Hri : nth_error req i = Some (Num (required_from d1 d3 s xbeta))).
    { apply Hreq.
      - rewrite nth_error_map, Hkn. reflexivity.
      - rewrite nth_error_map, Hvi. simpl. now rewrite Hv. }
    split; [exact Hri|].
    destruct (zipM_nth _ _ _ _ _ _ _ Hd Hci Hri) as (z & Hz' & Hzn).
    simpl in Hz'. inversion Hz'; subst z. exact Hzn. }
  destruct (Row j jsag jbeta jcur Hj) as (_ & Hdj).
  destruct (idxmin_total diff j _ Nd Hdj Hjn) as (w & Hw).
  destruct (idxmin_spec _ _ Hw) as (m & Hm & _).
  (* the run of process_sheet *)
  set (sdt := sag_dtype df col_sd12 col_sd34).
  set (kdt := dtype_of df "Beta Angle (°)").
  set (o1 := fst (offsets d1 d3)) in *.
  set (o2 := snd (offsets d1 d3)) in *.
  set (df3 :=
         setitem
           (setitem
              (setitem
                 (setitem
                    (setitem
                       (setitem
                          (setitem
                             (setitem
                                (setitem (setitem df "sag" sdt sag) "K" kdt k)
                                "LK" Float64 (repeat (Num 2.0) (nrows df)))
                             "C1" Float64 (repeat (Num o1) (nrows df)))
                          "C2" Float64 (repeat (Num o2) (nrows df)))
                       "K" Float64 (map coerce k))
                    "sag" Float64 (map coerce sag))
                 "LK" Float64 (map coerce (repeat (Num 2.0) (nrows df))))
              "C1" Float64 (map coerce (repeat (Num o1) (nrows df))))
           "C2" Float64 (map coerce (repeat (Num o2) (nrows df)))).
  assert (Hoff : CalculationsCopy.circuit_offsets numeric_of_text
                   (setitem_scalar
                      (setitem (setitem df "sag" sdt sag) "K" kdt k) "LK" 2.0)
                   d1 d3
                 = Ok (setitem df3 "required-distance" Float64 req)).
  { unfold CalculationsCopy.circuit_offsets.
    rewrite (earth_wire_in_false _ _ R1 R3), with_offsets.
    fold o1 o2.
    cbn [CalculationsCopy.to_float_columns]. frame. cbn [bind].
    frame. cbn [bind]. frame. cbn [bind]. frame. cbn [bind]. frame.
    cbn [bind]. fold df3.
    assert (Hreq3 : required_distance df3 = Ok req).
    { unfold required_distance, sqrt_dtype, df3. frame. cbn [bind].
      rewrite !(map_coerce_numeric (repeat _ _)) by apply numeric_repeat.
      exact Hz. }
    rewrite Hreq3. cbn [bind].
    assert (Hdt : formula_dtype df3 = Float64).
    { unfold formula_dtype, sqrt_dtype, df3. now frame. }
    now rewrite Hdt. }
  set (df4 := setitem df3 "required-distance" Float64 req) in *.
  assert (W4 : wf df4).
  { unfold df4, df3.
    repeat (apply wf_setitem;
            [|rewrite ?length_map, ?repeat_length;
              first [assumption | reflexivity]]).
    assumption. }
  assert (Hc4 : getitem df4 "Distance Between Powerlines" = Ok cur).
  { unfold df4, df3. now frame. }
  assert (Hr4 : getitem df4 "required-distance" = Ok req).
  { unfold df4. now frame. }
  pose proof (diff_and_worst_case_complete df4 cur req diff w m
                Hc4 Hr4 Hd Hw Hm) as Hdw.
  destruct (diff_and_worst_case_spec _ _ W4 Hdw) as (W' & _ & _ & w' & m' & Hw').
  set (df5 := setitem
                (setitem_scalar (setitem df4 "diff" (diff_dtype df4) diff)
                                "worst-case" nan)
                "worst-case" Float64
                (list_set w (Num m) (repeat (Num nan) (nrows df4)))) in *.
  destruct (summarise_total df5 w' m' W' Hw') as (sm & Hsum);
    try (unfold df5, df4, df3, setitem_scalar;
         autorewrite with frame;
         first [ apply has_column_setitem_same
               | assumption
               | eapply has_column_getitem; eassumption ]).
  exists df5, sm. split.
  - unfold CalculationsCopy.process_sheet.
    rewrite P12, P34. cbn [bind]. rewrite Ha, Hb. cbn [bind]. rewrite Hs.
    cbn [bind]. rewrite getitem_setitem_other by reflexivity.
    rewrite Hbeta. cbn [bind]. rewrite Hk. cbn [bind].
    rewrite dtype_of_setitem_other by reflexivity.
    fold sdt kdt. rewrite Hoff. cbn [bind]. rewrite Hdw. cbn [bind].
    rewrite Hsum. reflexivity.
  - intros i s xbeta xcur Hi.
    destruct (Row i s xbeta xcur Hi) as (Hri & Hdi).
    assert (C1 : cell_at df5 "required-distance" i = nth_error req i).
    { unfold df5, df4. now frame. }
    assert (C2 : cell_at df5 "diff" i = nth_error diff i).
    { unfold df5. now frame. }
    rewrite C1, C2.
    split; [assumption|]. split; [assumption|]. split.
    + intros N. rewrite Hri, Hdi.
      rewrite required_from_nan by assumption. now rewrite nan_sub_r.
    + intros N. rewrite Hdi. apply is_nan_true in N. subst xcur.
      now rewrite nan_sub_l.
Qed.

End MissingValues.

(** The scenario sheet as read from its workbook, with an empty beta
    angle in row 1, the text "n/a" in both sag cells of row 2 and an
    empty measured distance in row 3: calculations-copy.py computes
    row 0 as before; rows 1 and 2 have no required distance and no
    diff, row 3 has no diff. *)
Lemma missing_inputs_propagate_sample :
  exists df' s,
    CalculationsCopy.process_sheet (fun _ => nan) sample_missing_inputs
      41 42 43 44 = Ok (df', s) /\
    cell_at df' "required-distance" 0
    = Some (Num (0.75 * sqrt (10 + 2.0) + 1.93 + 0)%float) /\
    cell_at df' "required-distance" 1 = Some (Num nan) /\
    cell_at df' "diff" 1 = Some (Num nan) /\
    cell_at df' "required-distance" 2 = Some (Num nan) /\
    cell_at df' "diff" 2 = Some (Num nan) /\
    cell_at df' "diff" 3 = Some (Num nan).
Proof.
  destruct (missing_inputs_propagate (fun _ => nan) sample_missing_inputs
              41 42 43 44 "Sag of 41-42" "Sag of 43-44"
              [Num 10; Num 3; Text "n/a"; Num 3]
              [Num 10; Num 4; Text "n/a"; Num 4]
              [Num 0; Num nan; Num 90; Num 90]
              [Num 5; Num 6; Num 6; Num nan])%float
    as (df' & s & H & Hrows);
    try reflexivity;
    try (repeat constructor; eauto);
    try (vm_compute; discriminate).
  - exists 0, 10%float, 0%float, 5%float.
    split; [|reflexivity].
    exists (Num 10%float), (Num 10%float). repeat split.
  - exists df', s. split; [exact H|].
    destruct (Hrows 0 10%float 0%float 5%float) as (R0 & _).
    { exists (Num 10%float), (Num 10%float). repeat split. }
    destruct (Hrows 1 4%float nan 6%float) as (_ & _ & N1 & _).
    { exists (Num 3%float), (Num 4%float). repeat split. }
    destruct (Hrows 2 nan 90%float 6%float) as (_ & _ & N2 & _).
    { exists (Text "n/a"), (Text "n/a"). repeat split. }
    destruct (Hrows 3 4%float 90%float nan) as (_ & _ & _ & N3).
    { exists (Num 3%float), (Num 4%float). repeat split. }
    destruct (N1 (or_introl eq_refl)) as (R1 & D1).
    destruct (N2 (or_intror eq_refl)) as (R2 & D2).
    repeat split; auto.
Defined.

(** C7 fails as stated: text in the beta-angle column makes both
    scripts raise [TypeError] for the whole sheet; a sheet whose only
    row has an empty beta angle raises too; and under the earth-wire
    rule an empty beta angle leaves the required distance at 1.93. *)
Lemma text_input_raises :
  Calculations.process_sheet sample_text_beta 41 42 43 44 = Raise TypeError /\
  (forall numeric_of_text,
      CalculationsCopy.process_sheet numeric_of_text sample_text_beta 41 42 43 44
      = Raise TypeError) /\
  raises (Calculations.process_sheet sample_single_missing 41 42 43 44) /\
  exists df',
    Calculations.process_sheet sample_ew_missing_beta 41 42 59 39 = Ok df' /\
    cell_at sample_ew_missing_beta "Beta Angle (°)" 1 = Some (Num nan) /\
    cell_at df' "required-distance" 1 = Some (Num 1.93).
Proof.
  split; [reflexivity|]. split; [intros; reflexivity|].
  split; [eexists; reflexivity|].
  eexists. split; [reflexivity|]. split; reflexivity.
Qed.

(** ** The wind-pressure variant *)

Section WindDistance.
Import Wind.

Lemma zipM_row_max_repeat x y n :
  zipM row_max (repeat (Num x) n) (repeat (Num y) n)
  = Ok (repeat (Num (nanmax x y)) n).
Proof.
  induction n as [|n IH]; simpl; [reflexivity|]. now rewrite IH.
Qed.

(** C4.  For a sheet name from which the endpoint codes d1 and d3 are
    read, [add_distance_columns] returns a frame in which, on every
    row, C3 = 1.35 and C4 = 0 when d1 and d3 are in the same circuit
    group, C3 = 0 and C4 = 1.60 otherwise, and the Required distance
    is the row-wise maximum of C3 and C4. *)
Theorem add_distance_columns_spec df sheet_name d1 d3 :
  parse_digits sheet_name = Ok (d1, d3) ->
  exists df' C3 C4,
    add_distance_columns df sheet_name = Ok df' /\
    (same_circuit d1 d3 = true -> C3 = 1.35%float /\ C4 = 0%float) /\
    (same_circuit d1 d3 = false -> C3 = 0%float /\ C4 = 1.60%float) /\
    forall i, i < nrows df ->
      cell_at df' "C3" i = Some (Num C3) /\
      cell_at df' "C4" i = Some (Num C4) /\
      exists required,
        cell_at df' "Required distance" i = Some (Num required) /\
        row_maximum C3 C4 required /\
        PrimFloat.leb C3 required = true /\
        PrimFloat.leb C4 required = true /\
        (required = C3 \/ required = C4).
Proof.
  intros P.
  set (c3 := (if same_circuit d1 d3 then 1.35 else 0)%float).
  set (c4 := (if same_circuit d1 d3 then 0 else 1.60)%float).
  exists (setitem
            (setitem_scalar (setitem_scalar df "C3" c3) "C4" c4)
            "Required distance" Float64
            (repeat (Num (nanmax c3 c4)) (nrows df))),
    c3, c4.
  split.
  { unfold add_distance_columns. rewrite P. simpl.
    fold c3 c4. frame. simpl. rewrite zipM_row_max_repeat. reflexivity. }
  split; [unfold c3, c4; intros ->; auto|].
  split; [unfold c3, c4; intros ->; auto|].
  intros i Hi. frame.
  rewrite !nth_error_repeat by assumption.
  split; [reflexivity|]. split; [reflexivity|].
  eexists. split; [reflexivity|].
  split; [apply nanmax_row_maximum|].
  unfold c3, c4. destruct (same_circuit d1 d3); vm_compute; auto.
Qed.

End WindDistance.

(** Two phase wires of circuit group 1, and one of each group. *)
Lemma add_distance_columns_sample :
  (exists df',
      Wind.add_distance_columns sample_sheet "41-21_W650_42-22_W390" = Ok df' /\
      cell_at df' "Required distance" 0 = Some (Num 1.35)) /\
  (exists df',
      Wind.add_distance_columns sample_sheet "41-21_W650_44-24_W390" = Ok df' /\
      cell_at df' "Required distance" 0 = Some (Num 1.60)).
Proof.
  split.
  - destruct (add_distance_columns_spec sample_sheet "41-21_W650_42-22_W390"
                "41" "42" eq_refl)
      as (df' & C3 & C4 & H & Hsame & _ & Hrows).
    exists df'. split; [exact H|].
    vm_compute in H. inversion H. reflexivity.
  - destruct (add_distance_columns_spec sample_sheet "41-21_W650_44-24_W390"
                "41" "44" eq_refl)
      as (df' & C3 & C4 & H & _ & Hdiff & Hrows).
    exists df'. split; [exact H|].
    vm_compute in H. inversion H. reflexivity.
Defined.

(** ** Swapping the two sections of a wind sheet name *)

Section Swap.
Import Re Wind.

Lemma list_of_append s t :
  list_ascii_of_string (s ++ t)%string
  = list_ascii_of_string s ++ list_ascii_of_string t.
Proof. induction s as [|c s IH]; simpl; [reflexivity|]. now rewrite IH. Qed.

Lemma string_of_app l m :
  string_of_list_ascii (l ++ m)
  = (string_of_list_ascii l ++ string_of_list_ascii m)%string.
Proof. induction l as [|c l IH]; simpl; [reflexivity|]. now rewrite IH. Qed.

Lemma star_unfold {R : Type} p (k : list ascii -> option R) s :
  star p k s =
  match s with
  | c :: t => if p c then match star p k t with Some r => Some r | None => k s end
              else k s
  | [] => k s
  end.
Proof. destruct s; reflexivity. Qed.

Lemma star_lazy_unfold {R : Type} p (k : list ascii -> option R) s :
  star_lazy p k s =
  match k s with
  | Some r => Some r
  | None => match s with
            | c :: t => if p c then star_lazy p k t else None
            | [] => None
            end
  end.
Proof. destruct s; reflexivity. Qed.

Lemma star_greedy {R : Type} p (k : list ascii -> option R) x rest r :
  Forall (fun c => p c = true) x -> stops p rest -> k rest = Some r ->
  star p k (x ++ rest) = Some r.
Proof.
  intros Hx Hs Hk. induction Hx as [|c t Hc _ IH]; simpl.
  - rewrite star_unfold. destruct rest as [|c t]; [assumption|].
    simpl in Hs. now rewrite Hs.
  - now rewrite Hc, IH.
Qed.

Lemma plus_greedy {R : Type} p (k : list ascii -> option R) x rest r :
  x <> [] -> Forall (fun c => p c = true) x -> stops p rest ->
  k rest = Some r -> plus p k (x ++ rest) = Some r.
Proof.
  intros Hne Hx Hs Hk. destruct x as [|c t]; [congruence|].
  inversion Hx; subst. simpl.
  match goal with H : p c = true |- _ => rewrite H end.
  now apply star_greedy.
Qed.

Lemma star_lazy_first {R : Type} p (k : list ascii -> option R) x rest r :
  Forall (fun c => p c = true /\ forall s, k (c :: s) = None) x ->
  k rest = Some r -> star_lazy p k (x ++ rest) = Some r.
Proof.
  intros Hx Hk. induction Hx as [|c t (Hc & Hn) _ IH]; simpl.
  - rewrite star_lazy_unfold. now rewrite Hk.
  - now rewrite Hn, Hc.
Qed.

Lemma plus_lazy_first {R : Type} p (k : list ascii -> option R) x rest r :
  x <> [] ->
  Forall (fun c => p c = true /\ forall s, k (c :: s) = None) x ->
  k rest = Some r -> plus_lazy p k (x ++ rest) = Some r.
Proof.
  intros Hne Hx Hk. destruct x as [|c t]; [congruence|].
  inversion Hx as [|? ? (Hc & _) Ht]; subst. simpl. rewrite Hc.
  now apply star_lazy_first.
Qed.

Lemma star_lazy_none {R : Type} p (k : list ascii -> option R) s :
  (forall t, k t = None) -> star_lazy p k s = None.
Proof.
  intros H. induction s as [|c t IH]; simpl; rewrite H; [reflexivity|].
  now destruct (p c).
Qed.

Lemma consumed_app x rest : consumed (x ++ rest) rest = x.
Proof.
  unfold consumed. rewrite length_app.
  replace (List.length x + List.length rest - List.length rest)
    with (List.length x) by lia.
  rewrite firstn_app, Nat.sub_diag, firstn_all. simpl. apply app_nil_r.
Qed.

Lemma digit_or_hyphen_dot c :
  is_digit_or_hyphen c = true -> is_dot c = true /\ c <> "_"%char.
Proof.
  destruct c as [[] [] [] [] [] [] [] []]; vm_compute; intros H;
    try discriminate; split; congruence.
Qed.

Lemma digit_is_digit_or_hyphen c : is_digit c = true -> is_digit_or_hyphen c = true.
Proof. unfold is_digit_or_hyphen. now intros ->. Qed.

Lemma swap_match a p1 b p2 :
  a <> [] -> Forall (fun c => is_digit_or_hyphen c = true) a ->
  p1 <> [] -> Forall (fun c => is_digit c = true) p1 ->
  b <> [] -> Forall (fun c => is_digit_or_hyphen c = true) b ->
  p2 <> [] -> Forall (fun c => is_digit c = true) p2 ->
  re_match_at false SWAP_RE
    (a ++ "_"%char :: "W"%char :: p1 ++ "_"%char :: b
       ++ "_"%char :: "W"%char :: p2)
  = Some [ (2, b ++ "_"%char :: "W"%char :: p2);
           (1, a ++ "_"%char :: "W"%char :: p1) ].
Proof.
  intros Na Ha N1 H1 Nb Hb N2 H2.
  unfold re_match_at, SWAP_RE. cbn [seq fold_right exec].
  etransitivity.
  - eapply plus_lazy_first; [assumption| |].
    + eapply Forall_impl; [|exact Ha]. intros c Hc.
      destruct (digit_or_hyphen_dot c Hc) as (Hd & Hu).
      split; [assumption|]. intros s0.
      cbn [list_ascii_of_string strip_prefix chr_eqb].
      destruct (Ascii.eqb "_" c) eqn:E; [|reflexivity].
      apply Ascii.eqb_eq in E. congruence.
    + cbn [list_ascii_of_string strip_prefix chr_eqb Ascii.eqb Bool.eqb].
      eapply plus_greedy; [assumption|assumption|reflexivity|].
      cbn [list_ascii_of_string strip_prefix chr_eqb Ascii.eqb Bool.eqb].
      eapply plus_greedy; [assumption|assumption|reflexivity|].
      cbn [list_ascii_of_string strip_prefix chr_eqb Ascii.eqb Bool.eqb].
      rewrite <- (app_nil_r p2) at 1.
      eapply plus_greedy; [assumption|assumption|exact I|].
      reflexivity.
  - f_equal.
    replace (b ++ "_"%char :: "W"%char :: p2)
      with ((b ++ "_"%char :: "W"%char :: p2) ++ []) at 1
      by apply app_nil_r.
    rewrite consumed_app.
    replace (a ++ "_"%char :: "W"%char :: p1 ++ "_"%char :: b
               ++ "_"%char :: "W"%char :: p2)
      with ((a ++ "_"%char :: "W"%char :: p1)
              ++ "_"%char :: b ++ "_"%char :: "W"%char :: p2)
      by (rewrite <- app_assoc; reflexivity).
    rewrite consumed_app. reflexivity.
Qed.

Lemma string_append_assoc (s t u : string) :
  ((s ++ t) ++ u = s ++ (t ++ u))%string.
Proof. induction s as [|c s IH]; simpl; [reflexivity|]. now rewrite IH. Qed.

Lemma run_of_list p s :
  run_of p s ->
  list_ascii_of_string s <> [] /\
  Forall (fun c => p c = true) (list_ascii_of_string s).
Proof.
  intros (Hne & Hall). split; [|assumption].
  destruct s; [congruence|discriminate].
Qed.

Lemma wind_name_list a p1 b p2 :
  list_ascii_of_string (wind_name a p1 b p2)
  = list_ascii_of_string a ++ "_"%char :: "W"%char :: list_ascii_of_string p1
      ++ "_"%char :: list_ascii_of_string b
      ++ "_"%char :: "W"%char :: list_ascii_of_string p2.
Proof.
  unfold wind_name. rewrite !list_of_append. reflexivity.
Qed.

Lemma swap_sheet_name_exchanges a p1 b p2 :
  run_of is_digit_or_hyphen a -> run_of is_digit p1 ->
  run_of is_digit_or_hyphen b -> run_of is_digit p2 ->
  swap_sheet_name (wind_name a p1 b p2) = wind_name b p2 a p1.
Proof.
  intros Ra R1 Rb R2.
  apply run_of_list in Ra, R1, Rb, R2.
  destruct Ra as (Na & Ha), R1 as (N1 & H1), Rb as (Nb & Hb), R2 as (N2 & H2).
  unfold swap_sheet_name, re_match. rewrite wind_name_list.
  rewrite swap_match by assumption.
  unfold group_str. cbn [group Nat.eqb].
  rewrite !string_of_app. cbn [string_of_list_ascii].
  rewrite !string_of_list_ascii_of_string.
  unfold wind_name. rewrite string_append_assoc. reflexivity.
Qed.

Lemma strip_prefix_W t t' :
  strip_prefix false ["_"%char; "W"%char] t = Some t' ->
  t = "_"%char :: "W"%char :: t'.
Proof.
  destruct t as [|c1 [|c2 t2]]; cbn [strip_prefix chr_eqb];
    try discriminate.
  - destruct (Ascii.eqb "_" c1); discriminate.
  - destruct (Ascii.eqb "_" c1) eqn:E1; [|discriminate].
    destruct (Ascii.eqb "W" c2) eqn:E2; [|discriminate].
    apply Ascii.eqb_eq in E1, E2. intros H. inversion H. now subst.
Qed.

Lemma star_lazy_suffixes {R : Type} p (k : list ascii -> option R) s :
  (forall pre t, s = pre ++ t -> k t = None) -> star_lazy p k s = None.
Proof.
  induction s as [|c t IH]; intros H; rewrite star_lazy_unfold.
  - now rewrite (H [] []).
  - rewrite (H [] (c :: t)) by reflexivity.
    destruct (p c); [|reflexivity].
    apply IH. intros pre u ->. apply (H (c :: pre)). reflexivity.
Qed.

Lemma swap_sheet_name_without_W name :
  ~ occurs "_W" name -> swap_sheet_name name = name.
Proof.
  intros Hno. unfold swap_sheet_name, re_match, re_match_at, SWAP_RE.
  cbn [seq fold_right exec].
  set (l := list_ascii_of_string name).
  assert (Hl : forall pre t t', l = pre ++ t ->
                 strip_prefix false ["_"%char; "W"%char] t = Some t' -> False).
  { intros pre t t' El Hs. apply strip_prefix_W in Hs. subst t.
    apply Hno. exists (string_of_list_ascii pre), (string_of_list_ascii t').
    rewrite <- (string_of_list_ascii_of_string name). fold l. rewrite El.
    rewrite string_of_app. reflexivity. }
  unfold plus_lazy.
  destruct l as [|c t] eqn:El; [reflexivity|].
  destruct (is_dot c); [|reflexivity].
  rewrite star_lazy_suffixes; [reflexivity|].
  intros pre u Eu. cbn [list_ascii_of_string].
  destruct (strip_prefix false ["_"%char; "W"%char] u) as [u'|] eqn:Hs;
    [|reflexivity].
  exfalso. apply (Hl (c :: pre) u u'); [|assumption].
  rewrite Eu. reflexivity.
Qed.

(** C10, as the code has it.  On a name [<a>_W<p1>_<b>_W<p2>], with a
    and b of digits and hyphens and p1 and p2 of digits,
    [swap_sheet_name] exchanges the two sections, and applied twice it
    returns the name; a name in which the text "_W" does not occur is
    returned unchanged. *)
Theorem swap_sheet_name_involution :
  (forall a p1 b p2,
      run_of is_digit_or_hyphen a -> run_of is_digit p1 ->
      run_of is_digit_or_hyphen b -> run_of is_digit p2 ->
      swap_sheet_name (wind_name a p1 b p2) = wind_name b p2 a p1 /\
      swap_sheet_name (swap_sheet_name (wind_name a p1 b p2))
      = wind_name a p1 b p2) /\
  (forall name, ~ occurs "_W" name -> swap_sheet_name name = name).
Proof.
  split.
  - intros a p1 b p2 Ra R1 Rb R2. split.
    + now apply swap_sheet_name_exchanges.
    + rewrite (swap_sheet_name_exchanges a p1 b p2) by assumption.
      now apply swap_sheet_name_exchanges.
  - apply swap_sheet_name_without_W.
Qed.

End Swap.

(** A sheet name of the wind workbooks, and a name without "_W". *)
Lemma swap_sheet_name_involution_sample :
  Wind.swap_sheet_name "41-21_W650_59-39_W390" = "59-39_W390_41-21_W650"%string /\
  Wind.swap_sheet_name (Wind.swap_sheet_name "41-21_W650_59-39_W390")
  = "41-21_W650_59-39_W390"%string /\
  Wind.swap_sheet_name "41-42_43-44" = "41-42_43-44"%string.
Proof.
  destruct swap_sheet_name_involution as (Hswap & Hkeep).
  destruct (Hswap "41-21" "650" "59-39" "390")%string as (H1 & H2);
    try (split; [discriminate|repeat constructor]).
  split; [exact H1|]. split; [exact H2|].
  apply Hkeep. intros (pre & post & E).
  assert (Hin : In "W"%char (list_ascii_of_string "41-42_43-44")).
  { rewrite E, !list_of_append. apply in_or_app. right. simpl. auto. }
  simpl in Hin.
  repeat (destruct Hin as [Hin|Hin]; [discriminate|]). exact Hin.
Defined.

(** C10 fails as stated: the name x_W1_2_W3 is not of the form
    [<a>_W<p1>_<b>_W<p2>] with a of digits and hyphens, yet it is
    rewritten, and a second swap does not bring it back. *)
Lemma swap_sheet_name_rewrites_other_names :
  ~ well_formed "x_W1_2_W3" /\
  Wind.swap_sheet_name "x_W1_2_W3" = "2_W3_x_W1"%string /\
  Wind.swap_sheet_name (Wind.swap_sheet_name "x_W1_2_W3") <> "x_W1_2_W3"%string.
Proof.
  split; [|split; [reflexivity|vm_compute; discriminate]].
  intros (a & p1 & b & p2 & (Na & Ha) & _ & _ & _ & E).
  destruct a as [|c a]; [congruence|].
  unfold wind_name in E. simpl in E. inversion E; subst c.
  inversion Ha as [|? ? Hc _]. vm_compute in Hc. discriminate.
Qed.

(** ** The results workbook as a precondition *)

Section Precondition.
Import CalculationsCopy.
Variable numeric_of_text : string -> float.
Variable Sheet : Type.
Variable frame_of_sheet : Sheet -> result DataFrame.
Variable sheet_of_frame : Sheet -> DataFrame -> Sheet.
Variable max_row : Sheet -> nat.
Variable set_cell : Sheet -> nat -> nat -> value -> Sheet.
Variable RESULTS_PATH : string.

Abbreviation open_results := (_open_results_wb Sheet).
Abbreviation workbook :=
  (process_workbook numeric_of_text Sheet frame_of_sheet sheet_of_frame
                    max_row set_cell RESULTS_PATH).
Abbreviation run :=
  (main numeric_of_text Sheet frame_of_sheet sheet_of_frame
        max_row set_cell RESULTS_PATH).
Abbreviation step :=
  (main_step numeric_of_text Sheet frame_of_sheet sheet_of_frame
             max_row set_cell RESULTS_PATH).

Lemma open_results_unusable fs :
  results_unusable fs RESULTS_PATH ->
  exists exc, open_results fs RESULTS_PATH = Raise exc /\ precondition_error exc.
Proof.
  unfold _open_results_wb, precondition_error, Workbook.
  intros [H|(wb & H & Hmiss)]; rewrite H; [eauto|].
  unfold sheetnames. cbn [filter].
  destruct Hmiss as [Hm|Hm]; rewrite Hm; cbn [negb].
  - eauto.
  - destruct (negb (contains (map fst wb) PH_PH_SHEET)); eauto.
Qed.

Lemma workbook_without_results fs exc xl_path :
  open_results fs RESULTS_PATH = Raise exc ->
  workbook fs xl_path =
  match Names._load_metadata xl_path with
  | Raise e => ([], Raise e)
  | Ok (start_span, end_suffix) =>
      ([Processing (Names.basename xl_path) start_span
                   (drop_last3 start_span ++ end_suffix)%string],
       Raise exc)
  end.
Proof.
  intros H. unfold process_workbook.
  destruct (Names._load_metadata xl_path) as [[start_span end_suffix]|e];
    [|reflexivity].
  now rewrite H.
Qed.

Lemma workbook_raises fs exc xl_path :
  open_results fs RESULTS_PATH = Raise exc ->
  exists l e, workbook fs xl_path = (l, Raise e).
Proof.
  intros H. rewrite (workbook_without_results fs exc xl_path H).
  destruct (Names._load_metadata xl_path) as [[start_span end_suffix]|e]; eauto.
Qed.

Lemma step_fails fs fp out l e :
  workbook fs fp = (l, Raise e) ->
  step (out, fs) fp = (out ++ l ++ [Error fp e], fs).
Proof. intros H. unfold main_step. now rewrite H. Qed.

Lemma run_without_results fs exc files out :
  open_results fs RESULTS_PATH = Raise exc ->
  snd (fold_left step files (out, fs)) = fs /\
  (forall x, In x out -> In x (fst (fold_left step files (out, fs)))) /\
  forall fp, In fp files ->
             exists e, In (Error fp e) (fst (fold_left step files (out, fs))).
Proof.
  intros H. revert out. induction files as [|f t IH]; intros out.
  - simpl. split; [reflexivity|]. split; [auto|]. intros fp [].
  - destruct (workbook_raises fs exc f H) as (l & e & Hw).
    cbn [fold_left]. rewrite (step_fails fs f out l e Hw).
    destruct (IH (out ++ l ++ [Error f e])) as (Hfs & Hout & Hfiles).
    split; [assumption|]. split.
    + intros x Hx. apply Hout. apply in_or_app. now left.
    + intros fp [<-|Hin]; [|now apply Hfiles].
      exists e. apply Hout. apply in_or_app. right.
      apply in_or_app. right. now left.
Qed.

(** C6, as the code has it.  When the results workbook does not exist
    or lacks one of its two template sheets, [_open_results_wb] raises
    a precondition error ([FileNotFoundError] or [KeyError]); every
    source workbook with a well-formed file name fails with that error
    before it is opened, whatever the workbooks hold; [main] catches
    the error of each file, prints it and goes on to the next file, so
    that the run ends with one error line per file and with no file
    written. *)
Theorem missing_results_workbook fs :
  results_unusable fs RESULTS_PATH ->
  exists exc,
    open_results fs RESULTS_PATH = Raise exc /\
    precondition_error exc /\
    (forall xl_path start_span end_suffix,
        Names._load_metadata xl_path = Ok (start_span, end_suffix) ->
        workbook fs xl_path =
        ([Processing (Names.basename xl_path) start_span
                     (drop_last3 start_span ++ end_suffix)%string],
         Raise exc)) /\
    (forall xl_path, exists l e, workbook fs xl_path = (l, Raise e)) /\
    forall files,
      snd (run files fs) = fs /\
      forall fp, In fp files -> exists e, In (Error fp e) (fst (run files fs)).
Proof.
  intros H. destruct (open_results_unusable fs H) as (exc & Hopen & Hpre).
  exists exc. split; [assumption|]. split; [assumption|].
  split; [|split].
  - intros xl_path start_span end_suffix Hmeta.
    rewrite (workbook_without_results fs exc xl_path Hopen), Hmeta.
    reflexivity.
  - intros xl_path. eapply workbook_raises; eauto.
  - intros files. unfold main. destruct files as [|f t].
    + split; [reflexivity|]. intros fp [].
    + destruct (run_without_results fs exc (f :: t) [] Hopen)
        as (Hfs & _ & Hfiles).
      split; assumption.
Qed.

End Precondition.

(** A folder of two workbooks without the results workbook: both fail
    and nothing is written. *)
Lemma missing_results_workbook_sample :
  snd (sample_main sample_files sample_fs) = sample_fs /\
  exists e1 e2,
    In (CalculationsCopy.Error "Cond_10C_TR1730a001_002.xlsx" e1)
       (fst (sample_main sample_files sample_fs)) /\
    In (CalculationsCopy.Error "Cond_10C_TR1730a002_003.xlsx" e2)
       (fst (sample_main sample_files sample_fs)).
Proof.
  destruct (missing_results_workbook (fun _ => nan) DataFrame (fun ws => Ok ws)
              (fun _ df => df) (fun ws => nrows ws) (fun ws _ _ _ => ws)
              sample_results_path sample_fs (or_introl eq_refl))
    as (exc & _ & _ & _ & _ & Hrun).
  destruct (Hrun sample_files) as (Hfs & Hfiles).
  split; [exact Hfs|].
  destruct (Hfiles "Cond_10C_TR1730a001_002.xlsx"%string) as (e1 & H1);
    [simpl; auto|].
  destruct (Hfiles "Cond_10C_TR1730a002_003.xlsx"%string) as (e2 & H2);
    [simpl; auto|].
  exists e1, e2. split; assumption.
Defined.

(** C6 fails as stated: without the results workbook the run is not
    cut short.  The error of the first workbook is printed, the second
    workbook is tried and fails in the same way, and [main] returns. *)
Lemma missing_results_not_fatal :
  results_unusable sample_fs sample_results_path /\
  sample_main sample_files sample_fs
  = ([ CalculationsCopy.Processing "Cond_10C_TR1730a001_002.xlsx"
         "TR1730a001" "TR1730a002";
       CalculationsCopy.Error "Cond_10C_TR1730a001_002.xlsx"
         (FileNotFoundError
            "Results workbook 'Formulas Distances_rev1.xlsx' does not exist. Create it manually with the template sheets first.");
       CalculationsCopy.Processing "Cond_10C_TR1730a002_003.xlsx"
         "TR1730a002" "TR1730a003";
       CalculationsCopy.Error "Cond_10C_TR1730a002_003.xlsx"
         (FileNotFoundError
            "Results workbook 'Formulas Distances_rev1.xlsx' does not exist. Create it manually with the template sheets first.") ],
     sample_fs).
Proof. split; [left; reflexivity|reflexivity]. Qed.

(** With the results workbook and its two template sheets in the
    folder, the same run processes both workbooks. *)
Example run_with_results_sample :
  fst (sample_main sample_files sample_fs_with_results)
  = [ CalculationsCopy.Processing "Cond_10C_TR1730a001_002.xlsx"
        "TR1730a001" "TR1730a002";
      CalculationsCopy.SheetTag "41-42_43-44" "Ph-Ph";
      CalculationsCopy.Written "Cond_10C_TR1730a001_002_processed.xlsx";
      CalculationsCopy.Processing "Cond_10C_TR1730a002_003.xlsx"
        "TR1730a002" "TR1730a003";
      CalculationsCopy.SheetTag "41-42_59-39" "Ph-EW";
      CalculationsCopy.Written "Cond_10C_TR1730a002_003_processed.xlsx" ].
Proof. reflexivity. Qed.

(** * Further properties of the scripts *)

(** ** Decimal text *)

Section DecimalText.
Import Re.

Lemma uint_digits (u : Decimal.uint) :
  Forall (fun c => is_digit c = true)
         (list_ascii_of_string (NilEmpty.string_of_uint u)).
Proof. induction u; simpl; constructor; auto. Qed.

Lemma of_uint_acc_int u acc :
  Zpos (Pos.of_uint_acc u acc)
  = int_acc (list_ascii_of_string (NilEmpty.string_of_uint u)) (Zpos acc).
Proof.
  revert acc. unfold int_acc.
  induction u; intros acc;
    cbn [Pos.of_uint_acc NilEmpty.string_of_uint list_ascii_of_string fold_left];
    try reflexivity; rewrite IHu; f_equal;
    match goal with
    | |- context [Z.of_nat ?n] =>
        let v := eval vm_compute in (Z.of_nat n) in
        change (Z.of_nat n) with v
    end; lia.
Qed.

Lemma of_uint_int u :
  Z.of_N (Pos.of_uint u)
  = int (list_ascii_of_string (NilEmpty.string_of_uint u)).
Proof.
  unfold int.
  induction u;
    cbn [Pos.of_uint NilEmpty.string_of_uint list_ascii_of_string fold_left];
    try reflexivity; try assumption;
    cbn [Z.of_N]; rewrite of_uint_acc_int; reflexivity.
Qed.

(** The decimal text of a natural number: digits only, at least one,
    and [int] reads the number back. *)
Lemma str_digits (d : Z) :
  (0 <= d)%Z ->
  run_of is_digit (str d) /\ int (list_ascii_of_string (str d)) = d.
Proof.
  intros Hd. unfold str.
  assert (E : exists u, Z.to_int d = Decimal.Pos u /\ u <> Decimal.Nil).
  { destruct d as [|p|p]; [| |lia].
    - exists Decimal.zero. split; [reflexivity|discriminate].
    - exists (Pos.to_uint p). split; [reflexivity|].
      apply DecimalPos.Unsigned.to_uint_nonnil. }
  destruct E as (u & Eu & Nu).
  pose proof (DecimalZ.of_to d) as R. rewrite Eu in *. simpl in R.
  unfold Z.of_uint in R.
  assert (S : NilZero.string_of_uint u = NilEmpty.string_of_uint u)
    by (destruct u; congruence || reflexivity).
  simpl. rewrite S. split; [split|].
  - destruct u; congruence || discriminate.
  - apply uint_digits.
  - rewrite <- of_uint_int. exact R.
Qed.

Lemma str_inj (n m : Z) : (0 <= n)%Z -> (0 <= m)%Z -> str n = str m -> n = m.
Proof.
  intros Hn Hm E.
  destruct (str_digits n Hn) as (_ & <-), (str_digits m Hm) as (_ & <-).
  now rewrite E.
Qed.

End DecimalText.

(** ** What a match of the matcher tells *)

Section RegexFacts.
Import Re.

Lemma star_sound {R : Type} p (k : list ascii -> option R) s r :
  star p k s = Some r ->
  exists x rest, s = x ++ rest /\ Forall (fun c => p c = true) x /\
                 k rest = Some r.
Proof.
  induction s as [|c t IH]; simpl; intros H.
  - exists [], []. auto.
  - destruct (p c) eqn:Pc.
    + destruct (star p k t) as [r'|] eqn:St.
      * inversion H; subst r'.
        destruct (IH eq_refl) as (x & rest & -> & Hx & Hk).
        exists (c :: x), rest. auto.
      * exists [], (c :: t). auto.
    + exists [], (c :: t). auto.
Qed.

Lemma plus_sound {R : Type} p (k : list ascii -> option R) s r :
  plus p k s = Some r ->
  exists x rest, s = x ++ rest /\ x <> [] /\
                 Forall (fun c => p c = true) x /\ k rest = Some r.
Proof.
  destruct s as [|c t]; simpl; [discriminate|].
  destruct (p c) eqn:Pc; [|discriminate]. intros H.
  destruct (star_sound _ _ _ _ H) as (x & rest & -> & Hx & Hk).
  exists (c :: x), rest. repeat split; auto. discriminate.
Qed.

Lemma strip_prefix_sound l s s' :
  strip_prefix false l s = Some s' -> s = l ++ s'.
Proof.
  revert s. induction l as [|a l IH]; intros [|b s]; simpl; intros H;
    try discriminate; try (now inversion H).
  destruct (Ascii.eqb a b) eqn:E; [|discriminate].
  apply Ascii.eqb_eq in E. subst. f_equal. auto.
Qed.

Lemma strip_prefix_complete l s : strip_prefix false l (l ++ s) = Some s.
Proof.
  induction l as [|a l IH]; simpl; [now destruct s|].
  now rewrite Ascii.eqb_refl.
Qed.

Lemma int_nonneg s : (0 <= int s)%Z.
Proof.
  unfold int. assert (G : forall acc, (0 <= acc)%Z ->
    (0 <= fold_left (fun acc c => 10 * acc + Z.of_nat (nat_of_ascii c - 48)) s acc)%Z).
  { induction s as [|c t IH]; cbn [fold_left]; intros acc Ha; [assumption|].
    apply IH. lia. }
  apply G. lia.
Qed.

Lemma list_of_string_inj s t :
  list_ascii_of_string s = list_ascii_of_string t -> s = t.
Proof.
  intros H. rewrite <- (string_of_list_ascii_of_string s),
    <- (string_of_list_ascii_of_string t). now rewrite H.
Qed.

Lemma run_of_string p l :
  l <> [] -> Forall (fun c => p c = true) l ->
  run_of p (string_of_list_ascii l).
Proof.
  intros Hne Hall. split.
  - destruct l; [congruence|discriminate].
  - now rewrite list_ascii_of_string_of_list_ascii.
Qed.

End RegexFacts.

(** ** Sheet names [d1-d2_d3-d4] *)

Section SheetNames.
Import Re Names.

Lemma sheet_re_match s1 s2 s3 s4 tl :
  s1 <> [] -> Forall (fun c => is_digit c = true) s1 ->
  s2 <> [] -> Forall (fun c => is_digit c = true) s2 ->
  s3 <> [] -> Forall (fun c => is_digit c = true) s3 ->
  s4 <> [] -> Forall (fun c => is_digit c = true) s4 ->
  tl = [] \/ tl = ["010"%char] ->
  re_match_at false SHEET_RE
    (s1 ++ "-"%char :: s2 ++ "_"%char :: s3 ++ "-"%char :: s4 ++ tl)
  = Some [(4, s4); (3, s3); (2, s2); (1, s1)].
Proof.
  intros N1 H1 N2 H2 N3 H3 N4 H4 Htl.
  assert (St : stops is_digit tl) by (destruct Htl; subst; [exact I|reflexivity]).
  unfold re_match_at, SHEET_RE. cbn [seq fold_right exec].
  etransitivity.
  - eapply plus_greedy; [assumption|assumption|reflexivity|].
    cbn [list_ascii_of_string strip_prefix chr_eqb Ascii.eqb Bool.eqb].
    eapply plus_greedy; [assumption|assumption|reflexivity|].
    cbn [list_ascii_of_string strip_prefix chr_eqb Ascii.eqb Bool.eqb].
    eapply plus_greedy; [assumption|assumption|reflexivity|].
    cbn [list_ascii_of_string strip_prefix chr_eqb Ascii.eqb Bool.eqb].
    eapply plus_greedy; [assumption|assumption|assumption|].
    destruct Htl; subst; reflexivity.
  - rewrite !consumed_app. reflexivity.
Qed.

Lemma sheet_re_sound s m :
  re_match_at false SHEET_RE s = Some m ->
  exists s1 s2 s3 s4 tl,
    (s1 <> [] /\ Forall (fun c => is_digit c = true) s1) /\
    (s2 <> [] /\ Forall (fun c => is_digit c = true) s2) /\
    (s3 <> [] /\ Forall (fun c => is_digit c = true) s3) /\
    (s4 <> [] /\ Forall (fun c => is_digit c = true) s4) /\
    (tl = [] \/ tl = ["010"%char]) /\
    s = s1 ++ "-"%char :: s2 ++ "_"%char :: s3 ++ "-"%char :: s4 ++ tl /\
    m = [(4, s4); (3, s3); (2, s2); (1, s1)].
Proof.
  unfold re_match_at, SHEET_RE. cbn [seq fold_right exec]. intros H.
  apply plus_sound in H. destruct H as (s1 & r1 & -> & N1 & H1 & H).
  cbn [list_ascii_of_string] in H.
  destruct (strip_prefix false ["-"%char] r1) as [r1'|] eqn:P1; [|discriminate].
  apply strip_prefix_sound in P1. subst r1.
  apply plus_sound in H. destruct H as (s2 & r2 & -> & N2 & H2 & H).
  destruct (strip_prefix false ["_"%char] r2) as [r2'|] eqn:P2; [|discriminate].
  apply strip_prefix_sound in P2. subst r2.
  apply plus_sound in H. destruct H as (s3 & r3 & -> & N3 & H3 & H).
  destruct (strip_prefix false ["-"%char] r3) as [r3'|] eqn:P3; [|discriminate].
  apply strip_prefix_sound in P3. subst r3.
  apply plus_sound in H. destruct H as (s4 & tl & -> & N4 & H4 & H).
  exists s1, s2, s3, s4, tl.
  rewrite !consumed_app in H.
  assert (Htl : tl = [] \/ tl = ["010"%char]).
  { destruct tl as [|c t]; [now left|].
    destruct c as [[] [] [] [] [] [] [] []]; try discriminate.
    destruct t; [now right|discriminate]. }
  repeat match goal with |- _ /\ _ => split end; auto.
  destruct Htl; subst; now inversion H.
Qed.

Lemma string_append_nil (s : string) : (s ++ "")%string = s.
Proof. induction s as [|c s IH]; simpl; [reflexivity|]. now rewrite IH. Qed.

Lemma sheet_name_list s1 s2 s3 s4 tl :
  list_ascii_of_string (sheet_name_of s1 s2 s3 s4 ++ tl)%string
  = list_ascii_of_string s1 ++ "-"%char :: list_ascii_of_string s2
      ++ "_"%char :: list_ascii_of_string s3
      ++ "-"%char :: list_ascii_of_string s4 ++ list_ascii_of_string tl.
Proof.
  unfold sheet_name_of. rewrite !list_of_append. cbn [list_ascii_of_string].
  repeat (rewrite <- app_assoc; cbn [app]). reflexivity.
Qed.

Lemma line_end_list tl :
  line_end tl <->
  list_ascii_of_string tl = [] \/ list_ascii_of_string tl = ["010"%char].
Proof.
  unfold line_end. split; intros [H|H].
  - left. now subst.
  - right. now subst.
  - left. now apply list_of_string_inj.
  - right. now apply list_of_string_inj.
Qed.

(** A name of the shape [<s1>-<s2>_<s3>-<s4>], its four parts runs of
    digits, is parsed into the numbers that the parts spell. *)
Lemma parse_sheet_name_complete s1 s2 s3 s4 tl :
  run_of is_digit s1 -> run_of is_digit s2 ->
  run_of is_digit s3 -> run_of is_digit s4 -> line_end tl ->
  _parse_sheet_name (sheet_name_of s1 s2 s3 s4 ++ tl)
  = Ok (int_of s1, int_of s2, int_of s3, int_of s4).
Proof.
  intros R1 R2 R3 R4 Htl.
  apply run_of_list in R1, R2, R3, R4. apply line_end_list in Htl.
  destruct R1 as (N1 & H1), R2 as (N2 & H2), R3 as (N3 & H3), R4 as (N4 & H4).
  unfold _parse_sheet_name, re_match. rewrite sheet_name_list.
  rewrite sheet_re_match by assumption. reflexivity.
Qed.

(** X1.  Formatting four natural numbers as [d1-d2_d3-d4] and parsing
    the name gives the four numbers back. *)
Theorem parse_sheet_name_round_trip d1 d2 d3 d4 :
  (0 <= d1)%Z -> (0 <= d2)%Z -> (0 <= d3)%Z -> (0 <= d4)%Z ->
  _parse_sheet_name (str d1 ++ "-" ++ str d2 ++ "_" ++ str d3 ++ "-" ++ str d4)
  = Ok (d1, d2, d3, d4).
Proof.
  intros P1 P2 P3 P4.
  destruct (str_digits d1 P1) as (R1 & E1), (str_digits d2 P2) as (R2 & E2),
    (str_digits d3 P3) as (R3 & E3), (str_digits d4 P4) as (R4 & E4).
  pose proof (parse_sheet_name_complete _ _ _ _ ""%string R1 R2 R3 R4
                (or_introl eq_refl)) as H.
  unfold sheet_name_of, int_of in H.
  rewrite E1, E2, E3, E4, string_append_nil in H. exact H.
Qed.

(** X2.  On a name of ASCII characters (and of at most 4300
    characters, the length up to which Python's [int] converts any run
    of digits), [_parse_sheet_name] returns exactly when the name is
    [<s1>-<s2>_<s3>-<s4>] with four non-empty runs of the digits 0-9,
    a final newline allowed, and it returns the numbers that the parts
    spell (leading zeros included); on every other such name it does
    not return. *)
Theorem parse_sheet_name_exact name d1 d2 d3 d4 :
  ascii_text name -> String.length name <= 4300 ->
  (_parse_sheet_name name = Ok (d1, d2, d3, d4) <->
   exists s1 s2 s3 s4 tl,
     run_of is_digit s1 /\ run_of is_digit s2 /\
     run_of is_digit s3 /\ run_of is_digit s4 /\ line_end tl /\
     name = (sheet_name_of s1 s2 s3 s4 ++ tl)%string /\
     d1 = int_of s1 /\ d2 = int_of s2 /\ d3 = int_of s3 /\ d4 = int_of s4).
Proof.
  intros _ _. split.
  - unfold _parse_sheet_name, re_match. intros H.
    destruct (re_match_at false SHEET_RE (list_ascii_of_string name))
      as [m|] eqn:M; [|discriminate].
    apply sheet_re_sound in M.
    destruct M as (s1 & s2 & s3 & s4 & tl & (N1 & H1) & (N2 & H2) & (N3 & H3)
                   & (N4 & H4) & Htl & E & ->).
    cbn [group Nat.eqb] in H. inversion H; subst d1 d2 d3 d4.
    exists (string_of_list_ascii s1), (string_of_list_ascii s2),
      (string_of_list_ascii s3), (string_of_list_ascii s4),
      (string_of_list_ascii tl).
    unfold int_of. rewrite !list_ascii_of_string_of_list_ascii.
    repeat match goal with |- _ /\ _ => split end;
      auto using run_of_string.
    + apply line_end_list. now rewrite list_ascii_of_string_of_list_ascii.
    + apply list_of_string_inj. rewrite sheet_name_list.
      now rewrite !list_ascii_of_string_of_list_ascii.
  - intros (s1 & s2 & s3 & s4 & tl & R1 & R2 & R3 & R4 & Htl & -> & -> & ->
            & -> & ->).
    now apply parse_sheet_name_complete.
Qed.

End SheetNames.

(** The sheet name of the scenario, and the same name with zeros in
    front of the first number. *)
Lemma parse_sheet_name_round_trip_sample :
  Names._parse_sheet_name "41-42_43-44" = Ok (41, 42, 43, 44)%Z /\
  Names._parse_sheet_name "0041-42_43-44" = Ok (41, 42, 43, 44)%Z.
Proof.
  split; [|reflexivity].
  apply (parse_sheet_name_round_trip 41 42 43 44); lia.
Defined.

(** The sheet name of the scenario is parsed, and a sheet of notes is
    not: its name is not of the shape. *)
Lemma parse_sheet_name_exact_sample :
  (exists s1 s2 s3 s4 tl,
     "41-42_43-44"%string = (sheet_name_of s1 s2 s3 s4 ++ tl)%string /\
     int_of s1 = 41%Z /\ int_of s4 = 44%Z) /\
  (forall d1 d2 d3 d4,
     Names._parse_sheet_name "Notes" <> Ok (d1, d2, d3, d4)).
Proof.
  split.
  - destruct (parse_sheet_name_exact "41-42_43-44" 41 42 43 44) as (H & _);
      [repeat constructor; simpl; lia | simpl; lia |].
    destruct (H eq_refl)
      as (s1 & s2 & s3 & s4 & tl & _ & _ & _ & _ & _ & E & E1 & _ & _ & E4).
    exists s1, s2, s3, s4, tl. auto.
  - intros d1 d2 d3 d4 P.
    destruct (parse_sheet_name_exact "Notes" d1 d2 d3 d4) as (H & _);
      [repeat constructor; simpl; lia | simpl; lia |].
    destruct (H P)
      as (s1 & s2 & s3 & s4 & tl & (N1 & D1) & _ & _ & _ & _ & E & _).
    destruct s1 as [|c s1]; [congruence|].
    simpl in D1. apply Forall_inv in D1.
    unfold sheet_name_of in E. simpl in E. injection E as Ec _.
    rewrite <- Ec in D1. vm_compute in D1. discriminate D1.
Defined.

(** ** The frame around the computed columns *)

Section FrameAround.
Import Calculations.
Variable numeric_of_text : string -> float.

Lemma not_output_eqb n :
  ~ is_output n -> forall o, is_output o -> String.eqb n o = false.
Proof.
  intros Hn o Ho. destruct (String.eqb n o) eqn:E; [|reflexivity].
  apply String.eqb_eq in E. subst. contradiction.
Qed.

Lemma computes_lengths df d1 d2 d3 d4 col_sd12 col_sd34 a b sag beta k c1 c2
      req cur diff w m :
  wf df ->
  computes df d1 d2 d3 d4 col_sd12 col_sd34 a b sag beta k c1 c2
           req cur diff w m ->
  List.length sag = nrows df /\ List.length k = nrows df /\
  List.length req = nrows df /\ List.length diff = nrows df.
Proof.
  intros W (P12 & P34 & Ha & Hb & Hs & Hbeta & Hk & Hoff & Hc & Hd & Hi & Hw).
  assert (Ls : List.length sag = nrows df).
  { rewrite (zipM_length _ _ _ _ Hs); [eapply wf_getitem; eauto|].
    rewrite (wf_getitem _ _ _ W Ha), (wf_getitem _ _ _ W Hb). reflexivity. }
  assert (Lk : List.length k = nrows df).
  { rewrite (mapM_length _ _ _ Hk). eapply wf_getitem; eauto. }
  assert (Lr : List.length req = nrows df).
  { destruct (earth_wire_in (_which_circuit d1) (_which_circuit d3)).
    - destruct Hoff as (_ & _ & ->). apply repeat_length.
    - destruct Hoff as (_ & Hz).
      apply (zip5M_length _ _ _ _ _ _ _ _ Hz); auto using repeat_length. }
  repeat match goal with |- _ /\ _ => split end; try assumption.
  rewrite (zipM_length _ _ _ _ Hd); [eapply wf_getitem; eauto|].
  rewrite (wf_getitem _ _ _ W Hc), Lr. reflexivity.
Qed.

Lemma wf_augment df d1 d3 c12 c34 sag k c1 c2 req diff w m :
  wf df ->
  List.length sag = nrows df -> List.length k = nrows df ->
  List.length req = nrows df -> List.length diff = nrows df ->
  wf (augment df d1 d3 c12 c34 sag k c1 c2 req diff w m).
Proof.
  intros W Ls Lk Lr Ld. unfold augment.
  apply wf_setitem; [|now rewrite list_set_length, repeat_length].
  apply wf_setitem_scalar.
  apply wf_setitem; [|assumption].
  apply wf_setitem; [|assumption].
  do 3 apply wf_setitem_scalar.
  apply wf_setitem; [|assumption].
  now apply wf_setitem.
Qed.

(** X3.  A sheet that [process_sheet] has processed keeps its rows
    and every column it had under another name than the eight computed
    ones; each of the eight computed columns is present with one cell
    per row. *)
Theorem process_sheet_keeps_inputs df d1 d2 d3 d4 df' :
  wf df ->
  process_sheet df d1 d2 d3 d4 = Ok df' ->
  nrows df' = nrows df /\ wf df' /\
  (forall n, ~ is_output n -> getitem df' n = getitem df n) /\
  (forall n, is_output n ->
     exists c, getitem df' n = Ok c /\ List.length c = nrows df).
Proof.
  intros W H.
  destruct (process_sheet_computes _ _ _ _ _ _ H)
    as (col12 & col34 & a & b & sag & beta & k & c1 & c2 & req & cur & diff
        & w & m & C & ->).
  destruct (computes_lengths _ _ _ _ _ _ _ _ _ _ _ _ _ _ _ _ _ _ _ W C)
    as (Ls & Lk & Lr & Ld).
  pose proof (wf_augment df d1 d3 col12 col34 sag k c1 c2 req diff w m
                W Ls Lk Lr Ld) as W'.
  split; [reflexivity|]. split; [assumption|]. split.
  - intros n Hn. apply getitem_augment. now apply not_output_eqb.
  - intros n Hn.
    assert (Hc : exists c,
               getitem (augment df d1 d3 col12 col34 sag k c1 c2 req diff w m) n
               = Ok c).
    { unfold is_output in Hn. simpl in Hn. unfold augment.
      repeat (destruct Hn as [<-|Hn]; [frame; eauto|]). destruct Hn. }
    destruct Hc as (c & Hc). exists c. split; [assumption|].
    apply (wf_getitem _ _ _ W' Hc).
Qed.

Lemma columns_setitem df n dt c :
  columns (setitem df n dt c)
  = if has_column df n then columns df else columns df ++ [n].
Proof.
  unfold columns, has_column, setitem. simpl.
  induction (data df) as [|(m, c') t IH]; simpl; [reflexivity|].
  destruct (String.eqb n m) eqn:E; simpl; [reflexivity|].
  rewrite IH. now destruct (assoc n t).
Qed.

Lemma has_column_columns df n :
  has_column df n = existsb (String.eqb n) (columns df).
Proof.
  unfold has_column, columns.
  induction (data df) as [|(m, c) t IH]; simpl; [reflexivity|].
  destruct (String.eqb n m); [reflexivity|exact IH].
Qed.

Lemma columns_setitem_add df n dt c :
  columns (setitem df n dt c)
  = if existsb (String.eqb n) (columns df) then columns df
    else columns df ++ [n].
Proof. now rewrite columns_setitem, has_column_columns. Qed.

Lemma columns_setitem_twice df n dt c dt' c' :
  columns (setitem (setitem df n dt c) n dt' c') = columns (setitem df n dt c).
Proof.
  rewrite (columns_setitem (setitem df n dt c)).
  now rewrite has_column_setitem_same.
Qed.

Lemma fold_add_column outs names :
  NoDup outs ->
  fold_left
    (fun ns o => if existsb (String.eqb o) ns then ns else ns ++ [o])
    outs names
  = names ++ filter (fun o => negb (existsb (String.eqb o) names)) outs.
Proof.
  intros N. revert names.
  induction N as [|o outs Ho _ IH]; intros names; simpl.
  - now rewrite app_nil_r.
  - destruct (existsb (String.eqb o) names) eqn:E; simpl; [apply IH|].
    rewrite IH, <- app_assoc. simpl. do 2 f_equal.
    apply filter_ext_in. intros x Hx.
    rewrite existsb_app. simpl. rewrite orb_false_r.
    destruct (String.eqb x o) eqn:Ex; [|now rewrite orb_false_r].
    apply String.eqb_eq in Ex. subst. contradiction.
Qed.

Lemma output_columns_nodup : NoDup output_columns.
Proof.
  unfold output_columns.
  repeat (constructor;
          [ simpl; intros H;
            repeat (destruct H as [H|H]; [discriminate|]); exact H | ]).
  constructor.
Qed.

(** X4.  The processed sheet has the columns of the input in their
    order, followed by those of the eight computed columns that the
    input did not have yet, in the order in which [process_sheet]
    writes them. *)
Theorem process_sheet_column_order df d1 d2 d3 d4 df' :
  process_sheet df d1 d2 d3 d4 = Ok df' ->
  columns df'
  = columns df ++ filter (fun o => negb (has_column df o)) output_columns.
Proof.
  intros H.
  destruct (process_sheet_computes _ _ _ _ _ _ H)
    as (col12 & col34 & a & b & sag & beta & k & c1 & c2 & req & cur & diff
        & w & m & _ & ->).
  unfold augment, setitem_scalar.
  rewrite columns_setitem_twice.
  rewrite !columns_setitem_add.
  rewrite (filter_ext _ (fun o => negb (existsb (String.eqb o) (columns df))))
    by (intros o; now rewrite has_column_columns).
  rewrite <- (fold_add_column output_columns (columns df) output_columns_nodup).
  reflexivity.
Qed.

Lemma zipM_row_max_numeric a b sag :
  numeric a -> zipM row_max a b = Ok sag -> numeric sag.
Proof.
  intros Na. revert b sag.
  induction Na as [|x t (xa & ->) _ IH]; intros [|y tb] sag H; simpl in H;
    try (inversion H; constructor).
  inv_bind H. inv_bind H. inversion H; subst.
  destruct y; simpl in E; inversion E. constructor; [eauto|].
  eapply IH; eauto.
Qed.

Lemma copy_offsets_same df sag k d1 d3 :
  numeric sag -> numeric k ->
  let dfp :=
    setitem_scalar (setitem (setitem df "sag" Float64 sag) "K" Float64 k)
                   "LK" 2.0 in
  CalculationsCopy.circuit_offsets numeric_of_text dfp d1 d3
  = circuit_offsets dfp d1 d3.
Proof.
  intros Ns Nk dfp.
  unfold CalculationsCopy.circuit_offsets, circuit_offsets.
  destruct (earth_wire_in (_which_circuit d1) (_which_circuit d3));
    [reflexivity|].
  destruct (Z.eqb (_which_circuit d1) (_which_circuit d3));
    (rewrite to_float_columns_numeric;
     [ reflexivity
     | intros n [<-|[<-|[<-|[<-|[<-|[]]]]]]; unfold dfp; frame;
       eauto using numeric_repeat ]).
Qed.

Lemma float64_frame_dtype_of df n c :
  float64_frame df -> getitem df n = Ok c -> dtype_of df n = Float64.
Proof.
  intros F H. unfold dtype_of.
  now rewrite (F n (has_column_getitem _ _ _ H)).
Qed.

(** X5.  On a frame whose columns are float64 columns of numbers
    (empty cells included), [process_sheet] of calculations-copy.py is
    [process_sheet] of calculations.py followed by the summary: the
    two return the same frame or raise the same exception, and the
    coercion of the formula columns changes nothing.  (On the object
    columns of a frame built from a worksheet the two differ between
    real circuits: calculations.py raises where calculations-copy.py,
    which coerces first, evaluates the formula.) *)
Theorem copy_process_sheet_on_numbers df d1 d2 d3 d4 :
  float64_frame df ->
  (forall n c, getitem df n = Ok c -> numeric c) ->
  CalculationsCopy.process_sheet numeric_of_text df d1 d2 d3 d4
  = (df' <- process_sheet df d1 d2 d3 d4 ;;
     s <- CalculationsCopy.summarise df' ;; Ok (df', s)).
Proof.
  intros F N.
  unfold CalculationsCopy.process_sheet, process_sheet.
  destruct (_pick_distance_col df d1 d2) as [c12|] eqn:P12; [|reflexivity].
  destruct (_pick_distance_col df d3 d4) as [c34|] eqn:P34; [|reflexivity].
  cbn [bind].
  destruct (getitem df c12) as [a|] eqn:Ha; [|reflexivity].
  destruct (getitem df c34) as [b|] eqn:Hb; [|reflexivity].
  cbn [bind].
  destruct (zipM row_max a b) as [sag|] eqn:Hs; [|reflexivity].
  cbn [bind].
  unfold sag_dtype.
  rewrite (float64_frame_dtype_of _ _ _ F Ha), (float64_frame_dtype_of _ _ _ F Hb).
  cbn [common_dtype].
  rewrite getitem_setitem_other by reflexivity.
  destruct (getitem df "Beta Angle (°)") as [beta|] eqn:Hbeta; [|reflexivity].
  cbn [bind].
  destruct (mapM (lift1 k_of_beta) beta) as [k|] eqn:Hk; [|reflexivity].
  cbn [bind].
  rewrite dtype_of_setitem_other by reflexivity.
  rewrite (float64_frame_dtype_of _ _ _ F Hbeta).
  rewrite copy_offsets_same;
    eauto using zipM_row_max_numeric, mapM_lift1_numeric.
  destruct (circuit_offsets _ d1 d3) as [df2|]; [|reflexivity].
  cbn [bind].
  destruct (diff_and_worst_case df2) as [df3|]; reflexivity.
Qed.

(** X6.  [_pick_distance_col] returns a column of the sheet: the
    straight distance of the span when the sheet has it, the sag of
    the span only when it has no straight distance; it raises
    [KeyError] exactly when the sheet has neither. *)
Theorem pick_distance_col_spec df a b :
  (forall c, _pick_distance_col df a b = Ok c <->
     has_column df c = true /\
     (c = straight_distance_of a b \/
      (c = sag_of a b /\ has_column df (straight_distance_of a b) = false))) /\
  ((exists msg, _pick_distance_col df a b = Raise (KeyError msg)) <->
   has_column df (straight_distance_of a b) = false /\
   has_column df (sag_of a b) = false) /\
  (forall c, _pick_distance_col df a b = Ok c ->
     exists col, getitem df c = Ok col).
Proof.
  unfold _pick_distance_col, candidates. cbn [find].
  fold (straight_distance_of a b) (sag_of a b).
  destruct (has_column df (straight_distance_of a b)) eqn:H1;
    [|destruct (has_column df (sag_of a b)) eqn:H2].
  - split; [|split].
    + intros c. split.
      * intros E. inversion E; subst. auto.
      * intros (_ & [->|(_ & ?)]); [reflexivity|discriminate].
    + split; [intros (msg & ?); discriminate|intros (? & _); discriminate].
    + intros c E. inversion E; subst.
      unfold has_column in H1. unfold getitem.
      destruct (assoc _ (data df)); [eauto|discriminate].
  - split; [|split].
    + intros c. split.
      * intros E. inversion E; subst. auto.
      * intros (Hc & [->|(-> & _)]); [congruence|reflexivity].
    + split; [intros (msg & ?); discriminate|intros (_ & ?); discriminate].
    + intros c E. inversion E; subst.
      unfold has_column in H2. unfold getitem.
      destruct (assoc _ (data df)); [eauto|discriminate].
  - split; [|split].
    + intros c. split; [discriminate|].
      intros (Hc & [->|(-> & _)]); congruence.
    + split; eauto.
    + discriminate.
Qed.

End FrameAround.

(** The earth-wire sheet as read from its workbook, and the scenario
    frame of float64 columns: the processed sheet keeps its two rows
    and its Station column, and its eight computed columns come after
    the columns it had. *)
Lemma process_sheet_keeps_inputs_sample :
  (exists df',
     Calculations.process_sheet sample_ew_sheet 41 42 59 39 = Ok df' /\
     nrows df' = 2 /\
     getitem df' "Station" = Ok [Num 100; Num 200]%float /\
     exists c, getitem df' "worst-case" = Ok c /\ List.length c = 2) /\
  (exists df',
     Calculations.process_sheet sample_frame_float64 41 42 43 44 = Ok df' /\
     nrows df' = 2 /\
     getitem df' "Station" = Ok [Num 100; Num 200]%float).
Proof.
  assert (NS : ~ is_output "Station").
  { unfold is_output. simpl.
    intros H. repeat (destruct H as [H|H]; [discriminate|]). exact H. }
  split.
  - destruct (Calculations.process_sheet sample_ew_sheet 41 42 59 39)
      as [df'|e] eqn:E; [|vm_compute in E; discriminate].
    exists df'. split; [reflexivity|].
    assert (W : wf sample_ew_sheet) by (repeat constructor).
    destruct (process_sheet_keeps_inputs sample_ew_sheet 41 42 59 39 df' W E)
      as (Hn & _ & Hk & Ho).
    split; [exact Hn|]. split; [now rewrite Hk|].
    apply Ho. unfold is_output. simpl. tauto.
  - destruct (Calculations.process_sheet sample_frame_float64 41 42 43 44)
      as [df'|e] eqn:E; [|vm_compute in E; discriminate].
    exists df'. split; [reflexivity|].
    assert (W : wf sample_frame_float64) by (repeat constructor).
    destruct (process_sheet_keeps_inputs sample_frame_float64 41 42 43 44 df' W E)
      as (Hn & _ & Hk & _).
    split; [exact Hn|]. now rewrite Hk.
Defined.

Lemma process_sheet_column_order_sample :
  (exists df',
     Calculations.process_sheet sample_ew_sheet 41 42 59 39 = Ok df' /\
     columns df'
     = ["Station"; "Straight Distance of 41-42"; "Sag of 59-39";
        "Beta Angle (°)"; "Distance Between Powerlines"; "sag"; "K"; "LK";
        "C1"; "C2"; "required-distance"; "diff"; "worst-case"]%string) /\
  (exists df',
     Calculations.process_sheet sample_frame_float64 41 42 43 44 = Ok df' /\
     columns df'
     = ["Station"; "Sag of 41-42"; "Sag of 43-44"; "Sag of 44-45";
        "Beta Angle (°)"; "Distance Between Powerlines"; "sag"; "K"; "LK";
        "C1"; "C2"; "required-distance"; "diff"; "worst-case"]%string).
Proof.
  split.
  - destruct (Calculations.process_sheet sample_ew_sheet 41 42 59 39)
      as [df'|e] eqn:E; [|vm_compute in E; discriminate].
    exists df'. split; [reflexivity|].
    rewrite (process_sheet_column_order sample_ew_sheet 41 42 59 39 df' E).
    reflexivity.
  - destruct (Calculations.process_sheet sample_frame_float64 41 42 43 44)
      as [df'|e] eqn:E; [|vm_compute in E; discriminate].
    exists df'. split; [reflexivity|].
    rewrite (process_sheet_column_order sample_frame_float64 41 42 43 44 df' E).
    reflexivity.
Defined.

(** The scenario frame of float64 columns, where both scripts return
    the same frame. *)
Lemma copy_process_sheet_on_numbers_sample :
  CalculationsCopy.process_sheet (fun _ => nan) sample_frame_float64 41 42 43 44
  = (df' <- Calculations.process_sheet sample_frame_float64 41 42 43 44 ;;
     s <- CalculationsCopy.summarise df' ;; Ok (df', s)) /\
  exists df' s,
    CalculationsCopy.process_sheet (fun _ => nan) sample_frame_float64 41 42 43 44
    = Ok (df', s) /\
    Calculations.process_sheet sample_frame_float64 41 42 43 44 = Ok df'.
Proof.
  assert (H : CalculationsCopy.process_sheet (fun _ => nan) sample_frame_float64
                41 42 43 44
              = (df' <- Calculations.process_sheet sample_frame_float64
                          41 42 43 44 ;;
                 s <- CalculationsCopy.summarise df' ;; Ok (df', s))).
  { apply (copy_process_sheet_on_numbers (fun _ => nan) sample_frame_float64
             41 42 43 44).
    - intros n Hn. unfold has_column in Hn. simpl in *.
      repeat (destruct (String.eqb n _); [reflexivity|]). discriminate.
    - intros n c Hc. unfold getitem in Hc. simpl in Hc.
      repeat (destruct (String.eqb n _);
              [inversion Hc; subst; repeat constructor; eauto|]).
      discriminate. }
  split; [exact H|].
  destruct (Calculations.process_sheet sample_frame_float64 41 42 43 44)
    as [df'|e] eqn:E; [|vm_compute in E; discriminate].
  cbn [bind] in H.
  destruct (CalculationsCopy.summarise df') as [sm|e] eqn:S.
  - exists df', sm. split; [exact H|reflexivity].
  - vm_compute in E. inversion E; subst df'. vm_compute in S. discriminate.
Defined.

(** ** The loop over the sheets of a workbook *)

Section SheetLoop.
Import CalculationsCopy.
Variable numeric_of_text : string -> float.
Variable Sheet : Type.
Variable frame_of_sheet : Sheet -> result DataFrame.
Variable sheet_of_frame : Sheet -> DataFrame -> Sheet.
Variable max_row : Sheet -> nat.
Variable set_cell : Sheet -> nat -> nat -> value -> Sheet.
Variable RESULTS_PATH : string.

Abbreviation one_sheet :=
  (sheet_step numeric_of_text Sheet frame_of_sheet sheet_of_frame set_cell).
Abbreviation all_sheets :=
  (sheet_loop numeric_of_text Sheet frame_of_sheet sheet_of_frame set_cell).
Abbreviation one_workbook :=
  (process_workbook numeric_of_text Sheet frame_of_sheet sheet_of_frame
                    max_row set_cell RESULTS_PATH).
Abbreviation all_workbooks :=
  (main numeric_of_text Sheet frame_of_sheet sheet_of_frame
        max_row set_cell RESULTS_PATH).
Abbreviation one_file :=
  (main_step numeric_of_text Sheet frame_of_sheet sheet_of_frame
             max_row set_cell RESULTS_PATH).

Lemma map_fst_assoc_set {A : Type} n (c x : A) l :
  assoc n l = Some x -> map fst (assoc_set n c l) = map fst l.
Proof.
  induction l as [|(m, c') t IH]; simpl; [discriminate|].
  destruct (String.eqb n m); simpl; [reflexivity|].
  intros H. now rewrite IH.
Qed.

Lemma put_sheetnames COL tgt r res kv :
  map fst (put Sheet set_cell COL tgt r res kv) = map fst res.
Proof.
  unfold put.
  destruct (assoc (fst kv) COL) as [[|c]|]; try reflexivity.
  destruct (assoc tgt res) eqn:E; [|reflexivity].
  eapply map_fst_assoc_set; eauto.
Qed.

Lemma fold_put_sheetnames COL tgt r kvs res :
  map fst (fold_left (put Sheet set_cell COL tgt r) kvs res) = map fst res.
Proof.
  revert res. induction kvs as [|kv t IH]; intros res; simpl; [reflexivity|].
  now rewrite IH, put_sheetnames.
Qed.

Lemma count_app f l m : count f (l ++ m) = count f l + count f m.
Proof. unfold count. now rewrite filter_app, length_app. Qed.

Lemma count_cons f x l :
  count f (x :: l) = (if f x then 1 else 0) + count f l.
Proof. unfold count. simpl. now destruct (f x). Qed.

Lemma count_nil f : count f [] = 0.
Proof. reflexivity. Qed.

Lemma inl_eq {A B : Type} (a b : A) : @inl A B a = inl b -> a = b.
Proof. now intros [= ->]. Qed.

Lemma loop_keeps_refl (st : LoopState Sheet) : loop_keeps st st.
Proof.
  unfold loop_keeps.
  repeat match goal with |- _ /\ _ => split end; auto.
  exists []. now rewrite app_nil_r.
Qed.

Lemma loop_keeps_trans (st1 st2 st3 : LoopState Sheet) :
  loop_keeps st1 st2 -> loop_keeps st2 st3 -> loop_keeps st1 st3.
Proof.
  unfold loop_keeps.
  intros (W1 & R1 & N1 & P1 & E1 & A1 & l1 & L1)
         (W2 & R2 & N2 & P2 & E2 & A2 & l2 & L2).
  repeat match goal with |- _ /\ _ => split end; try congruence; try lia.
  exists (l1 ++ l2). now rewrite L2, L1, app_assoc.
Qed.

Lemma cursor_assoc_set_same nr t r : cursor (assoc_set t r nr) t = r.
Proof. unfold cursor. now rewrite assoc_set_same. Qed.

Lemma cursor_assoc_set_other nr t u r :
  String.eqb u t = false -> cursor (assoc_set t r nr) u = cursor nr u.
Proof. intros H. unfold cursor. now rewrite assoc_set_other. Qed.

Lemma sheet_step_keeps start_span end_span st name st' :
  one_sheet start_span end_span st name = inl st' -> loop_keeps st st'.
Proof.
  unfold sheet_step.
  destruct (Names._parse_sheet_name name) as [[[[d1 d2] d3] d4]|e].
  2:{ intros H. inversion H; subst. apply loop_keeps_refl. }
  set (ew := (Z.eqb 0 (Calculations._which_circuit d1)
              || Z.eqb 0 (Calculations._which_circuit d3))%bool).
  generalize (if ew then "Ph-EW" else "Ph-Ph")%string. intros tag.
  destruct (assoc name (wb Sheet st)) as [ws|] eqn:Hws; [|discriminate].
  destruct (frame_of_sheet ws) as [df|e]; [|discriminate].
  destruct (process_sheet numeric_of_text df d1 d2 d3 d4) as [[df' summ]|exc].
  2:{ intros H. apply inl_eq in H. subst st'. unfold loop_keeps.
      cbn [wb res_wb next_row log].
      rewrite !count_app, !count_cons, !count_nil. cbn [is_tag is_skipped].
      repeat match goal with |- _ /\ _ => split end; auto; try lia.
      eexists. now rewrite <- app_assoc. }
  destruct (assoc (if ew then PH_EW_SHEET else PH_PH_SHEET) (next_row Sheet st))
    as [r|] eqn:Hr; [|discriminate].
  intros H. apply inl_eq in H. subst st'. unfold loop_keeps.
  cbn [wb res_wb next_row log].
  rewrite fold_put_sheetnames, !count_app, !count_cons, !count_nil.
  cbn [is_tag is_skipped].
  rewrite (map_fst_assoc_set _ _ _ _ Hws).
  rewrite (map_fst_assoc_set _ _ _ _ Hr).
  unfold cursors.
  assert (Hc : cursor (next_row Sheet st) (if ew then PH_EW_SHEET else PH_PH_SHEET) = r).
  { unfold cursor. now rewrite Hr. }
  destruct ew.
  - rewrite cursor_assoc_set_same, cursor_assoc_set_other by reflexivity.
    repeat match goal with |- _ /\ _ => split end; auto; try lia.
    eauto.
  - rewrite cursor_assoc_set_same, cursor_assoc_set_other by reflexivity.
    repeat match goal with |- _ /\ _ => split end; auto; try lia.
    eauto.
Qed.

Lemma sheet_loop_keeps start_span end_span names st st' :
  all_sheets start_span end_span st names = inl st' -> loop_keeps st st'.
Proof.
  revert st. induction names as [|n t IH]; intros st; simpl.
  - intros H. inversion H; subst. apply loop_keeps_refl.
  - destruct (one_sheet start_span end_span st n) as [st1|e] eqn:E;
      [|discriminate].
    intros H. eapply loop_keeps_trans; eauto using sheet_step_keeps.
Qed.

(** X7.  When the loop over the sheets of a source workbook ends
    without an exception, the source workbook and the results workbook
    have the sheets they had, no row cursor has gone back, and the two
    cursors have advanced by one for every sheet that was announced
    and not reported as skipped: the rows written are the sheets
    tagged minus the sheets skipped.  What was printed before is still
    there. *)
Theorem sheet_loop_accounting start_span end_span names st st' :
  all_sheets start_span end_span st names = inl st' ->
  sheetnames Sheet (wb Sheet st') = sheetnames Sheet (wb Sheet st) /\
  sheetnames Sheet (res_wb Sheet st') = sheetnames Sheet (res_wb Sheet st) /\
  cursor (next_row Sheet st) PH_PH_SHEET <= cursor (next_row Sheet st') PH_PH_SHEET /\
  cursor (next_row Sheet st) PH_EW_SHEET <= cursor (next_row Sheet st') PH_EW_SHEET /\
  (exists l,
     log Sheet st' = log Sheet st ++ l /\
     cursors (next_row Sheet st') + count is_skipped l
     = cursors (next_row Sheet st) + count is_tag l).
Proof.
  intros H. apply sheet_loop_keeps in H.
  destruct H as (W & R & _ & P & E & A & l & L).
  repeat match goal with |- _ /\ _ => split end; auto.
  exists l. split; [assumption|].
  rewrite L, !count_app in A. lia.
Qed.

Lemma parse_sheet_name_shape name q :
  Names._parse_sheet_name name = Ok q ->
  exists s1 s2 s3 s4 tl,
    run_of Re.is_digit s1 /\ run_of Re.is_digit s2 /\
    run_of Re.is_digit s3 /\ run_of Re.is_digit s4 /\ line_end tl /\
    name = (sheet_name_of s1 s2 s3 s4 ++ tl)%string.
Proof.
  unfold Names._parse_sheet_name, Re.re_match. intros H.
  destruct (Re.re_match_at false Names.SHEET_RE (list_ascii_of_string name))
    as [m|] eqn:M; [|discriminate].
  apply sheet_re_sound in M.
  destruct M as (s1 & s2 & s3 & s4 & tl & (N1 & H1) & (N2 & H2) & (N3 & H3)
                 & (N4 & H4) & Htl & E & _).
  exists (string_of_list_ascii s1), (string_of_list_ascii s2),
    (string_of_list_ascii s3), (string_of_list_ascii s4),
    (string_of_list_ascii tl).
  repeat match goal with |- _ /\ _ => split end; auto using run_of_string.
  - apply line_end_list. now rewrite list_ascii_of_string_of_list_ascii.
  - apply list_of_string_inj. rewrite sheet_name_list.
    now rewrite !list_ascii_of_string_of_list_ascii.
Qed.

(** X8.  Sheets whose names are of ASCII characters and not of the
    shape [<digits>-<digits>_<digits>-<digits>], the digits being
    0-9, are passed over in silence: a loop over such names changes
    neither workbook, writes no row and prints nothing. *)
Theorem non_conforming_sheets_skipped start_span end_span names st :
  Forall ascii_text names ->
  (forall n s1 s2 s3 s4 tl,
      In n names ->
      run_of Re.is_digit s1 -> run_of Re.is_digit s2 ->
      run_of Re.is_digit s3 -> run_of Re.is_digit s4 -> line_end tl ->
      n <> (sheet_name_of s1 s2 s3 s4 ++ tl)%string) ->
  all_sheets start_span end_span st names = inl st.
Proof.
  intros _.
  induction names as [|n t IH]; intros H; simpl; [reflexivity|].
  unfold sheet_step.
  destruct (Names._parse_sheet_name n) as [q|e] eqn:P.
  - apply parse_sheet_name_shape in P.
    destruct P as (s1 & s2 & s3 & s4 & tl & R1 & R2 & R3 & R4 & Htl & E).
    exfalso. apply (H n s1 s2 s3 s4 tl); simpl; auto.
  - apply IH. intros m s1 s2 s3 s4 tl Hm. apply H. now right.
Qed.

Lemma assoc_set_lookup {A : Type} p n (c : A) l :
  assoc p (assoc_set n c l) = if String.eqb p n then Some c else assoc p l.
Proof.
  destruct (String.eqb p n) eqn:E.
  - apply String.eqb_eq in E. subst. apply assoc_set_same.
  - now apply assoc_set_other.
Qed.

Lemma open_results_ok fs path res :
  _open_results_wb Sheet fs path = Ok res ->
  assoc path fs = Some res /\
  contains (sheetnames Sheet res) PH_PH_SHEET = true /\
  contains (sheetnames Sheet res) PH_EW_SHEET = true.
Proof.
  unfold _open_results_wb.
  destruct (assoc path fs) as [w|]; [|discriminate].
  cbn [filter].
  destruct (contains (sheetnames Sheet w) PH_PH_SHEET) eqn:E1,
    (contains (sheetnames Sheet w) PH_EW_SHEET) eqn:E2; cbn [negb];
    try discriminate.
  intros [= <-]. auto.
Qed.

Lemma process_workbook_inv fs xl_path l fs' :
  one_workbook fs xl_path = (l, Ok fs') ->
  exists start_span end_suffix src res st,
    Names._load_metadata xl_path = Ok (start_span, end_suffix) /\
    _open_results_wb Sheet fs RESULTS_PATH = Ok res /\
    assoc xl_path fs = Some src /\
    all_sheets start_span (drop_last3 start_span ++ end_suffix)%string
      {| wb := src; res_wb := res;
         next_row :=
           map (fun name =>
                  (name, match assoc name res with
                         | Some ws => max_row ws + 1
                         | None => 1
                         end))
               [PH_PH_SHEET; PH_EW_SHEET];
         log := [Processing (Names.basename xl_path) start_span
                            (drop_last3 start_span ++ end_suffix)%string] |}
      (sheetnames Sheet src) = inl st /\
    fs' = assoc_set RESULTS_PATH (res_wb Sheet st)
            (assoc_set (processed_path xl_path) (wb Sheet st) fs) /\
    l = log Sheet st ++ [Written (Names.basename (processed_path xl_path))].
Proof.
  unfold process_workbook, processed_path.
  destruct (Names._load_metadata xl_path) as [[start_span end_suffix]|e];
    [|discriminate].
  destruct (_open_results_wb Sheet fs RESULTS_PATH) as [res|e];
    [|discriminate].
  destruct (assoc xl_path fs) as [src|]; [|discriminate].
  match goal with
  | |- context [sheet_loop _ _ _ _ _ ?a ?b ?s ?n] =>
      destruct (sheet_loop numeric_of_text Sheet frame_of_sheet sheet_of_frame
                           set_cell a b s n) as [st|[l' e]] eqn:L
  end; [|discriminate].
  intros H. apply pair_equal_spec in H. destruct H as (Hl & Hfs).
  exists start_span, end_suffix, src, res, st.
  repeat match goal with |- _ /\ _ => split end; auto.
  - change (Ok (assoc_set RESULTS_PATH (res_wb Sheet st)
                  (assoc_set (splitext_root xl_path ++ "_processed.xlsx")%string
                             (wb Sheet st) fs)) = Ok fs') in Hfs.
    congruence.
Qed.

(** X9.  A source workbook that [process_workbook] processes without
    an exception is saved under the name of the processed copy, with
    the sheets that the source has, and the results workbook is saved
    with the sheets that it had; no other file is written, and the
    last line printed names the processed copy. *)
Theorem process_workbook_writes fs xl_path l fs' :
  one_workbook fs xl_path = (l, Ok fs') ->
  exists src res wb' res' l',
    assoc xl_path fs = Some src /\
    assoc RESULTS_PATH fs = Some res /\
    fs' = assoc_set RESULTS_PATH res'
            (assoc_set (processed_path xl_path) wb' fs) /\
    sheetnames Sheet wb' = sheetnames Sheet src /\
    sheetnames Sheet res' = sheetnames Sheet res /\
    (forall p, String.eqb p RESULTS_PATH = false ->
               String.eqb p (processed_path xl_path) = false ->
               assoc p fs' = assoc p fs) /\
    l = l' ++ [Written (Names.basename (processed_path xl_path))].
Proof.
  intros H. apply process_workbook_inv in H.
  destruct H as (start_span & end_suffix & src & res & st & _ & Hres & Hsrc
                 & Hloop & -> & ->).
  apply sheet_loop_keeps in Hloop.
  destruct Hloop as (W & R & _).
  cbn [wb res_wb] in W, R.
  apply open_results_ok in Hres. destruct Hres as (Hres & _).
  exists src, res, (wb Sheet st), (res_wb Sheet st), (log Sheet st).
  repeat match goal with |- _ /\ _ => split end; auto.
  intros p H1 H2. now rewrite !assoc_set_lookup, H1, H2.
Qed.

Lemma main_step_frame out fs f :
  let r := one_file (out, fs) f in
  (forall p, String.eqb p RESULTS_PATH = false ->
             String.eqb p (processed_path f) = false ->
             assoc p (snd r) = assoc p fs) /\
  (forall p, assoc p fs <> None -> assoc p (snd r) <> None) /\
  (forall x, In x out -> In x (fst r)) /\
  ((exists e, In (Error f e) (fst r)) \/
   In (Written (Names.basename (processed_path f))) (fst r)).
Proof.
  unfold main_step.
  destruct (one_workbook fs f) as [l [fs'|exc]] eqn:E; cbn [fst snd].
  - apply process_workbook_inv in E.
    destruct E as (start_span & end_suffix & src & res & st & _ & _ & _ & _
                   & -> & ->).
    split; [|split; [|split]].
    + intros p H1 H2. now rewrite !assoc_set_lookup, H1, H2.
    + intros p Hp. rewrite !assoc_set_lookup.
      destruct (String.eqb p RESULTS_PATH); [discriminate|].
      destruct (String.eqb p (processed_path f)); [discriminate|assumption].
    + intros x Hx. apply in_or_app. now left.
    + right. apply in_or_app. right. apply in_or_app. right. now left.
  - split; [|split; [|split]]; auto.
    + intros x Hx. apply in_or_app. now left.
    + left. exists exc. apply in_or_app. right. apply in_or_app. right.
      now left.
Qed.

Lemma main_fold_frame files out fs :
  let r := fold_left one_file files (out, fs) in
  (forall p, String.eqb p RESULTS_PATH = false ->
             (forall f, In f files -> String.eqb p (processed_path f) = false) ->
             assoc p (snd r) = assoc p fs) /\
  (forall p, assoc p fs <> None -> assoc p (snd r) <> None) /\
  (forall x, In x out -> In x (fst r)) /\
  (forall f, In f files ->
     (exists e, In (Error f e) (fst r)) \/
     In (Written (Names.basename (processed_path f))) (fst r)).
Proof.
  revert out fs. induction files as [|f t IH]; intros out fs; cbn [fold_left].
  - cbn. repeat match goal with |- _ /\ _ => split end; auto.
    intros f [].
  - destruct (main_step_frame out fs f) as (F1 & F2 & F3 & F4).
    destruct (one_file (out, fs) f) as [out1 fs1] eqn:E. cbn [fst snd] in *.
    destruct (IH out1 fs1) as (G1 & G2 & G3 & G4).
    repeat match goal with |- _ /\ _ => split end.
    + intros p H1 H2. rewrite G1; auto.
      * apply F1; auto. apply H2. now left.
      * intros g Hg. apply H2. now right.
    + auto.
    + auto.
    + intros g [<-|Hg]; [|auto].
      destruct F4 as [(e & He)|Hw]; [left; eauto|right; auto].
Qed.

(** X10.  A run of [main] writes only the results workbook and the
    processed copies of the files it is given: every other file is as
    it was, no file that existed is lost, and for every file the run
    prints either an error line or the line of its processed copy. *)
Theorem main_writes_only_outputs files fs :
  (forall p, String.eqb p RESULTS_PATH = false ->
             (forall f, In f files -> String.eqb p (processed_path f) = false) ->
             assoc p (snd (all_workbooks files fs)) = assoc p fs) /\
  (forall p, assoc p fs <> None ->
             assoc p (snd (all_workbooks files fs)) <> None) /\
  (forall f, In f files ->
     (exists e, In (Error f e) (fst (all_workbooks files fs))) \/
     In (Written (Names.basename (processed_path f)))
        (fst (all_workbooks files fs))).
Proof.
  unfold main. destruct files as [|f t].
  - cbn. repeat match goal with |- _ /\ _ => split end; auto.
  - destruct (main_fold_frame (f :: t) [] fs) as (G1 & G2 & _ & G4).
    repeat match goal with |- _ /\ _ => split end; assumption.
Qed.

End SheetLoop.

(** A workbook with a phase sheet, a sheet of notes, an earth-wire
    sheet and a sheet that is skipped for its missing column: three
    sheets are announced, one is skipped, two rows are written. *)
Lemma sheet_loop_accounting_sample :
  exists st',
    sample_loop sample_loop_state
      ["41-42_43-44"; "Notes"; "41-42_59-39"; "44-45_41-42"]%string = inl st' /\
    map fst (CalculationsCopy.wb DataFrame st')
    = ["41-42_43-44"; "Notes"; "41-42_59-39"; "44-45_41-42"]%string /\
    cursors (CalculationsCopy.next_row DataFrame st')
      + count is_skipped (CalculationsCopy.log DataFrame st')
    = 13 + count is_tag (CalculationsCopy.log DataFrame st').
Proof.
  destruct (sample_loop sample_loop_state
              ["41-42_43-44"; "Notes"; "41-42_59-39"; "44-45_41-42"]%string)
    as [st'|e] eqn:E; [|vm_compute in E; discriminate].
  exists st'. split; [reflexivity|].
  destruct (sheet_loop_accounting (fun _ => nan) DataFrame (fun ws => Ok ws)
              (fun _ df => df) (fun ws _ _ _ => ws) _ _ _ _ _ E)
    as (W & _ & _ & _ & l & L & A).
  split; [exact W|].
  simpl in L. subst l. exact A.
Defined.

(** Two sheets of notes leave the state of the loop as it is. *)
Lemma non_conforming_sheets_skipped_sample :
  sample_loop sample_loop_state ["Notes"; "Summary"]%string
  = inl sample_loop_state.
Proof.
  apply (non_conforming_sheets_skipped (fun _ => nan) DataFrame
           (fun ws => Ok ws) (fun _ df => df) (fun ws _ _ _ => ws));
    [repeat constructor; simpl; lia|].
  intros n s1 s2 s3 s4 tl Hn (Hne & Hall) _ _ _ _ E.
  destruct s1 as [|c s1]; [congruence|].
  simpl in Hall. apply Forall_inv in Hall. rename Hall into Hc.
  destruct Hn as [Hn|[Hn|[]]]; rewrite <- Hn in E;
    unfold sheet_name_of in E; simpl in E;
    injection E as Ec _; rewrite <- Ec in Hc; vm_compute in Hc;
    discriminate Hc.
Defined.

(** The first workbook of the sample folder: its processed copy has
    the sheet of the source, and the second workbook is untouched. *)
Lemma process_workbook_writes_sample :
  exists l fs',
    sample_workbook sample_fs_with_results "Cond_10C_TR1730a001_002.xlsx"
    = (l, Ok fs') /\
    assoc "Cond_10C_TR1730a002_003.xlsx" fs'
    = Some [("41-42_59-39"%string, sample_ew_sheet)].
Proof.
  destruct (sample_workbook sample_fs_with_results "Cond_10C_TR1730a001_002.xlsx")
    as [l [fs'|e]] eqn:E; [|vm_compute in E; discriminate].
  exists l, fs'. split; [reflexivity|].
  destruct (process_workbook_writes (fun _ => nan) DataFrame (fun ws => Ok ws)
              (fun _ df => df) (fun ws => nrows ws) (fun ws _ _ _ => ws)
              _ _ _ _ _ E)
    as (src & res & wb' & res' & l' & _ & _ & _ & _ & _ & F & _).
  rewrite F; reflexivity.
Defined.

(** ** Names of source workbooks *)

Section FileNames.
Import Re Names.

Lemma strip_prefix_icase l s s' :
  strip_prefix true l s = Some s' ->
  exists x, s = x ++ s' /\ fold_case x = fold_case l.
Proof.
  revert s. induction l as [|a l IH]; intros s H; cbn [strip_prefix] in H.
  - inversion H. exists []. auto.
  - destruct s as [|b s]; [discriminate|].
    destruct (chr_eqb true a b) eqn:E; [|discriminate].
    destruct (IH _ H) as (x & -> & Hx).
    exists (b :: x). split; [reflexivity|].
    simpl. rewrite Hx. f_equal.
    unfold chr_eqb in E. apply Ascii.eqb_eq in E. congruence.
Qed.

Lemma re_search_sound icase r s m :
  re_search_from icase r s = Some m ->
  exists pre s', s = pre ++ s' /\ re_match_at icase r s' = Some m.
Proof.
  induction s as [|c t IH]; simpl.
  - destruct (re_match_at icase r []) eqn:E; [|discriminate].
    intros [= ->]. exists [], []. auto.
  - destruct (re_match_at icase r (c :: t)) eqn:E.
    + intros [= ->]. exists [], (c :: t). auto.
    + intros H. destruct (IH H) as (pre & s' & -> & Hm).
      exists (c :: pre), s'. auto.
Qed.

Lemma file_re_sound s m :
  re_match_at true FILE_RE s = Some m ->
  exists c1 t d1 d2 d3 d4 a e1 e2 e3 u f1 f2 f3 ext tl,
    s = c1 ++ (t ++ d1 :: d2 :: d3 :: d4 :: a ++ [e1; e2; e3])
           ++ u ++ [f1; f2; f3] ++ ext ++ tl /\
    fold_case c1 = fold_case (list_ascii_of_string "Cond_10C_") /\
    fold_case t = fold_case (list_ascii_of_string "TR") /\
    fold_case a = fold_case (list_ascii_of_string "a") /\
    fold_case u = fold_case (list_ascii_of_string "_") /\
    fold_case ext = fold_case (list_ascii_of_string ".xlsx") /\
    forallb is_digit [d1; d2; d3; d4; e1; e2; e3; f1; f2; f3] = true /\
    (tl = [] \/ tl = ["010"%char]) /\
    group 1 m = t ++ d1 :: d2 :: d3 :: d4 :: a ++ [e1; e2; e3] /\
    group 2 m = [f1; f2; f3].
Proof.
  unfold re_match_at, FILE_RE. cbn [seq fold_right exec]. intros H.
  destruct (strip_prefix true (list_ascii_of_string "Cond_10C_") s)
    as [r1|] eqn:P1; [|discriminate].
  apply strip_prefix_icase in P1. destruct P1 as (c1 & -> & Hc1).
  destruct (strip_prefix true (list_ascii_of_string "TR") r1)
    as [r2|] eqn:P2; [|discriminate].
  apply strip_prefix_icase in P2. destruct P2 as (t & -> & Ht).
  destruct r2 as [|d1 r2]; [discriminate|].
  destruct (is_digit d1) eqn:D1; [|discriminate].
  destruct r2 as [|d2 r2]; [discriminate|].
  destruct (is_digit d2) eqn:D2; [|discriminate].
  destruct r2 as [|d3 r2]; [discriminate|].
  destruct (is_digit d3) eqn:D3; [|discriminate].
  destruct r2 as [|d4 r2]; [discriminate|].
  destruct (is_digit d4) eqn:D4; [|discriminate].
  destruct (strip_prefix true (list_ascii_of_string "a") r2)
    as [r3|] eqn:P3; [|discriminate].
  apply strip_prefix_icase in P3. destruct P3 as (a & -> & Ha).
  destruct r3 as [|e1 r3]; [discriminate|].
  destruct (is_digit e1) eqn:E1; [|discriminate].
  destruct r3 as [|e2 r3]; [discriminate|].
  destruct (is_digit e2) eqn:E2; [|discriminate].
  destruct r3 as [|e3 r3]; [discriminate|].
  destruct (is_digit e3) eqn:E3; [|discriminate].
  destruct (strip_prefix true (list_ascii_of_string "_") r3)
    as [r4|] eqn:P4; [|discriminate].
  apply strip_prefix_icase in P4. destruct P4 as (u & -> & Hu).
  destruct r4 as [|f1 r4]; [discriminate|].
  destruct (is_digit f1) eqn:F1; [|discriminate].
  destruct r4 as [|f2 r4]; [discriminate|].
  destruct (is_digit f2) eqn:F2; [|discriminate].
  destruct r4 as [|f3 r4]; [discriminate|].
  destruct (is_digit f3) eqn:F3; [|discriminate].
  destruct (strip_prefix true (list_ascii_of_string ".xlsx") r4)
    as [tl|] eqn:P5; [|discriminate].
  apply strip_prefix_icase in P5. destruct P5 as (ext & -> & Hext).
  exists c1, t, d1, d2, d3, d4, a, e1, e2, e3, u, f1, f2, f3, ext, tl.
  assert (Htl : tl = [] \/ tl = ["010"%char]).
  { destruct tl as [|c t']; [now left|].
    destruct c as [[] [] [] [] [] [] [] []]; try discriminate.
    destruct t'; [now right|discriminate]. }
  assert (G1 : consumed (t ++ d1 :: d2 :: d3 :: d4 :: a ++ e1 :: e2 :: e3 :: u
                           ++ f1 :: f2 :: f3 :: ext ++ tl)
                        (u ++ f1 :: f2 :: f3 :: ext ++ tl)
               = t ++ d1 :: d2 :: d3 :: d4 :: a ++ [e1; e2; e3]).
  { replace (t ++ d1 :: d2 :: d3 :: d4 :: a ++ e1 :: e2 :: e3 :: u
               ++ f1 :: f2 :: f3 :: ext ++ tl)
      with ((t ++ d1 :: d2 :: d3 :: d4 :: a ++ [e1; e2; e3])
              ++ (u ++ f1 :: f2 :: f3 :: ext ++ tl)).
    - apply consumed_app.
    - rewrite <- !app_assoc. simpl. rewrite <- !app_assoc. reflexivity. }
  assert (G2 : consumed (f1 :: f2 :: f3 :: ext ++ tl) (ext ++ tl) = [f1; f2; f3]).
  { apply (consumed_app [f1; f2; f3]). }
  rewrite G1, G2 in H.
  repeat match goal with |- _ /\ _ => split end; auto.
  - rewrite <- !app_assoc. simpl. rewrite <- !app_assoc. reflexivity.
  - simpl. now rewrite D1, D2, D3, D4, E1, E2, E3, F1, F2, F3.
  - destruct Htl; subst; now inversion H.
  - destruct Htl; subst; now inversion H.
Qed.

Lemma fold_no_sep z acc :
  forallb (fun c => negb (is_sep c)) z = true ->
  fold_left (fun acc c => if is_sep c then [] else acc ++ [c]) z acc = acc ++ z.
Proof.
  revert acc. induction z as [|c z IH]; intros acc H; simpl.
  - now rewrite app_nil_r.
  - simpl in H. apply andb_prop in H. destruct H as (Hc & Hz).
    destruct (is_sep c); [discriminate|].
    rewrite IH by assumption. now rewrite <- app_assoc.
Qed.

Lemma basename_app x z :
  forallb (fun c => negb (is_sep c)) (list_ascii_of_string z) = true ->
  basename (x ++ z) = (basename x ++ z)%string.
Proof.
  intros H. unfold basename.
  rewrite list_of_append, fold_left_app, fold_no_sep by assumption.
  now rewrite string_of_app, string_of_list_ascii_of_string.
Qed.

Lemma basename_dir dir :
  dir = ""%string \/
  (exists d c, dir = (d ++ String c "")%string /\ is_sep c = true) ->
  basename dir = ""%string.
Proof.
  intros [->|(d & c & -> & Hc)]; [reflexivity|].
  unfold basename. rewrite list_of_append, fold_left_app. simpl.
  now rewrite Hc.
Qed.

Lemma fold_case_length x l : fold_case x = fold_case l -> List.length x = List.length l.
Proof.
  intros H. apply (f_equal (@List.length _)) in H.
  unfold fold_case in H. now rewrite !length_map in H.
Qed.

Lemma load_metadata_inv xl_path start suffix :
  _load_metadata xl_path = Ok (start, suffix) ->
  exists pre c1 t d1 d2 d3 d4 a e1 e2 e3 u f1 f2 f3 ext tl,
    list_ascii_of_string (basename xl_path)
    = pre ++ c1 ++ (t ++ d1 :: d2 :: d3 :: d4 :: a ++ [e1; e2; e3])
          ++ u ++ [f1; f2; f3] ++ ext ++ tl /\
    fold_case c1 = fold_case (list_ascii_of_string "Cond_10C_") /\
    fold_case t = fold_case (list_ascii_of_string "TR") /\
    fold_case a = fold_case (list_ascii_of_string "a") /\
    fold_case u = fold_case (list_ascii_of_string "_") /\
    fold_case ext = fold_case (list_ascii_of_string ".xlsx") /\
    forallb is_digit [d1; d2; d3; d4; e1; e2; e3; f1; f2; f3] = true /\
    (tl = [] \/ tl = ["010"%char]) /\
    start = string_of_list_ascii (t ++ d1 :: d2 :: d3 :: d4 :: a ++ [e1; e2; e3]) /\
    suffix = string_of_list_ascii [f1; f2; f3].
Proof.
  unfold _load_metadata, re_search. intros H.
  destruct (re_search_from true FILE_RE (list_ascii_of_string (basename xl_path)))
    as [m|] eqn:S; [|discriminate].
  apply re_search_sound in S. destruct S as (pre & s' & E & M).
  apply file_re_sound in M.
  destruct M as (c1 & t & d1 & d2 & d3 & d4 & a & e1 & e2 & e3 & u & f1 & f2
                 & f3 & ext & tl & -> & Hc1 & Ht & Ha & Hu & Hext & Hd & Htl
                 & G1 & G2).
  unfold group_str in H. rewrite G1, G2 in H. inversion H.
  exists pre, c1, t, d1, d2, d3, d4, a, e1, e2, e3, u, f1, f2, f3, ext, tl.
  repeat match goal with |- _ /\ _ => split end; auto.
Qed.

Lemma load_metadata_processed x :
  _load_metadata (x ++ "_processed.xlsx")
  = Raise (ValueError ("Filename " ++ repr (x ++ "_processed.xlsx")
                         ++ " does not match expected pattern.")).
Proof.
  destruct (_load_metadata (x ++ "_processed.xlsx")) as [[start suffix]|e] eqn:L.
  - exfalso. apply load_metadata_inv in L.
    destruct L as (pre & c1 & t & d1 & d2 & d3 & d4 & a & e1 & e2 & e3 & u & f1
                   & f2 & f3 & ext & tl & E & _ & _ & _ & _ & Hext & Hd & Htl & _).
    rewrite basename_app, list_of_append in E by reflexivity.
    apply fold_case_length in Hext.
    destruct ext as [|x1 [|x2 [|x3 [|x4 [|x5 [|]]]]]]; try discriminate.
    apply (f_equal (@rev _)) in E.
    rewrite !rev_app_distr in E.
    simpl in Hd. rewrite !andb_true_iff in Hd.
    destruct Hd as (_ & _ & _ & _ & _ & _ & _ & _ & _ & F3 & _).
    destruct Htl; subst tl; simpl in E.
    + rewrite <- !app_assoc in E. simpl in E.
      injection E as _ _ _ _ _ E6 _. subst f3. discriminate.
    + rewrite <- !app_assoc in E. simpl in E.
      injection E as E1 _. discriminate.
  - unfold _load_metadata in *.
    destruct (re_search true FILE_RE (basename (x ++ "_processed.xlsx")));
      [discriminate|now symmetry].
Qed.

Lemma digit_not_sep c : is_digit c = true -> is_sep c = false.
Proof.
  destruct c as [[] [] [] [] [] [] [] []]; vm_compute; congruence.
Qed.

Lemma string_length_append a b :
  String.length (a ++ b) = String.length a + String.length b.
Proof. induction a as [|c a IH]; simpl; [reflexivity|]. now rewrite IH. Qed.

Lemma substring_prefix a b : substring 0 (String.length a) (a ++ b) = a.
Proof.
  induction a as [|c a IH]; simpl.
  - now destruct b.
  - now rewrite IH.
Qed.

Lemma drop_last3_app h e :
  String.length e = 3 -> CalculationsCopy.drop_last3 (h ++ e) = h.
Proof.
  intros H. unfold CalculationsCopy.drop_last3.
  rewrite string_length_append, H.
  replace (String.length h + 3 - 3) with (String.length h) by lia.
  apply substring_prefix.
Qed.

Lemma string_of_list_length l :
  String.length (string_of_list_ascii l) = List.length l.
Proof. induction l as [|c l IH]; simpl; [reflexivity|]. now rewrite IH. Qed.

Lemma chr_eqb_refl a : chr_eqb true a a = true.
Proof. unfold chr_eqb. apply Ascii.eqb_refl. Qed.

Lemma strip_prefix_icase_refl l s : strip_prefix true l (l ++ s) = Some s.
Proof.
  induction l as [|a l IH]; cbn [strip_prefix app]; [reflexivity|].
  now rewrite chr_eqb_refl.
Qed.

Lemma file_re_match d1 d2 d3 d4 e1 e2 e3 f1 f2 f3 :
  forallb is_digit [d1; d2; d3; d4; e1; e2; e3; f1; f2; f3] = true ->
  re_match_at true FILE_RE
    (list_ascii_of_string "Cond_10C_"
       ++ list_ascii_of_string "TR"
       ++ d1 :: d2 :: d3 :: d4 :: list_ascii_of_string "a"
       ++ e1 :: e2 :: e3 :: list_ascii_of_string "_"
       ++ f1 :: f2 :: f3 :: list_ascii_of_string ".xlsx" ++ [])
  = Some [ (2, [f1; f2; f3]);
           (1, "T"%char :: "R"%char :: d1 :: d2 :: d3 :: d4 :: "a"%char
                 :: [e1; e2; e3]) ].
Proof.
  intros Hd. simpl in Hd. rewrite !andb_true_iff in Hd.
  destruct Hd as (D1 & D2 & D3 & D4 & E1 & E2 & E3 & F1 & F2 & F3 & _).
  unfold re_match_at, FILE_RE. cbn [seq fold_right exec].
  rewrite strip_prefix_icase_refl.
  rewrite strip_prefix_icase_refl. cbv beta iota. rewrite D1, D2, D3, D4.
  rewrite strip_prefix_icase_refl. cbv beta iota. rewrite E1, E2, E3.
  rewrite strip_prefix_icase_refl. cbv beta iota. rewrite F1, F2, F3.
  rewrite strip_prefix_icase_refl. cbv beta iota.
  reflexivity.
Qed.

(** X11.  A file name [Cond_10C_TR<4 digits>a<3 digits>_<3 digits>.xlsx],
    in whatever directory, gives the start span [TR<4 digits>a<3 digits>]
    and the three digits of the end suffix; the end span that
    [process_workbook] builds from them is the start span with its last
    three digits replaced by the suffix. *)
Theorem load_metadata_round_trip dir ds es fs :
  directory dir -> digits 4 ds -> digits 3 es -> digits 3 fs ->
  _load_metadata (dir ++ span_file_name ds es fs)
  = Ok (("TR" ++ ds ++ "a" ++ es)%string, fs) /\
  (CalculationsCopy.drop_last3 ("TR" ++ ds ++ "a" ++ es) ++ fs
   = "TR" ++ ds ++ "a" ++ fs)%string.
Proof.
  intros Hdir (L1 & D1) (L2 & D2) (L3 & D3).
  destruct ds as [|d1 [|d2 [|d3 [|d4 [|]]]]]; try discriminate.
  destruct es as [|e1 [|e2 [|e3 [|]]]]; try discriminate.
  destruct fs as [|f1 [|f2 [|f3 [|]]]]; try discriminate.
  cbn [list_ascii_of_string] in D1, D2, D3.
  assert (Hd : forallb is_digit [d1; d2; d3; d4; e1; e2; e3; f1; f2; f3] = true).
  { repeat match goal with
           | H : Forall _ (_ :: _) |- _ => inversion H; clear H; subst
           end.
    cbn [forallb].
    repeat match goal with
           | H : is_digit _ = true |- _ => rewrite H; clear H
           end.
    reflexivity. }
  split.
  - unfold _load_metadata, re_search.
    rewrite basename_app, (basename_dir dir Hdir).
    2:{ cbn [forallb] in Hd. rewrite !andb_true_iff in Hd.
        destruct Hd as (A1 & A2 & A3 & A4 & B1 & B2 & B3 & C1 & C2 & C3 & _).
        apply digit_not_sep in A1, A2, A3, A4, B1, B2, B3, C1, C2, C3.
        unfold span_file_name.
        cbn [String.append list_ascii_of_string forallb].
        rewrite A1, A2, A3, A4, B1, B2, B3, C1, C2, C3. reflexivity. }
    pose proof (file_re_match _ _ _ _ _ _ _ _ _ _ Hd) as M.
    cbn [String.append span_file_name list_ascii_of_string app] in M |- *.
    cbn [re_search_from]. rewrite M. reflexivity.
  - change ("TR" ++ String d1 (String d2 (String d3 (String d4 "")))
              ++ "a" ++ String e1 (String e2 (String e3 "")))%string
      with (("TR" ++ String d1 (String d2 (String d3 (String d4 ""))) ++ "a")
              ++ String e1 (String e2 (String e3 "")))%string.
    rewrite drop_last3_app; reflexivity.
Qed.

(** X12.  Whenever [_load_metadata] returns on a path of ASCII
    characters, the base name of the path ends (a last newline aside)
    with [Cond_10C_], the start span, [_], the suffix and [.xlsx],
    letters in either case; the start span ends with three of the
    digits 0-9 after seven other characters, the suffix is three
    digits, and the end span of [process_workbook] is the start span
    with its last three digits replaced by the suffix. *)
Theorem load_metadata_shape xl_path start suffix :
  ascii_text xl_path ->
  _load_metadata xl_path = Ok (start, suffix) ->
  exists pre c1 u ext tl head e,
    basename xl_path
    = (pre ++ c1 ++ start ++ u ++ suffix ++ ext ++ tl)%string /\
    ieq c1 "Cond_10C_" /\ ieq u "_" /\ ieq ext ".xlsx" /\ line_end tl /\
    start = (head ++ e)%string /\ String.length head = 7 /\
    digits 3 e /\ digits 3 suffix /\
    (CalculationsCopy.drop_last3 start ++ suffix = head ++ suffix)%string.
Proof.
  intros _ H. apply load_metadata_inv in H.
  destruct H as (pre & c1 & t & d1 & d2 & d3 & d4 & a & e1 & e2 & e3 & u & f1
                 & f2 & f3 & ext & tl & E & Hc1 & Ht & Ha & Hu & Hext & Hd
                 & Htl & -> & ->).
  simpl in Hd. rewrite !andb_true_iff in Hd.
  destruct Hd as (D1 & D2 & D3 & D4 & E1 & E2 & E3 & F1 & F2 & F3 & _).
  exists (string_of_list_ascii pre), (string_of_list_ascii c1),
    (string_of_list_ascii u), (string_of_list_ascii ext),
    (string_of_list_ascii tl),
    (string_of_list_ascii (t ++ d1 :: d2 :: d3 :: d4 :: a)),
    (string_of_list_ascii [e1; e2; e3]).
  assert (S : string_of_list_ascii (t ++ d1 :: d2 :: d3 :: d4 :: a ++ [e1; e2; e3])
              = (string_of_list_ascii (t ++ d1 :: d2 :: d3 :: d4 :: a)
                   ++ string_of_list_ascii [e1; e2; e3])%string).
  { rewrite <- string_of_app, <- app_assoc. reflexivity. }
  unfold ieq. rewrite !list_ascii_of_string_of_list_ascii.
  repeat match goal with |- _ /\ _ => split end; auto.
  - apply list_of_string_inj.
    rewrite !list_of_append, !list_ascii_of_string_of_list_ascii.
    exact E.
  - apply line_end_list. now rewrite list_ascii_of_string_of_list_ascii.
  - rewrite string_of_list_length, length_app. simpl.
    apply fold_case_length in Ht, Ha. simpl in Ht, Ha. lia.
  - split; [reflexivity|]. cbn [list_ascii_of_string].
    repeat constructor; assumption.
  - split; [reflexivity|]. cbn [list_ascii_of_string].
    repeat constructor; assumption.
  - rewrite S, drop_last3_app; reflexivity.
Qed.

End FileNames.

Section ProcessedCopies.
Import CalculationsCopy.
Variable numeric_of_text : string -> float.
Variable Sheet : Type.
Variable frame_of_sheet : Sheet -> result DataFrame.
Variable sheet_of_frame : Sheet -> DataFrame -> Sheet.
Variable max_row : Sheet -> nat.
Variable set_cell : Sheet -> nat -> nat -> value -> Sheet.
Variable RESULTS_PATH : string.

(** X13.  A processed copy is never taken for a source workbook:
    [_load_metadata] refuses every path that ends in
    [_processed.xlsx], so [process_workbook] on the processed copy of
    any file raises [ValueError] before it prints or opens anything,
    and [main] only adds the error line and leaves the files alone.
    The message of the error holds the path as [repr] writes it, with
    its backslashes doubled. *)
Theorem processed_copy_refused fs f out :
  ascii_text f ->
  let p := processed_path f in
  let e := ValueError ("Filename " ++ repr p
                         ++ " does not match expected pattern.") in
  Names._load_metadata p = Raise e /\
  process_workbook numeric_of_text Sheet frame_of_sheet sheet_of_frame
                   max_row set_cell RESULTS_PATH fs p = ([], Raise e) /\
  main_step numeric_of_text Sheet frame_of_sheet sheet_of_frame
            max_row set_cell RESULTS_PATH (out, fs) p
  = (out ++ [Error p e], fs).
Proof.
  intros _ p e.
  pose proof (load_metadata_processed (splitext_root f)) as L.
  change (Names._load_metadata p = Raise e) in L.
  clearbody p e.
  assert (W : process_workbook numeric_of_text Sheet frame_of_sheet
                sheet_of_frame max_row set_cell RESULTS_PATH fs p
              = ([], Raise e)).
  { unfold process_workbook. rewrite L. reflexivity. }
  split; [exact L|]. split; [exact W|].
  unfold main_step. rewrite W. reflexivity.
Qed.

End ProcessedCopies.

(** The processed copy of the first sample workbook, in a folder of a
    Windows drive. *)
Lemma processed_copy_refused_sample :
  let p := "C:\data\Cond_10C_TR1730a001_002_processed.xlsx"%string in
  let e := ValueError
             ("Filename 'C:\\data\\Cond_10C_TR1730a001_002_processed.xlsx'"
              ++ " does not match expected pattern.") in
  processed_path "C:\data\Cond_10C_TR1730a001_002.xlsx" = p /\
  Names._load_metadata p = Raise e /\
  sample_main [p] sample_fs = ([CalculationsCopy.Error p e], sample_fs).
Proof.
  intros p e. split; [reflexivity|].
  destruct (processed_copy_refused (fun _ => nan) DataFrame (fun ws => Ok ws)
              (fun _ df => df) (fun ws => nrows ws) (fun ws _ _ _ => ws)
              sample_results_path sample_fs
              "C:\data\Cond_10C_TR1730a001_002.xlsx" [])
    as (L & _ & M).
  - repeat constructor; simpl; lia.
  - split; [exact L|].
    unfold sample_main, CalculationsCopy.main. simpl fold_left.
    exact M.
Defined.

(** The first workbook of the sample folder, in a directory. *)
Lemma load_metadata_round_trip_sample :
  Names._load_metadata "input/Cond_10C_TR1730a001_002.xlsx"
  = Ok ("TR1730a001", "002")%string /\
  (CalculationsCopy.drop_last3 "TR1730a001" ++ "002" = "TR1730a002")%string.
Proof.
  apply (load_metadata_round_trip "input/" "1730" "001" "002").
  - right. exists "input"%string, "/"%char. split; reflexivity.
  - split; [reflexivity|repeat constructor].
  - split; [reflexivity|repeat constructor].
  - split; [reflexivity|repeat constructor].
Defined.

Lemma load_metadata_shape_sample :
  exists pre c1 u ext tl head e,
    Names.basename "input/cond_10c_tr1730A001_002.XLSX"
    = (pre ++ c1 ++ "tr1730A001" ++ u ++ "002" ++ ext ++ tl)%string /\
    ieq c1 "Cond_10C_" /\ ieq u "_" /\ ieq ext ".xlsx" /\ line_end tl /\
    "tr1730A001"%string = (head ++ e)%string /\ String.length head = 7 /\
    digits 3 e /\ digits 3 "002" /\
    (CalculationsCopy.drop_last3 "tr1730A001" ++ "002" = head ++ "002")%string.
Proof.
  apply (load_metadata_shape "input/cond_10c_tr1730A001_002.XLSX"
                             "tr1730A001" "002").
  - repeat constructor; simpl; lia.
  - vm_compute. reflexivity.
Defined.

(** ** Wind sheet names: pressures, families and variants *)

Section Pressures.
Import Re Wind.

Lemma star_suffixes {R : Type} p (k : list ascii -> option R) s :
  (forall pre t, s = pre ++ t -> k t = None) -> star p k s = None.
Proof.
  induction s as [|c t IH]; intros H; rewrite star_unfold.
  - now apply (H [] []).
  - assert (Hk : k (c :: t) = None) by now apply (H []).
    destruct (p c); [|assumption].
    rewrite IH; [assumption|].
    intros pre u ->. now apply (H (c :: pre)).
Qed.

Lemma plus_suffixes {R : Type} p (k : list ascii -> option R) s :
  (forall pre t, s = pre ++ t -> k t = None) -> plus p k s = None.
Proof.
  intros H. destruct s as [|c t]; [reflexivity|]. simpl.
  destruct (p c); [|reflexivity].
  apply star_suffixes. intros pre u ->. now apply (H (c :: pre)).
Qed.

Lemma star_over {R : Type} p (k : list ascii -> option R) x y r :
  Forall (fun c => p c = true) x -> star p k y = Some r ->
  star p k (x ++ y) = Some r.
Proof.
  intros Hx Hy. induction Hx as [|c t Hc _ IH]; [assumption|].
  simpl. now rewrite Hc, IH.
Qed.

Lemma re_search_skip icase r x rest :
  Forall (fun c => forall s, re_match_at icase r (c :: s) = None) x ->
  re_search_from icase r (x ++ rest) = re_search_from icase r rest.
Proof.
  induction 1 as [|c t Hc _ IH]; [reflexivity|].
  cbn [app re_search_from]. now rewrite Hc.
Qed.

Lemma findall_skip icase r x rest :
  Forall (fun c => forall s, re_match0_at icase r (c :: s) = None) x ->
  findall_from icase r 0 (x ++ rest) = findall_from icase r 0 rest.
Proof.
  induction 1 as [|c t Hc _ IH]; [reflexivity|].
  cbn [app findall_from]. now rewrite Hc.
Qed.

Lemma findall_hit icase r c t m :
  re_match0_at icase r (c :: t) = Some m ->
  findall_from icase r 0 (c :: t)
  = group 1 m :: findall_from icase r (List.length (group 0 m) - 1) t.
Proof. intros H. cbn [findall_from]. now rewrite H. Qed.

Lemma findall_miss icase r c t :
  re_match0_at icase r (c :: t) = None ->
  findall_from icase r 0 (c :: t) = findall_from icase r 0 t.
Proof. intros H. cbn [findall_from]. now rewrite H. Qed.

Lemma findall_drop icase r x rest :
  findall_from icase r (List.length x) (x ++ rest)
  = findall_from icase r 0 rest.
Proof. induction x as [|c t IH]; [reflexivity|exact IH]. Qed.

Lemma digit_not_underscore c : is_digit c = true -> c <> "_"%char.
Proof.
  intros H. now apply digit_or_hyphen_dot, digit_is_digit_or_hyphen.
Qed.

Lemma strip_W_head c s :
  c <> "_"%char -> strip_prefix false ["_"%char; "W"%char] (c :: s) = None.
Proof.
  intros H. cbn [strip_prefix chr_eqb].
  destruct (Ascii.eqb "_" c) eqn:E; [|reflexivity].
  apply Ascii.eqb_eq in E. congruence.
Qed.

Lemma strip_W_none t :
  Forall (fun c => c <> "_"%char) t ->
  strip_prefix false ["_"%char; "W"%char] t = None.
Proof.
  intros H. destruct H as [|c t Hc _]; [reflexivity|]. now apply strip_W_head.
Qed.

(** [_W(\d+)], the group numbered [n], against [_W<p>] and what follows *)
Lemma pressure_match n p rest cs (k : list ascii -> caps -> option caps) r :
  p <> [] -> Forall (fun c => is_digit c = true) p -> stops is_digit rest ->
  k rest ((n, p) :: cs) = Some r ->
  exec false (seq [Lit "_W"; Group n (Plus is_digit)])
       ("_"%char :: "W"%char :: p ++ rest) cs k = Some r.
Proof.
  intros Np Hp Hs Hk. cbn [seq fold_right exec].
  cbn [list_ascii_of_string strip_prefix chr_eqb Ascii.eqb Bool.eqb].
  eapply plus_greedy; [assumption|assumption|assumption|].
  now rewrite consumed_app.
Qed.

Lemma pressure_none n t cs (k : list ascii -> caps -> option caps) :
  strip_prefix false ["_"%char; "W"%char] t = None ->
  exec false (seq [Lit "_W"; Group n (Plus is_digit)]) t cs k = None.
Proof.
  intros H. cbn [seq fold_right exec]. cbn [list_ascii_of_string].
  now rewrite H.
Qed.

Lemma ew_pressures_match p1 b p2 :
  p1 <> [] -> Forall (fun c => is_digit c = true) p1 ->
  Forall (fun c => is_digit_or_hyphen c = true) b ->
  p2 <> [] -> Forall (fun c => is_digit c = true) p2 ->
  re_match_at false EW_PH_PRESSURES_RE
    ("_"%char :: "W"%char :: p1 ++ "_"%char :: b
       ++ "_"%char :: "W"%char :: p2)
  = Some [(2, p2); (1, p1)].
Proof.
  intros N1 H1 Hb N2 H2.
  unfold re_match_at, EW_PH_PRESSURES_RE.
  change (seq [Lit "_W"; Group 1 (Plus is_digit); Star is_dot; Lit "_W";
               Group 2 (Plus is_digit)])
    with (Seq (Lit "_W")
            (Seq (Group 1 (Plus is_digit))
               (Seq (Star is_dot)
                  (seq [Lit "_W"; Group 2 (Plus is_digit)])))).
  set (tail := seq [Lit "_W"; Group 2 (Plus is_digit)]).
  cbn [exec].
  cbn [list_ascii_of_string strip_prefix chr_eqb Ascii.eqb Bool.eqb].
  eapply plus_greedy; [assumption|assumption|reflexivity|].
  rewrite consumed_app.
  change ("_"%char :: b ++ "_"%char :: "W"%char :: p2)
    with (("_"%char :: b) ++ "_"%char :: "W"%char :: p2).
  apply star_over.
  { constructor; [reflexivity|].
    eapply Forall_impl; [|exact Hb]. intros c Hc.
    now apply digit_or_hyphen_dot. }
  rewrite star_unfold. change (is_dot "_") with true. cbv iota.
  rewrite star_suffixes.
  - unfold tail. rewrite <- (app_nil_r p2).
    apply pressure_match; try assumption; [exact I|].
    now rewrite app_nil_r.
  - intros pre t E. unfold tail. apply pressure_none, strip_W_none.
    assert (F : Forall (fun c => c <> "_"%char) ("W"%char :: p2)).
    { constructor; [discriminate|].
      eapply Forall_impl; [|exact H2]. intros c. apply digit_not_underscore. }
    rewrite E in F. apply Forall_app in F. tauto.
Qed.

Lemma pressure_match0 p rest :
  p <> [] -> Forall (fun c => is_digit c = true) p -> stops is_digit rest ->
  re_match0_at false PRESSURE_RE ("_"%char :: "W"%char :: p ++ rest)
  = Some [(0, "_"%char :: "W"%char :: p); (1, p)].
Proof.
  intros Np Hp Hs. unfold re_match0_at, PRESSURE_RE.
  apply pressure_match; try assumption.
  change ("_"%char :: "W"%char :: p ++ rest)
    with (("_"%char :: "W"%char :: p) ++ rest).
  now rewrite consumed_app.
Qed.

Lemma pressure_skip x :
  Forall (fun c => is_digit_or_hyphen c = true) x ->
  Forall (fun c => forall s, re_match0_at false PRESSURE_RE (c :: s) = None) x /\
  Forall (fun c => forall s, re_match_at false EW_PH_PRESSURES_RE (c :: s) = None) x.
Proof.
  intros H. split; (eapply Forall_impl; [|exact H]); intros c Hc s;
    apply digit_or_hyphen_dot in Hc; destruct Hc as (_ & Hc).
  - unfold re_match0_at, PRESSURE_RE. apply pressure_none.
    now apply strip_W_head.
  - unfold re_match_at, EW_PH_PRESSURES_RE. cbn [seq fold_right exec].
    cbn [list_ascii_of_string]. now rewrite strip_W_head.
Qed.

Lemma pressures_of_wind_name a p1 b p2 :
  run_of is_digit_or_hyphen a -> run_of is_digit p1 ->
  run_of is_digit_or_hyphen b -> run_of is_digit p2 ->
  extract_ew_ph_pressures (wind_name a p1 b p2) = Some (int_of p1, int_of p2) /\
  extract_ph_ph_pressures (wind_name a p1 b p2) = Some (int_of p1, int_of p2).
Proof.
  intros Ra R1 Rb R2.
  apply run_of_list in Ra, R1, Rb, R2.
  destruct Ra as (Na & Ha), R1 as (N1 & H1), Rb as (Nb & Hb), R2 as (N2 & H2).
  destruct (pressure_skip _ Ha) as (Sa0 & Sa), (pressure_skip _ Hb) as (Sb0 & _).
  split.
  - unfold extract_ew_ph_pressures, re_search. rewrite wind_name_list.
    rewrite re_search_skip by assumption.
    cbn [re_search_from]. rewrite ew_pressures_match by assumption.
    reflexivity.
  - unfold extract_ph_ph_pressures, re_findall. rewrite wind_name_list.
    rewrite findall_skip by assumption.
    erewrite findall_hit
      by (apply pressure_match0; [assumption|assumption|reflexivity]).
    cbn [group Nat.eqb].
    replace (List.length ("_"%char :: "W"%char :: list_ascii_of_string p1) - 1)
      with (List.length ("W"%char :: list_ascii_of_string p1))
      by (simpl; lia).
    change ("W"%char :: list_ascii_of_string p1 ++ "_"%char
              :: list_ascii_of_string b ++ "_"%char :: "W"%char
              :: list_ascii_of_string p2)
      with (("W"%char :: list_ascii_of_string p1) ++ "_"%char
              :: list_ascii_of_string b ++ "_"%char :: "W"%char
              :: list_ascii_of_string p2).
    rewrite findall_drop.
    destruct (list_ascii_of_string b) as [|b1 bt] eqn:Eb; [congruence|].
    rewrite findall_miss.
    2:{ unfold re_match0_at, PRESSURE_RE. apply pressure_none.
        cbn [app strip_prefix chr_eqb]. rewrite Ascii.eqb_refl.
        inversion Hb as [|? ? Hc _]; subst.
        destruct (Ascii.eqb "W" b1) eqn:E; [|reflexivity].
        apply Ascii.eqb_eq in E. subst b1. discriminate Hc. }
    rewrite findall_skip by assumption.
    rewrite <- (app_nil_r (list_ascii_of_string p2)).
    erewrite findall_hit
      by (apply pressure_match0; [assumption|assumption|exact I]).
    cbn [group Nat.eqb].
    replace (List.length ("_"%char :: "W"%char :: list_ascii_of_string p2) - 1)
      with (List.length ("W"%char :: list_ascii_of_string p2))
      by (simpl; lia).
    reflexivity.
Qed.

End Pressures.

Section Families.
Import Re Wind.

Lemma consumed_two x y s : consumed (x :: y :: s) s = [x; y].
Proof. exact (consumed_app [x; y] s). Qed.

Lemma family_match a1 a2 a3 a4 p1 b1 b2 b3 b4 rest :
  forallb is_digit [a1; a2; a3; a4; b1; b2; b3; b4] = true ->
  p1 <> [] -> Forall (fun c => is_digit c = true) p1 ->
  re_match_at false FAMILY_RE
    (a1 :: a2 :: "-"%char :: a3 :: a4 :: "_"%char :: "W"%char :: p1
       ++ "_"%char :: b1 :: b2 :: "-"%char :: b3 :: b4 :: rest)
  = Some [(2, [b1; b2]); (1, [a1; a2])].
Proof.
  intros Hd N1 H1. cbn [forallb] in Hd. rewrite !andb_true_iff in Hd.
  destruct Hd as (A1 & A2 & A3 & A4 & B1 & B2 & B3 & B4 & _).
  unfold re_match_at, FAMILY_RE. cbn [seq fold_right exec].
  rewrite A1, A2.
  cbn [list_ascii_of_string strip_prefix chr_eqb Ascii.eqb Bool.eqb].
  rewrite A3, A4.
  cbn [list_ascii_of_string strip_prefix chr_eqb Ascii.eqb Bool.eqb].
  eapply plus_greedy; [assumption|assumption|reflexivity|].
  cbn [list_ascii_of_string strip_prefix chr_eqb Ascii.eqb Bool.eqb].
  rewrite B1, B2.
  cbn [list_ascii_of_string strip_prefix chr_eqb Ascii.eqb Bool.eqb].
  rewrite B3, B4.
  now rewrite !consumed_two.
Qed.

Lemma suffix_cons (Q : list ascii -> Prop) c t :
  Q (c :: t) -> (forall pre u, t = pre ++ u -> Q u) ->
  forall pre u, c :: t = pre ++ u -> Q u.
Proof.
  intros H0 Ht [|c' pre] u E; simpl in E.
  - now subst.
  - injection E as _ E. eauto.
Qed.

Lemma suffix_app (Q : list ascii -> Prop) x y :
  (forall pre c u, x = pre ++ c :: u -> Q ((c :: u) ++ y)) ->
  (forall pre u, y = pre ++ u -> Q u) ->
  forall pre u, x ++ y = pre ++ u -> Q u.
Proof.
  intros Hx Hy. induction x as [|c x IH]; [exact Hy|].
  apply suffix_cons.
  - apply (Hx [] c x). reflexivity.
  - apply IH. intros pre c' u ->. apply (Hx (c :: pre) c' u). reflexivity.
Qed.

Lemma digits_tail_none u cs (k : list ascii -> caps -> option caps) :
  strip_prefix false ["_"%char; "W"%char] u = None ->
  exec false DIGITS_TAIL u cs k = None.
Proof.
  intros H. unfold DIGITS_TAIL. cbn [seq fold_right exec].
  cbn [list_ascii_of_string]. now rewrite H.
Qed.

Lemma digit_suffix_none x pre u :
  Forall (fun c => is_digit c = true) x -> x = pre ++ u ->
  strip_prefix false ["_"%char; "W"%char] u = None.
Proof.
  intros H ->. apply Forall_app in H. destruct H as (_ & H).
  apply strip_W_none. eapply Forall_impl; [|exact H].
  intros c. apply digit_not_underscore.
Qed.

Lemma digits_tail_end p2 cs (k : list ascii -> caps -> option caps) :
  Forall (fun c => is_digit c = true) p2 ->
  exec false DIGITS_TAIL ("_"%char :: "W"%char :: p2) cs k = None.
Proof.
  intros H. unfold DIGITS_TAIL. cbn [seq fold_right exec].
  cbn [list_ascii_of_string strip_prefix chr_eqb Ascii.eqb Bool.eqb].
  apply plus_suffixes. intros pre t ->.
  apply Forall_app in H. destruct H as (_ & H).
  destruct H as [|c t Hc _]; [reflexivity|].
  destruct c as [[] [] [] [] [] [] [] []]; try reflexivity; discriminate Hc.
Qed.

Lemma digits_tail_match p1 b1 b2 b3 b4 rest cs
      (k : list ascii -> caps -> option caps) r :
  forallb is_digit [b1; b2; b3; b4] = true ->
  p1 <> [] -> Forall (fun c => is_digit c = true) p1 ->
  k rest ((2, [b1; b2]) :: cs) = Some r ->
  exec false DIGITS_TAIL
       ("_"%char :: "W"%char :: p1
          ++ "_"%char :: b1 :: b2 :: "-"%char :: b3 :: b4 :: rest) cs k
  = Some r.
Proof.
  intros Hd N1 H1 Hk. cbn [forallb] in Hd. rewrite !andb_true_iff in Hd.
  destruct Hd as (B1 & B2 & B3 & B4 & _).
  unfold DIGITS_TAIL. cbn [seq fold_right exec].
  cbn [list_ascii_of_string strip_prefix chr_eqb Ascii.eqb Bool.eqb].
  eapply plus_greedy; [assumption|assumption|reflexivity|].
  cbn [list_ascii_of_string strip_prefix chr_eqb Ascii.eqb Bool.eqb].
  rewrite B1, B2.
  cbn [list_ascii_of_string strip_prefix chr_eqb Ascii.eqb Bool.eqb].
  rewrite B3, B4. now rewrite consumed_two.
Qed.

Lemma digits_match a1 a2 a3 a4 p1 b1 b2 b3 b4 p2 :
  forallb is_digit [a1; a2; a3; a4; b1; b2; b3; b4] = true ->
  p1 <> [] -> Forall (fun c => is_digit c = true) p1 ->
  Forall (fun c => is_digit c = true) p2 ->
  re_match_at false DIGITS_RE
    (a1 :: a2 :: "-"%char :: a3 :: a4 :: "_"%char :: "W"%char :: p1
       ++ "_"%char :: b1 :: b2 :: "-"%char :: b3 :: b4
       :: "_"%char :: "W"%char :: p2)
  = Some [(2, [b1; b2]); (1, [a1; a2])].
Proof.
  intros Hd N1 H1 H2.
  assert (Hb : forallb is_digit [b1; b2; b3; b4] = true).
  { cbn [forallb] in *. rewrite !andb_true_iff in *. tauto. }
  cbn [forallb] in Hd. rewrite !andb_true_iff in Hd.
  destruct Hd as (A1 & A2 & A3 & A4 & B1 & B2 & B3 & B4 & _).
  unfold re_match_at, DIGITS_RE.
  change (seq [Group 1 (seq [Cls is_digit; Cls is_digit]); Lit "-";
               Cls is_digit; Cls is_digit; Star is_dot; Lit "_W";
               Plus is_digit; Lit "_";
               Group 2 (seq [Cls is_digit; Cls is_digit]); Lit "-";
               Cls is_digit; Cls is_digit])
    with (Seq (Group 1 (seq [Cls is_digit; Cls is_digit]))
            (Seq (Lit "-")
               (Seq (Cls is_digit)
                  (Seq (Cls is_digit) (Seq (Star is_dot) DIGITS_TAIL))))).
  generalize DIGITS_TAIL (digits_tail_none) (digits_tail_end)
    (digits_tail_match).
  intros tail Tnone Tend Tmatch.
  cbn [seq fold_right exec].
  rewrite A1, A2.
  cbn [list_ascii_of_string strip_prefix chr_eqb Ascii.eqb Bool.eqb].
  rewrite A3, A4. rewrite consumed_two.
  rewrite star_unfold. change (is_dot "_") with true. cbv iota.
  rewrite star_suffixes.
  - apply Tmatch; auto.
  - apply suffix_cons; [now apply Tnone|].
    apply suffix_app.
    { intros pre c u E. apply Tnone.
      rewrite E in H1. apply Forall_app in H1. destruct H1 as (_ & H1).
      apply Forall_inv in H1. apply strip_W_head.
      now apply digit_not_underscore. }
    apply suffix_cons.
    { apply Tnone. cbn [strip_prefix chr_eqb]. rewrite Ascii.eqb_refl.
      destruct (Ascii.eqb "W" b1) eqn:E; [|reflexivity].
      apply Ascii.eqb_eq in E. subst b1. discriminate B1. }
    apply suffix_cons;
      [now apply Tnone, strip_W_head, digit_not_underscore|].
    apply suffix_cons;
      [now apply Tnone, strip_W_head, digit_not_underscore|].
    apply suffix_cons; [now apply Tnone|].
    apply suffix_cons;
      [now apply Tnone, strip_W_head, digit_not_underscore|].
    apply suffix_cons;
      [now apply Tnone, strip_W_head, digit_not_underscore|].
    apply suffix_cons; [now apply Tend|].
    apply suffix_cons; [now apply Tnone|].
    intros pre u E. apply Tnone. eapply digit_suffix_none; eauto.
Qed.

End Families.

Section WindNames.
Import Re Wind.

Lemma section_code_run s : section_code s -> run_of is_digit_or_hyphen s.
Proof.
  intros (c1 & c2 & c3 & c4 & -> & H).
  cbn [forallb] in H. rewrite !andb_true_iff in H.
  destruct H as (H1 & H2 & H3 & H4 & _).
  split; [discriminate|]. cbn [list_ascii_of_string].
  repeat constructor; auto using digit_is_digit_or_hyphen.
Qed.

Lemma parse_digits_wind_name a p1 b p2 :
  section_code a -> run_of is_digit p1 ->
  section_code b -> run_of is_digit p2 ->
  parse_digits (wind_name a p1 b p2) = Ok (circuit_code a, circuit_code b).
Proof.
  intros (a1 & a2 & a3 & a4 & -> & Ha) R1 (b1 & b2 & b3 & b4 & -> & Hb) R2.
  apply run_of_list in R1, R2. destruct R1 as (N1 & H1), R2 as (N2 & H2).
  unfold parse_digits, re_search. rewrite wind_name_list.
  cbn [list_ascii_of_string app re_search_from].
  rewrite digits_match; [reflexivity| |assumption|assumption|assumption].
  cbn [forallb] in *. rewrite !andb_true_iff in *. tauto.
Qed.

Lemma classify_family_wind_name a p1 b p2 :
  section_code a -> run_of is_digit p1 ->
  section_code b -> run_of is_digit p2 ->
  classify_family (wind_name a p1 b p2)
  = if member (circuit_code a) ["59"; "39"]%string
       || member (circuit_code b) ["59"; "39"]%string
    then "EW-Ph"%string else "Ph-Ph"%string.
Proof.
  intros (a1 & a2 & a3 & a4 & -> & Ha) R1 (b1 & b2 & b3 & b4 & -> & Hb) R2.
  apply run_of_list in R1, R2. destruct R1 as (N1 & H1), R2 as (N2 & H2).
  unfold classify_family, re_search. rewrite wind_name_list.
  cbn [list_ascii_of_string app re_search_from].
  rewrite family_match; [reflexivity| |assumption|assumption].
  cbn [forallb] in *. rewrite !andb_true_iff in *. tauto.
Qed.

Lemma earth_wire_code_alone x y :
  member x ["59"; "39"]%string = true ->
  same_circuit x y = false /\ same_circuit y x = false.
Proof.
  unfold member. cbn [existsb]. rewrite !orb_true_iff.
  intros [E|[E|E]]; [| |discriminate]; apply String.eqb_eq in E; subst x;
    unfold same_circuit; cbn [member existsb C_GROUP_1 C_GROUP_2 String.eqb
                              Ascii.eqb Bool.eqb orb andb];
    rewrite ?andb_false_r; auto.
Qed.

End WindNames.

Section WindTheorems.
Import Re Wind.

(** X14.  Both pressure readers return the two wind pressures of a
    well-formed wind sheet name in the order in which the name has
    them, and agree on such names; on the swapped name they return the
    pressures in the other order. *)
Theorem pressures_follow_name_order a p1 b p2 :
  run_of is_digit_or_hyphen a -> run_of is_digit p1 ->
  run_of is_digit_or_hyphen b -> run_of is_digit p2 ->
  let name := wind_name a p1 b p2 in
  extract_ew_ph_pressures name = Some (int_of p1, int_of p2) /\
  extract_ph_ph_pressures name = Some (int_of p1, int_of p2) /\
  extract_ew_ph_pressures (swap_sheet_name name) = Some (int_of p2, int_of p1) /\
  extract_ph_ph_pressures (swap_sheet_name name) = Some (int_of p2, int_of p1).
Proof.
  intros Ra R1 Rb R2 name. unfold name.
  rewrite swap_sheet_name_exchanges by assumption.
  destruct (pressures_of_wind_name a p1 b p2 Ra R1 Rb R2) as (E1 & E2).
  destruct (pressures_of_wind_name b p2 a p1 Rb R2 Ra R1) as (E3 & E4).
  auto.
Qed.

(** X15.  From a name [<a>_W<p1>_<b>_W<p2>] whose sections a and b
    are codes [<2 digits>-<2 digits>], [add_distance_columns] reads the
    first two digits of a and of b as d1 and d3, and [classify_family]
    answers "EW-Ph" exactly when one of the two is 59 or 39, "Ph-Ph"
    otherwise. *)
Theorem wind_name_codes a p1 b p2 :
  section_code a -> run_of is_digit p1 ->
  section_code b -> run_of is_digit p2 ->
  let name := wind_name a p1 b p2 in
  parse_digits name = Ok (circuit_code a, circuit_code b) /\
  (classify_family name = "EW-Ph"%string <->
   member (circuit_code a) ["59"; "39"]%string = true \/
   member (circuit_code b) ["59"; "39"]%string = true) /\
  (classify_family name = "Ph-Ph"%string <->
   member (circuit_code a) ["59"; "39"]%string = false /\
   member (circuit_code b) ["59"; "39"]%string = false).
Proof.
  intros Sa R1 Sb R2 name. unfold name.
  split; [now apply parse_digits_wind_name|].
  rewrite classify_family_wind_name by assumption.
  destruct (member (circuit_code a) ["59"; "39"]%string),
    (member (circuit_code b) ["59"; "39"]%string); cbn [orb];
    (split; split; intros H; try discriminate; auto;
     try (destruct H; discriminate)).
Qed.

(** X16.  On such a name [add_distance_columns] returns, with C3 and
    C4 constant over the rows and Required distance 1.35 for two wires
    of one circuit group and 1.60 otherwise; the threshold
    [C3 if C3 else C4] of the OK flag of a winner row is that Required
    distance, and a sheet of the family "EW-Ph" has 1.60. *)
Theorem wind_required_distance df a p1 b p2 :
  section_code a -> run_of is_digit p1 ->
  section_code b -> run_of is_digit p2 ->
  let same := same_circuit (circuit_code a) (circuit_code b) in
  let c3 := (if same then 1.35 else 0)%float in
  let c4 := (if same then 0 else 1.60)%float in
  let required := (if same then 1.35 else 1.60)%float in
  exists df',
    add_distance_columns df (wind_name a p1 b p2) = Ok df' /\
    (forall i, i < nrows df ->
       cell_at df' "C3" i = Some (Num c3) /\
       cell_at df' "C4" i = Some (Num c4) /\
       cell_at df' "Required distance" i = Some (Num required)) /\
    ok_threshold c3 c4 = required /\
    (forall dist, winner_ok c3 c4 dist = "OK"%string <->
                  PrimFloat.leb required dist = true) /\
    (classify_family (wind_name a p1 b p2) = "EW-Ph"%string ->
     required = 1.60%float).
Proof.
  intros Sa R1 Sb R2 same c3 c4 required.
  assert (T : ok_threshold c3 c4 = required).
  { unfold c3, c4, required. now destruct same. }
  assert (M : nanmax c3 c4 = required).
  { unfold c3, c4, required. now destruct same. }
  exists (setitem (setitem_scalar (setitem_scalar df "C3" c3) "C4" c4)
                  "Required distance" Float64
                  (repeat (Num required) (nrows df))).
  split; [|split; [|split; [|split]]].
  - unfold add_distance_columns.
    rewrite parse_digits_wind_name by assumption.
    cbn [bind fst snd]. fold same. fold c3 c4. frame. cbn [bind].
    rewrite zipM_row_max_repeat, M. reflexivity.
  - intros i Hi. frame. rewrite !nth_error_repeat by assumption. auto.
  - exact T.
  - intros dist. unfold winner_ok. rewrite T.
    destruct (PrimFloat.leb required dist); split; intros H;
      reflexivity || discriminate.
  - intros F. rewrite classify_family_wind_name in F by assumption.
    assert (S : same = false).
    { unfold same.
      destruct (member (circuit_code a) ["59"; "39"]%string) eqn:Ea.
      - now destruct (earth_wire_code_alone _ (circuit_code b) Ea).
      - destruct (member (circuit_code b) ["59"; "39"]%string) eqn:Eb;
          [|discriminate].
        now destruct (earth_wire_code_alone _ (circuit_code a) Eb). }
    unfold required. now rewrite S.
Qed.

End WindTheorems.

Section Variants.
Import Re Wind.

Lemma ew_tag_match e p rest :
  e <> [] -> Forall (fun c => is_digit c = true) e ->
  p <> [] -> Forall (fun c => is_digit c = true) p ->
  stops is_digit rest ->
  re_match_at true EW_TAG_RE
    (list_ascii_of_string "EW" ++ e ++ list_ascii_of_string "-Ph" ++ p ++ rest)
  = Some [(2, p); (1, e)].
Proof.
  intros Ne He Np Hp Hs.
  unfold re_match_at, EW_TAG_RE. cbn [seq fold_right exec].
  rewrite strip_prefix_icase_refl.
  eapply plus_greedy; [assumption|assumption|reflexivity|].
  rewrite strip_prefix_icase_refl.
  eapply plus_greedy; [assumption|assumption|assumption|].
  now rewrite !consumed_app.
Qed.

Lemma repl_codes : Forall section_code EW_PH_REPL.
Proof.
  unfold EW_PH_REPL.
  repeat (constructor; [do 4 eexists; split; reflexivity|]). constructor.
Qed.

Lemma earth_wire_section : section_code "59-39".
Proof. do 4 eexists. split; reflexivity. Qed.

Lemma repl_not_earth_wire rep :
  In rep EW_PH_REPL -> member (circuit_code rep) ["59"; "39"]%string = false.
Proof.
  unfold EW_PH_REPL. cbn [In].
  intros H. repeat (destruct H as [<-|H]; [reflexivity|]). destruct H.
Qed.

Lemma ew_variant_name e rep p :
  (("59-39_W" ++ e) ++ "_" ++ rep ++ "_" ++ "W" ++ p)%string
  = wind_name "59-39" e rep p.
Proof.
  unfold wind_name. rewrite string_append_assoc. reflexivity.
Qed.

(** X17.  For a tag [EW<e>-Ph<p>], [ew_ph_variants] gives the six
    names [59-39_W<e>_<rep>_W<p>], one for each replacement code; each
    is classified "EW-Ph", as is its swapped name, swapping it twice
    gives it back, and its pressures are read as (e, p). *)
Theorem ew_ph_variants_spec e p :
  run_of is_digit e -> run_of is_digit p ->
  let names := ew_ph_variants ("EW" ++ e ++ "-Ph" ++ p) in
  names = map (fun rep => wind_name "59-39" e rep p) EW_PH_REPL /\
  forall s, In s names ->
    classify_family s = "EW-Ph"%string /\
    classify_family (swap_sheet_name s) = "EW-Ph"%string /\
    swap_sheet_name (swap_sheet_name s) = s /\
    extract_ew_ph_pressures s = Some (int_of e, int_of p).
Proof.
  intros Re Rp names.
  assert (E : names = map (fun rep => wind_name "59-39" e rep p) EW_PH_REPL).
  { unfold names, ew_ph_variants, re_match.
    destruct (run_of_list _ _ Re) as (Ne & He).
    destruct (run_of_list _ _ Rp) as (Np & Hp).
    rewrite !list_of_append.
    rewrite <- (app_nil_r (list_ascii_of_string p)).
    rewrite ew_tag_match by (assumption || exact I).
    unfold group_str. cbn [group Nat.eqb].
    rewrite !string_of_list_ascii_of_string.
    apply map_ext. intros rep. apply ew_variant_name. }
  split; [exact E|]. rewrite E. clear E names.
  intros s Hs. apply in_map_iff in Hs. destruct Hs as (rep & <- & Hrep).
  assert (Sr : section_code rep).
  { pose proof repl_codes as F. rewrite Forall_forall in F. auto. }
  pose proof earth_wire_section as Se.
  pose proof (section_code_run _ Sr) as Rr.
  pose proof (section_code_run _ Se) as Rw.
  rewrite swap_sheet_name_exchanges by assumption.
  rewrite swap_sheet_name_exchanges by assumption.
  rewrite !classify_family_wind_name by assumption.
  rewrite (repl_not_earth_wire rep Hrep).
  repeat match goal with |- _ /\ _ => split end; try reflexivity.
  now destruct (pressures_of_wind_name "59-39" e rep p Rw Re Rr Rp).
Qed.

Lemma chr_eqb_P c : not_p c -> chr_eqb true "P" c = false.
Proof.
  intros (H1 & H2).
  destruct c as [[] [] [] [] [] [] [] []]; try reflexivity; congruence.
Qed.

Lemma ph_file_skip pre :
  Forall not_p pre ->
  Forall (fun c => forall s, re_match_at true PH_FILE_RE (c :: s) = None) pre.
Proof.
  intros H. eapply Forall_impl; [|exact H]. intros c Hc s.
  unfold re_match_at, PH_FILE_RE. cbn [seq fold_right exec].
  cbn [list_ascii_of_string strip_prefix]. now rewrite chr_eqb_P.
Qed.

Lemma ph_file_match p1 p2 d1 d2 d3 d4 post :
  p1 <> [] -> Forall (fun c => is_digit c = true) p1 ->
  p2 <> [] -> Forall (fun c => is_digit c = true) p2 ->
  forallb is_digit [d1; d2; d3; d4] = true ->
  re_match_at true PH_FILE_RE
    (list_ascii_of_string "Ph" ++ p1 ++ list_ascii_of_string "-Ph" ++ p2
       ++ list_ascii_of_string "_" ++ d1 :: d2 :: list_ascii_of_string "-"
       ++ d3 :: d4 :: post)
  = Some [(4, [d3; d4]); (3, [d1; d2]); (2, p2); (1, p1)].
Proof.
  intros N1 H1 N2 H2 Hd. cbn [forallb] in Hd. rewrite !andb_true_iff in Hd.
  destruct Hd as (D1 & D2 & D3 & D4 & _).
  unfold re_match_at, PH_FILE_RE. cbn [seq fold_right exec].
  rewrite strip_prefix_icase_refl.
  eapply plus_greedy; [assumption|assumption|reflexivity|].
  rewrite strip_prefix_icase_refl.
  eapply plus_greedy; [assumption|assumption|reflexivity|].
  rewrite strip_prefix_icase_refl. rewrite D1, D2.
  rewrite strip_prefix_icase_refl. rewrite D3, D4.
  rewrite !consumed_app.
  change (list_ascii_of_string "-" ++ d3 :: d4 :: post)
    with ("-"%char :: d3 :: d4 :: post).
  now rewrite !consumed_two.
Qed.

(** X18.  For a file name that holds [Ph<p1>-Ph<p2>_<d1>-<d3>], d1
    and d3 of two digits, after a text without the letter P,
    [ph_ph_variants] gives the six names [<rep>_W<p1>_<d1>-<d3>_W<p2>];
    each is classified "EW-Ph" only if d1 is 59 or 39, swapping it
    twice gives it back, and its pressures are read as (p1, p2). *)
Theorem ph_ph_variants_spec pre p1 p2 d1 d3 post :
  Forall not_p (list_ascii_of_string pre) ->
  run_of is_digit p1 -> run_of is_digit p2 -> digits 2 d1 -> digits 2 d3 ->
  let names :=
    ph_ph_variants
      (pre ++ "Ph" ++ p1 ++ "-Ph" ++ p2 ++ "_" ++ d1 ++ "-" ++ d3 ++ post) in
  names = map (fun rep => wind_name rep p1 (d1 ++ "-" ++ d3) p2) EW_PH_REPL /\
  forall s, In s names ->
    (classify_family s = "EW-Ph"%string <->
     member d1 ["59"; "39"]%string = true) /\
    swap_sheet_name (swap_sheet_name s) = s /\
    extract_ph_ph_pressures s = Some (int_of p1, int_of p2).
Proof.
  intros Hpre R1 R2 (L1 & D1) (L3 & D3) names.
  destruct d1 as [|c1 [|c2 [|]]]; try discriminate.
  destruct d3 as [|c3 [|c4 [|]]]; try discriminate.
  cbn [list_ascii_of_string] in D1, D3.
  assert (Hd : forallb is_digit [c1; c2; c3; c4] = true).
  { inversion D1 as [|? ? A1 D1']; inversion D1' as [|? ? A2 _].
    inversion D3 as [|? ? A3 D3']; inversion D3' as [|? ? A4 _]. subst.
    cbn [forallb]. now rewrite A1, A2, A3, A4. }
  set (dcode := (String c1 (String c2 "") ++ "-" ++ String c3 (String c4 ""))%string).
  assert (Sd : section_code dcode).
  { exists c1, c2, c3, c4. split; [reflexivity|assumption]. }
  assert (E : names = map (fun rep => wind_name rep p1 dcode p2) EW_PH_REPL).
  { unfold names, ph_ph_variants, re_search.
    destruct (run_of_list _ _ R1) as (N1 & H1).
    destruct (run_of_list _ _ R2) as (N2 & H2).
    rewrite !list_of_append.
    rewrite re_search_skip by now apply ph_file_skip.
    cbn [re_search_from list_ascii_of_string app].
    pose proof (ph_file_match _ _ c1 c2 c3 c4 (list_ascii_of_string post)
                  N1 H1 N2 H2 Hd) as M.
    cbn [list_ascii_of_string app] in M. rewrite M.
    unfold group_str. cbn [group Nat.eqb].
    rewrite !string_of_list_ascii_of_string.
    reflexivity. }
  split; [exact E|]. rewrite E. clear E names.
  intros s Hs. apply in_map_iff in Hs. destruct Hs as (rep & <- & Hrep).
  assert (Sr : section_code rep).
  { pose proof repl_codes as F. rewrite Forall_forall in F. auto. }
  pose proof (section_code_run _ Sr) as Rr.
  pose proof (section_code_run _ Sd) as Rd.
  rewrite swap_sheet_name_exchanges by assumption.
  rewrite swap_sheet_name_exchanges by assumption.
  rewrite classify_family_wind_name by assumption.
  rewrite (repl_not_earth_wire rep Hrep). cbn [orb].
  change (circuit_code dcode) with (String c1 (String c2 "")).
  split; [|split].
  - destruct (member (String c1 (String c2 "")) ["59"; "39"]%string);
      split; intros H; reflexivity || discriminate.
  - reflexivity.
  - now destruct (pressures_of_wind_name rep p1 dcode p2 Rr R1 Rd R2).
Qed.

End Variants.

(** A phase wire against the earth wire, and the swapped name. *)
Lemma pressures_follow_name_order_sample :
  Wind.extract_ew_ph_pressures "59-39_W390_41-21_W650" = Some (390, 650)%Z /\
  Wind.extract_ph_ph_pressures "59-39_W390_41-21_W650" = Some (390, 650)%Z /\
  Wind.extract_ew_ph_pressures (Wind.swap_sheet_name "59-39_W390_41-21_W650")
  = Some (650, 390)%Z.
Proof.
  assert (Ra : run_of Re.is_digit_or_hyphen "59-39")
    by (split; [discriminate|repeat constructor]).
  assert (R1 : run_of Re.is_digit "390")
    by (split; [discriminate|repeat constructor]).
  assert (Rb : run_of Re.is_digit_or_hyphen "41-21")
    by (split; [discriminate|repeat constructor]).
  assert (R2 : run_of Re.is_digit "650")
    by (split; [discriminate|repeat constructor]).
  destruct (pressures_follow_name_order "59-39" "390" "41-21" "650"
                                        Ra R1 Rb R2)
    as (E1 & E2 & E3 & _).
  split; [exact E1|]. split; [exact E2|exact E3].
Defined.

Lemma wind_name_codes_sample :
  Wind.parse_digits "41-21_W650_59-39_W390" = Ok ("41", "59")%string /\
  Wind.classify_family "41-21_W650_59-39_W390" = "EW-Ph"%string.
Proof.
  assert (Sa : section_code "41-21") by (do 4 eexists; split; reflexivity).
  assert (R1 : run_of Re.is_digit "650")
    by (split; [discriminate|repeat constructor]).
  assert (Sb : section_code "59-39") by (do 4 eexists; split; reflexivity).
  assert (R2 : run_of Re.is_digit "390")
    by (split; [discriminate|repeat constructor]).
  destruct (wind_name_codes "41-21" "650" "59-39" "390" Sa R1 Sb R2)
    as (E1 & E2 & _).
  split; [exact E1|]. apply E2. right. reflexivity.
Defined.

Lemma wind_required_distance_sample :
  exists df',
    Wind.add_distance_columns
      (frame_of_columns Float64 2
         [("Station"%string, [Num 100; Num 200]%float)])
      "41-21_W650_59-39_W390" = Ok df' /\
    cell_at df' "Required distance" 1 = Some (Num 1.60) /\
    Wind.winner_ok 0 1.60 1.59 = "NO OK"%string.
Proof.
  assert (Sa : section_code "41-21") by (do 4 eexists; split; reflexivity).
  assert (R1 : run_of Re.is_digit "650")
    by (split; [discriminate|repeat constructor]).
  assert (Sb : section_code "59-39") by (do 4 eexists; split; reflexivity).
  assert (R2 : run_of Re.is_digit "390")
    by (split; [discriminate|repeat constructor]).
  destruct (wind_required_distance
              (frame_of_columns Float64 2
                 [("Station"%string, [Num 100; Num 200]%float)])
              "41-21" "650" "59-39" "390" Sa R1 Sb R2)
    as (df' & E & Hrows & _).
  exists df'. split; [exact E|].
  destruct (Hrows 1) as (_ & _ & R); [simpl; lia|].
  split; [exact R|]. vm_compute. reflexivity.
Defined.

Lemma ew_ph_variants_spec_sample :
  Wind.ew_ph_variants "EW390-Ph650"
  = [ "59-39_W390_41-21_W650"; "59-39_W390_42-22_W650";
      "59-39_W390_43-23_W650"; "59-39_W390_44-24_W650";
      "59-39_W390_45-25_W650"; "59-39_W390_46-26_W650" ]%string.
Proof.
  assert (R1 : run_of Re.is_digit "390")
    by (split; [discriminate|repeat constructor]).
  assert (R2 : run_of Re.is_digit "650")
    by (split; [discriminate|repeat constructor]).
  destruct (ew_ph_variants_spec "390" "650" R1 R2) as (E & _).
  exact E.
Defined.

Lemma ph_ph_variants_spec_sample :
  Wind.ph_ph_variants "TR1730a001_002_Left_Ph650-Ph390_42-22.xlsx"
  = [ "41-21_W650_42-22_W390"; "42-22_W650_42-22_W390";
      "43-23_W650_42-22_W390"; "44-24_W650_42-22_W390";
      "45-25_W650_42-22_W390"; "46-26_W650_42-22_W390" ]%string.
Proof.
  assert (Hp : Forall not_p (list_ascii_of_string "TR1730a001_002_Left_"))
    by (repeat constructor; discriminate).
  assert (R1 : run_of Re.is_digit "650")
    by (split; [discriminate|repeat constructor]).
  assert (R2 : run_of Re.is_digit "390")
    by (split; [discriminate|repeat constructor]).
  assert (D1 : digits 2 "42") by (split; [reflexivity|repeat constructor]).
  assert (D3 : digits 2 "22") by (split; [reflexivity|repeat constructor]).
  destruct (ph_ph_variants_spec "TR1730a001_002_Left_" "650" "390" "42" "22"
                                ".xlsx" Hp R1 R2 D1 D3) as (E & _).
  exact E.
Defined.

(** ** Sheets of the wind workbooks *)

Section Books.
Import Wind.

Lemma has_sheet_assoc (book : Book) n :
  has_sheet book n = true <-> assoc n book <> None.
Proof.
  unfold has_sheet, sheet_names.
  induction book as [|(m, r) t IH]; simpl.
  - split; [discriminate|congruence].
  - destruct (String.eqb n m); simpl; [split; [discriminate|reflexivity]|].
    exact IH.
Qed.

Lemma assoc_snoc {A : Type} n m (v : A) l :
  assoc n (l ++ [(m, v)])
  = match assoc n l with
    | Some x => Some x
    | None => if String.eqb n m then Some v else None
    end.
Proof.
  induction l as [|(k, x) t IH]; simpl; [reflexivity|].
  destruct (String.eqb n k); [reflexivity|exact IH].
Qed.

Lemma has_sheet_snoc (book : Book) m r n :
  has_sheet (book ++ [(m, r)]) n = (has_sheet book n || String.eqb n m)%bool.
Proof.
  unfold has_sheet, sheet_names. rewrite map_app, existsb_app. simpl.
  now rewrite orb_false_r.
Qed.

Lemma with_sheet_keeps book name n :
  has_sheet book n = true -> assoc n (with_sheet book name) = assoc n book.
Proof.
  intros H. unfold with_sheet.
  destruct (has_sheet book name); [reflexivity|].
  rewrite assoc_snoc. apply has_sheet_assoc in H.
  now destruct (assoc n book).
Qed.

Lemma with_sheet_has book name n :
  has_sheet book n = true -> has_sheet (with_sheet book name) n = true.
Proof.
  intros H. unfold with_sheet.
  destruct (has_sheet book name); [assumption|].
  rewrite has_sheet_snoc, H. reflexivity.
Qed.

Lemma with_sheet_there book name :
  has_sheet (with_sheet book name) name = true.
Proof.
  unfold with_sheet. destruct (has_sheet book name) eqn:E; [assumption|].
  rewrite has_sheet_snoc, String.eqb_refl. apply orb_true_r.
Qed.

Lemma with_sheets_spec names book :
  let book' := fold_left with_sheet names book in
  (forall s, In s names -> has_sheet book' s = true) /\
  (forall n, has_sheet book n = true ->
             has_sheet book' n = true /\ assoc n book' = assoc n book) /\
  (forall s, In s names -> has_sheet book s = false ->
             assoc s book' = Some [HEADER_ROW]).
Proof.
  revert book. induction names as [|s t IH]; intros book; cbn [fold_left].
  - repeat match goal with |- _ /\ _ => split end; auto;
      try (intros s []).
  - destruct (IH (with_sheet book s)) as (I1 & I2 & I3).
    repeat match goal with |- _ /\ _ => split end.
    + intros x [<-|Hx]; [|auto].
      apply I2, with_sheet_there.
    + intros n Hn.
      destruct (I2 n (with_sheet_has book s n Hn)) as (J1 & J2).
      split; [assumption|]. rewrite J2. now apply with_sheet_keeps.
    + intros x Hx Hnew.
      destruct (String.eqb x s) eqn:E.
      * apply String.eqb_eq in E. subst x.
        destruct (I2 s (with_sheet_there book s)) as (_ & J2).
        rewrite J2. unfold with_sheet. rewrite Hnew, assoc_snoc.
        apply Bool.not_true_iff_false in Hnew.
        rewrite has_sheet_assoc in Hnew.
        destruct (assoc s book); [exfalso; apply Hnew; discriminate|].
        now rewrite String.eqb_refl.
      * destruct Hx as [<-|Hx]; [now rewrite String.eqb_refl in E|].
        apply I3; [assumption|].
        unfold with_sheet. destruct (has_sheet book s); [assumption|].
        now rewrite has_sheet_snoc, Hnew, E.
Qed.

(** A title that is valid and that no sheet has in another case is
    given to the new sheet as it is. *)
Lemma set_title_valid names s :
  valid_title s -> no_case_clash names s ->
  existsb (String.eqb s) names = false ->
  set_title names s = Ok s.
Proof.
  intros (_ & V) C F. unfold set_title.
  destruct (find is_invalid_title_char (list_ascii_of_string s)) as [c|] eqn:E.
  - apply find_some in E. destruct E as (Hin & Hc).
    rewrite Forall_forall in V. rewrite (V c Hin) in Hc. discriminate.
  - unfold avoid_duplicate_name.
    destruct (existsb (fun n => String.eqb (Re.str_lower n) (Re.str_lower s)) names)
      eqn:D; [|reflexivity].
    apply existsb_exists in D. destruct D as (n & Hn & En).
    apply String.eqb_eq in En. apply C in En; [|assumption]. subst n.
    assert (T : existsb (String.eqb s) names = true).
    { apply existsb_exists. exists s. split; [assumption|apply String.eqb_refl]. }
    congruence.
Qed.

Lemma create_sheet_valid book s rows :
  valid_title s -> no_case_clash (sheet_names book) s ->
  has_sheet book s = false ->
  create_sheet book s rows = Ok (s, book ++ [(s, rows)]).
Proof.
  intros V C F. unfold create_sheet.
  destruct (String.eqb s "") eqn:E.
  - apply String.eqb_eq in E. destruct V as (V & _). contradiction.
  - rewrite set_title_valid; auto.
Qed.

Lemma ensure_sheet_valid book s :
  valid_title s -> no_case_clash (sheet_names book) s ->
  ensure_sheet book s = Ok (with_sheet book s).
Proof.
  intros V C. unfold ensure_sheet, with_sheet.
  destruct (has_sheet book s) eqn:F; [reflexivity|].
  rewrite create_sheet_valid by assumption. reflexivity.
Qed.

Lemma sheet_names_with_sheet book s n :
  In n (sheet_names (with_sheet book s)) -> In n (sheet_names book) \/ n = s.
Proof.
  unfold with_sheet. destruct (has_sheet book s); [auto|].
  unfold sheet_names. rewrite map_app, in_app_iff. simpl. intuition.
Qed.

Lemma ensure_sheets_valid names book :
  Forall valid_title names ->
  (forall s, In s names -> no_case_clash (sheet_names book ++ names) s) ->
  ensure_sheets book names = Ok (fold_left with_sheet names book).
Proof.
  revert book. induction names as [|s t IH]; intros book V C; [reflexivity|].
  cbn [ensure_sheets fold_left].
  inversion V as [|? ? Vs Vt]; subst.
  rewrite ensure_sheet_valid; [|assumption|].
  - simpl. apply IH; [assumption|].
    intros x Hx n Hn. apply (C x (or_intror Hx)).
    apply in_app_iff in Hn. apply in_app_iff.
    destruct Hn as [Hn|Hn]; [|right; now right].
    apply sheet_names_with_sheet in Hn.
    destruct Hn as [Hn| ->]; [now left|right; now left].
  - intros n Hn. apply (C s (or_introl eq_refl)).
    apply in_app_iff. now left.
Qed.

Lemma ensure_sheets_present names book :
  (forall s, In s names -> has_sheet book s = true) ->
  ensure_sheets book names = Ok book.
Proof.
  induction names as [|s t IH]; intros H; [reflexivity|].
  cbn [ensure_sheets]. unfold ensure_sheet at 1.
  rewrite (H s (or_introl eq_refl)). simpl.
  apply IH. intros x Hx. apply H. now right.
Qed.

(** X19.  The sheet names are ASCII text, the names asked for are
    titles that a sheet may have, and none of them is a title of the
    workbook or another of the names in a different case.  Then the
    loop over the names ends without an exception, after which every
    one of the names is a sheet of the workbook; the sheets that the
    workbook had are still there with their rows, a sheet that had to
    be created holds the header row only, and doing it all again
    changes nothing. *)
Theorem ensure_sheets_spec names book :
  Forall ascii_text (sheet_names book ++ names) ->
  Forall valid_title names ->
  (forall s, In s names -> no_case_clash (sheet_names book ++ names) s) ->
  exists book',
    ensure_sheets book names = Ok book' /\
    (forall s, In s names -> has_sheet book' s = true) /\
    (forall n, has_sheet book n = true ->
               has_sheet book' n = true /\ assoc n book' = assoc n book) /\
    (forall s, In s names -> has_sheet book s = false ->
               assoc s book'
               = Some [[Text "Station"; Text "Sag of ???";
                        Text "Distance Between Powerlines"]]) /\
    ensure_sheets book' names = Ok book'.
Proof.
  intros _ V C.
  destruct (with_sheets_spec names book) as (I1 & I2 & I3).
  exists (fold_left with_sheet names book).
  repeat match goal with |- _ /\ _ => split end; auto.
  - now apply ensure_sheets_valid.
  - now apply ensure_sheets_present.
Qed.

End Books.

(** The titles left out above: a title that a sheet has in another
    case is followed by a number, so that the name asked for is still
    no sheet of the workbook, and a title with a character that it may
    not have is refused. *)
Example ensure_sheet_other_case :
  Wind.ensure_sheet [("r-auto"%string, [])] "R-Auto"
  = Ok [("r-auto"%string, []); ("R-Auto1"%string, [HEADER_ROW])] /\
  Wind.ensure_sheet [("r-auto"%string, []); ("R-Auto1"%string, [HEADER_ROW])]
                    "R-Auto"
  = Ok [("r-auto"%string, []); ("R-Auto1"%string, [HEADER_ROW]);
        ("R-Auto2"%string, [HEADER_ROW])].
Proof. split; reflexivity. Qed.

Example ensure_sheet_invalid_title :
  Wind.ensure_sheet [] "41/42"
  = Raise (ValueError "Invalid character / found in sheet title").
Proof. reflexivity. Qed.

(** A workbook with one of two sheets asked for. *)
Lemma ensure_sheets_spec_sample :
  exists book',
    Wind.ensure_sheets sample_wind_book
      ["59-39_W500_41-21_W500"; "41-21_W500_42-22_W500"]%string = Ok book' /\
    Wind.sheet_names book'
    = ["41-21_W500_42-22_W500"; "Notes"; "59-39_W500_41-21_W500"]%string /\
    assoc "59-39_W500_41-21_W500" book' = Some [HEADER_ROW] /\
    assoc "41-21_W500_42-22_W500" book'
    = Some [ HEADER_ROW; [Num 10; Num 1.25; Num 3.5]%float ] /\
    Wind.ensure_sheets book'
      ["59-39_W500_41-21_W500"; "41-21_W500_42-22_W500"]%string = Ok book'.
Proof.
  destruct (ensure_sheets_spec
              ["59-39_W500_41-21_W500"; "41-21_W500_42-22_W500"]%string
              sample_wind_book)
    as (book' & E & _ & I2 & I3 & I4).
  - repeat constructor; simpl; lia.
  - repeat constructor; discriminate.
  - intros x Hx n Hn L. simpl in Hx, Hn.
    repeat match goal with H : _ \/ _ |- _ => destruct H end;
      subst; try contradiction; try reflexivity;
      vm_compute in L; discriminate.
  - exists book'.
    repeat match goal with |- _ /\ _ => split end.
    + exact E.
    + vm_compute in E. injection E as <-. reflexivity.
    + apply I3; [now left|reflexivity].
    + destruct (I2 "41-21_W500_42-22_W500"%string eq_refl) as (_ & K).
      rewrite K. reflexivity.
    + exact I4.
Defined.

Section AutoNames.
Import Wind.

Lemma string_append_inv_l a x y : (a ++ x = a ++ y)%string -> x = y.
Proof.
  induction a as [|c a IH]; simpl; [auto|]. intros [= H]. auto.
Qed.

Lemma auto_candidate_inj base i j :
  auto_candidate base i = auto_candidate base j -> i = j.
Proof.
  destruct i as [|i], j as [|j]; cbn [auto_candidate]; intros H.
  - reflexivity.
  - apply (f_equal String.length) in H.
    rewrite string_length_append in H. simpl in H. lia.
  - apply (f_equal String.length) in H.
    rewrite string_length_append in H. simpl in H. lia.
  - apply string_append_inv_l in H. simpl in H. injection H as H.
    apply (f_equal list_ascii_of_string) in H.
    rewrite !list_of_append in H. apply app_inv_tail in H.
    apply list_of_string_inj in H.
    apply str_inj in H; lia.
Qed.

Lemma nodup_map {A B : Type} (f : A -> B) l :
  (forall x y, f x = f y -> x = y) -> NoDup l -> NoDup (map f l).
Proof.
  intros Hf. induction 1 as [|x l Hx _ IH]; simpl; constructor; [|assumption].
  intros Hin. apply in_map_iff in Hin. destruct Hin as (y & E & Hy).
  apply Hf in E. now subst.
Qed.

Lemma candidates_bounded base (names : list string) k :
  (forall i, i < k -> In (auto_candidate base i) names) ->
  k <= List.length names.
Proof.
  intros H.
  assert (N : NoDup (map (auto_candidate base) (seq 0 k))).
  { apply nodup_map; [|apply seq_NoDup].
    intros i j. apply auto_candidate_inj. }
  apply NoDup_incl_length with (l' := names) in N.
  - now rewrite length_map, length_seq in N.
  - intros x Hx. apply in_map_iff in Hx. destruct Hx as (i & <- & Hi).
    apply in_seq in Hi. apply H. lia.
Qed.

Lemma auto_name_spec names base fuel k :
  (forall i, i < k -> In (auto_candidate base i) names) ->
  List.length names <= k + fuel ->
  exists j,
    auto_name fuel names base (auto_candidate base k) (Z.of_nat k + 1)
    = Some (auto_candidate base j) /\
    k <= j /\
    existsb (String.eqb (auto_candidate base j)) names = false /\
    forall i, i < j -> In (auto_candidate base i) names.
Proof.
  revert k. induction fuel as [|f IH]; intros k Hk Hf.
  - cbn [auto_name].
    destruct (existsb (String.eqb (auto_candidate base k)) names) eqn:E.
    + exfalso.
      assert (B : S k <= List.length names).
      { apply (candidates_bounded base). intros i Hi.
        destruct (Nat.eq_dec i k) as [->|Hne]; [|apply Hk; lia].
        apply existsb_exists in E. destruct E as (x & Hx & Ex).
        apply String.eqb_eq in Ex. now subst. }
      lia.
    + exists k. auto.
  - cbn [auto_name].
    destruct (existsb (String.eqb (auto_candidate base k)) names) eqn:E.
    + assert (Hk' : forall i, i < S k -> In (auto_candidate base i) names).
      { intros i Hi.
        destruct (Nat.eq_dec i k) as [->|Hne]; [|apply Hk; lia].
        apply existsb_exists in E. destruct E as (x & Hx & Ex).
        apply String.eqb_eq in Ex. now subst. }
      destruct (IH (S k) Hk') as (j & Hj & Hle & Hfree & Hall); [lia|].
      exists j.
      replace (Z.of_nat k + 1)%Z with (Z.of_nat (S k)) by lia.
      change (base ++ "(" ++ str (Z.of_nat (S k)) ++ ")")%string
        with (auto_candidate base (S k)).
      rewrite Hj. repeat split; auto. lia.
    + exists k. auto.
Qed.

Lemma digit_valid c : Re.is_digit c = true -> is_invalid_title_char c = false.
Proof.
  destruct c as [[] [] [] [] [] [] [] []]; try reflexivity; discriminate.
Qed.

Lemma valid_chars_app (a b : string) :
  Forall (fun c => is_invalid_title_char c = false) (list_ascii_of_string a) ->
  Forall (fun c => is_invalid_title_char c = false) (list_ascii_of_string b) ->
  Forall (fun c => is_invalid_title_char c = false)
         (list_ascii_of_string (a ++ b)).
Proof. intros A B. rewrite list_of_append. apply Forall_app. auto. Qed.

Lemma auto_candidate_valid sheet_name k :
  Forall (fun c => is_invalid_title_char c = false)
         (list_ascii_of_string sheet_name) ->
  valid_title (auto_candidate (sheet_name ++ "-Auto") k).
Proof.
  intros V.
  assert (B : Forall (fun c => is_invalid_title_char c = false)
                     (list_ascii_of_string (sheet_name ++ "-Auto")))
    by (apply valid_chars_app; [assumption|repeat constructor]).
  destruct k as [|k]; cbn [auto_candidate]; split.
  - intros E. apply (f_equal String.length) in E.
    rewrite string_length_append in E. simpl in E. lia.
  - exact B.
  - intros E. apply (f_equal String.length) in E.
    rewrite !string_length_append in E. simpl in E. lia.
  - apply valid_chars_app; [exact B|].
    apply valid_chars_app; [repeat constructor|].
    apply valid_chars_app; [|repeat constructor].
    destruct (str_digits (Z.of_nat (S k))) as ((_ & D) & _); [lia|].
    eapply Forall_impl; [|exact D]. apply digit_valid.
Qed.

(** X20.  The sheet names are ASCII text, the name asked for has none
    of the characters that a title may not have, and no sheet of the
    workbook has one of [<sheet>-Auto], [<sheet>-Auto(1)], ... in
    another case.  Then [append_rows] finds a sheet name and ends
    without an exception: the loop that looks for a free name ends
    within as many steps as the workbook has sheets.  The name is the
    first of [<sheet>-Auto], [<sheet>-Auto(1)], [<sheet>-Auto(2)], ...
    that no sheet of the workbook has; the new sheet holds the headers
    and then the rows, and the sheets that were there keep their
    rows. *)
Theorem append_rows_spec fs book_path sheet_name rows headers :
  let wb := book_at fs book_path in
  let base := (sheet_name ++ "-Auto")%string in
  Forall ascii_text (sheet_name :: sheet_names wb) ->
  Forall (fun c => is_invalid_title_char c = false)
         (list_ascii_of_string sheet_name) ->
  (forall k, no_case_clash (sheet_names wb) (auto_candidate base k)) ->
  exists j,
    append_rows fs book_path sheet_name rows headers
    = Some (Ok (assoc_set book_path
                  (wb ++ [(auto_candidate base j, headers :: rows)]) fs)) /\
    j <= List.length wb /\
    has_sheet wb (auto_candidate base j) = false /\
    (forall i, i < j -> has_sheet wb (auto_candidate base i) = true) /\
    (forall n, has_sheet wb n = true ->
       assoc n (wb ++ [(auto_candidate base j, headers :: rows)])
       = assoc n wb) /\
    assoc (auto_candidate base j)
          (wb ++ [(auto_candidate base j, headers :: rows)])
    = Some (headers :: rows).
Proof.
  intros wb base _ V C.
  destruct (auto_name_spec (sheet_names wb) base (List.length (sheet_names wb)) 0)
    as (j & Hj & _ & Hfree & Hall); [intros i Hi; lia|lia|].
  exists j.
  assert (Hlen : j <= List.length wb).
  { pose proof (candidates_bounded base (sheet_names wb) j Hall) as B.
    unfold sheet_names in B. now rewrite length_map in B. }
  repeat match goal with |- _ /\ _ => split end.
  - unfold append_rows. fold wb. fold (book_at fs book_path). fold wb.
    fold base. cbn [auto_candidate Z.of_nat Z.add] in Hj.
    rewrite Hj.
    rewrite create_sheet_valid;
      [reflexivity|now apply auto_candidate_valid|apply C|exact Hfree].
  - exact Hlen.
  - exact Hfree.
  - intros i Hi. unfold has_sheet. apply existsb_exists.
    exists (auto_candidate base i). split; [auto|apply String.eqb_refl].
  - intros n Hn. rewrite assoc_snoc. apply has_sheet_assoc in Hn.
    now destruct (assoc n wb).
  - rewrite assoc_snoc.
    assert (Hn : assoc (auto_candidate base j) wb = None).
    { destruct (assoc (auto_candidate base j) wb) eqn:A; [|reflexivity].
      assert (H : has_sheet wb (auto_candidate base j) = true)
        by (apply has_sheet_assoc; congruence).
      unfold has_sheet in H. congruence. }
    now rewrite Hn, String.eqb_refl.
Qed.

End AutoNames.

(** The results workbook after a first run: the rows go to a sheet
    with the next free name. *)
Lemma append_rows_spec_sample :
  Wind.append_rows sample_wind_results "Wind_results.xlsx"
    "Result_Dist_EW-Ph(Wind)"
    [ [Num 10; Text "OK"]%float ] [ Text "Station"; Text "OK / NO OK" ]
  = Some (Ok [ ("Wind_results.xlsx"%string,
                [ ("Result_Dist_EW-Ph(Wind)-Auto"%string, [ [Text "Station"] ]);
                  ("Summary"%string, []);
                  ("Result_Dist_EW-Ph(Wind)-Auto(1)"%string,
                   [ [ Text "Station"; Text "OK / NO OK" ];
                     [Num 10; Text "OK"]%float ]) ]) ]).
Proof.
  destruct (append_rows_spec sample_wind_results "Wind_results.xlsx"
              "Result_Dist_EW-Ph(Wind)" [ [Num 10; Text "OK"]%float ]
              [ Text "Station"; Text "OK / NO OK" ])
    as (j & E & _ & Hfree & Hall & _).
  - repeat constructor; simpl; lia.
  - repeat constructor.
  - intros k n Hn L. simpl in Hn.
    destruct Hn as [<-|[<-|[]]]; destruct k as [|k];
      try reflexivity; unfold Re.str_lower in L; cbn in L; discriminate.
  - destruct j as [|[|j]].
    + discriminate Hfree.
    + rewrite E. reflexivity.
    + specialize (Hall 1 ltac:(lia)). discriminate Hall.
Defined.

(** ** The mesh of IFC_to_OBJ.py *)

Section Meshes.
Import IfcToObj.

Lemma whole_vertices vs :
  List.length vs mod 3 = 0 -> List.length vs = 3 * vertex_count vs.
Proof.
  intros H. unfold vertex_count.
  pose proof (Nat.div_mod_eq (List.length vs) 3). lia.
Qed.

Lemma vertex_count_app vs ws :
  List.length vs mod 3 = 0 ->
  vertex_count (vs ++ ws) = vertex_count vs + vertex_count ws.
Proof.
  intros H. unfold vertex_count. rewrite length_app.
  rewrite (whole_vertices vs H) at 1. unfold vertex_count.
  rewrite Nat.mul_comm, Nat.div_add_l by lia. reflexivity.
Qed.

Lemma vertex_at_old vs ws i :
  i < vertex_count vs -> vertex_at (vs ++ ws) i = vertex_at vs i.
Proof.
  intros H. unfold vertex_at, vertex_count in *.
  assert (L : 3 * i + 2 < List.length vs).
  { pose proof (Nat.div_mod_eq (List.length vs) 3).
    pose proof (Nat.mod_upper_bound (List.length vs) 3). lia. }
  rewrite !nth_error_app1 by lia. reflexivity.
Qed.

Lemma vertex_at_new vs ws i :
  List.length vs mod 3 = 0 ->
  vertex_at (vs ++ ws) (vertex_count vs + i) = vertex_at ws i.
Proof.
  intros H. unfold vertex_at.
  pose proof (whole_vertices vs H) as L.
  rewrite !nth_error_app2 by lia.
  replace (3 * (vertex_count vs + i) - List.length vs) with (3 * i) by lia.
  replace (3 * (vertex_count vs + i) + 1 - List.length vs) with (3 * i + 1) by lia.
  replace (3 * (vertex_count vs + i) + 2 - List.length vs) with (3 * i + 2) by lia.
  reflexivity.
Qed.

(** X21.  [append_shape] keeps the mesh consistent: if the faces
    collected so far and the faces of the new shape name vertices that
    exist, so do all faces afterwards; the faces collected before are
    unchanged and still name the same vertices, and a face index [i] of
    the new shape is stored as an index that names vertex [i] of the
    new shape. *)
Theorem append_shape_keeps_faces mesh verts faces :
  faces_within (verts_all mesh) (faces_all mesh) ->
  faces_within verts faces ->
  let mesh' := append_shape mesh verts faces in
  faces_within (verts_all mesh') (faces_all mesh') /\
  vertex_count (verts_all mesh')
  = vertex_count (verts_all mesh) + vertex_count verts /\
  (forall j i, nth_error (faces_all mesh) j = Some i ->
     nth_error (faces_all mesh') j = Some i /\
     vertex_at (verts_all mesh') (Z.to_nat i)
     = vertex_at (verts_all mesh) (Z.to_nat i)) /\
  (forall j i, nth_error faces j = Some i ->
     exists i',
       nth_error (faces_all mesh') (List.length (faces_all mesh) + j)
       = Some i' /\
       vertex_at (verts_all mesh') (Z.to_nat i') = vertex_at verts (Z.to_nat i)).
Proof.
  intros (Hm & Fm) (Hv & Fv) mesh'. unfold mesh', append_shape.
  cbn [verts_all faces_all]. fold (vertex_count (verts_all mesh)).
  pose proof (vertex_count_app (verts_all mesh) verts Hm) as C.
  split; [|split; [|split]].
  - split.
    + rewrite length_app.
      rewrite (whole_vertices _ Hm), (whole_vertices _ Hv).
      replace (3 * vertex_count (verts_all mesh) + 3 * vertex_count verts)
        with ((vertex_count (verts_all mesh) + vertex_count verts) * 3) by lia.
      apply Nat.Div0.mod_mul.
    + rewrite C. apply Forall_app. split.
      * eapply Forall_impl; [|exact Fm]. cbv beta. intros i Hi. lia.
      * apply Forall_map. eapply Forall_impl; [|exact Fv]. cbv beta.
        intros i Hi. lia.
  - exact C.
  - intros j i Hj. split.
    + rewrite nth_error_app1; [assumption|].
      apply nth_error_Some. congruence.
    + apply vertex_at_old.
      rewrite Forall_forall in Fm.
      specialize (Fm i (nth_error_In _ _ Hj)). lia.
  - intros j i Hj.
    exists (i + Z.of_nat (vertex_count (verts_all mesh)))%Z. split.
    + rewrite nth_error_app2 by lia.
      replace (List.length (faces_all mesh) + j - List.length (faces_all mesh))
        with j by lia.
      rewrite nth_error_map, Hj. reflexivity.
    + rewrite Forall_forall in Fv.
      specialize (Fv i (nth_error_In _ _ Hj)).
      replace (Z.to_nat (i + Z.of_nat (vertex_count (verts_all mesh))))
        with (vertex_count (verts_all mesh) + Z.to_nat i) by lia.
      now apply vertex_at_new.
Qed.

Lemma triples_length {A : Type} fuel (l : list A) :
  List.length l <= 3 * fuel ->
  List.length (triples fuel l) = List.length l / 3.
Proof.
  revert l. induction fuel as [|f IH]; intros l H.
  - destruct l; [reflexivity|simpl in H; lia].
  - destruct l as [|a [|b [|c t]]]; try reflexivity.
    cbn [triples List.length]. rewrite IH by (simpl in H; lia).
    change (S (S (S (List.length t)))) with (3 + List.length t).
    replace (3 + List.length t) with (List.length t + 1 * 3) by lia.
    rewrite Nat.div_add by lia. lia.
Qed.

Lemma triples_in {A : Type} fuel (l : list A) x y z :
  In (x, y, z) (triples fuel l) -> In x l /\ In y l /\ In z l.
Proof.
  revert l. induction fuel as [|f IH]; intros l H; [destruct l; destruct H|].
  destruct l as [|a [|b [|c t]]]; try destruct H.
  - injection H as -> -> ->. simpl. intuition.
  - apply IH in H. simpl. tauto.
Qed.

Lemma filter_vertex_lines (vs : list (float * float * float))
      (fs : list (Z * Z * Z)) :
  filter is_vertex_line
    (map (fun t => match t with (x, y, z) => V x y z end) vs
     ++ map (fun t => match t with (a, b, c) => F (a + 1) (b + 1) (c + 1) end) fs)
  = map (fun t => match t with (x, y, z) => V x y z end) vs.
Proof.
  rewrite filter_app.
  assert (H1 : filter is_vertex_line
                 (map (fun t => match t with (x, y, z) => V x y z end) vs)
               = map (fun t => match t with (x, y, z) => V x y z end) vs).
  { induction vs as [|((x & y) & z) t IH]; simpl; [reflexivity|].
    now rewrite IH. }
  assert (H2 : filter is_vertex_line
                 (map (fun t => match t with (a, b, c) =>
                                  F (a + 1) (b + 1) (c + 1) end) fs) = []).
  { induction fs as [|((x & y) & z) t IH]; simpl; [reflexivity|exact IH]. }
  rewrite H1, H2. apply app_nil_r.
Qed.

(** X22.  In the OBJ file of a consistent mesh there is one [v] line
    for each vertex and one [f] line for each three face indices, and
    every index on an [f] line is between 1 and the number of [v]
    lines. *)
Theorem obj_faces_within mesh :
  faces_within (verts_all mesh) (faces_all mesh) ->
  let lines := obj_lines mesh in
  let vertices := List.length (filter is_vertex_line lines) in
  vertices = vertex_count (verts_all mesh) /\
  List.length lines
  = vertex_count (verts_all mesh) + List.length (faces_all mesh) / 3 /\
  forall a b c, In (F a b c) lines ->
    (1 <= a <= Z.of_nat vertices)%Z /\ (1 <= b <= Z.of_nat vertices)%Z /\
    (1 <= c <= Z.of_nat vertices)%Z.
Proof.
  intros (Hm & Fm) lines vertices.
  assert (Hv : vertices = vertex_count (verts_all mesh)).
  { unfold vertices, lines, obj_lines. rewrite filter_vertex_lines.
    rewrite length_map, triples_length by lia. reflexivity. }
  split; [exact Hv|]. split.
  - unfold lines, obj_lines. rewrite length_app, !length_map.
    rewrite !triples_length by lia. reflexivity.
  - intros a b c Hin. rewrite Hv. unfold lines, obj_lines in Hin.
    apply in_app_or in Hin. destruct Hin as [Hin|Hin];
      apply in_map_iff in Hin; destruct Hin as (((x & y) & z) & E & Hin);
      [discriminate|].
    injection E as <- <- <-. apply triples_in in Hin.
    rewrite Forall_forall in Fm. destruct Hin as (Hx & Hy & Hz).
    pose proof (Fm x Hx). pose proof (Fm y Hy). pose proof (Fm z Hz). lia.
Qed.

End Meshes.

(** Two triangles, the second one appended to the first. *)
Lemma append_shape_keeps_faces_sample :
  exists i',
    nth_error
      (IfcToObj.faces_all
         (IfcToObj.append_shape
            {| IfcToObj.verts_all := [0; 0; 0; 1; 0; 0; 0; 1; 0]%float;
               IfcToObj.faces_all := [0; 1; 2]%Z |}
            [0; 0; 1; 1; 0; 1; 0; 1; 1]%float [0; 1; 2]%Z)) 4
    = Some i' /\
    vertex_at
      (IfcToObj.verts_all
         (IfcToObj.append_shape
            {| IfcToObj.verts_all := [0; 0; 0; 1; 0; 0; 0; 1; 0]%float;
               IfcToObj.faces_all := [0; 1; 2]%Z |}
            [0; 0; 1; 1; 0; 1; 0; 1; 1]%float [0; 1; 2]%Z)) (Z.to_nat i')
    = Some (1, 0, 1)%float.
Proof.
  assert (H1 : faces_within [0; 0; 0; 1; 0; 0; 0; 1; 0]%float [0; 1; 2]%Z)
    by (split; [reflexivity|repeat (constructor; [cbn; lia|]); constructor]).
  assert (H2 : faces_within [0; 0; 1; 1; 0; 1; 0; 1; 1]%float [0; 1; 2]%Z)
    by (split; [reflexivity|repeat (constructor; [cbn; lia|]); constructor]).
  destruct (append_shape_keeps_faces
              {| IfcToObj.verts_all := [0; 0; 0; 1; 0; 0; 0; 1; 0]%float;
                 IfcToObj.faces_all := [0; 1; 2]%Z |}
              [0; 0; 1; 1; 0; 1; 0; 1; 1]%float [0; 1; 2]%Z H1 H2)
    as (_ & _ & _ & Hnew).
  destruct (Hnew 1 1%Z eq_refl) as (i' & E1 & E2).
  exists i'. split; [exact E1|exact E2].
Defined.

Lemma obj_faces_within_sample :
  List.length
    (IfcToObj.obj_lines
       {| IfcToObj.verts_all := [0; 0; 0; 1; 0; 0; 0; 1; 0]%float;
          IfcToObj.faces_all := [0; 1; 2]%Z |}) = 4 /\
  forall a b c,
    In (IfcToObj.F a b c)
       (IfcToObj.obj_lines
          {| IfcToObj.verts_all := [0; 0; 0; 1; 0; 0; 0; 1; 0]%float;
             IfcToObj.faces_all := [0; 1; 2]%Z |}) ->
    (1 <= a <= 3)%Z.
Proof.
  assert (H1 : faces_within [0; 0; 0; 1; 0; 0; 0; 1; 0]%float [0; 1; 2]%Z)
    by (split; [reflexivity|repeat (constructor; [cbn; lia|]); constructor]).
  destruct (obj_faces_within
              {| IfcToObj.verts_all := [0; 0; 0; 1; 0; 0; 0; 1; 0]%float;
                 IfcToObj.faces_all := [0; 1; 2]%Z |} H1)
    as (_ & L & Hf).
  split; [exact L|].
  intros a b c Hin. destruct (Hf a b c Hin) as (Ha & _). exact Ha.
Defined.

(** ** What the loops make of the sheets *)

Section SheetContents.
Import CalculationsCopy.
Variable numeric_of_text : string -> float.
Variable Sheet : Type.
Variable frame_of_sheet : Sheet -> result DataFrame.
Variable sheet_of_frame : Sheet -> DataFrame -> Sheet.
Variable set_cell : Sheet -> nat -> nat -> value -> Sheet.

Abbreviation one_sheet' :=
  (sheet_step numeric_of_text Sheet frame_of_sheet sheet_of_frame set_cell).
Abbreviation all_sheets' :=
  (sheet_loop numeric_of_text Sheet frame_of_sheet sheet_of_frame set_cell).

Lemma sheet_step_sheets start_span end_span st name st' :
  one_sheet' start_span end_span st name = inl st' ->
  assoc name (wb Sheet st') = sheet_outcome numeric_of_text frame_of_sheet sheet_of_frame
       (wb Sheet st) name /\
  forall n, String.eqb n name = false ->
            assoc n (wb Sheet st') = assoc n (wb Sheet st).
Proof.
  unfold sheet_step, sheet_outcome.
  destruct (Names._parse_sheet_name name) as [[[[d1 d2] d3] d4]|e].
  2:{ intros H. apply inl_eq in H. subst st'. auto. }
  destruct (assoc name (wb Sheet st)) as [ws|] eqn:Hws; [|discriminate].
  destruct (frame_of_sheet ws) as [df|e]; [|discriminate].
  destruct (process_sheet numeric_of_text df d1 d2 d3 d4) as [[df' summ]|exc].
  2:{ intros H. apply inl_eq in H. subst st'. cbn [wb]. auto. }
  match goal with
  | |- context [assoc ?t (next_row Sheet st)] =>
      destruct (assoc t (next_row Sheet st)) as [r|]; [|discriminate]
  end.
  intros H. apply inl_eq in H. subst st'. cbn [wb].
  split; [apply assoc_set_same|].
  intros n Hn. now apply assoc_set_other.
Qed.

(** X23.  When the loop of calculations-copy.py over the sheets of a
    workbook ends without an exception, a sheet with a name of the
    shape d1-d2_d3-d4 for which [process_sheet] returned holds the
    processed frame; every other sheet is as it was: those with other
    names, and those that were skipped because [process_sheet] raised. *)
Theorem sheet_loop_sheets start_span end_span names st st' :
  NoDup names ->
  all_sheets' start_span end_span st names = inl st' ->
  (forall name, In name names ->
     assoc name (wb Sheet st') = sheet_outcome numeric_of_text frame_of_sheet sheet_of_frame
       (wb Sheet st) name) /\
  (forall name, ~ In name names ->
     assoc name (wb Sheet st') = assoc name (wb Sheet st)).
Proof.
  intros N. revert st. induction N as [|n t Hn _ IH]; intros st; simpl.
  - intros H. apply inl_eq in H. subst st'. split; [intros ? []|auto].
  - destruct (one_sheet' start_span end_span st n) as [st1|e] eqn:E;
      [|discriminate].
    intros H. destruct (IH st1 H) as (I1 & I2).
    destruct (sheet_step_sheets _ _ _ _ _ E) as (S1 & S2).
    assert (Out : forall name, String.eqb name n = false ->
                    sheet_outcome numeric_of_text frame_of_sheet sheet_of_frame
                      (wb Sheet st1) name
                    = sheet_outcome numeric_of_text frame_of_sheet sheet_of_frame
       (wb Sheet st) name).
    { intros name Hne. unfold sheet_outcome. now rewrite S2. }
    split.
    + intros name [<-|Hin].
      * rewrite I2 by assumption. exact S1.
      * rewrite I1 by assumption. apply Out.
        apply String.eqb_neq. intros ->. contradiction.
    + intros name Hnot. rewrite I2 by tauto. apply S2.
      apply String.eqb_neq. intros ->. apply Hnot. now left.
Qed.

End SheetContents.

Section CalculationsWorkbooks.
Import CalculationsWorkbook.
Variable Sheet : Type.
Variable frame_of_sheet : Sheet -> result DataFrame.
Variable sheet_of_frame : Sheet -> DataFrame -> Sheet.

Abbreviation calc_step := (sheet_step Sheet frame_of_sheet sheet_of_frame).
Abbreviation calc_loop := (sheet_loop Sheet frame_of_sheet sheet_of_frame).
Abbreviation calc_workbook :=
  (process_workbook Sheet frame_of_sheet sheet_of_frame).
Abbreviation calc_main_step :=
  (main_step Sheet frame_of_sheet sheet_of_frame).
Abbreviation calc_main := (CalculationsWorkbook.main Sheet frame_of_sheet sheet_of_frame).
Abbreviation processed := (sheet_processed frame_of_sheet sheet_of_frame).

Lemma calc_step_sheets st name st' :
  calc_step st name = inl st' ->
  processed (fst st) (fst st') name /\
  map fst (fst st') = map fst (fst st) /\
  forall n, String.eqb n name = false ->
            assoc n (fst st') = assoc n (fst st).
Proof.
  unfold sheet_step, sheet_processed.
  destruct (Names._parse_sheet_name name) as [[[[d1 d2] d3] d4]|e].
  2:{ intros H. apply inl_eq in H. subst st'. auto. }
  destruct (assoc name (fst st)) as [ws|] eqn:Hws; [|discriminate].
  destruct (frame_of_sheet ws) as [df|e] eqn:Hdf; [|discriminate].
  destruct (Calculations.process_sheet df d1 d2 d3 d4) as [df'|exc] eqn:Hp;
    [|discriminate].
  intros H. apply inl_eq in H. subst st'. cbn [fst snd].
  split; [|split].
  - exists ws, df, df'. rewrite assoc_set_same. auto.
  - eapply map_fst_assoc_set; eauto.
  - intros n Hn. now apply assoc_set_other.
Qed.

Lemma processed_ext (src src' out : Workbook Sheet) name :
  assoc name src' = assoc name src ->
  processed src' out name -> processed src out name.
Proof.
  unfold sheet_processed. intros E.
  destruct (Names._parse_sheet_name name) as [[[[d1 d2] d3] d4]|e];
    now rewrite E.
Qed.

Lemma processed_later (src out out' : Workbook Sheet) name :
  assoc name out' = assoc name out ->
  processed src out name -> processed src out' name.
Proof.
  unfold sheet_processed. intros E.
  destruct (Names._parse_sheet_name name) as [[[[d1 d2] d3] d4]|e];
    now rewrite E.
Qed.

Lemma calc_loop_sheets names st st' :
  NoDup names ->
  calc_loop st names = inl st' ->
  (forall name, In name names -> processed (fst st) (fst st') name) /\
  (forall name, ~ In name names -> assoc name (fst st') = assoc name (fst st)) /\
  map fst (fst st') = map fst (fst st).
Proof.
  intros N. revert st. induction N as [|n t Hn _ IH]; intros st; simpl.
  - intros H. apply inl_eq in H. subst st'.
    split; [intros ? []|]. auto.
  - destruct (calc_step st n) as [st1|e] eqn:E; [|discriminate].
    intros H. destruct (IH st1 H) as (I1 & I2 & I3).
    destruct (calc_step_sheets _ _ _ E) as (S1 & S2 & S3).
    split; [|split].
    + intros name [<-|Hin].
      * eapply processed_later; [|exact S1]. now apply I2.
      * eapply processed_ext; [|apply I1; assumption].
        apply S3. apply String.eqb_neq. intros ->. contradiction.
    + intros name Hnot. rewrite I2 by tauto. apply S3.
      apply String.eqb_neq. intros ->. apply Hnot. now left.
    + congruence.
Qed.

Lemma calc_loop_names names st st' :
  calc_loop st names = inl st' -> map fst (fst st') = map fst (fst st).
Proof.
  revert st. induction names as [|n t IH]; intros st; simpl.
  - intros H. apply inl_eq in H. now subst.
  - destruct (calc_step st n) as [st1|e] eqn:E; [|discriminate].
    intros H. rewrite (IH st1 H).
    now destruct (calc_step_sheets _ _ _ E) as (_ & S2 & _).
Qed.

Lemma assoc_in {A : Type} n (x : A) l : assoc n l = Some x -> In n (map fst l).
Proof.
  induction l as [|(m, y) t IH]; simpl; [discriminate|].
  destruct (String.eqb n m) eqn:E; [|auto].
  apply String.eqb_eq in E. auto.
Qed.

(** X24.  In calculations.py a workbook is processed as a whole or not
    at all.  When [process_workbook] returns, only the processed copy
    has been written; it has the sheets of the source, every sheet
    with a name of the shape d1-d2_d3-d4 holds the frame that
    [process_sheet] returned for it, and the other sheets are as they
    were.  When [process_sheet] raises for one such sheet,
    [process_workbook] raises, no file is written, and [main] prints
    the error and goes on.  That is what happens to every workbook
    with a sheet between two real circuits that has a row, since the
    frame built from a worksheet has object columns. *)
Theorem calc_workbook_all_or_nothing fs xl_path :
  (forall l fs',
      calc_workbook fs xl_path = (l, Ok fs') ->
      exists src out,
        assoc xl_path fs = Some src /\
        fs' = assoc_set (processed_path xl_path) out fs /\
        map fst out = map fst src /\
        (NoDup (map fst src) ->
         forall name, In name (map fst src) -> processed src out name)) /\
  (forall src name ws d1 d2 d3 d4 df e out,
      assoc xl_path fs = Some src -> NoDup (map fst src) ->
      assoc name src = Some ws ->
      Names._parse_sheet_name name = Ok (d1, d2, d3, d4) ->
      frame_of_sheet ws = Ok df ->
      Calculations.process_sheet df d1 d2 d3 d4 = Raise e ->
      exists l e',
        calc_workbook fs xl_path = (l, Raise e') /\
        calc_main_step (out, fs) xl_path
        = (out ++ l ++ [Error xl_path e'], fs)) /\
  (forall src name ws d1 d2 d3 d4 df out,
      assoc xl_path fs = Some src -> NoDup (map fst src) ->
      assoc name src = Some ws ->
      Names._parse_sheet_name name = Ok (d1, d2, d3, d4) ->
      frame_of_sheet ws = Ok df ->
      wf df -> object_frame df -> 0 < nrows df ->
      Calculations._which_circuit d1 <> Calculations.EARTH_WIRE ->
      Calculations._which_circuit d3 <> Calculations.EARTH_WIRE ->
      exists l e',
        calc_workbook fs xl_path = (l, Raise e') /\
        calc_main_step (out, fs) xl_path
        = (out ++ l ++ [Error xl_path e'], fs)).
Proof.
  assert (P1 : forall l fs',
             calc_workbook fs xl_path = (l, Ok fs') ->
             exists src out,
               assoc xl_path fs = Some src /\
               fs' = assoc_set (processed_path xl_path) out fs /\
               map fst out = map fst src /\
               (NoDup (map fst src) ->
                forall name, In name (map fst src) -> processed src out name)).
  { intros l fs'. unfold process_workbook.
    destruct (Names._load_metadata xl_path) as [[start_span end_suffix]|e];
      [|discriminate].
    destruct (assoc xl_path fs) as [src|]; [|discriminate].
    destruct (calc_loop (src, [Processing (Names.basename xl_path)
                                          start_span end_suffix])
                        (map fst src)) as [[out l1]|[l1 e]] eqn:L;
      [|discriminate].
    intros H. apply pair_equal_spec in H. destruct H as (_ & H).
    exists src, out. split; [reflexivity|].
    split; [unfold processed_path; congruence|].
    split.
    - exact (calc_loop_names _ _ _ L).
    - intros N. destruct (calc_loop_sheets _ _ _ N L) as (I1 & _). exact I1. }
  assert (P2 : forall src name ws d1 d2 d3 d4 df e out,
             assoc xl_path fs = Some src -> NoDup (map fst src) ->
             assoc name src = Some ws ->
             Names._parse_sheet_name name = Ok (d1, d2, d3, d4) ->
             frame_of_sheet ws = Ok df ->
             Calculations.process_sheet df d1 d2 d3 d4 = Raise e ->
             exists l e',
               calc_workbook fs xl_path = (l, Raise e') /\
               calc_main_step (out, fs) xl_path
               = (out ++ l ++ [Error xl_path e'], fs)).
  { intros src name ws d1 d2 d3 d4 df e out Hsrc N Hws Hname Hdf Hraise.
    destruct (calc_workbook fs xl_path) as [l [fs'|e']] eqn:W.
    - exfalso.
      destruct (P1 l fs' eq_refl) as (src' & out' & Hsrc' & _ & _ & Hall).
      assert (src' = src) by congruence. subst src'.
      specialize (Hall N name (assoc_in _ _ _ Hws)).
      unfold sheet_processed in Hall. rewrite Hname in Hall.
      destruct Hall as (ws' & df0 & df' & A1 & A2 & A3 & _).
      assert (ws' = ws) by congruence. subst ws'.
      assert (df0 = df) by congruence. subst df0.
      congruence.
    - exists l, e'. split; [reflexivity|].
      unfold main_step. cbn [fst snd]. now rewrite W. }
  split; [exact P1|]. split; [exact P2|].
  intros src name ws d1 d2 d3 d4 df out Hsrc N Hws Hname Hdf Wdf O Hn R1 R3.
  destruct (object_columns_raise df d1 d2 d3 d4 Wdf O Hn R1 R3) as (e & He).
  eapply P2; eauto.
Qed.

End CalculationsWorkbooks.

(** calculations.py on the sample folder.  The first workbook has the
    sheet 41-42_43-44 between two real circuits: [process_workbook]
    raises [TypeError] and nothing is written.  The second has the
    earth-wire sheet only: its processed copy is written, with the
    sheet processed.  [main] prints the error of the first and the
    line of the second. *)
Lemma calc_workbook_all_or_nothing_sample :
  (exists l,
     sample_calc_workbook sample_fs "Cond_10C_TR1730a001_002.xlsx"
     = (l, Raise TypeError)) /\
  (exists l fs' df',
     sample_calc_workbook sample_fs "Cond_10C_TR1730a002_003.xlsx"
     = (l, Ok fs') /\
     Calculations.process_sheet sample_ew_sheet 41 42 59 39 = Ok df' /\
     fs' = assoc_set "Cond_10C_TR1730a002_003_processed.xlsx"
                     [("41-42_59-39"%string, df')] sample_fs) /\
  (exists fs',
     sample_calc_main sample_files sample_fs
     = ([ CalculationsWorkbook.Processing "Cond_10C_TR1730a001_002.xlsx"
            "TR1730a001" "002";
          CalculationsWorkbook.SheetLine "41-42_43-44";
          CalculationsWorkbook.Error "Cond_10C_TR1730a001_002.xlsx" TypeError;
          CalculationsWorkbook.Processing "Cond_10C_TR1730a002_003.xlsx"
            "TR1730a002" "003";
          CalculationsWorkbook.SheetLine "41-42_59-39";
          CalculationsWorkbook.Written "Cond_10C_TR1730a002_003_processed.xlsx" ],
        fs') /\
     assoc "Cond_10C_TR1730a001_002_processed.xlsx" fs' = None).
Proof.
  pose proof (calc_workbook_all_or_nothing DataFrame (fun ws => Ok ws)
                (fun _ df => df) sample_fs "Cond_10C_TR1730a001_002.xlsx")
    as (_ & _ & T1).
  pose proof (calc_workbook_all_or_nothing DataFrame (fun ws => Ok ws)
                (fun _ df => df) sample_fs "Cond_10C_TR1730a002_003.xlsx")
    as (T2 & _ & _).
  split; [|split].
  - destruct (T1 [("41-42_43-44"%string, sample_sheet)] "41-42_43-44"%string
                 sample_sheet 41%Z 42%Z 43%Z 44%Z sample_sheet [])
      as (l & e' & H & _);
      try reflexivity;
      try (repeat constructor; simpl; tauto);
      try (simpl; lia);
      try (vm_compute; discriminate).
    exists l. unfold sample_calc_workbook. rewrite H.
    vm_compute in H. inversion H. reflexivity.
  - destruct (sample_calc_workbook sample_fs "Cond_10C_TR1730a002_003.xlsx")
      as [l [fs'|e]] eqn:E; [|vm_compute in E; discriminate].
    destruct (T2 l fs' E) as (src & out & Hsrc & Hfs & Hnames & Hall).
    vm_compute in Hsrc. inversion Hsrc; subst src.
    destruct (Hall (NoDup_cons _ (@in_nil _ _) (NoDup_nil _))
                   "41-42_59-39"%string (or_introl eq_refl))
      as (ws & df & df' & A1 & A2 & A3 & A4).
    vm_compute in A1. inversion A1; subst ws.
    inversion A2; subst df.
    exists l, fs', df'. split; [reflexivity|]. split; [exact A3|].
    rewrite Hfs.
    destruct out as [|(n, o) [|? ?]]; try discriminate.
    simpl in Hnames. inversion Hnames; subst n.
    simpl in A4. inversion A4; subst o. reflexivity.
  - eexists. split; [vm_compute; reflexivity|]. reflexivity.
Defined.

(** Of the four sheets of the sample workbook, the notes and the sheet
    without its beta-angle column are as they were. *)
Lemma sheet_loop_sheets_sample :
  exists st',
    sample_loop sample_loop_state
      ["41-42_43-44"; "Notes"; "41-42_59-39"; "44-45_41-42"]%string = inl st' /\
    assoc "Notes" (CalculationsCopy.wb DataFrame st')
    = Some (frame_of_columns Object 0 []) /\
    assoc "44-45_41-42" (CalculationsCopy.wb DataFrame st')
    = Some sample_ew_sheet_no_beta.
Proof.
  destruct (sample_loop sample_loop_state
              ["41-42_43-44"; "Notes"; "41-42_59-39"; "44-45_41-42"]%string)
    as [st'|e] eqn:E; [|vm_compute in E; discriminate].
  exists st'. split; [reflexivity|].
  assert (N : NoDup ["41-42_43-44"; "Notes"; "41-42_59-39"; "44-45_41-42"]%string).
  { repeat (constructor;
            [ simpl; intros H;
              repeat (destruct H as [H|H]; [discriminate|]); exact H | ]).
    constructor. }
  destruct (sheet_loop_sheets (fun _ => nan) DataFrame (fun ws => Ok ws)
              (fun _ df => df) (fun ws _ _ _ => ws) _ _ _ _ _ N E)
    as (Hin & _).
  split.
  - rewrite Hin by (simpl; auto). reflexivity.
  - rewrite Hin by (simpl; auto). vm_compute. reflexivity.
Defined.
